(* ===== verification/_CoqProject ===== *)
-Q . S2P
Prelude.v
JsRuntime.v
TextRedaction.v
JsonText.v
Types.v
EventBuffer.v
TaskEventStream.v
Policy.v
Retention.v
BrokerCore.v
Outbox.v
CoreFacts.v
Workers.v
Proposals.v
Github.v
TerminalBrief.v
OutboxPayload.v
Tasks.v
TaskMachine.v
TaskFacts.v
TaskRuns.v
Requeue.v
Cancellation.v
Exchanges.v
System.v
Atomicity.v
Walk.v
ProposalMachine.v
Restart.v
Feeds.v
OutboxMachine.v
OutboxRedaction.v
OutboxFacts.v
Durability.v
HotTables.v
SqlStore.v
SqlSave.v
HotRetention.v
Cleanup.v
StoreFacts.v
StoreReads.v
SqlOrder.v
StoreSaves.v
HotRestart.v
Conference.v
ConferenceFacts.v
RateLimiter.v
ErrorCodes.v
RequestSecurity.v
HttpServer.v
HttpFacts.v
PeerStatus.v
JsonRpc.v
RpcFacts.v
Lifecycle.v
Execution.v
Delivery.v
Proposing.v
GithubIngestion.v
GithubIngestionFacts.v
CrossBroker.v
CrossBrokerFacts.v
Demo.v
TaskTheorems.v
HandlerTheorems.v
FeedTheorems.v
RequestTheorems.v
ServiceTheorems.v
HttpTheorems.v
StoreTheorems.v
RpcTheorems.v
CrossBrokerTheorems.v
CleanupTheorems.v
GithubIngestionTheorems.v
LifecycleTheorems.v
Findings.v
