(* ===== verification/Prelude.v ===== *)
(** * A verification library for the A2A broker

    The broker ([src/core/broker.ts] and the modules it calls) hands tasks of
    agents to workers: clients create tasks, operators approve, cancel and
    reassign them, workers claim, run and report them, and every change is
    audited, saved, and published to subscribers.  The library models the broker
    as a state ([BrokerCore.Broker]) and one program per public method, in a
    state-and-error monad of its own ([Prelude]), and proves what the methods do.

    ** Parts, files and sources

    - [Prelude]: scopes, record update, optional values, the monad with its run,
      [preserves] and [triple] rules and their tactics.  [JsRuntime]: the language
      as the source uses it — insertion-ordered maps, truthiness, JSON values,
      stable sort, trimming, number texts, dates.
    - [Types]: src/core/types.ts.
    - [Policy]: src/core/policy.ts.
    - [Retention]: what a full save drops (broker.ts).
    - [BrokerCore], [CoreFacts]: the state of InMemoryA2ABroker, the audit log,
      save hints, [persistState], task buffers and listeners, tombstones, guards;
      the store invariant [wf_broker] and the steps that leave tasks alone.
    - [EventBuffer] (event-buffer.ts), [TaskEventStream] (task-event-stream.ts,
      task-events.ts), [Outbox], [OutboxMachine], [OutboxFacts],
      [TextRedaction], [OutboxPayload], [OutboxRedaction]
      (terminal-event-outbox.ts).  The broker reaches them through the class
      [TaskEventSink] of [BrokerCore]; [Outbox] gives the instance, so that the
      theorems on handlers hold for any sink that obeys the class.
    - [Workers], [Proposals], [Github], [TerminalBrief]
      (terminal-brief-metadata.ts), [Tasks], [Exchanges]: the handlers
      of broker.ts and what they call.
    - [TaskMachine], [TaskFacts]: the state machine of a task, its
      invariant, and the proof that every task handler follows it; [TaskRuns],
      [Requeue], [Cancellation]: exact runs of the handlers.
    - [System]: [call] lists the requests that change state, [run_call] runs one,
      [broker_step] and [reachable] make the transition system.  [Walk] reduces
      an invariant of all requests to their elementary steps.  [Atomicity],
      [ProposalMachine], [Feeds], [Durability] are such invariants.
    - [Restart]: the constructor with a snapshot.
    - [Conference], [ConferenceFacts]: conference-room.ts with its types.
      [RateLimiter], [RequestSecurity]: request-security.ts.
    - [HttpServer]: the routes of server.ts that change the broker, admission and
      the statuses of errors, as a server whose steps interleave.  [ErrorCodes]:
      which handler throws which code.  [HttpFacts]: what a route may call.
    - [HotTables], [SqlStore], [SqlSave], [HotRetention]: store.ts — the rows of the
      ten tables, reads, saves and loads, retention plans and repositories.
      [StoreFacts]: a simulation of the calls the broker makes ([Durability]) by
      the tables; [StoreReads], [StoreSaves]: what is read back; [SqlOrder]:
      statements against list filters; [HotRestart]: a broker from any snapshot.
    - [PeerStatus]: src/a2a/peer-status.ts.  [JsonRpc], [RpcFacts]:
      src/a2a/json-rpc.ts and task-projection.ts, every method as calls of the broker.
    - [Cleanup]: broker-cleanup.ts and its route, over the plans of the store.
    - [JsonText]: JSON texts and that they determine what they were made of.  [CrossBroker], [CrossBrokerFacts]:
      cross-broker-terminal-brief.ts, its events in the outbox and the broker's method.
    - [GithubIngestion], [GithubIngestionFacts]: src/github/ingestion.ts with the
      commands, the replay state and the lifecycle of issues, over the broker's calls.
    - [Lifecycle]: the managers of life cycles — a map, a stream, a guarded transition
      — as a class with its machine; [Execution], [Delivery],
      [Proposing]: execution-lifecycle.ts, delivery-lifecycle.ts and proposal-lifecycle.ts with their types.
    - [Demo]: a concrete host, configuration and history for the witnesses.
      [TaskTheorems], [HandlerTheorems], [FeedTheorems], [RequestTheorems],
      [ServiceTheorems], [HttpTheorems], [StoreTheorems],
      [RpcTheorems], [CrossBrokerTheorems],
      [GithubIngestionTheorems], [LifecycleTheorems], [CleanupTheorems]: the
      theorems with their witnesses.  [Findings]: concrete inputs on which code
      and documentation part.

    ** What the theorems show

    - C1-C5: invariants of tasks over all histories: well-formed records, the
      approval gate, final outcomes, refinement of the task machine, immutable
      identity.
    - C7, C8, C10, C12, C14: what the task handlers return and store on every branch,
      the reaper and cancellation fan-out included.
    - C20, C21, C24-C27: order and completeness of the feeds, the outbox as an
      at-least-once queue whose texts show no token, threads.
    - C28-C30, C32: refusals without effect, the proposal machine, retention,
      restarts.
    - C9, C19, C33: the stores — saves of the JSON file are atomic, the
      SQLite tables hold the live records, active tasks survive a crash.
    - C35: a cleanup deletes what an operator approved, and spares what is in use.
    - C6, C18, C34: projections of other brokers keep the broker sound, are replayed
      exactly, and survive a restart.
    - C11, C17, C22, C23: deliveries of GitHub act through the broker's calls alone,
      create nothing twice, are taken once and in order, and end the tasks of closed
      issues.
    - C13, C31, C36: executions, deliveries and conference proposals follow their
      tables of transitions in every history: a payload is delivered once, a delivery
      comes to rest, a proposal is applied once.
    - C37-C38: conference rooms follow their table of transitions; the rate
      limiter decides like one that remembers everything.
    - C15-C16: a JSON-RPC request acts for its actor alone; what a peer status tells.
    - C39-C40: the server calls the broker only as the identity of the request may,
      and a refused request changes nothing.

    ** Fuel

    [cancelTaskTree] recurs along parent links that may form cycles; its fuel is
    two more than the number of tasks, and [cancelTask_fans_out] shows that it
    never runs out because every call marks a new task as visited.  The passes of
    [collectThreadMessageIds] are bounded by the number of messages plus one,
    which [thread_is_reply_closure] shows to be enough.

    ** Modelling decisions

    - The host supplies the clock, [randomUUID], [localeCompare] and the parsing of
      dates that are not ISO texts (class [JsHost]); that identifiers drawn are
      distinct is a named hypothesis where it is used.
    - Records are values written back at every save, as the handlers do; exchange
      objects, which the code keeps and changes after saving a copy, live in a
      heap of references ([br_exchangeObjs]), so aliasing is the program's.
    - Strings are byte strings (UTF-8); white space and letter case are ASCII.
      Integers are Z; a JSON number that is no integer is kept apart.
    - SQL texts compare bytewise, NULL comes first, and statements do not fail; the
      JSON text of a record and the zod schemas that read it are parameters (class
      [RecordJson]); that the rows written can be read back is a named
      hypothesis.
    - The repositories of the broker's options are absent; listeners are numbers of the
      caller; the brokerId and teamId of the configuration are already normalised.
    - The outbox takes its texts from the class [OutboxText], whose instance
      [broker_text] is the code's; the URL parser is the host's (class [JsUrl]).  A
      regular expression is the function it computes on characters.  A [TypeError]
      of an outbox operation is an [Err] value.
    - A body of an HTTP request is already of the type its route casts it to; a
      request carries its arrival time, and its admission and its handler are two
      steps, between which other requests run.
    - The SHA-256 digest is the host's (class [JsCrypto]); that it tells texts apart is a
      named hypothesis where a replay is shown to be of the same projection.
    - A GitHub event has the fields its ingestion reads; that the host draws no id that
      begins with "gh:" is a named hypothesis of C11.
    - An SSE cursor of the feeds is a number or absent; parsing the header is the server's.

    ** Not modelled

    The read views, dialectic, cleanup and webhook routes of the HTTP server, the
    worker runtime, and the comments, polling, handoff and recovery projections of
    the GitHub integration are I/O around the modelled methods; profiling has no
    effect on state.  Of the SQLite store, the columns added to older databases and
    the ratios and warnings of its diagnostics are left out.  Snapshot fields that
    older versions lacked are taken as present.  Diagnostics, cleanup plans and
    dashboards of broker.ts, the fan-in of conferences, the report builders (proof
    matrices, sidecar and finaliser tooling, release evidence), the dialectic
    prompts and the scripts are operational tooling that reads the modelled state. *)

From stdpp Require Import base gmap strings list pretty.

(** ** Scope and record update *)

Declare Scope js_scope.
Delimit Scope js_scope with js.
Open Scope js_scope.

(** [Eta R] lists the projections of a record once; [r <| f := v |>] and
    [r <| f ::= g |>] are then derived for every field by the hint below. *)
Class Eta (R : Type) := eta : R -> R.
Class Updater {R T : Type} (proj : R -> T) := update : (T -> T) -> R -> R.
Arguments update {R T} proj {_} f r.

Ltac derive_updater proj :=
  let f := fresh "f" in
  let r := fresh "r" in
  intros f r;
  let e := constr:(eta r) in
  let e := eval lazy beta delta [eta] in e in
  let e := eval hnf in e in
  let e' := eval pattern (proj r) in e in
  lazymatch e' with
  | ?g (proj r) =>
      let t := eval cbv beta in (g (f (proj r))) in
      let law := constr:(eq_refl : proj t = f (proj r)) in
      exact t
  end.

#[export] Hint Extern 1 (Updater ?proj) => derive_updater proj : typeclass_instances.

Notation "r <| p ::= f |>" := (update p f r)
  (at level 1, left associativity, p at level 9, f at level 99) : js_scope.
Notation "r <| p := v |>" := (update p (fun _ => v) r)
  (at level 1, left associativity, p at level 9, v at level 99) : js_scope.

(** Compute the projections of updated records, one update at a time; only
    the update on top is unfolded, so that chains of updates stay small. *)
Ltac update_law R T p q i f :=
  lazymatch constr:((p, q)) with
  | (?x, ?x) => constr:((fun r : R => eq_refl) : forall r : R, p (@update R T q i f r) = f (p r))
  | _ => constr:((fun r : R => eq_refl) : forall r : R, p (@update R T q i f r) = p r)
  end.
Ltac update_simpl :=
  repeat match goal with
  | |- context [?p (@update ?R ?T ?q ?i ?f ?r)] =>
      lazymatch p with update _ _ => fail | _ => idtac end;
      let e := update_law R T p q i f in rewrite (e r); cbv beta
  | H : context [?p (@update ?R ?T ?q ?i ?f ?r)] |- _ =>
      lazymatch p with update _ _ => fail | _ => idtac end;
      let e := update_law R T p q i f in rewrite (e r) in H; cbv beta in H
  end.

(** ** Nullish coalescing and truthiness

    An optional property is an [option]: [None] is JavaScript's [undefined].
    [o ?? d] is nullish coalescing with a default, [o ??o p] the same between
    two optional values. *)

Definition oelse {A} (o p : option A) : option A :=
  match o with Some a => Some a | None => p end.

(** Optional chaining: [o?.f] for a property [f] that is itself optional. *)
Notation "o ?> f" := (mbind (M:=option) f o) (at level 40, left associativity) : js_scope.
Notation "o ?? d" := (default d o) (at level 60, right associativity) : js_scope.
Notation "o ??o p" := (oelse o p) (at level 59, right associativity) : js_scope.

(** A string is truthy when it is not empty. *)
Definition str_truthy (s : string) : bool := negb (String.eqb s "").

Definition ostr_truthy (o : option string) : bool :=
  match o with Some s => str_truthy s | None => false end.

(** [o ? o : undefined] for an optional string. *)
Definition truthy_opt (o : option string) : option string :=
  match o with
  | Some s => if str_truthy s then Some s else None
  | None => None
  end.

Definition obool_true (o : option bool) : bool :=
  match o with Some b => b | None => false end.

Definition is_some {A} (o : option A) : bool :=
  match o with Some _ => true | None => false end.

(** ** Fallible stateful code

    A JavaScript method that may throw is a function of the state which
    returns the state reached and either a value or the thrown error: mutations
    made before the [throw] stay in the state. *)

Inductive result (E A : Type) : Type :=
| Ok (a : A)
| Err (e : E).
Arguments Ok {E A} a.
Arguments Err {E A} e.

Definition is_ok {E A} (r : result E A) : bool :=
  match r with Ok _ => true | Err _ => false end.

Definition stM (S E A : Type) : Type := S -> S * result E A.

Section StM.
Context {S E : Type}.

Definition m_ret {A} (a : A) : stM S E A := fun s => (s, Ok a).
Definition m_throw {A} (e : E) : stM S E A := fun s => (s, Err e).
Definition m_bind {A B} (m : stM S E A) (k : A -> stM S E B) : stM S E B :=
  fun s => match m s with
           | (s', Ok a) => k a s'
           | (s', Err e) => (s', Err e)
           end.
Definition m_get : stM S E S := fun s => (s, Ok s).
Definition m_modify (f : S -> S) : stM S E unit := fun s => (f s, Ok tt).
Definition m_gets {A} (f : S -> A) : stM S E A := fun s => (s, Ok (f s)).
Definition m_when (b : bool) (m : stM S E unit) : stM S E unit :=
  if b then m else m_ret tt.
(** A guard clause: [if (b) throw e]. *)
Definition m_throw_if (b : bool) (e : E) : stM S E unit :=
  if b then m_throw e else m_ret tt.

Fixpoint m_for {A} (l : list A) (f : A -> stM S E unit) : stM S E unit :=
  match l with
  | [] => m_ret tt
  | a :: l => m_bind (f a) (fun _ => m_for l f)
  end.
End StM.

(** A program of a part of the state, and a program whose exception is caught. *)
Definition m_zoom {S T E A} (get : T -> S) (put : S -> T -> T) (m : stM S E A) : stM T E A :=
  fun t => let '(s, r) := m (get t) in (put s t, r).
Definition m_try {S E A} (m : stM S E A) : stM S E (option A) :=
  fun s => let '(s', r) := m s in (s', Ok (match r with Ok a => Some a | Err _ => None end)).

Notation "x <-- m ; k" := (m_bind m (fun x => k))
  (at level 100, m at next level, right associativity) : js_scope.
Notation "m ;;; k" := (m_bind m (fun _ => k))
  (at level 100, right associativity) : js_scope.

Section StMFacts.
Context {S E : Type}.

Lemma bind_ok {A B} (m : stM S E A) (k : A -> stM S E B) s s' a :
  m s = (s', Ok a) -> m_bind m k s = k a s'.
Proof. unfold m_bind. by intros ->. Qed.

Lemma bind_ok_eq {A B} (m : stM S E A) (k : A -> stM S E B) s s' a r :
  k a s' = r -> m s = (s', Ok a) -> m_bind m k s = r.
Proof. intros <-. apply bind_ok. Qed.

Lemma bind_err {A B} (m : stM S E A) (k : A -> stM S E B) s s' e :
  m s = (s', Err e) -> m_bind m k s = (s', Err e).
Proof. unfold m_bind. by intros ->. Qed.

Lemma bind_modify {A} (f : S -> S) (k : unit -> stM S E A) s :
  m_bind (m_modify f) k s = k tt (f s).
Proof. reflexivity. Qed.

(** Inversion of a run of a sequence. *)
Lemma bind_inv {A B} (m : stM S E A) (k : A -> stM S E B) s s' r :
  m_bind m k s = (s', r) ->
  (exists s1 a, m s = (s1, Ok a) /\ k a s1 = (s', r)) \/
  (exists e, m s = (s', Err e) /\ r = Err e).
Proof.
  unfold m_bind. destruct (m s) as [s1 [a|e]] eqn:Hm; intros H.
  - left. eauto.
  - right. simplify_eq. eauto.
Qed.

Lemma bind_inv_ok {A B} (m : stM S E A) (k : A -> stM S E B) s s' b :
  m_bind m k s = (s', Ok b) ->
  exists s1 a, m s = (s1, Ok a) /\ k a s1 = (s', Ok b).
Proof.
  intros [(s1 & a & ? & ?)|(e & _ & ?)]%bind_inv; [eauto|discriminate].
Qed.

(** A relation between the states before and after every run, whether it
    returns or throws. *)
Definition preserves {A} (R : S -> S -> Prop) (m : stM S E A) : Prop :=
  forall s, R s (m s).1.

Lemma preserves_ret {A} (R : S -> S -> Prop) `{!Reflexive R} (a : A) : preserves R (m_ret a).
Proof. intros s. simpl. reflexivity. Qed.

Lemma preserves_throw {A} (R : S -> S -> Prop) `{!Reflexive R} (e : E) :
  preserves R (m_throw e : stM S E A).
Proof. intros s. simpl. reflexivity. Qed.

Lemma preserves_gets {A} (R : S -> S -> Prop) `{!Reflexive R} (f : S -> A) :
  preserves R (m_gets f).
Proof. intros s. simpl. reflexivity. Qed.

Lemma preserves_get (R : S -> S -> Prop) `{!Reflexive R} : preserves R m_get.
Proof. intros s. simpl. reflexivity. Qed.

Lemma preserves_throw_if (R : S -> S -> Prop) `{!Reflexive R} b (e : E) :
  preserves R (m_throw_if b e).
Proof. intros s. unfold m_throw_if. destruct b; simpl; reflexivity. Qed.

Lemma preserves_modify (R : S -> S -> Prop) (f : S -> S) :
  (forall s, R s (f s)) -> preserves R (m_modify f).
Proof. intros H s. apply H. Qed.

Lemma preserves_bind {A B} (R : S -> S -> Prop) `{!Transitive R}
    (m : stM S E A) (k : A -> stM S E B) :
  preserves R m -> (forall a, preserves R (k a)) -> preserves R (m_bind m k).
Proof.
  intros Hm Hk s. unfold m_bind. specialize (Hm s).
  destruct (m s) as [s1 [a|e]]; simpl in *; [|done].
  transitivity s1; [done|apply Hk].
Qed.

Lemma preserves_when (R : S -> S -> Prop) `{!Reflexive R} b (m : stM S E unit) :
  preserves R m -> preserves R (m_when b m).
Proof. intros Hm s. unfold m_when. destruct b; [apply Hm|simpl; reflexivity]. Qed.

Lemma preserves_for {A} (R : S -> S -> Prop) `{!Reflexive R} `{!Transitive R}
    (l : list A) (f : A -> stM S E unit) :
  (forall a, preserves R (f a)) -> preserves R (m_for l f).
Proof.
  intros Hf. induction l as [|a l IH]; simpl.
  - by apply preserves_ret.
  - by apply preserves_bind.
Qed.
End StMFacts.

(** ** Triples

    [triple R P m Q X]: from a state satisfying [P], the run of [m] relates its
    first and last states by [R]; a returned value satisfies [Q] with the last
    state, a thrown error satisfies [X]. *)

Section Triple.
Context {S E : Type}.
Implicit Types (R : S -> S -> Prop) (P : S -> Prop) (X : E -> Prop).

Definition triple {A} R P (m : stM S E A) (Q : A -> S -> Prop) X : Prop :=
  forall s, P s -> R s (m s).1 /\ match (m s).2 with Ok a => Q a (m s).1 | Err e => X e end.

Lemma triple_bind {A B} R `{!Transitive R} P (m : stM S E A) Q (k : A -> stM S E B) Q' X :
  triple R P m Q X -> (forall a, triple R (Q a) (k a) Q' X) -> triple R P (m_bind m k) Q' X.
Proof.
  intros Hm Hk s Hs. specialize (Hm s Hs). unfold m_bind.
  destruct (m s) as [s1 [a|e]]; simpl in *; [|done]. destruct Hm as [HR HQ].
  destruct (Hk a s1 HQ) as [HR' HQ']. split; [by transitivity s1|done].
Qed.

Lemma triple_conseq {A} R P P' (m : stM S E A) Q Q' X X' :
  triple R P' m Q' X' -> (forall s, P s -> P' s) -> (forall a s, Q' a s -> Q a s) ->
  (forall e, X' e -> X e) -> triple R P m Q X.
Proof.
  intros Hm HP HQ HX s Hs. destruct (Hm s (HP s Hs)) as [HR Hr]. split; [done|].
  destruct (m s).2; auto.
Qed.

Lemma triple_ret {A} R `{!Reflexive R} P (a : A) (Q : A -> S -> Prop) X :
  (forall s, P s -> Q a s) -> triple R P (m_ret a) Q X.
Proof. intros HQ s Hs. simpl. eauto. Qed.

Lemma triple_throw {A} R `{!Reflexive R} P (e : E) (Q : A -> S -> Prop) X :
  (forall s, P s -> X e) -> triple R P (m_throw e) Q X.
Proof. intros HX s Hs. simpl. eauto. Qed.

Lemma triple_pure {A} R P (phi : Prop) (m : stM S E A) Q X :
  (phi -> triple R P m Q X) -> triple R (fun s => P s /\ phi) m Q X.
Proof. intros Hm s [Hs Hphi]. by apply Hm. Qed.

(** A step whose relation keeps the assertion. *)
Lemma triple_frame {A} R P (m : stM S E A) :
  preserves R m -> (forall s s', P s -> R s s' -> P s') -> triple R P m (fun _ => P) (fun _ => True).
Proof. intros Hm HP s Hs. specialize (Hm s). destruct (m s).2; eauto. Qed.

Lemma triple_mono {A} R R' P (m : stM S E A) Q X :
  (forall s s', R s s' -> R' s s') -> triple R P m Q X -> triple R' P m Q X.
Proof. intros HR Hm s Hs. destruct (Hm s Hs). eauto. Qed.

Lemma preserves_triple {A} R (m : stM S E A) :
  triple R (fun _ => True) m (fun _ _ => True) (fun _ => True) -> preserves R m.
Proof. intros Hm s. by apply (Hm s). Qed.

Lemma preserves_zoom {T A} (R : S -> S -> Prop) (get : T -> S) (put : S -> T -> T) (m : stM S E A) :
  (forall s t, get (put s t) = s) -> preserves R m ->
  preserves (fun t t' => R (get t) (get t')) (m_zoom get put m).
Proof.
  intros Hget Hm t. specialize (Hm (get t)). unfold m_zoom. destruct (m (get t)) as [s r]. simpl in *.
  by rewrite Hget.
Qed.

Lemma preserves_try {A} R (m : stM S E A) : preserves R m -> preserves R (m_try m).
Proof. intros Hm s. specialize (Hm s). unfold m_try. by destruct (m s). Qed.

Lemma preserves_mono {A} R R' (m : stM S E A) :
  (forall s s', R s s' -> R' s s') -> preserves R m -> preserves R' m.
Proof. intros HR Hm s. apply HR, Hm. Qed.
End Triple.

Create HintDb preserves_db discriminated.
#[export] Hint Constants Opaque : preserves_db.
Create HintDb js_db.
Create Rewrite HintDb js_rw.
#[export] Hint Resolve preserves_ret preserves_throw preserves_gets preserves_get
  preserves_throw_if preserves_when preserves_for : preserves_db.

(** Unfold a program without inlining its local definitions. *)
Tactic Notation "reveal" reference(c) := cbv beta delta [c].

(** Walk through a monadic program, one combinator at a time; leaves the
    primitive steps that no lemma of [preserves_db] closes. *)
Ltac preserves_step :=
  cbv beta;
  lazymatch goal with
  | |- preserves ?R (let x := ?v in @?k x) =>
      let y := fresh x in pose (y := v); change (preserves R (k y)); clearbody y; cbv beta
  | |- preserves _ (m_bind _ ?k) => refine (preserves_bind _ _ k _ _); [|intro]
  | |- preserves _ (m_ret _) => apply preserves_ret; apply _
  | |- preserves _ (m_gets _) => apply preserves_gets; apply _
  | |- preserves _ m_get => apply preserves_get; apply _
  | |- preserves _ (m_throw _) => apply preserves_throw; apply _
  | |- preserves _ (m_throw_if _ _) => apply preserves_throw_if; apply _
  | |- preserves _ (m_when _ _) => apply preserves_when; [apply _|]
  | |- preserves _ (m_for _ _) => apply preserves_for; [apply _|apply _|intro]
  | |- preserves _ (match ?x with _ => _ end) => destruct x
  | |- preserves _ _ => eauto with preserves_db
  end.
Ltac preserves_auto := repeat (preserves_step; try done).

(** Split a successful run of a sequence into its steps. *)
Ltac run_inv H :=
  repeat lazymatch type of H with
  | m_bind ?m _ _ = (_, Ok _) =>
      let s := fresh "s" in let a := fresh "a" in let Hm := fresh "Hm" in
      apply bind_inv_ok in H as (s & a & Hm & H)
  end.
