(* ===== verification/JsRuntime.v ===== *)
(** * The part of the JavaScript runtime the broker uses

    Insertion-ordered [Map]s, ordered duplicate removal ([new Set]),
    [Array.prototype.sort], strings ([trim], [startsWith], [lastIndexOf]),
    numbers, values of static type [unknown], and [Date].  What ECMAScript leaves
    to the host (the clock, [randomUUID], [localeCompare], [Date.parse] on
    strings that are not in the [toISOString] format) is the class [JsHost]. *)

From Stdlib Require Import ZArith Lia Ascii String.
From stdpp Require Import base gmap strings list pretty sorting.
From S2P Require Import Prelude.

(** ** Map: insertion-ordered, keyed by strings *)

Definition jsmap (V : Type) : Type := list (string * V).

Section JsMap.
Context {V : Type}.
Implicit Types (m : jsmap V) (k : string) (v : V).

Fixpoint jm_get k m : option V :=
  match m with
  | [] => None
  | (k', v) :: m => if String.eqb k k' then Some v else jm_get k m
  end.

Definition jm_has k m : bool := is_some (jm_get k m).

(** [set] keeps the position of a key already present and appends a new one. *)
Fixpoint jm_set k v m : jsmap V :=
  match m with
  | [] => [(k, v)]
  | (k', v') :: m => if String.eqb k k' then (k, v) :: m else (k', v') :: jm_set k v m
  end.

Fixpoint jm_delete k m : jsmap V :=
  match m with
  | [] => []
  | (k', v') :: m => if String.eqb k k' then m else (k', v') :: jm_delete k m
  end.

Definition jm_keys m : list string := map fst m.
Definition jm_values m : list V := map snd m.
(** The map after deleting every key that fails [p]. *)
Definition jm_filter (p : string -> bool) m : jsmap V :=
  List.filter (fun kv => p kv.1) m.

Definition jm_wf m : Prop := NoDup (jm_keys m).

Lemma jm_get_set_eq k v m : jm_get k (jm_set k v m) = Some v.
Proof.
  induction m as [|[k' v'] m IH]; simpl; [by rewrite String.eqb_refl|].
  destruct (String.eqb k k') eqn:Hk; simpl; [by rewrite String.eqb_refl|].
  by rewrite Hk.
Qed.

Lemma jm_get_set_ne k k' v m : k <> k' -> jm_get k' (jm_set k v m) = jm_get k' m.
Proof.
  intros Hne. assert (String.eqb k' k = false) as Hf by (apply String.eqb_neq; congruence).
  induction m as [|[k2 v2] m IH]; simpl; [by rewrite Hf|].
  destruct (String.eqb_spec k k2) as [->|]; simpl; [by rewrite Hf|by rewrite IH].
Qed.

Lemma jm_get_set k k' v m :
  jm_get k' (jm_set k v m) = if String.eqb k' k then Some v else jm_get k' m.
Proof.
  destruct (String.eqb_spec k' k) as [->|]; [apply jm_get_set_eq|by apply jm_get_set_ne].
Qed.

Lemma jm_set_set k v v' m : jm_set k v (jm_set k v' m) = jm_set k v m.
Proof.
  induction m as [|[k2 v2] m IH]; simpl; [by rewrite String.eqb_refl|].
  destruct (String.eqb k k2) eqn:Hk; simpl; [by rewrite String.eqb_refl|].
  by rewrite Hk, IH.
Qed.

Lemma jm_set_id k v m : jm_get k m = Some v -> jm_set k v m = m.
Proof.
  induction m as [|[k2 v2] m IH]; simpl; [done|].
  destruct (String.eqb_spec k k2) as [->|]; intros; simplify_eq; [done|].
  by rewrite IH.
Qed.

Lemma jm_get_elem k v m : jm_get k m = Some v -> (k, v) ∈ m.
Proof.
  induction m as [|[k2 v2] m IH]; simpl; [done|].
  destruct (String.eqb_spec k k2) as [->|]; intros; simplify_eq; set_solver.
Qed.

Lemma jm_get_is_Some k m : is_Some (jm_get k m) <-> k ∈ jm_keys m.
Proof.
  induction m as [|[k2 v2] m IH]; simpl.
  - split; [by intros []|by rewrite elem_of_nil].
  - rewrite elem_of_cons. destruct (String.eqb_spec k k2) as [->|]; naive_solver.
Qed.

Lemma jm_get_None k m : jm_get k m = None <-> k ∉ jm_keys m.
Proof. rewrite <- jm_get_is_Some, eq_None_not_Some. done. Qed.

Lemma jm_elem_get k v m : jm_wf m -> (k, v) ∈ m -> jm_get k m = Some v.
Proof.
  unfold jm_wf. induction m as [|[k2 v2] m IH]; simpl; [by rewrite elem_of_nil|].
  rewrite NoDup_cons, elem_of_cons. intros [Hni Hnd] [?|Hin]; simplify_eq.
  - by rewrite String.eqb_refl.
  - destruct (String.eqb_spec k k2) as [->|]; [|by apply IH].
    destruct Hni. apply list_elem_of_fmap. by exists (k2, v).
Qed.

Lemma jm_keys_set k v m :
  jm_keys (jm_set k v m) = if jm_has k m then jm_keys m else jm_keys m ++ [k].
Proof.
  unfold jm_has. induction m as [|[k2 v2] m IH]; simpl; [done|].
  destruct (String.eqb_spec k k2) as [->|]; simpl; [done|].
  rewrite IH. by destruct (jm_get k m).
Qed.

Lemma jm_elem_keys_set k k' v m : k' ∈ jm_keys (jm_set k v m) <-> k' = k \/ k' ∈ jm_keys m.
Proof.
  rewrite jm_keys_set. unfold jm_has. destruct (jm_get k m) eqn:Hk; simpl.
  - split; [by right|]. intros [->|]; [|done]. apply jm_get_is_Some. by rewrite Hk.
  - rewrite elem_of_app, list_elem_of_singleton. tauto.
Qed.

Lemma jm_wf_nil : jm_wf [].
Proof. apply NoDup_nil_2. Qed.

Lemma jm_wf_set k v m : jm_wf m -> jm_wf (jm_set k v m).
Proof.
  unfold jm_wf. rewrite jm_keys_set. unfold jm_has. intros Hm.
  destruct (jm_get k m) eqn:Hk; simpl; [done|].
  apply NoDup_app. split_and!; [done| |by apply NoDup_singleton].
  intros x Hx ->%list_elem_of_singleton. by apply jm_get_None in Hk.
Qed.

Lemma jm_get_filter p k m :
  jm_get k (jm_filter p m) = if p k then jm_get k m else None.
Proof.
  induction m as [|[k2 v2] m IH]; simpl; [by destruct (p k)|].
  destruct (p k2) eqn:Hp; simpl; rewrite IH.
  - destruct (String.eqb_spec k k2) as [->|]; [by rewrite Hp|done].
  - destruct (String.eqb_spec k k2) as [->|]; [by rewrite Hp|done].
Qed.

Lemma jm_wf_filter p m : jm_wf m -> jm_wf (jm_filter p m).
Proof.
  unfold jm_wf. induction m as [|[k2 v2] m IH]; simpl; [done|].
  rewrite NoDup_cons. intros [Hni Hnd]. destruct (p k2); simpl; [|by apply IH].
  apply NoDup_cons. split; [|by apply IH].
  intros (kv & -> & Hin)%list_elem_of_fmap. apply Hni, list_elem_of_fmap.
  exists kv. split; [done|]. apply list_elem_of_In. apply list_elem_of_In in Hin.
  by apply filter_In in Hin as [].
Qed.

Lemma jm_elem_values v m : v ∈ jm_values m <-> exists k, (k, v) ∈ m.
Proof.
  unfold jm_values. rewrite list_elem_of_fmap. split.
  - intros ([k v'] & -> & ?). by exists k.
  - intros [k ?]. by exists (k, v).
Qed.
End JsMap.

#[export] Hint Resolve jm_wf_nil jm_wf_set jm_wf_filter : js_db.
#[export] Hint Rewrite @jm_get_set_eq @jm_set_set @jm_get_filter : js_rw.

(** ** new Set(values), in first-occurrence order *)

Section Unique.
Context {A : Type} `{!EqDecision A}.

Fixpoint js_unique_from (seen : list A) (l : list A) : list A :=
  match l with
  | [] => []
  | x :: l => if decide (x ∈ seen) then js_unique_from seen l
              else x :: js_unique_from (x :: seen) l
  end.

Definition js_unique (l : list A) : list A := js_unique_from [] l.

Lemma elem_of_js_unique_from seen l x :
  x ∈ js_unique_from seen l <-> x ∈ l /\ x ∉ seen.
Proof.
  revert seen. induction l as [|y l IH]; intros seen; simpl; [set_solver|].
  destruct (decide (y ∈ seen)); rewrite ?elem_of_cons, IH; [set_solver|].
  destruct (decide (x = y)); set_solver.
Qed.

Lemma elem_of_js_unique l x : x ∈ js_unique l <-> x ∈ l.
Proof. unfold js_unique. rewrite elem_of_js_unique_from. set_solver. Qed.

Lemma NoDup_js_unique_from seen l : NoDup (js_unique_from seen l).
Proof.
  revert seen. induction l as [|y l IH]; intros seen; simpl; [by apply NoDup_nil|].
  destruct (decide (y ∈ seen)); [done|]. apply NoDup_cons. split; [|done].
  rewrite elem_of_js_unique_from. set_solver.
Qed.

Lemma NoDup_js_unique l : NoDup (js_unique l).
Proof. apply NoDup_js_unique_from. Qed.

Lemma js_unique_from_id seen l :
  NoDup l -> (forall x, x ∈ l -> x ∉ seen) -> js_unique_from seen l = l.
Proof.
  revert seen. induction l as [|y l IH]; intros seen Hnd Hs; simpl; [done|].
  apply NoDup_cons in Hnd as [Hy Hnd].
  rewrite decide_False by (apply Hs; set_solver). f_equal. apply IH; [done|].
  set_solver.
Qed.

Lemma js_unique_id l : NoDup l -> js_unique l = l.
Proof. intros. apply js_unique_from_id; set_solver. Qed.

Lemma js_unique_idemp l : js_unique (js_unique l) = js_unique l.
Proof. apply js_unique_id, NoDup_js_unique. Qed.
End Unique.

(** ** Array.prototype.sort with a comparator

    Stable insertion.  Where a comparator is not a consistent order (the code's
    newest-first comparator never answers 0) ECMAScript leaves the order to the
    implementation; what is proved of a sorted list there is only that it is a
    permutation. *)

Section Sort.
Context {A : Type} (cmp : A -> A -> Z).

Fixpoint js_insert (x : A) (l : list A) : list A :=
  match l with
  | [] => [x]
  | y :: l' => if (cmp x y <? 0)%Z then x :: l else y :: js_insert x l'
  end.

Definition js_sort (l : list A) : list A := foldl (fun acc x => js_insert x acc) [] l.

Lemma js_insert_perm x l : js_insert x l ≡ₚ x :: l.
Proof.
  induction l as [|y l IH]; simpl; [done|].
  destruct (cmp x y <? 0)%Z; [done|]. rewrite IH. apply Permutation_swap.
Qed.

Lemma js_sort_perm l : js_sort l ≡ₚ l.
Proof.
  unfold js_sort. assert (forall acc, foldl (fun acc x => js_insert x acc) acc l ≡ₚ acc ++ l) as H.
  { induction l as [|x l IH]; intros acc; simpl; [by rewrite app_nil_r|].
    rewrite IH, js_insert_perm. by rewrite <- Permutation_middle. }
  by rewrite H.
Qed.

Lemma elem_of_js_sort x l : x ∈ js_sort l <-> x ∈ l.
Proof. by rewrite js_sort_perm. Qed.

(** With a total preorder the result is sorted. *)
Lemma js_insert_sorted (Htrans : forall x y z, (cmp x y <= 0)%Z -> (cmp y z <= 0)%Z -> (cmp x z <= 0)%Z)
    (Htotal : forall x y, (cmp x y < 0)%Z \/ (cmp y x <= 0)%Z) x l :
  StronglySorted (fun x y => (cmp x y <= 0)%Z) l ->
  StronglySorted (fun x y => (cmp x y <= 0)%Z) (js_insert x l).
Proof.
  induction 1 as [|y l Hs IH Hall]; simpl; [by repeat constructor|].
  destruct (Z.ltb_spec (cmp x y) 0) as [Hlt|Hge].
  - constructor; [by constructor|]. constructor; [lia|].
    eapply Forall_impl; [exact Hall|]. simpl. intros z Hz.
    apply (Htrans x y z); lia.
  - constructor; [done|]. apply Forall_forall. intros z Hz.
    rewrite js_insert_perm in Hz. apply elem_of_cons in Hz as [->|Hz].
    + destruct (Htotal x y); lia.
    + by eapply Forall_forall in Hz; [|exact Hall].
Qed.

Lemma js_sort_sorted (Htrans : forall x y z, (cmp x y <= 0)%Z -> (cmp y z <= 0)%Z -> (cmp x z <= 0)%Z)
    (Htotal : forall x y, (cmp x y < 0)%Z \/ (cmp y x <= 0)%Z) l :
  StronglySorted (fun x y => (cmp x y <= 0)%Z) (js_sort l).
Proof.
  unfold js_sort.
  assert (forall acc, StronglySorted (fun x y => (cmp x y <= 0)%Z) acc ->
    StronglySorted (fun x y => (cmp x y <= 0)%Z) (foldl (fun acc x => js_insert x acc) acc l)) as H.
  { induction l as [|x l IH]; intros acc Hacc; simpl; [done|].
    apply IH. by apply js_insert_sorted. }
  apply H. constructor.
Qed.

(** Coarser orders that [cmp] refines, whatever it does within their classes. *)
Lemma js_sort_respects (R : A -> A -> Prop) `{!Transitive R} l :
  (forall x y, (cmp x y < 0)%Z -> R x y) -> (forall x y, (0 <= cmp x y)%Z -> R y x) ->
  StronglySorted R (js_sort l).
Proof.
  intros Hlt Hge. unfold js_sort.
  assert (forall x acc, StronglySorted R acc -> StronglySorted R (js_insert x acc)) as Hins.
  { intros x acc. induction 1 as [|y acc Hs IH Hall]; simpl; [by repeat constructor|].
    destruct (Z.ltb_spec (cmp x y) 0) as [Hc|Hc].
    - constructor; [by constructor|]. constructor; [by apply Hlt|].
      eapply Forall_impl; [exact Hall|]. intros z Hz. transitivity y; [by apply Hlt|done].
    - constructor; [done|]. rewrite js_insert_perm. constructor; [by apply Hge|done]. }
  assert (forall acc, StronglySorted R acc ->
    StronglySorted R (foldl (fun acc x => js_insert x acc) acc l)) as Hall.
  { induction l as [|x l IH]; intros acc Hacc; simpl; [done|]. apply IH, Hins, Hacc. }
  apply Hall. constructor.
Qed.
End Sort.

(** ** Strings *)

Definition ascii_code (c : Ascii.ascii) : nat := Ascii.nat_of_ascii c.

(** White space of [trim] and of the regular expression class [\s]. *)
Definition is_space (c : Ascii.ascii) : bool :=
  let n := ascii_code c in ((9 <=? n) && (n <=? 13)) || (n =? 32).

Definition is_digit (c : Ascii.ascii) : bool :=
  let n := ascii_code c in (48 <=? n) && (n <=? 57).

Definition digit_value (c : Ascii.ascii) : Z := Z.of_nat (ascii_code c) - 48.

Fixpoint drop_while {A} (p : A -> bool) (l : list A) : list A :=
  match l with
  | [] => []
  | c :: l' => if p c then drop_while p l' else l
  end.

Fixpoint take_while {A} (p : A -> bool) (l : list A) : list A :=
  match l with
  | [] => []
  | c :: l' => if p c then c :: take_while p l' else []
  end.

Definition chars (s : string) : list Ascii.ascii := String.list_ascii_of_string s.
Definition unchars (l : list Ascii.ascii) : string := String.string_of_list_ascii l.
(** [s.slice(0, n)]. *)
Definition str_slice (n : nat) (s : string) : string := unchars (take n (chars s)).

Definition trim_chars (l : list Ascii.ascii) : list Ascii.ascii :=
  rev (drop_while is_space (rev (drop_while is_space l))).
Definition js_trim (s : string) : string := unchars (trim_chars (chars s)).

Definition starts_with (p s : string) : bool := String.prefix p s.

Definition ascii_lower (c : ascii) : ascii :=
  let n := ascii_code c in
  if (65 <=? n) && (n <=? 90) then Ascii.ascii_of_nat (n + 32) else c.

(** [Number(s)] of a non-empty string of decimal digits. *)
Definition digits_value (l : list Ascii.ascii) : Z :=
  foldl (fun acc c => 10 * acc + digit_value c)%Z 0%Z l.

(** A string of decimal digits, as [/^\d+$/] tests it. *)
Definition all_digits (l : list Ascii.ascii) : bool :=
  negb (length l =? 0) && forallb is_digit l.

(** [typeof value === "string" && value.trim() ? value.trim() : undefined]. *)
Definition trimmed (s : string) : option string := truthy_opt (Some (js_trim s)).

Section StringFacts.
Lemma chars_unchars l : chars (unchars l) = l.
Proof. apply String.list_ascii_of_string_of_list_ascii. Qed.

Lemma unchars_chars s : unchars (chars s) = s.
Proof. apply String.string_of_list_ascii_of_string. Qed.

Lemma chars_app s t : chars (s ++ t)%string = chars s ++ chars t.
Proof. unfold chars. induction s as [|c s IH]; simpl; [done|]. by rewrite IH. Qed.

(** A number prints as digits, perhaps after a sign. *)
Lemma pretty_go_chars (P : Ascii.ascii -> Prop) x s :
  (forall c, is_digit c = true -> P c) -> Forall P (chars s) -> Forall P (chars (pretty_N_go x s)).
Proof.
  intros HP. revert s. induction (N.lt_wf_0 x) as [x _ IH]. intros s Hs.
  destruct (decide (0 < x)%N) as [Hx|Hx].
  - rewrite pretty_N_go_step by done. apply IH; [apply N.div_lt; lia|].
    constructor; [|done]. apply HP. unfold pretty_N_char. by repeat case_match.
  - assert (x = 0%N) as -> by lia. done.
Qed.

Lemma pretty_chars (P : Ascii.ascii -> Prop) (n : Z) :
  (forall c, is_digit c = true -> P c) -> ((n < 0)%Z -> P "-"%char) -> Forall P (chars (pretty n)).
Proof.
  intros HP Hm. assert (forall k : N, Forall P (chars (pretty k))) as HN.
  { intros k. unfold pretty, pretty_N. case_decide; [by repeat constructor; apply HP|].
    by apply pretty_go_chars; [|constructor]. }
  destruct n as [|p|p]; [by apply (HN 0%N)|by apply (HN (N.pos p))|].
  change (pretty (Z.neg p)) with (String "-" (pretty (N.pos p))). constructor; [by apply Hm|apply HN].
Qed.

Lemma chars_inj s s' : chars s = chars s' -> s = s'.
Proof. intros Heq. by rewrite <- (unchars_chars s), Heq, unchars_chars. Qed.

Lemma split_at_sep {A} (x : A) l1 r1 l2 r2 :
  x ∉ l1 -> x ∉ l2 -> l1 ++ x :: r1 = l2 ++ x :: r2 -> l1 = l2 /\ r1 = r2.
Proof.
  revert l2. induction l1 as [|y l1 IH]; intros [|z l2] H1 H2 Heq; simpl in *; injection Heq.
  - by intros ->.
  - intros _ ->. set_solver.
  - intros _ ->. set_solver.
  - intros Heq' ->. destruct (IH l2) as [-> ->]; set_solver.
Qed.

Lemma drop_while_idemp {A} (p : A -> bool) l :
  drop_while p (drop_while p l) = drop_while p l.
Proof.
  induction l as [|c l IH]; simpl; [done|]. destruct (p c) eqn:Hc; simpl; [done|by rewrite Hc].
Qed.

(** A list whose head fails [p] is left alone. *)
Lemma drop_while_id {A} (p : A -> bool) l :
  (forall c l', l = c :: l' -> p c = false) -> drop_while p l = l.
Proof. destruct l as [|c l]; simpl; [done|]. intros H. by rewrite (H c l eq_refl). Qed.

Lemma drop_while_head {A} (p : A -> bool) l c l' :
  drop_while p l = c :: l' -> p c = false.
Proof.
  induction l as [|d l IH]; simpl; [done|]. destruct (p d) eqn:Hd; [done|]. intros. by simplify_eq.
Qed.

Lemma drop_while_suffix {A} (p : A -> bool) l : exists k, l = k ++ drop_while p l.
Proof.
  induction l as [|d l [k IH]]; simpl; [by exists []|]. destruct (p d); [|by exists []].
  exists (d :: k). simpl. congruence.
Qed.

Lemma take_while_Forall {A} (p : A -> bool) l : Forall (fun c => p c = true) (take_while p l).
Proof. induction l as [|c l IH]; simpl; [done|]. destruct (p c) eqn:Hc; [by constructor|done]. Qed.

Lemma take_drop_while {A} (p : A -> bool) l : take_while p l ++ drop_while p l = l.
Proof. induction l as [|c l IH]; simpl; [done|]. destruct (p c); simpl; [by rewrite IH|done]. Qed.

Lemma trim_chars_idemp l : trim_chars (trim_chars l) = trim_chars l.
Proof.
  unfold trim_chars. set (m := drop_while is_space l).
  assert (drop_while is_space (rev (drop_while is_space (rev m)))
          = rev (drop_while is_space (rev m))) as ->.
  { apply drop_while_id. intros c l' Hc.
    destruct (drop_while_suffix is_space (rev m)) as [k Hk].
    assert (m = rev (drop_while is_space (rev m)) ++ rev k) as Hm.
    { rewrite <- rev_app_distr, <- Hk. by rewrite rev_involutive. }
    rewrite Hc in Hm. subst m. simpl in Hm. by eapply drop_while_head. }
  rewrite rev_involutive, drop_while_idemp. done.
Qed.

Lemma js_trim_idemp s : js_trim (js_trim s) = js_trim s.
Proof. unfold js_trim. by rewrite chars_unchars, trim_chars_idemp. Qed.

Lemma str_truthy_spec s : str_truthy s = true <-> s <> "".
Proof. unfold str_truthy. destruct (String.eqb_spec s ""); naive_solver. Qed.

Lemma trimmed_idemp s t : trimmed s = Some t -> trimmed t = Some t.
Proof.
  unfold trimmed, truthy_opt. destruct (str_truthy (js_trim s)) eqn:Hs; intros; simplify_eq.
  by rewrite js_trim_idemp, Hs.
Qed.

Lemma trimmed_nonempty s t : trimmed s = Some t -> t <> "".
Proof.
  unfold trimmed, truthy_opt. destruct (str_truthy (js_trim s)) eqn:Hs; intros; simplify_eq.
  by apply str_truthy_spec.
Qed.
End StringFacts.

(** ** Values of type unknown *)

(** A number is an integer, a finite non-integer (kept as the text JavaScript
    prints for it), NaN or an infinity. *)
Inductive JsNum : Type :=
| NInt (z : Z)
| NFrac (text : string)
| NNaN
| NInf (negative : bool).

Inductive JsValue : Type :=
| JUndef
| JNull
| JBool (b : bool)
| JNum (n : JsNum)
| JStr (s : string)
| JArr (l : list JsValue)
| JObj (fields : list (string * JsValue)).

(** [Record<string, unknown>]. *)
Abbreviation JsRecord := (jsmap JsValue).

Definition js_prop (k : string) (m : JsRecord) : JsValue := jm_get k m ?? JUndef.

Definition js_nullish (v : JsValue) : bool :=
  match v with JUndef | JNull => true | _ => false end.

Definition js_undefined (v : JsValue) : bool :=
  match v with JUndef => true | _ => false end.

(** [v ?? w]. *)
Definition js_or (v w : JsValue) : JsValue := if js_nullish v then w else v.

Definition js_num_String (n : JsNum) : string :=
  match n with
  | NInt z => pretty z
  | NFrac t => t
  | NNaN => "NaN"
  | NInf false => "Infinity"
  | NInf true => "-Infinity"
  end.

(** [String(v)]. *)
Fixpoint js_String (v : JsValue) : string :=
  match v with
  | JUndef => "undefined"
  | JNull => "null"
  | JBool b => if b then "true" else "false"
  | JNum n => js_num_String n
  | JStr s => s
  | JArr l =>
      String.concat "," (map (fun e => if js_nullish e then "" else js_String e) l)
  | JObj _ => "[object Object]"
  end.

(** The object behind [isRecord] and [typeof v === "object" && v && !Array.isArray(v)]. *)
Definition js_record (v : JsValue) : option JsRecord :=
  match v with JObj m => Some m | _ => None end.

Definition js_string (v : JsValue) : option string :=
  match v with JStr s => Some s | _ => None end.

Definition js_typeof (v : JsValue) : string :=
  match v with
  | JUndef => "undefined"
  | JBool _ => "boolean"
  | JNum _ => "number"
  | JStr _ => "string"
  | JNull | JArr _ | JObj _ => "object"
  end.

(** ** Date *)

(** The host: what ECMAScript leaves to the environment.  [host_clock n] is the
    [n]-th reading of [Date.now()] in milliseconds, [host_uuid n] the [n]-th
    [randomUUID()]. *)
Class JsHost : Type := {
  host_clock : nat -> Z;
  host_uuid : nat -> string;
  host_localeCompare : string -> string -> Z;
  host_parseOther : string -> option Z;
}.

(** Proleptic Gregorian calendar: day number (1970-01-01 is 0) to year, month,
    day, and back. *)
Definition civil_of_days (days : Z) : Z * Z * Z :=
  (let z := days + 719468 in
   let era := z / 146097 in
   let doe := z mod 146097 in
   let yoe := (doe - doe / 1460 + doe / 36524 - doe / 146096) / 365 in
   let doy := doe - (365 * yoe + yoe / 4 - yoe / 100) in
   let mp := (5 * doy + 2) / 153 in
   let d := doy - (153 * mp + 2) / 5 + 1 in
   let m := if mp <? 10 then mp + 3 else mp - 9 in
   let y := yoe + era * 400 + (if m <=? 2 then 1 else 0) in
   (y, m, d))%Z.

Definition days_of_civil (y m d : Z) : Z :=
  (let y' := y - (if m <=? 2 then 1 else 0) in
   let era := y' / 400 in
   let yoe := y' mod 400 in
   let mp := if 2 <? m then m - 3 else m + 9 in
   let doy := (153 * mp + 2) / 5 + d - 1 in
   let doe := yoe * 365 + yoe / 4 - yoe / 100 + doy in
   era * 146097 + doe - 719468)%Z.

Definition digit_char (d : Z) : Ascii.ascii := Ascii.ascii_of_nat (48 + Z.to_nat d).

(** [n] decimal digits of [z], zero padded. *)
Fixpoint pad_digits (n : nat) (z : Z) : list Ascii.ascii :=
  match n with
  | 0 => []
  | S n => pad_digits n (z / 10) ++ [digit_char (z mod 10)]
  end.

(** [new Date(ms).toISOString()] for a year between 0 and 9999. *)
Definition toISOString (ms : Z) : string :=
  (let '(y, m, d) := civil_of_days (ms / 86400000) in
   let t := ms mod 86400000 in
   unchars (pad_digits 4 y ++ chars "-" ++ pad_digits 2 m ++ chars "-" ++ pad_digits 2 d
     ++ chars "T" ++ pad_digits 2 (t / 3600000) ++ chars ":" ++ pad_digits 2 (t / 60000 mod 60)
     ++ chars ":" ++ pad_digits 2 (t / 1000 mod 60) ++ chars "." ++ pad_digits 3 (t mod 1000)
     ++ chars "Z"))%Z.

Definition field_value (pos len : nat) (l : list Ascii.ascii) : Z :=
  digits_value (take len (drop pos l)).

(** The time value a string in the toISOString format denotes. *)
Definition iso_value (s : string) : Z :=
  (let l := chars s in
   days_of_civil (field_value 0 4 l) (field_value 5 2 l) (field_value 8 2 l) * 86400000
   + field_value 11 2 l * 3600000 + field_value 14 2 l * 60000
   + field_value 17 2 l * 1000 + field_value 20 3 l)%Z.

(** [Date.parse]: [None] is NaN.  A string that [toISOString] prints denotes that
    instant; every other string is for the host's parser. *)
Definition date_parse `{JsHost} (s : string) : option Z :=
  if String.eqb (toISOString (iso_value s)) s then Some (iso_value s) else host_parseOther s.

(** Instants whose year has four digits. *)
Definition iso_range (ms : Z) : Prop := (-62167219200000 <= ms < 253402300800000)%Z.

Section DateFacts.
Local Open Scope Z_scope.

Lemma digit_value_char d : 0 <= d < 10 -> digit_value (digit_char d) = d.
Proof.
  intros. unfold digit_value, digit_char, ascii_code.
  rewrite Ascii.nat_ascii_embedding by lia. lia.
Qed.

Lemma digits_value_app l c : digits_value (l ++ [c]) = 10 * digits_value l + digit_value c.
Proof. unfold digits_value. by rewrite foldl_app. Qed.

Lemma length_pad_digits n z : length (pad_digits n z) = n.
Proof. revert z. induction n as [|n IH]; intros; simpl; [done|]. rewrite length_app, IH. simpl. lia. Qed.

Lemma digits_value_pad n z :
  0 <= z < 10 ^ Z.of_nat n -> digits_value (pad_digits n z) = z.
Proof.
  revert z. induction n as [|n IH]; intros z Hz; simpl.
  - change (10 ^ Z.of_nat 0) with 1 in Hz. unfold digits_value. simpl. lia.
  - rewrite Nat2Z.inj_succ, Z.pow_succ_r in Hz by lia.
    rewrite digits_value_app, IH, digit_value_char.
    + pose proof (Z.div_mod z 10 ltac:(lia)). lia.
    + apply Z.mod_pos_bound. lia.
    + split; [apply Z.div_pos; lia|apply Z.div_lt_upper_bound; lia].
Qed.

Lemma field_value_pad (pos : nat) pre n z post :
  length pre = pos -> 0 <= z < 10 ^ Z.of_nat n ->
  field_value pos n (pre ++ pad_digits n z ++ post) = z.
Proof.
  intros <- Hz. unfold field_value.
  rewrite drop_app_length, take_app_length'; [by apply digits_value_pad|by rewrite length_pad_digits].
Qed.

Definition year_of_era (doe : Z) : Z := (doe - doe / 1460 + doe / 36524 - doe / 146096) / 365.

Lemma year_of_era_bounds doe :
  0 <= doe < 146097 ->
  0 <= year_of_era doe < 400 /\
  0 <= doe - (365 * year_of_era doe + year_of_era doe / 4 - year_of_era doe / 100) <= 365.
Proof. unfold year_of_era. intros H. Z.to_euclidean_division_equations; lia. Qed.

Lemma month_of_doy doy :
  0 <= doy <= 365 ->
  0 <= (5 * doy + 2) / 153 <= 11 /\
  0 <= doy - (153 * ((5 * doy + 2) / 153) + 2) / 5 <= 30.
Proof. intros. Z.to_euclidean_division_equations; lia. Qed.

Lemma civil_roundtrip days y m d :
  civil_of_days days = (y, m, d) ->
  days_of_civil y m d = days /\ 1 <= m <= 12 /\ 1 <= d <= 31.
Proof.
  unfold civil_of_days. set (z := days + 719468).
  pose proof (Z.mod_pos_bound z 146097 ltac:(lia)) as Hdoe.
  pose proof (Z.div_mod z 146097 ltac:(lia)) as Hz.
  set (doe := z mod 146097) in *. set (era := z / 146097) in *.
  change ((doe - doe / 1460 + doe / 36524 - doe / 146096) / 365) with (year_of_era doe).
  pose proof (year_of_era_bounds doe Hdoe) as [Hyoe Hdoy].
  set (yoe := year_of_era doe) in *.
  set (doy := doe - (365 * yoe + yoe / 4 - yoe / 100)) in *.
  pose proof (month_of_doy doy Hdoy) as [Hmp Hd].
  set (mp := (5 * doy + 2) / 153) in *.
  intros [= <- <- <-].
  set (m := if mp <? 10 then mp + 3 else mp - 9).
  assert (1 <= m <= 12 /\ (if 2 <? m then m - 3 else m + 9) = mp) as [Hm Hmp'].
  { unfold m. destruct (Z.ltb_spec mp 10); destruct (Z.ltb_spec 2 (mp + 3));
      try destruct (Z.ltb_spec 2 (mp - 9)); lia. }
  split; [|lia]. unfold days_of_civil. rewrite Hmp'.
  replace (yoe + era * 400 + (if m <=? 2 then 1 else 0) - (if m <=? 2 then 1 else 0))
    with (yoe + era * 400) by lia.
  rewrite Z.div_add, Z.mod_add, Z.div_small, Z.mod_small by lia. unfold doy in *. lia.
Qed.

Lemma civil_year ms y m d :
  iso_range ms -> civil_of_days (ms / 86400000) = (y, m, d) -> 0 <= y < 10000.
Proof.
  unfold iso_range, civil_of_days. intros Hms.
  assert (-719528 <= ms / 86400000 < 2932897) as Hd
    by (Z.to_euclidean_division_equations; lia).
  set (z := ms / 86400000 + 719468). assert (-60 <= z < 3652365) as Hz by lia.
  pose proof (Z.mod_pos_bound z 146097 ltac:(lia)) as Hdoe.
  pose proof (Z.div_mod z 146097 ltac:(lia)) as Hzz.
  set (doe := z mod 146097) in *. set (era := z / 146097) in *.
  change ((doe - doe / 1460 + doe / 36524 - doe / 146096) / 365) with (year_of_era doe).
  pose proof (year_of_era_bounds doe Hdoe) as [Hyoe Hdoy].
  set (doy := doe - _) in *.
  pose proof (month_of_doy doy Hdoy) as [Hmp _].
  set (mp := (5 * doy + 2) / 153) in *. intros [= <- _ _].
  assert (-1 <= era <= 24) as He by (unfold era; Z.to_euclidean_division_equations; lia).
  assert (era = -1 -> year_of_era doe = 399 /\ 10 <= mp) as Hlow.
  { intros He1. assert (146037 <= doe) by lia. unfold mp, doy, year_of_era in *.
    Z.to_euclidean_division_equations; lia. }
  assert (era = 24 -> year_of_era doe <= 399 /\ (year_of_era doe = 399 -> mp < 10)) as Hhigh.
  { intros He1. assert (doe <= 146036) by lia. unfold mp, doy, year_of_era in *.
    Z.to_euclidean_division_equations; lia. }
  destruct (Z.ltb_spec mp 10) as [Hm|Hm].
  - destruct (Z.leb_spec (mp + 3) 2); lia.
  - destruct (Z.leb_spec (mp - 9) 2); lia.
Qed.

(** The printed fields read back. *)
Lemma iso_value_toISOString ms : iso_range ms -> iso_value (toISOString ms) = ms.
Proof.
  intros Hms. unfold iso_value, toISOString.
  destruct (civil_of_days (ms / 86400000)) as [[y m] d] eqn:Hc.
  pose proof (civil_year _ _ _ _ Hms Hc) as Hy.
  apply civil_roundtrip in Hc as (Hdays & Hm & Hd).
  rewrite chars_unchars. change (chars "-") with ["-"%char]. change (chars "T") with ["T"%char].
  change (chars ":") with [":"%char]. change (chars ".") with ["."%char].
  set (t := ms mod 86400000).
  assert (0 <= t < 86400000) as Ht by (apply Z.mod_pos_bound; lia).
  match goal with |- context [field_value 0 4 ?L] =>
    change (field_value 0 4 L) with (digits_value (pad_digits 4 y));
    change (field_value 5 2 L) with (digits_value (pad_digits 2 m));
    change (field_value 8 2 L) with (digits_value (pad_digits 2 d));
    change (field_value 11 2 L) with (digits_value (pad_digits 2 (t / 3600000)));
    change (field_value 14 2 L) with (digits_value (pad_digits 2 (t / 60000 mod 60)));
    change (field_value 17 2 L) with (digits_value (pad_digits 2 (t / 1000 mod 60)));
    change (field_value 20 3 L) with (digits_value (pad_digits 3 (t mod 1000)))
  end.
  rewrite !digits_value_pad, Hdays by (simpl; Z.to_euclidean_division_equations; lia).
  pose proof (Z.div_mod ms 86400000 ltac:(lia)) as Hdm. fold t in Hdm.
  assert (t = t / 3600000 * 3600000 + t / 60000 mod 60 * 60000
              + t / 1000 mod 60 * 1000 + t mod 1000) by (clear; Z.to_euclidean_division_equations; lia).
  lia.
Qed.

(** [Date.parse(new Date(ms).toISOString()) === ms]. *)
Lemma date_parse_toISOString `{JsHost} ms :
  iso_range ms -> date_parse (toISOString ms) = Some ms.
Proof.
  intros Hms. unfold date_parse. by rewrite iso_value_toISOString, String.eqb_refl.
Qed.

Lemma toISOString_truthy ms : str_truthy (toISOString ms) = true.
Proof.
  unfold toISOString. destruct (civil_of_days (ms / 86400000)) as [[y m] d]. done.
Qed.
End DateFacts.

#[export] Hint Rewrite @date_parse_toISOString @toISOString_truthy : js_rw.

Example toISOString_epoch : toISOString 1777539600123 = "2026-04-30T09:00:00.123Z".
Proof. vm_compute. reflexivity. Qed.
