(* ===== verification/TextRedaction.v ===== *)
(** * Operator-safe text (sanitizeSummary of src/core/terminal-event-outbox.ts)

    Four global replacements over a trimmed text: access tokens, assignments of
    secrets, absolute paths, runs of white space.  A rule looks at a position,
    the character before it and the text from it on, and answers how much it
    matches and what replaces it; [replace_all] applies it from left to right.

    No access token is left in a sanitised text ([sanitized_free]). *)

From Stdlib Require Import ZArith Lia Ascii String.
From stdpp Require Import base strings list.
From S2P Require Import Prelude JsRuntime.

(** ** Character classes *)

Definition is_alpha (c : ascii) : bool :=
  let n := ascii_code c in ((65 <=? n) && (n <=? 90)) || ((97 <=? n) && (n <=? 122)).
(** [\w] *)
Definition is_word (c : ascii) : bool := is_alpha c || is_digit c || Ascii.eqb c "_".
Definition is_dash (c : ascii) : bool := Ascii.eqb c "-".
(** [-_A-Za-z0-9] *)
Definition token_char (c : ascii) : bool := is_word c || is_dash c.
(** [\w./-] *)
Definition path_char (c : ascii) : bool := token_char c || Ascii.eqb c "." || Ascii.eqb c "/".

Definition word_at (o : option ascii) : bool := match o with Some c => is_word c | None => false end.
(** [\b] between two characters. *)
Definition word_boundary (before after : option ascii) : bool := xorb (word_at before) (word_at after).

(** ** Replacement *)

(** A match: how many of its characters are kept as they are, what follows them,
    and how long it is; a match is not empty. *)
Record Match : Type := mkMatch { m_kept : nat; m_text : list ascii; m_length : nat }.
Definition rule : Type := option ascii -> list ascii -> option Match.

(** [skip] characters of a match are left. *)
Fixpoint replace_from (r : rule) (skip : nat) (before : option ascii) (l : list ascii) : list ascii :=
  match l with
  | [] => []
  | c :: l' =>
      match skip with
      | S n => replace_from r n (Some c) l'
      | 0 =>
          match r before l with
          | Some m => take (m_kept m) l ++ m_text m ++ replace_from r (pred (m_length m)) (Some c) l'
          | None => c :: replace_from r 0 (Some c) l'
          end
      end
  end.
Definition replace_all (r : rule) (l : list ascii) : list ascii := replace_from r 0 None l.

(** The rest of a text after a literal. *)
Fixpoint strip_literal (p l : list ascii) : option (list ascii) :=
  match p, l with
  | [], _ => Some l
  | a :: p, c :: l => if Ascii.eqb a c then strip_literal p l else None
  | _ :: _, [] => None
  end.
Fixpoint strip_literal_i (p l : list ascii) : option (list ascii) :=
  match p, l with
  | [], _ => Some l
  | a :: p, c :: l => if Ascii.eqb a (ascii_lower c) then strip_literal_i p l else None
  | _ :: _, [] => None
  end.

(** The first of several literals, with its length and the rest. *)
Definition first_literal (strip : list ascii -> list ascii -> option (list ascii)) (ps : list string) (l : list ascii)
    : option (nat * list ascii) :=
  head (omap (fun p => (fun r => (String.length p, r)) <$> strip (chars p) l) ps).

(** ** The rules *)

Definition token_literals : list string :=
  ["ghp-"; "gho-"; "ghu-"; "ghs-"; "github_pat-"; "sk-"; "xoxa-"; "xoxb-"; "xoxp-"].

(** Without the dashes at its end. *)
Definition without_dashes (l : list ascii) : list ascii := rev (drop_while is_dash (rev l)).

(** [/\b(?:ghp|gho|ghu|ghs|github_pat|sk|xox[abp])-[-_A-Za-z0-9]+\b/g]: the match
    ends after the last word character of the run. *)
Definition token_rule : rule := fun before l =>
  if word_boundary before (head l) then
    match first_literal strip_literal token_literals l with
    | Some (n, rest) =>
        match without_dashes (take_while token_char rest) with
        | [] => None
        | run => Some (mkMatch 0 (chars "[redacted]") (n + length run))
        end
    | None => None
    end
  else None.

Definition secret_words : list string :=
  ["token"; "secret"; "password"; "api_key"; "api-key"; "apikey"].

(** [/\b(token|secret|password|api[_-]?key)\s*[:=]\s*\S+/gi], with
    [$1=[redacted]]. *)
Definition assignment_rule : rule := fun before l =>
  if word_boundary before (head l) then
    match first_literal strip_literal_i secret_words l with
    | Some (n, rest) =>
        match drop_while is_space rest with
        | c :: rest' =>
            if Ascii.eqb c ":" || Ascii.eqb c "=" then
              match take_while (fun c => negb (is_space c)) (drop_while is_space rest') with
              | [] => None
              | value =>
                  Some (mkMatch n (chars "=[redacted]")
                    (n + length (take_while is_space rest) + 1 + length (take_while is_space rest') + length value))
              end
            else None
        | [] => None
        end
    | None => None
    end
  else None.

(** [(?:[A-Za-z]:)?]: how long, and the rest. *)
Definition drive_prefix (l : list ascii) : nat * list ascii :=
  match l with
  | d :: c :: rest => if is_alpha d && Ascii.eqb c ":" then (2, rest) else (0, l)
  | _ => (0, l)
  end.

(** [(?:[A-Za-z]:)?\/[\w./-]+]: how long. *)
Definition path_length (l : list ascii) : option nat :=
  let '(n, rest) := drive_prefix l in
  match rest with
  | c :: rest =>
      if Ascii.eqb c "/" then
        match take_while path_char rest with [] => None | run => Some (n + 1 + length run) end
      else None
  | [] => None
  end.

(** [/(^|\s)(?:[A-Za-z]:)?\/[\w./-]+/g], with [$1[path]]. *)
Definition path_rule : rule := fun before l =>
  match (if is_some before then None else path_length l) with
  | Some n => Some (mkMatch 0 (chars "[path]") n)
  | None =>
      match l with
      | c :: rest =>
          if is_space c then (fun n => mkMatch 1 (chars "[path]") (1 + n)) <$> path_length rest else None
      | [] => None
      end
  end.

(** [/\s+/g], with a space. *)
Definition space_rule : rule := fun _ l =>
  match take_while is_space l with [] => None | run => Some (mkMatch 0 [" "%char] (length run)) end.

Definition sanitize_chars (maxChars : nat) (l : list ascii) : list ascii :=
  take maxChars (replace_all space_rule (replace_all path_rule (replace_all assignment_rule
    (replace_all token_rule l)))).

Definition MAX_SUMMARY_CHARS : nat := 500.

(** A text of white space has none. *)
Definition sanitize (maxChars : nat) (s : string) : option string :=
  (fun t => unchars (sanitize_chars maxChars (chars t))) <$> trimmed s.
Definition sanitizeSummary (v : JsValue) : option string := js_string v ≫= sanitize MAX_SUMMARY_CHARS.

Example sanitize_token :
  sanitize 500 " use ghp-abc_1- and Token : x/y, see C:/tmp/a.b  ok"
  = Some "use [redacted]- and Token=[redacted] see [path] ok".
Proof. reflexivity. Qed.

(** ** Lists *)

Lemma drop_while_none {A} (p : A -> bool) l : match drop_while p l with c :: _ => p c = false | [] => True end.
Proof. destruct (drop_while p l) as [|c l'] eqn:Hd; [done|]. by eapply drop_while_head. Qed.

Lemma strip_literal_app p l rest : strip_literal p l = Some rest <-> l = p ++ rest.
Proof.
  revert l. induction p as [|a p IH]; intros [|c l]; simpl; [naive_solver..|].
  destruct (Ascii.eqb_spec a c) as [->|Hne]; [rewrite IH; naive_solver|]. split; [done|]. intros [= -> _]. done.
Qed.

Lemma strip_literal_i_app p l rest :
  strip_literal_i p l = Some rest -> exists q, l = q ++ rest /\ length q = length p.
Proof.
  revert l. induction p as [|a p IH]; intros [|c l]; simpl; try done; [by intros [= ->]; exists []|intros [= ->]; by exists []|].
  destruct (Ascii.eqb a (ascii_lower c)); [|done]. intros (q & -> & Hq)%IH. exists (c :: q). simpl. auto.
Qed.

Lemma length_chars s : length (chars s) = String.length s.
Proof. unfold chars. induction s as [|c s IH]; simpl; [done|]. by rewrite IH. Qed.

(** ** Access tokens *)

(** A text that begins with a token: a literal, dashes, a word character. *)
Definition token_shape (t : list ascii) : Prop :=
  exists p ds w, p ∈ token_literals /\ t = chars p ++ ds ++ [w]
    /\ Forall (fun c => is_dash c = true) ds /\ is_word w = true.
Definition exposed (l : list ascii) : Prop := exists t r, token_shape t /\ l = t ++ r.

(** No token is at this position; and at none from it on. *)
Definition safe (before : option ascii) (l : list ascii) : Prop := word_at before = false -> ~ exposed l.
Fixpoint free (before : option ascii) (l : list ascii) : Prop :=
  match l with [] => True | c :: l' => safe before l /\ free (Some c) l' end.

Lemma literal_facts p :
  p ∈ token_literals -> exists a q, chars p = a :: q ++ ["-"%char] /\ "-"%char ∉ a :: q /\ is_word a = true
    /\ Forall (fun c => token_char c = true) (chars p) /\ a ∈ chars "gsx".
Proof.
  intros Hp. unfold token_literals in Hp.
  repeat (apply elem_of_cons in Hp as [->|Hp]; [eexists _, _; split;
    [simpl; match goal with |- ?x :: ?l = _ => change (x :: l) with (x :: removelast l ++ ["-"%char]) end; reflexivity|];
    split_and!; [apply (bool_decide_unpack _); reflexivity|done|by repeat constructor
                |apply (bool_decide_unpack _); reflexivity]|]).
  by apply elem_of_nil in Hp.
Qed.

Lemma shape_chars t : token_shape t -> Forall (fun c => token_char c = true) t.
Proof.
  intros (p & ds & w & (a & q & _ & _ & _ & Hp & _)%literal_facts & -> & Hds & Hw).
  rewrite !Forall_app. split_and!; [done| |apply Forall_singleton; unfold token_char; by rewrite Hw].
  eapply Forall_impl; [exact Hds|]. intros c Hc. unfold token_char. by rewrite Hc, orb_true_r.
Qed.

Lemma exposed_head l : exposed l -> exists c l', l = c :: l' /\ is_word c = true /\ c ∈ chars "gsx".
Proof.
  intros (t & r & (p & ds & w & (a & q & Hp & _ & Ha & _ & Hs)%literal_facts & -> & _) & ->).
  exists a, (((q ++ ["-"%char]) ++ ds ++ [w]) ++ r). rewrite Hp. by split_and!.
Qed.

(** Two texts that agree up to a character no token has. *)
Definition stops (o : list ascii) : Prop := match o with c :: _ => token_char c = false | [] => True end.
Definition agree (out l : list ascii) : Prop := exists p o r, out = p ++ o /\ l = p ++ r /\ stops o.

Lemma agree_exposed out l : agree out l -> exposed out -> exposed l.
Proof.
  intros (p & o & r & -> & -> & Ho) (t & r' & Ht & Heq). exists t.
  assert (exists s, p = t ++ s) as [s ->]; [|exists (s ++ r); by rewrite app_assoc].
  apply shape_chars in Ht. clear r. revert p Heq. induction t as [|c t IH]; intros p Heq; [by exists p|].
  apply Forall_cons in Ht as [Hc Ht]. destruct p as [|d p]; simpl in Heq.
  - subst o. simpl in Ho. congruence.
  - injection Heq as -> Heq. destruct (IH Ht p Heq) as [s ->]. by exists s.
Qed.

Lemma free_take k before l : free before l -> free before (take k l).
Proof.
  revert before l. induction k as [|k IH]; intros before [|c l]; simpl; try done. intros [Hs Hf].
  split; [|by apply IH]. intros Hb (t & r & Ht & Heq). apply (Hs Hb). exists t, (r ++ drop k l). split; [done|].
  rewrite app_assoc, <- Heq. simpl. by rewrite take_drop.
Qed.

(** ** What a replacement leaves *)

(** After [n] characters that are skipped, what the output has as the character
    before the text. *)
Fixpoint link (n : nat) (before out : option ascii) (l : list ascii) : Prop :=
  match n, l with
  | 0, _ => word_at out = false -> word_at before = false \/ word_at (head l) = false
  | S n, c :: l => link n (Some c) out l
  | S _, [] => True
  end.

Lemma link_head n before out l : word_at (head (drop n l)) = false -> link n before out l.
Proof.
  revert before l. induction n as [|n IH]; intros before [|c l]; simpl; [naive_solver..|done|].
  apply IH.
Qed.

Lemma link_space n before out l :
  word_at before = false -> Forall (fun c => is_word c = false) (take n l) -> link n before out l.
Proof.
  revert before l. induction n as [|n IH]; intros before [|c l] Hb; simpl; [naive_solver..|done|].
  intros [Hc Hl]%Forall_cons. by apply IH.
Qed.

(** What replaces a match begins with a character no token has, and its
    characters begin no token. *)
Record good_match (before : option ascii) (l : list ascii) (m : Match) : Prop := {
  gm_text : exists c t z, m_text m = c :: t /\ token_char c = false /\ last (m_text m) = Some z /\ is_word z = false;
  gm_plain : Forall (fun c => c ∉ chars "gsx") (m_text m);
  gm_link : forall c l' z, l = c :: l' -> is_word z = false -> link (pred (m_length m)) (Some c) (Some z) l';
}.

Lemma replace_agree (r : rule) n before l :
  (forall b t m, r b t = Some m -> good_match b t m) -> n = 0 -> agree (replace_from r n before l) l.
Proof.
  intros Hr ->. revert before. induction l as [|c l IH]; intros before; [by exists [], [], []|]. simpl.
  destruct (r before (c :: l)) as [m|] eqn:Hm.
  - destruct (Hr _ _ _ Hm) as [(d & t & z & Htext & Hd & _) _ _]. rewrite Htext. simpl.
    exists (take (m_kept m) (c :: l)), (d :: t ++ replace_from r (pred (m_length m)) (Some c) l),
      (drop (m_kept m) (c :: l)). by rewrite take_drop.
  - destruct (IH (Some c)) as (p & o & q & -> & -> & Ho). exists (c :: p), o, q. by split_and!.
Qed.

Lemma safe_link before out l l' :
  safe before l -> link 0 before out l -> agree l' l -> safe out l'.
Proof.
  intros Hs Hl Ha Ho He%(agree_exposed _ _ Ha). destruct (Hl Ho) as [Hb|Hh]; [by apply Hs|].
  apply exposed_head in He as (c & l1 & -> & Hc & _). simpl in Hh. congruence.
Qed.

(** Characters that begin no token, before a text. *)
Lemma free_plain before t z l :
  Forall (fun c => c ∉ chars "gsx") t -> last t = Some z -> free (Some z) l -> free before (t ++ l).
Proof.
  intros Ht. revert before. induction Ht as [|c t Hc Ht IH]; intros before Hz Hl; [done|]. simpl. split.
  - intros _ (d & l' & [= <- _] & _ & Hd)%exposed_head. done.
  - destruct t as [|c' t]; [by injection Hz as ->|by apply IH].
Qed.

(** Characters that are kept, before one no token has. *)
Lemma free_kept k before out l o :
  free before l -> link 0 before out l -> stops o -> (forall b, free b o) -> free out (take k l ++ o).
Proof.
  revert before out l. induction k as [|k IH]; intros before out [|c l] Hf Hl Ho Hfo; simpl; [apply Hfo..|].
  destruct Hf as [Hs Hf]. split.
  - apply (safe_link before out (c :: l)); [done..|]. exists (c :: take k l), o, (drop k l).
    split_and!; [done|simpl; by rewrite take_drop|done].
  - apply (IH (Some c)); [done|simpl; tauto|done..].
Qed.

Lemma free_plain_all before l : Forall (fun c => c ∉ chars "gsx") l -> free before l.
Proof.
  intros Hl. destruct (last l) as [z|] eqn:Hz; [|by apply last_None in Hz as ->].
  rewrite <- (app_nil_r l). by eapply free_plain.
Qed.

(** A text, and what follows it from a character no token has on. *)
Lemma free_stopped before l o : free before l -> stops o -> (forall b, free b o) -> free before (l ++ o).
Proof. rewrite <- (firstn_all l) at 2. intros. apply (free_kept _ before); simpl; tauto. Qed.

(** A rule leaves no token where its rejections tell that there is none. *)
Lemma replace_free (P : option ascii -> list ascii -> Prop) (r : rule) n before out l :
  (forall b c t, P b (c :: t) -> P (Some c) t) ->
  (forall b t, t <> [] -> r b t = None -> P b t -> safe b t) ->
  (forall b t m, r b t = Some m -> good_match b t m) ->
  (forall b t m, r b t = Some m -> P b t -> m_kept m = 0 \/ free b t) ->
  P before l -> link n before out l -> free out (replace_from r n before l).
Proof.
  intros Hher Hnone Hgood Hkept. revert n before out.
  induction l as [|c l IH]; intros n before out HP Hl; [done|]. destruct n as [|n]; [|by apply IH; eauto].
  simpl. destruct (r before (c :: l)) as [m|] eqn:Hm.
  - destruct (Hgood _ _ _ Hm) as [(d & t & z & Htext & Hd & Hz & Hword) Hplain Hlink].
    assert (free (Some z) (replace_from r (pred (m_length m)) (Some c) l)) as Hrest by (apply IH; eauto).
    set (o := m_text m ++ _). assert (forall b, free b o) as Ho by (intros b; by eapply free_plain).
    destruct (Hkept _ _ _ Hm HP) as [->|Hf]; [apply Ho|].
    apply (free_kept _ before); [done|done|unfold o; by rewrite Htext|done].
  - simpl. split; [|apply IH; [eauto|simpl; tauto]].
    apply (safe_link before out (c :: l)); [by apply Hnone|done|].
    destruct (replace_agree r 0 (Some c) l Hgood eq_refl) as (p & o & q & -> & -> & Ho).
    exists (c :: p), o, q. by split_and!.
Qed.

(** ** The rules leave no token *)

Lemma first_literal_some strip ps l n rest :
  first_literal strip ps l = Some (n, rest) -> exists p, p ∈ ps /\ strip (chars p) l = Some rest /\ n = String.length p.
Proof.
  unfold first_literal. induction ps as [|p ps IH]; simpl; [done|].
  destruct (strip (chars p) l) as [r|] eqn:Hs; simpl.
  - intros [= <- <-]. exists p. split_and!; [apply list_elem_of_here|done|done].
  - intros (q & Hq & Hr)%IH. exists q. split; [by right|done].
Qed.

Lemma first_literal_none strip ps l p :
  first_literal strip ps l = None -> p ∈ ps -> strip (chars p) l = None.
Proof.
  unfold first_literal. induction ps as [|q ps IH]; simpl; [by rewrite elem_of_nil|].
  destruct (strip (chars q) l) as [r|] eqn:Hs; simpl; [done|].
  intros Hn [->|Hp]%elem_of_cons; [done|by apply IH].
Qed.

(** The literals of tokens end in their only dash. *)
Lemma literal_unique p p' l r r' :
  p ∈ token_literals -> p' ∈ token_literals -> l = chars p ++ r -> l = chars p' ++ r' -> r = r'.
Proof.
  intros (a & q & Hp & Hd & _)%literal_facts (a' & q' & Hp' & Hd' & _)%literal_facts -> Heq.
  rewrite Hp, Hp' in Heq. change (a :: q ++ ["-"%char]) with ((a :: q) ++ ["-"%char]) in Heq.
  change (a' :: q' ++ ["-"%char]) with ((a' :: q') ++ ["-"%char]) in Heq. rewrite <- !app_assoc in Heq.
  by apply split_at_sep in Heq as [_ ?].
Qed.

Lemma without_dashes_some ds w r :
  Forall (fun c => is_dash c = true) ds -> is_word w = true -> without_dashes (ds ++ w :: r) <> [].
Proof.
  intros _ Hw. unfold without_dashes. rewrite rev_app_distr. simpl. rewrite <- app_assoc. simpl.
  assert (is_dash w = false) as Hd
    by (unfold is_dash; destruct (Ascii.eqb_spec w "-") as [->|]; [done|done]).
  generalize (rev r). intros l Hn. apply (f_equal (@rev _)) in Hn. rewrite rev_involutive in Hn.
  induction l as [|c l IH]; simpl in Hn; [by rewrite Hd in Hn|].
  destruct (is_dash c); [by apply IH|done].
Qed.

Lemma token_rule_none before l : l <> [] -> token_rule before l = None -> True -> safe before l.
Proof.
  intros _ Hn _ Hb (t & r & (p & ds & w & Hp & -> & Hds & Hw) & ->). revert Hn. unfold token_rule.
  destruct (literal_facts p Hp) as (a & q & Hpq & _ & Ha & _).
  assert (word_boundary before (head ((chars p ++ ds ++ [w]) ++ r)) = true) as ->
    by (rewrite Hpq; unfold word_boundary; simpl; by rewrite Hb, Ha).
  rewrite <- !app_assoc. destruct (first_literal _ _ _) as [[n rest]|] eqn:Hf.
  - apply first_literal_some in Hf as (p' & Hp' & Hrest%strip_literal_app & _).
    rewrite <- (literal_unique p p' _ _ _ Hp Hp' eq_refl Hrest).
    assert (take_while token_char (ds ++ [w] ++ r) = ds ++ w :: take_while token_char r) as ->.
    { clear Hp' Hrest. induction Hds as [|c ds Hc Hds IH]; simpl.
      - assert (token_char w = true) as -> by (unfold token_char; by rewrite Hw). done.
      - assert (token_char c = true) as -> by (unfold token_char; by rewrite Hc, orb_true_r). by f_equal. }
    pose proof (without_dashes_some ds w (take_while token_char r) Hds Hw) as Hne.
    by destruct (without_dashes (ds ++ w :: take_while token_char r)).
  - pose proof (first_literal_none _ _ _ p Hf Hp) as Hs.
    by rewrite (proj2 (strip_literal_app _ _ _) eq_refl) in Hs.
Qed.

Lemma drop_length_app {A} (a b : list A) n : n = length a -> drop n (a ++ b) = b.
Proof. intros ->. apply drop_app_length. Qed.

(** A match that ends before a character that is no word character. *)
Lemma match_ends m l rest kept text len :
  m = mkMatch kept text len -> 0 < len -> (exists front, l = front ++ rest /\ length front = len) ->
  word_at (head rest) = false ->
  forall c l' z, l = c :: l' -> is_word z = false -> link (pred (m_length m)) (Some c) (Some z) l'.
Proof.
  intros -> Hlen (front & Hl & Hf) Hr c l' z Hc _. simpl. apply link_head.
  destruct front as [|d front]; [simpl in Hf; lia|]. rewrite Hc in Hl. injection Hl as -> ->.
  rewrite drop_length_app; [done|]. simpl in Hf. lia.
Qed.

Lemma redacted_text text :
  text = chars "[redacted]" \/ text = chars "=[redacted]" \/ text = chars "[path]" ->
  (exists c t z, text = c :: t /\ token_char c = false /\ last text = Some z /\ is_word z = false)
  /\ Forall (fun c => c ∉ chars "gsx") text.
Proof.
  intros [->|[->| ->]]; (split; [by eexists _, _, "]"%char|]);
    apply (bool_decide_unpack _); vm_compute; exact I.
Qed.

Lemma without_dashes_split l : exists ds, l = without_dashes l ++ ds /\ Forall (fun c => is_dash c = true) ds.
Proof.
  unfold without_dashes. exists (rev (take_while is_dash (rev l))). split.
  - rewrite <- rev_app_distr, take_drop_while. by rewrite rev_involutive.
  - apply Forall_rev, take_while_Forall.
Qed.

Lemma dash_no_word c : is_dash c = true -> is_word c = false.
Proof. unfold is_dash. by intros ->%Ascii.eqb_eq. Qed.

Lemma token_rule_good before l m : token_rule before l = Some m -> good_match before l m.
Proof.
  unfold token_rule. destruct (word_boundary before (head l)); [|done].
  destruct (first_literal _ _ _) as [[n rest]|] eqn:Hf; [|done].
  apply first_literal_some in Hf as (p & Hp & Hl%strip_literal_app & ->).
  destruct (without_dashes_split (take_while token_char rest)) as (ds & Hrun & Hds).
  destruct (without_dashes (take_while token_char rest)) as [|c run] eqn:Hw; [done|]. intros [= <-].
  destruct (redacted_text (chars "[redacted]") (or_introl eq_refl)) as [Ht Hp'].
  split; [exact Ht|exact Hp'|].
  eapply (match_ends _ _ (ds ++ drop_while token_char rest)); [done|simpl; lia| |].
  - exists (chars p ++ c :: run). split; [|rewrite length_app, length_chars; done].
    rewrite Hl, <- app_assoc. f_equal. rewrite app_assoc, <- Hrun. symmetry. apply take_drop_while.
  - destruct ds as [|d ds]; simpl.
    + pose proof (drop_while_none token_char rest) as Hd. destruct (drop_while token_char rest) as [|e r]; [done|].
      simpl. unfold token_char in Hd. by apply orb_false_iff in Hd as [Hd _].
    + apply Forall_cons in Hds as [Hd _]. by apply dash_no_word.
Qed.

Lemma space_no_word c : is_space c = true -> is_word c = false.
Proof. destruct c as [[] [] [] [] [] [] [] []]; vm_compute; congruence. Qed.

Lemma assignment_rule_good before l m : assignment_rule before l = Some m -> good_match before l m.
Proof.
  unfold assignment_rule. destruct (word_boundary before (head l)); [|done].
  destruct (first_literal _ _ _) as [[n rest]|] eqn:Hf; [|done].
  apply first_literal_some in Hf as (p & Hp & (q & Hl & Hq)%strip_literal_i_app & ->).
  pose proof (take_drop_while is_space rest) as Hrest.
  destruct (drop_while is_space rest) as [|c rest']; [done|]. destruct (_ || _); [|done].
  pose proof (take_drop_while is_space rest') as Hrest'. set (mid := drop_while is_space rest') in *.
  pose proof (take_drop_while (fun c => negb (is_space c)) mid) as Hmid.
  pose proof (drop_while_none (fun c => negb (is_space c)) mid) as Hend.
  destruct (take_while (fun c => negb (is_space c)) mid) as [|v value]; [done|]. intros [= <-].
  destruct (redacted_text (chars "=[redacted]") (or_intror (or_introl eq_refl))) as [Ht Hp'].
  split; [exact Ht|exact Hp'|].
  eapply (match_ends _ _ (drop_while (fun c => negb (is_space c)) mid)); [done|simpl; lia| |].
  - exists (q ++ take_while is_space rest ++ c :: take_while is_space rest' ++ v :: value). split.
    + rewrite Hl. rewrite <- Hrest at 1. rewrite <- Hrest' at 1. rewrite <- Hmid at 1.
      by rewrite <- !app_assoc; simpl; rewrite <- !app_assoc.
    + rewrite !length_app. simpl. rewrite !length_app, Hq, length_chars. simpl. lia.
  - destruct (drop_while _ mid) as [|e r]; [done|]. apply negb_false_iff in Hend. by apply space_no_word.
Qed.

Lemma path_length_some l n :
  path_length l = Some n -> 0 < n /\ exists front rest, l = front ++ rest /\ length front = n /\ word_at (head rest) = false.
Proof.
  unfold path_length.
  assert (exists front, l = front ++ (drive_prefix l).2 /\ length front = (drive_prefix l).1) as (front & Hl & Hf).
  { unfold drive_prefix. destruct l as [|d [|c l]]; [by exists []..|].
    destruct (is_alpha d && Ascii.eqb c ":"); [by exists [d; c]|by exists []]. }
  destruct (drive_prefix l) as [k [|c rest]]; [done|]. simpl in Hl, Hf.
  destruct (Ascii.eqb c "/"); [|done]. pose proof (take_drop_while path_char rest) as Hr.
  pose proof (drop_while_none path_char rest) as Hend.
  destruct (take_while path_char rest) as [|d run]; [done|]. intros [= <-]. split; [lia|].
  exists (front ++ c :: d :: run), (drop_while path_char rest). split; [|split].
  - rewrite Hl, <- app_assoc. simpl. do 2 f_equal. symmetry. exact Hr.
  - rewrite length_app. simpl. lia.
  - destruct (drop_while path_char rest) as [|e r]; [done|]. simpl. unfold path_char, token_char in Hend.
    by apply orb_false_iff in Hend as [[[Hend _]%orb_false_iff _]%orb_false_iff _].
Qed.

Lemma path_rule_good before l m : path_rule before l = Some m -> good_match before l m.
Proof.
  destruct (redacted_text (chars "[path]") (or_intror (or_intror eq_refl))) as [Ht Hp].
  unfold path_rule. destruct (if is_some before then None else path_length l) as [n|] eqn:Hn.
  - destruct (is_some before); [done|]. apply path_length_some in Hn as (Hpos & front & rest & Hl & Hf & Hw).
    intros [= <-]. split; [exact Ht|exact Hp|].
    eapply (match_ends _ _ rest); [done|done|by exists front|done].
  - destruct l as [|c l]; [done|]. destruct (is_space c); [|done]. destruct (path_length l) as [k|] eqn:Hk; [|done].
    apply path_length_some in Hk as (Hpos & front & rest & -> & Hf & Hw). intros [= <-].
    split; [exact Ht|exact Hp|]. eapply (match_ends _ _ rest); [done|lia| |done].
    exists (c :: front). simpl. auto.
Qed.

Lemma space_rule_good before l m : space_rule before l = Some m -> good_match before l m.
Proof.
  unfold space_rule. pose proof (take_drop_while is_space l) as Hl. pose proof (take_while_Forall is_space l) as Hall.
  destruct (take_while is_space l) as [|c run]; [done|]. intros [= <-]. split; simpl.
  - by exists " "%char, [], " "%char.
  - apply Forall_singleton. apply (bool_decide_unpack _). reflexivity.
  - intros d l' z -> Hz. simpl in Hl. injection Hl as <- <-. apply Forall_cons in Hall as [Hc Hrun].
    apply link_space; [by apply space_no_word|]. rewrite take_app_length.
    eapply Forall_impl; [exact Hrun|]. apply space_no_word.
Qed.

(** A sanitised text shows no access token anywhere. *)
Lemma free_replaced (r : rule) l :
  (forall b t m, r b t = Some m -> good_match b t m) -> free None l -> free None (replace_all r l).
Proof.
  intros Hr Hl. apply (replace_free free r 0 None None);
    [by intros b c t []| |exact Hr|by right|done|simpl; tauto].
  intros b [|c t] Hne _; [done|]. by intros [].
Qed.

Lemma sanitized_free n l : free None (sanitize_chars n l).
Proof.
  unfold sanitize_chars. apply free_take. apply free_replaced; [apply space_rule_good|].
  apply free_replaced; [apply path_rule_good|]. apply free_replaced; [apply assignment_rule_good|].
  apply (replace_free (fun _ _ => True) token_rule 0 None None); [done|apply token_rule_none|apply token_rule_good| |done|simpl; tauto].
  intros b t m Hm _. left. unfold token_rule in Hm. destruct (word_boundary _ _); [|done].
  destruct (first_literal _ _ _) as [[k rest]|]; [|done]. by destruct (without_dashes _); [|injection Hm as <-].
Qed.

(** No access token is in this text. *)
Definition hides_tokens (s : string) : Prop := free None (chars s).

Lemma sanitize_hides n s t : sanitize n s = Some t -> hides_tokens t.
Proof.
  unfold sanitize. destruct (trimmed s) as [u|]; [|done]. intros [= <-]. unfold hides_tokens.
  rewrite chars_unchars. apply sanitized_free.
Qed.

Lemma summary_hides v t : sanitizeSummary v = Some t -> hides_tokens t.
Proof. destruct v; try done. apply sanitize_hides. Qed.

(** No token begins where a word may begin. *)
Lemma free_split before l1 l2 :
  free before (l1 ++ l2) -> exposed l2 -> word_at (match last l1 with Some c => Some c | None => before end) = true.
Proof.
  revert before. induction l1 as [|c l1 IH]; intros before Hf He.
  - destruct l2 as [|c l2]; [by apply exposed_head in He as (? & ? & ? & _)|].
    destruct Hf as [Hs _]. simpl. destruct (word_at before) eqn:Hw; [done|]. by destruct (Hs Hw).
  - destruct Hf as [_ Hf]. specialize (IH _ Hf He). destruct l1 as [|d l1]; [done|]. rewrite last_cons_cons.
    destruct (last (d :: l1)) eqn:Hl; [done|]. by apply last_None in Hl.
Qed.

Lemma free_nowhere s :
  hides_tokens s ->
  ~ exists before after, s = (before ++ after)%string /\ exposed (chars after)
      /\ word_at (last (chars before)) = false.
Proof.
  intros Hs (before & after & -> & He & Hw). unfold hides_tokens in Hs. rewrite chars_app in Hs.
  pose proof (free_split _ _ _ Hs He) as Ht. destruct (last (chars before)); simpl in *; congruence.
Qed.
