(* ===== verification/JsonText.v ===== *)
(** * JSON text with sorted keys (stableStringify of src/core/cross-broker-terminal-brief.ts)

    [JSON.stringify] of strings and scalars, and the text of a value whose objects
    are written with their keys in order.  Two flat objects with the same text have
    the same properties ([stable_object_inj]), whatever their texts contain. *)

From Stdlib Require Import ZArith Lia String Ascii.
From stdpp Require Import base gmap strings list pretty.
From S2P Require Import Prelude JsRuntime.

(** A digest of the host: SHA-256, in hexadecimal. *)
Class JsCrypto : Type := { sha256 : string -> string }.

(** ** Texts *)

Definition dquote : ascii := ascii_of_nat 34.
Definition backslash : ascii := ascii_of_nat 92.
Definition hex_lower (n : nat) : ascii := ascii_of_nat (if n <? 10 then 48 + n else 87 + n).

(** A character inside a JSON string. *)
Definition json_escape (c : ascii) : list ascii :=
  match ascii_code c with
  | 34 => [backslash; dquote]
  | 92 => [backslash; backslash]
  | 8 => [backslash; "b"%char]
  | 9 => [backslash; "t"%char]
  | 10 => [backslash; "n"%char]
  | 12 => [backslash; "f"%char]
  | 13 => [backslash; "r"%char]
  | n => if n <? 32 then [backslash; "u"%char; "0"%char; "0"%char; hex_lower (n / 16); hex_lower (n mod 16)]
         else [c]
  end.

Definition json_quote (s : string) : list ascii := dquote :: flat_map json_escape (chars s) ++ [dquote].

Definition json_number (n : JsNum) : string :=
  match n with NNaN | NInf _ => "null" | _ => js_num_String n end.

(** Texts with a comma between them. *)
Fixpoint comma_separated (l : list (list ascii)) : list ascii :=
  match l with
  | [] => []
  | [t] => t
  | t :: l => t ++ ","%char :: comma_separated l
  end.

Definition key_cmp (a b : string * list ascii) : Z :=
  if String.eqb a.1 b.1 then 0 else if String.ltb a.1 b.1 then (-1) else 1.

Definition entry_text (e : string * list ascii) : list ascii := json_quote e.1 ++ ":"%char :: e.2.

Fixpoint stable_chars (v : JsValue) : list ascii :=
  match v with
  | JUndef => chars "undefined"
  | JNull => chars "null"
  | JBool b => chars (if b then "true" else "false")
  | JNum n => chars (json_number n)
  | JStr s => json_quote s
  | JArr l => "["%char :: comma_separated (map stable_chars l) ++ ["]"%char]
  | JObj m => "{"%char :: comma_separated (map entry_text (js_sort key_cmp
                (map (fun '(k, w) => (k, stable_chars w)) m))) ++ ["}"%char]
  end.
Definition stableStringify (v : JsValue) : string := unchars (stable_chars v).

(** [JSON.stringify]: properties in their order, those that are [undefined] left
    out; an [undefined] element is [null]. *)
Fixpoint json_chars (v : JsValue) : list ascii :=
  match v with
  | JUndef | JNull => chars "null"
  | JBool b => chars (if b then "true" else "false")
  | JNum n => chars (json_number n)
  | JStr s => json_quote s
  | JArr l => "["%char :: comma_separated (map json_chars l) ++ ["]"%char]
  | JObj m => "{"%char :: comma_separated (flat_map (fun '(k, w) =>
                match w with JUndef => [] | _ => [entry_text (k, json_chars w)] end) m) ++ ["}"%char]
  end.
Definition JSON_stringify (v : JsValue) : string := unchars (json_chars v).

Example stable_sorts_keys :
  stable_chars (JObj [("b", JStr "x"); ("a", JNum (NInt 3))])
  = chars "{" ++ json_quote "a" ++ chars ":3," ++ json_quote "b" ++ chars ":" ++ json_quote "x" ++ chars "}".
Proof. reflexivity. Qed.

(** ** Strings are read back *)

(** The character an escape stands for, and the rest. *)
Definition hex_value (c : ascii) : nat := let n := ascii_code c in if n <? 58 then n - 48 else n - 87.
Definition read_escape (l : list ascii) : option (ascii * list ascii) :=
  match l with
  | [] => None
  | c :: l =>
      if Ascii.eqb c backslash then
        match l with
        | [] => None
        | d :: r =>
            if Ascii.eqb d dquote || Ascii.eqb d backslash then Some (d, r)
            else if Ascii.eqb d "b" then Some (ascii_of_nat 8, r)
            else if Ascii.eqb d "t" then Some (ascii_of_nat 9, r)
            else if Ascii.eqb d "n" then Some (ascii_of_nat 10, r)
            else if Ascii.eqb d "f" then Some (ascii_of_nat 12, r)
            else if Ascii.eqb d "r" then Some (ascii_of_nat 13, r)
            else match r with
                 | _ :: _ :: h :: k :: r => Some (ascii_of_nat (16 * hex_value h + hex_value k), r)
                 | _ => None
                 end
        end
      else Some (c, l)
  end.

Lemma read_escaped c r : read_escape (json_escape c ++ r) = Some (c, r).
Proof. destruct c as [[] [] [] [] [] [] [] []]; reflexivity. Qed.

Lemma escape_head c : exists d l, json_escape c = d :: l /\ d <> dquote.
Proof.
  destruct c as [[] [] [] [] [] [] [] []]; (eexists _, _; split; [reflexivity|]); intros Heq;
    vm_compute in Heq; discriminate Heq.
Qed.

Lemma escapes_inj l l' r r' :
  flat_map json_escape l ++ dquote :: r = flat_map json_escape l' ++ dquote :: r' -> l = l' /\ r = r'.
Proof.
  revert l'. induction l as [|c l IH]; intros [|c' l'] Heq; simpl in Heq.
  - injection Heq as ->. done.
  - destruct (escape_head c') as (d & t & Hd & Hne). rewrite Hd in Heq. injection Heq as Hq _. by destruct Hne.
  - destruct (escape_head c) as (d & t & Hd & Hne). rewrite Hd in Heq. injection Heq as Hq _. by destruct Hne.
  - rewrite <- !app_assoc in Heq. apply (f_equal read_escape) in Heq. rewrite !read_escaped in Heq.
    injection Heq as -> Heq. by destruct (IH l' Heq) as [-> ->].
Qed.

Lemma quote_inj s s' r r' : json_quote s ++ r = json_quote s' ++ r' -> s = s' /\ r = r'.
Proof.
  unfold json_quote. simpl. intros [= Heq]. rewrite <- !app_assoc in Heq. simpl in Heq.
  apply escapes_inj in Heq as [Hs ->]. split; [by apply chars_inj|done].
Qed.

(** ** Flat values *)

Definition flat_value (v : JsValue) : Prop :=
  match v with JStr _ | JNum (NInt _) => True | _ => False end.
Definition ends_value (c : ascii) : Prop := c = ","%char \/ c = "}"%char \/ c = "]"%char.

Definition number_char (c : ascii) : Prop := is_digit c = true \/ c = "-"%char.

Lemma number_chars z : Forall number_char (chars (pretty (z : Z))).
Proof. apply pretty_chars; unfold number_char; auto. Qed.

Lemma number_no_end c : number_char c -> ~ ends_value c.
Proof. intros [Hc|Hc] [->|[->| ->]]; vm_compute in Hc; discriminate Hc. Qed.

Lemma run_split (P : ascii -> Prop) l l' c c' r r' :
  Forall P l -> Forall P l' -> ~ P c -> ~ P c' -> l ++ c :: r = l' ++ c' :: r' -> l = l' /\ c :: r = c' :: r'.
Proof.
  intros Hl. revert l'. induction Hl as [|d l Hd Hl IH]; intros [|d' l'] Hl' Hc Hc' Heq; simpl in Heq.
  - done.
  - injection Heq as -> _. by apply Forall_cons in Hl' as [? _].
  - injection Heq as <- _. done.
  - injection Heq as -> Heq. apply Forall_cons in Hl' as [_ Hl']. by destruct (IH l' Hl' Hc Hc' Heq) as [-> ->].
Qed.

Lemma number_no_quote z c r s r' : ends_value c -> chars (pretty (z : Z)) ++ c :: r <> json_quote s ++ r'.
Proof.
  intros Hc. pose proof (number_chars z) as Hn. unfold json_quote. destruct (chars (pretty z)) as [|d l]; simpl.
  - intros [= -> _]. destruct Hc as [Hc|[Hc|Hc]]; vm_compute in Hc; discriminate Hc.
  - intros [= -> _]. apply Forall_cons in Hn as [[Hd|Hd] _]; vm_compute in Hd; discriminate Hd.
Qed.

Lemma value_split v v' c c' r r' :
  flat_value v -> flat_value v' -> ends_value c -> ends_value c' ->
  stable_chars v ++ c :: r = stable_chars v' ++ c' :: r' -> v = v' /\ c :: r = c' :: r'.
Proof.
  destruct v as [| | |[z| | |]|s| |]; try done; destruct v' as [| | |[z'| | |]|s'| |]; try done; intros _ _ Hc Hc'.
  - intros Heq. destruct (run_split number_char (chars (pretty z)) (chars (pretty z')) c c' r r') as [Hz Hr];
      [apply number_chars|apply number_chars|intros Hn; by apply (number_no_end c)
      |intros Hn; by apply (number_no_end c')|exact Heq|].
    apply chars_inj in Hz. by simplify_eq.
  - intros Heq. by apply number_no_quote in Heq.
  - intros Heq. symmetry in Heq. by apply number_no_quote in Heq.
  - intros [-> ->]%quote_inj. done.
Qed.

(** ** Flat objects *)

Definition flat_record (m : JsRecord) : Prop := NoDup (map fst m) /\ Forall (fun kv => flat_value kv.2) m.

Definition flat_entry (e : string * list ascii) : Prop := exists v, flat_value v /\ e.2 = stable_chars v.

Lemma entry_split e e' c c' r r' :
  flat_entry e -> flat_entry e' -> ends_value c -> ends_value c' ->
  entry_text e ++ c :: r = entry_text e' ++ c' :: r' -> e = e' /\ c :: r = c' :: r'.
Proof.
  destruct e as [k t], e' as [k' t']. intros (v & Hv & Ht) (v' & Hv' & Ht') Hc Hc'. simpl in Ht, Ht'. subst.
  unfold entry_text. simpl fst. simpl snd. rewrite <- !app_assoc. intros [-> Heq]%quote_inj.
  simpl in Heq. injection Heq as Heq. by apply value_split in Heq as [-> ->].
Qed.

Lemma entries_inj l l' :
  Forall flat_entry l -> Forall flat_entry l' ->
  comma_separated (map entry_text l) ++ ["}"%char] = comma_separated (map entry_text l') ++ ["}"%char] -> l = l'.
Proof.
  assert (forall e r, "}"%char :: r <> entry_text e ++ r) as Hbrace by (intros e r; by unfold entry_text).
  intros Hl. revert l'. induction Hl as [|e l He Hl IH]; intros [|e' l'] Hl'.
  - done.
  - intros Heq. exfalso. destruct l'; simpl in Heq; unfold entry_text, json_quote in Heq; simpl in Heq; discriminate Heq.
  - intros Heq. exfalso. destruct l; simpl in Heq; unfold entry_text, json_quote in Heq; simpl in Heq; discriminate Heq.
  - apply Forall_cons in Hl' as [He' Hl'].
    assert (forall (m : list (string * list ascii)) (x : string * list ascii), exists c r, ends_value c
      /\ comma_separated (map entry_text (x :: m)) ++ ["}"%char] = entry_text x ++ c :: r
      /\ c :: r = match m with [] => ["}"%char] | _ => ","%char :: comma_separated (map entry_text m) ++ ["}"%char] end)
      as Hform.
    { intros [|y m] x; [by exists "}"%char, []; split; [right; by left|]|].
      exists ","%char. eexists. split; [by left|]. split; [|reflexivity]. cbn [map comma_separated].
      by rewrite <- app_assoc. }
    destruct (Hform l e) as (c & r & Hc & -> & Hr). destruct (Hform l' e') as (c' & r' & Hc' & -> & Hr').
    intros [-> Heq]%entry_split; [|done..]. f_equal. rewrite Hr, Hr' in Heq.
    destruct l as [|x l], l' as [|x' l']; [done|discriminate Heq|discriminate Heq|].
    injection Heq as Heq. by apply IH.
Qed.

Lemma jm_get_perm {V} (m m' : jsmap V) k : NoDup (map fst m) -> m ≡ₚ m' -> jm_get k m = jm_get k m'.
Proof.
  intros Hnd Hp. apply option_eq. intros v.
  assert (NoDup (map fst m')) as Hnd' by (by rewrite <- Hp).
  assert (forall m0 : jsmap V, NoDup (map fst m0) -> jm_get k m0 = Some v <-> (k, v) ∈ m0) as Hget.
  { intros m0. induction m0 as [|[j w] m0 IH]; simpl; [by rewrite elem_of_nil|]. intros [Hj Hm]%NoDup_cons.
    rewrite elem_of_cons. destruct (String.eqb_spec k j) as [->|Hne].
    - split; [intros [= ->]; by left|]. intros [[= ->]|Hin]; [done|]. destruct Hj. apply list_elem_of_fmap. by exists (j, v).
    - rewrite IH by done. naive_solver. }
  by rewrite !Hget, Hp by done.
Qed.

Lemma jm_get_map {V W} (f : V -> W) (m : jsmap V) k :
  jm_get k (map (fun '(j, v) => (j, f v)) m) = f <$> jm_get k m.
Proof. induction m as [|[j v] m IH]; simpl; [done|]. by destruct (String.eqb k j). Qed.

Lemma flat_stable_inj v v' : flat_value v -> flat_value v' -> stable_chars v = stable_chars v' -> v = v'.
Proof.
  intros Hv Hv' Heq. apply (value_split v v' ","%char ","%char [] []); [done|done|by left|by left|]. by rewrite Heq.
Qed.

(** The text determines the properties. *)
Lemma stable_object_inj m m' k :
  flat_record m -> flat_record m' -> stableStringify (JObj m) = stableStringify (JObj m') ->
  js_prop k m = js_prop k m'.
Proof.
  intros [Hk Hf] [Hk' Hf'] Heq. unfold stableStringify in Heq. apply (f_equal chars) in Heq.
  rewrite !chars_unchars in Heq. cbn [stable_chars] in Heq. injection Heq as Heq.
  set (f := fun '(k, w) => (k, stable_chars w)) in Heq.
  assert (forall m : JsRecord, Forall (fun kv => flat_value kv.2) m -> Forall flat_entry (js_sort key_cmp (map f m))) as Hflat.
  { intros m0 Hm0. rewrite js_sort_perm. apply Forall_forall. intros e (kv & -> & Hin)%list_elem_of_fmap.
    rewrite Forall_forall in Hm0. exists kv.2. destruct kv as [k0 w]. split; [by apply (Hm0 (k0, w))|done]. }
  apply entries_inj in Heq; [|by apply Hflat..].
  assert (map f m ≡ₚ map f m') as Hp by (rewrite <- (js_sort_perm key_cmp), Heq; apply js_sort_perm).
  assert (forall m : JsRecord, map fst (map f m) = map fst m) as Hfst.
  { intros m0. rewrite map_map. apply map_ext. by intros []. }
  assert (jm_get k (map f m) = jm_get k (map f m')) as Hget by (apply jm_get_perm; [by rewrite Hfst|done]).
  unfold f in Hget. rewrite !(jm_get_map stable_chars) in Hget. unfold js_prop.
  assert (forall (m : JsRecord) v, Forall (fun kv => flat_value kv.2) m -> jm_get k m = Some v -> flat_value v) as Hin.
  { intros m0 v Hm0. induction Hm0 as [|[j w] m0 Hw Hm0 IH]; simpl; [done|].
    destruct (String.eqb k j); [by intros [= <-]|done]. }
  destruct (jm_get k m) as [v|] eqn:Hv, (jm_get k m') as [v'|] eqn:Hv'; simpl in Hget; try done.
  injection Hget as Hget. apply flat_stable_inj in Hget as ->; eauto.
Qed.

(** ** Nested values *)

(** Built of texts, integers, arrays and objects. *)
Fixpoint plain_value (v : JsValue) : Prop :=
  match v with
  | JStr _ | JNum (NInt _) => True
  | JArr l => foldr (fun w P => plain_value w /\ P) True l
  | JObj m => foldr (fun '(_, w) P => plain_value w /\ P) True m
  | _ => False
  end.

(** Texts that end where a comma or the closing character begins. *)
Definition splits {A} (f : A -> list ascii) (P : A -> Prop) (x : A) : Prop :=
  forall y c c' r r', P y -> ends_value c -> ends_value c' -> f x ++ c :: r = f y ++ c' :: r' -> x = y /\ c :: r = c' :: r'.

Lemma separated_split {A} (f : A -> list ascii) (P : A -> Prop) close :
  close <> ","%char -> ends_value close -> (forall x, P x -> exists d t, f x = d :: t /\ d <> close) ->
  forall l, Forall (splits f P) l -> Forall P l -> forall l' r r', Forall P l' ->
  comma_separated (map f l) ++ close :: r = comma_separated (map f l') ++ close :: r' -> l = l' /\ r = r'.
Proof.
  intros Hcomma Hclose Hstart.
  assert (forall x l r, exists c t, ends_value c /\ comma_separated (map f (x :: l)) ++ close :: r = f x ++ c :: t
    /\ (c :: t = match l with [] => close :: r | _ => ","%char :: comma_separated (map f l) ++ close :: r end)) as Hform.
  { intros x [|y l] r; [by exists close, r|]. exists ","%char. eexists. split; [by left|]. split; [|reflexivity].
    cbn [map comma_separated]. by rewrite <- app_assoc. }
  assert (forall x l r r', P x -> comma_separated (map f (x :: l)) ++ close :: r <> close :: r') as Hne.
  { intros x l r r' Hx. destruct (Hstart x Hx) as (d & t & Hd & Hdc). destruct (Hform x l r) as (c & t' & _ & -> & _).
    rewrite Hd. by intros [= ->]. }
  induction l as [|x l IH]; intros Hs Hl [|x' l'] r r' Hl' Heq.
  - by injection Heq as ->.
  - symmetry in Heq. apply Forall_cons in Hl' as [Hx' _]. by apply Hne in Heq.
  - apply Forall_cons in Hl as [Hx _]. by apply Hne in Heq.
  - apply Forall_cons in Hs as [Hsx Hs]. apply Forall_cons in Hl as [_ Hl]. apply Forall_cons in Hl' as [Hx' Hl'].
    destruct (Hform x l r) as (c & t & Hc & Hf & Ht). destruct (Hform x' l' r') as (c' & t' & Hc' & Hf' & Ht').
    rewrite Hf, Hf' in Heq. destruct (Hsx x' c c' t t' Hx' Hc Hc' Heq) as [<- Hct]. rewrite Ht, Ht' in Hct.
    destruct l as [|y l], l' as [|y' l']; [by injection Hct as ->|by injection Hct|by injection Hct|].
    injection Hct as Hct. by destruct (IH Hs Hl (y' :: l') r r' Hl' Hct) as [-> ->].
Qed.

Fixpoint nested_ind (P : JsValue -> Prop) (Hscalar : forall v, (forall l, v <> JArr l) -> (forall m, v <> JObj m) -> P v)
    (Harr : forall l, Forall P l -> P (JArr l)) (Hobj : forall m, Forall (fun kv => P kv.2) m -> P (JObj m))
    (v : JsValue) : P v.
Proof.
  destruct v as [| | | | |l|m]; [by apply Hscalar..| |].
  - apply Harr. induction l as [|w l IH]; constructor; [by apply nested_ind|exact IH].
  - apply Hobj. induction m as [|[k w] m IH]; constructor; [by apply nested_ind|exact IH].
Defined.

Lemma plain_list l : foldr (fun w Q => plain_value w /\ Q) True l <-> Forall plain_value l.
Proof. induction l as [|w l IH]; simpl; [done|]. by rewrite Forall_cons, IH. Qed.
Lemma plain_fields (m : JsRecord) :
  foldr (fun '(_, w) Q => plain_value w /\ Q) True m <-> Forall (fun kv => plain_value kv.2) m.
Proof. induction m as [|[k w] m IH]; simpl; [done|]. by rewrite Forall_cons, IH. Qed.

(** The entry of a field, and the entries of an object that has no undefined field. *)
Definition field_text (kv : string * JsValue) : list ascii := entry_text (kv.1, json_chars kv.2).
Lemma plain_entries (m : JsRecord) :
  Forall (fun kv => plain_value kv.2) m ->
  flat_map (fun '(k, w) => match w with JUndef => [] | _ => [entry_text (k, json_chars w)] end) m = map field_text m.
Proof. induction 1 as [|[k w] m Hw Hm IH]; simpl; [done|]. rewrite IH. by destruct w. Qed.

(** What a plain value's text begins with tells its kind. *)
Inductive json_kind : Type := KNum | KStr | KArr | KObj.
Definition kind_of (c : ascii) : json_kind :=
  if Ascii.eqb c dquote then KStr else if Ascii.eqb c "[" then KArr else if Ascii.eqb c "{" then KObj else KNum.
Definition value_kind (v : JsValue) : json_kind :=
  match v with JStr _ => KStr | JArr _ => KArr | JObj _ => KObj | _ => KNum end.

Lemma pretty_go_nonempty x s : s <> ""%string -> pretty_N_go x s <> ""%string.
Proof.
  revert s. induction (N.lt_wf_0 x) as [x _ IH]; intros s Hs. destruct (decide (x = 0)%N) as [->|Hx].
  - by rewrite pretty_N_go_0.
  - rewrite pretty_N_go_step by lia. apply IH; [apply N.div_lt; lia|done].
Qed.

Lemma pretty_Z_start z : exists d t, chars (pretty (z : Z)) = d :: t.
Proof.
  assert (forall p : positive, pretty (N.pos p) <> ""%string) as Hpos.
  { intros p. unfold pretty, pretty_N. destruct (decide _); [done|]. rewrite pretty_N_go_step by lia.
    by apply pretty_go_nonempty. }
  assert (pretty z <> ""%string) as Hne by (destruct z; [done|apply Hpos|done]).
  destruct (chars (pretty z)) as [|d t] eqn:Hz; [|by exists d, t]. destruct Hne.
  apply (f_equal unchars) in Hz. by rewrite unchars_chars in Hz.
Qed.

Lemma kind_start v : plain_value v -> exists d t, json_chars v = d :: t /\ kind_of d = value_kind v /\ ~ ends_value d.
Proof.
  destruct v as [| | |[z| | |]|s|l|m]; try done; intros _; cbn [json_chars json_number js_num_String value_kind].
  - destruct (pretty_Z_start z) as (d & t & Hd). exists d, t. split; [done|]. pose proof (number_chars z) as Hn.
    rewrite Hd in Hn. apply Forall_cons in Hn as [Hn _]. split; [|by apply number_no_end].
    destruct Hn as [Hn|Hn]; [|by subst]. destruct d as [[] [] [] [] [] [] [] []]; vm_compute in Hn; first [done|reflexivity].
  - do 2 eexists. split; [reflexivity|]. split; [done|]. intros [?|[?|?]]; discriminate.
  - do 2 eexists. split; [reflexivity|]. split; [done|]. intros [?|[?|?]]; discriminate.
  - do 2 eexists. split; [reflexivity|]. split; [done|]. intros [?|[?|?]]; discriminate.
Qed.

(** The text of a plain value ends where the value does, and determines it. *)
Lemma json_split v : plain_value v -> splits json_chars plain_value v.
Proof.
  induction v as [v Harr Hobj|l IH|m IH] using nested_ind; intros Hv w c c' r r' Hw Hc Hc' Heq.
  - assert (value_kind v = value_kind w) as Hk.
    { destruct (kind_start v Hv) as (d & t & Hd & Hkd & _), (kind_start w Hw) as (e & u & He & Hke & _).
      rewrite Hd, He in Heq. injection Heq as -> _. congruence. }
    destruct v as [| | |[z| | |]|s|l|m]; try done; [| |by destruct (Harr l)|by destruct (Hobj m)];
      destruct w as [| | |[z'| | |]|s'|l'|m']; try done.
    + apply (value_split (JNum (NInt z)) (JNum (NInt z')) c c'); [done..|exact Heq].
    + apply (value_split (JStr s) (JStr s') c c'); [done..|exact Heq].
  - assert (exists l', w = JArr l') as [l' ->].
    { destruct (kind_start w Hw) as (e & u & He & Hke & _). rewrite He in Heq. injection Heq as <- _.
      destruct w as [| | |[]| | |]; try done. by eexists. }
    simpl in Heq. injection Heq as Heq. rewrite <- !app_assoc in Heq. simpl in Heq, Hv, Hw. rewrite plain_list in Hv, Hw.
    destruct (separated_split json_chars plain_value "]"%char) with (l := l) (l' := l') (r := c :: r) (r' := c' :: r')
      as [-> Hr]; [done|by right; right| | |done|done|exact Heq|done].
    + intros x (d & t & Hd & _ & Hn)%kind_start. exists d, t. split; [done|]. intros ->. apply Hn. by right; right.
    + rewrite Forall_forall in IH, Hv |- *. intros x Hx. apply IH; [done|by apply Hv].
  - assert (exists m', w = JObj m') as [m' ->].
    { destruct (kind_start w Hw) as (e & u & He & Hke & _). rewrite He in Heq. injection Heq as <- _.
      destruct w as [| | |[]| | |]; try done. by eexists. }
    simpl in Heq. injection Heq as Heq. rewrite <- !app_assoc in Heq. simpl in Heq, Hv, Hw. rewrite plain_fields in Hv, Hw.
    rewrite !plain_entries in Heq by done.
    destruct (separated_split field_text (fun kv => plain_value kv.2) "}"%char) with (l := m) (l' := m')
      (r := c :: r) (r' := c' :: r') as [-> Hr]; [done|by right; left| | |done|done|exact Heq|done].
    + intros [k x] _. do 2 eexists. split; [reflexivity|done].
    + rewrite Forall_forall in IH, Hv |- *. intros [k x] Hx [k' y] e e' q q' Hy He He' Hq.
      unfold field_text, entry_text in Hq. simpl fst in Hq. simpl snd in Hq. rewrite <- !app_assoc in Hq.
      apply quote_inj in Hq as [-> Hq]. simpl in Hq. injection Hq as Hq.
      destruct (IH _ Hx (Hv _ Hx) y e e' q q' Hy He He' Hq) as [Hxy ->]. simpl in Hxy. by subst.
Qed.

Lemma stringify_inj v w : plain_value v -> plain_value w -> JSON_stringify v = JSON_stringify w -> v = w.
Proof.
  intros Hv Hw Heq. apply (f_equal chars) in Heq. unfold JSON_stringify in Heq. rewrite !chars_unchars in Heq.
  apply (json_split v Hv w ","%char ","%char [] [] Hw); [by left|by left|]. by rewrite Heq.
Qed.
