(* ===== verification/Types.v ===== *)
(** * The broker's data model (src/core/types.ts)

    Enumerations with the texts they have on the wire, and the records the
    broker stores and receives.  An optional property is an [option]; a
    [Record<string, unknown>] is a [JsRecord]; timestamps are strings. *)

From Stdlib Require Import ZArith String.
From stdpp Require Import base gmap strings list pretty.
From S2P Require Import Prelude JsRuntime.

(** ** Enumerations *)

Inductive A2APartyKind : Type :=
| KindSession
| KindNode
| KindUser
| KindService.
#[export] Instance A2APartyKind_eq_dec : EqDecision A2APartyKind.
Proof. solve_decision. Defined.
Definition A2APartyKind_text (x : A2APartyKind) : string :=
  match x with
  | KindSession => "session"
  | KindNode => "node"
  | KindUser => "user"
  | KindService => "service"
  end.

Inductive A2APartyRole : Type :=
| RoleHub
| RoleLiveTrader
| RoleResearcher
| RoleAnalyst
| RoleOperator.
#[export] Instance A2APartyRole_eq_dec : EqDecision A2APartyRole.
Proof. solve_decision. Defined.
Definition A2APartyRole_text (x : A2APartyRole) : string :=
  match x with
  | RoleHub => "hub"
  | RoleLiveTrader => "live-trader"
  | RoleResearcher => "researcher"
  | RoleAnalyst => "analyst"
  | RoleOperator => "operator"
  end.

Inductive A2AExchangeIntent : Type :=
| IntentChat
| IntentAnalyze
| IntentVerify
| IntentBackfill
| IntentProposePatch
| IntentProposeParams
| IntentValidateChange
| IntentApplyLocalChange
| IntentPromoteToLive
| IntentRollbackLive.
#[export] Instance A2AExchangeIntent_eq_dec : EqDecision A2AExchangeIntent.
Proof. solve_decision. Defined.
Definition A2AExchangeIntent_text (x : A2AExchangeIntent) : string :=
  match x with
  | IntentChat => "chat"
  | IntentAnalyze => "analyze"
  | IntentVerify => "verify"
  | IntentBackfill => "backfill"
  | IntentProposePatch => "propose_patch"
  | IntentProposeParams => "propose_params"
  | IntentValidateChange => "validate_change"
  | IntentApplyLocalChange => "apply_local_change"
  | IntentPromoteToLive => "promote_to_live"
  | IntentRollbackLive => "rollback_live"
  end.

Inductive A2AExchangeStatus : Type :=
| ExchangeQueued
| ExchangeRunning
| ExchangeCompleted
| ExchangeFailed.
#[export] Instance A2AExchangeStatus_eq_dec : EqDecision A2AExchangeStatus.
Proof. solve_decision. Defined.
Definition A2AExchangeStatus_text (x : A2AExchangeStatus) : string :=
  match x with
  | ExchangeQueued => "queued"
  | ExchangeRunning => "running"
  | ExchangeCompleted => "completed"
  | ExchangeFailed => "failed"
  end.

Inductive A2AExchangeMessageKind : Type :=
| MessageRoot
| MessageThread.
#[export] Instance A2AExchangeMessageKind_eq_dec : EqDecision A2AExchangeMessageKind.
Proof. solve_decision. Defined.
Definition A2AExchangeMessageKind_text (x : A2AExchangeMessageKind) : string :=
  match x with
  | MessageRoot => "root"
  | MessageThread => "thread"
  end.

Inductive A2AExchangeDecision : Type :=
| DecisionAccepted
| DecisionPartiallyAccepted
| DecisionNeedsClarification
| DecisionDeclined.
#[export] Instance A2AExchangeDecision_eq_dec : EqDecision A2AExchangeDecision.
Proof. solve_decision. Defined.
Definition A2AExchangeDecision_text (x : A2AExchangeDecision) : string :=
  match x with
  | DecisionAccepted => "accepted"
  | DecisionPartiallyAccepted => "partially_accepted"
  | DecisionNeedsClarification => "needs_clarification"
  | DecisionDeclined => "declined"
  end.

Inductive ProposalKind : Type :=
| ProposalPatch
| ProposalParams
| ProposalHybrid.
#[export] Instance ProposalKind_eq_dec : EqDecision ProposalKind.
Proof. solve_decision. Defined.
Definition ProposalKind_text (x : ProposalKind) : string :=
  match x with
  | ProposalPatch => "patch"
  | ProposalParams => "params"
  | ProposalHybrid => "hybrid"
  end.

Inductive ProposalStatus : Type :=
| StatusDraft
| StatusSubmitted
| StatusValidated
| StatusApproved
| StatusRejected
| StatusApplied
| StatusRolledBack.
#[export] Instance ProposalStatus_eq_dec : EqDecision ProposalStatus.
Proof. solve_decision. Defined.
Definition ProposalStatus_text (x : ProposalStatus) : string :=
  match x with
  | StatusDraft => "draft"
  | StatusSubmitted => "submitted"
  | StatusValidated => "validated"
  | StatusApproved => "approved"
  | StatusRejected => "rejected"
  | StatusApplied => "applied"
  | StatusRolledBack => "rolled_back"
  end.

Inductive ValidationKind : Type :=
| ValidationBackfill
| ValidationPaper
| ValidationReplay
| ValidationSmoke.
#[export] Instance ValidationKind_eq_dec : EqDecision ValidationKind.
Proof. solve_decision. Defined.
Definition ValidationKind_text (x : ValidationKind) : string :=
  match x with
  | ValidationBackfill => "backfill"
  | ValidationPaper => "paper"
  | ValidationReplay => "replay"
  | ValidationSmoke => "smoke"
  end.

Inductive ValidationVerdict : Type :=
| VerdictPass
| VerdictFail
| VerdictWarn.
#[export] Instance ValidationVerdict_eq_dec : EqDecision ValidationVerdict.
Proof. solve_decision. Defined.
Definition ValidationVerdict_text (x : ValidationVerdict) : string :=
  match x with
  | VerdictPass => "pass"
  | VerdictFail => "fail"
  | VerdictWarn => "warn"
  end.

Inductive TaskStatus : Type :=
| TaskBlocked
| TaskQueued
| TaskClaimed
| TaskRunning
| TaskSucceeded
| TaskFailed
| TaskCanceled.
#[export] Instance TaskStatus_eq_dec : EqDecision TaskStatus.
Proof. solve_decision. Defined.
Definition TaskStatus_text (x : TaskStatus) : string :=
  match x with
  | TaskBlocked => "blocked"
  | TaskQueued => "queued"
  | TaskClaimed => "claimed"
  | TaskRunning => "running"
  | TaskSucceeded => "succeeded"
  | TaskFailed => "failed"
  | TaskCanceled => "canceled"
  end.

Inductive AuditAction : Type :=
| AuditProposalCreated
| AuditArtifactAttached
| AuditValidationSubmitted
| AuditProposalApproved
| AuditProposalRejected
| AuditProposalApplied
| AuditExchangeMessageAdded
| AuditTaskCreated
| AuditTaskApproved
| AuditTaskApprovalRejected
| AuditTaskClaimed
| AuditTaskStarted
| AuditTaskHeartbeat
| AuditTaskReassigned
| AuditTaskRequeued
| AuditTaskSucceeded
| AuditTaskFailed
| AuditTaskCanceled
| AuditTaskUpdated
| AuditTaskTombstoned
| AuditTaskWakePlanned
| AuditTaskWakeScheduled
| AuditTaskWakeSkipped
| AuditTaskWakeFailed
| AuditWorkerRegistered
| AuditWorkerHeartbeat
| AuditBrokerCleanupApplied.
#[export] Instance AuditAction_eq_dec : EqDecision AuditAction.
Proof. solve_decision. Defined.
Definition AuditAction_text (x : AuditAction) : string :=
  match x with
  | AuditProposalCreated => "proposal.created"
  | AuditArtifactAttached => "artifact.attached"
  | AuditValidationSubmitted => "validation.submitted"
  | AuditProposalApproved => "proposal.approved"
  | AuditProposalRejected => "proposal.rejected"
  | AuditProposalApplied => "proposal.applied"
  | AuditExchangeMessageAdded => "exchange.message.added"
  | AuditTaskCreated => "task.created"
  | AuditTaskApproved => "task.approved"
  | AuditTaskApprovalRejected => "task.approval_rejected"
  | AuditTaskClaimed => "task.claimed"
  | AuditTaskStarted => "task.started"
  | AuditTaskHeartbeat => "task.heartbeat"
  | AuditTaskReassigned => "task.reassigned"
  | AuditTaskRequeued => "task.requeued"
  | AuditTaskSucceeded => "task.succeeded"
  | AuditTaskFailed => "task.failed"
  | AuditTaskCanceled => "task.canceled"
  | AuditTaskUpdated => "task.updated"
  | AuditTaskTombstoned => "task.tombstoned"
  | AuditTaskWakePlanned => "task.wake.planned"
  | AuditTaskWakeScheduled => "task.wake.scheduled"
  | AuditTaskWakeSkipped => "task.wake.skipped"
  | AuditTaskWakeFailed => "task.wake.failed"
  | AuditWorkerRegistered => "worker.registered"
  | AuditWorkerHeartbeat => "worker.heartbeat"
  | AuditBrokerCleanupApplied => "broker.cleanup.applied"
  end.

Inductive AuditTargetType : Type :=
| TargetProposal
| TargetArtifact
| TargetValidation
| TargetWorker
| TargetTask
| TargetExchange
| TargetExchangeMessage
| TargetBroker.
#[export] Instance AuditTargetType_eq_dec : EqDecision AuditTargetType.
Proof. solve_decision. Defined.
Definition AuditTargetType_text (x : AuditTargetType) : string :=
  match x with
  | TargetProposal => "proposal"
  | TargetArtifact => "artifact"
  | TargetValidation => "validation"
  | TargetWorker => "worker"
  | TargetTask => "task"
  | TargetExchange => "exchange"
  | TargetExchangeMessage => "exchange-message"
  | TargetBroker => "broker"
  end.

Inductive A2AWorkerEnvironment : Type :=
| EnvResearch
| EnvStaging
| EnvLive.
#[export] Instance A2AWorkerEnvironment_eq_dec : EqDecision A2AWorkerEnvironment.
Proof. solve_decision. Defined.
Definition A2AWorkerEnvironment_text (x : A2AWorkerEnvironment) : string :=
  match x with
  | EnvResearch => "research"
  | EnvStaging => "staging"
  | EnvLive => "live"
  end.

Inductive WorkerStatus : Type :=
| WorkerOnline
| WorkerStale.
#[export] Instance WorkerStatus_eq_dec : EqDecision WorkerStatus.
Proof. solve_decision. Defined.
Definition WorkerStatus_text (x : WorkerStatus) : string :=
  match x with
  | WorkerOnline => "online"
  | WorkerStale => "stale"
  end.

Inductive WorkerMode : Type :=
| ModePersistent
| ModeMobile.
#[export] Instance WorkerMode_eq_dec : EqDecision WorkerMode.
Proof. solve_decision. Defined.
Definition WorkerMode_text (x : WorkerMode) : string :=
  match x with
  | ModePersistent => "persistent"
  | ModeMobile => "mobile"
  end.

Inductive TaskOrigin : Type :=
| OriginGithub
| OriginApi
| OriginSessionsSend
| OriginOperator
| OriginUnknown.
#[export] Instance TaskOrigin_eq_dec : EqDecision TaskOrigin.
Proof. solve_decision. Defined.
Definition TaskOrigin_text (x : TaskOrigin) : string :=
  match x with
  | OriginGithub => "github"
  | OriginApi => "api"
  | OriginSessionsSend => "sessions_send"
  | OriginOperator => "operator"
  | OriginUnknown => "unknown"
  end.

Inductive TaskApprovalOutcomeStatus : Type :=
| ApprovalApproved
| ApprovalRejected
| ApprovalExpired
| ApprovalCanceled.
#[export] Instance TaskApprovalOutcomeStatus_eq_dec : EqDecision TaskApprovalOutcomeStatus.
Proof. solve_decision. Defined.
Definition TaskApprovalOutcomeStatus_text (x : TaskApprovalOutcomeStatus) : string :=
  match x with
  | ApprovalApproved => "approved"
  | ApprovalRejected => "rejected"
  | ApprovalExpired => "expired"
  | ApprovalCanceled => "canceled"
  end.

Inductive TaskWakeStatus : Type :=
| WakePlanned
| WakeScheduled
| WakeSkipped
| WakeFailed.
#[export] Instance TaskWakeStatus_eq_dec : EqDecision TaskWakeStatus.
Proof. solve_decision. Defined.
Definition TaskWakeStatus_text (x : TaskWakeStatus) : string :=
  match x with
  | WakePlanned => "planned"
  | WakeScheduled => "scheduled"
  | WakeSkipped => "skipped"
  | WakeFailed => "failed"
  end.

Inductive TombstoneReason : Type :=
| TombstoneFailed
| TombstoneCanceled
| TombstoneTimeout
| TombstoneDeadLettered
| TombstoneWorkerLost.
#[export] Instance TombstoneReason_eq_dec : EqDecision TombstoneReason.
Proof. solve_decision. Defined.
Definition TombstoneReason_text (x : TombstoneReason) : string :=
  match x with
  | TombstoneFailed => "failed"
  | TombstoneCanceled => "canceled"
  | TombstoneTimeout => "timeout"
  | TombstoneDeadLettered => "dead_lettered"
  | TombstoneWorkerLost => "worker_lost"
  end.

Inductive TaskDiagnosticStatus : Type :=
| DiagnosticActive
| DiagnosticStale
| DiagnosticLongRunning
| DiagnosticTerminal.
#[export] Instance TaskDiagnosticStatus_eq_dec : EqDecision TaskDiagnosticStatus.
Proof. solve_decision. Defined.
Definition TaskDiagnosticStatus_text (x : TaskDiagnosticStatus) : string :=
  match x with
  | DiagnosticActive => "active"
  | DiagnosticStale => "stale"
  | DiagnosticLongRunning => "long_running"
  | DiagnosticTerminal => "terminal"
  end.

Inductive TaskBrokerState : Type :=
| BrokerHealthy
| BrokerReconcileNeeded
| BrokerInterrupted
| BrokerTerminal.
#[export] Instance TaskBrokerState_eq_dec : EqDecision TaskBrokerState.
Proof. solve_decision. Defined.
Definition TaskBrokerState_text (x : TaskBrokerState) : string :=
  match x with
  | BrokerHealthy => "healthy"
  | BrokerReconcileNeeded => "reconcile_needed"
  | BrokerInterrupted => "interrupted"
  | BrokerTerminal => "terminal"
  end.

Inductive TaskInterruptionKind : Type :=
| InterruptionStaleLease
| InterruptionStaleWorker
| InterruptionRequeued
| InterruptionOperatorCanceled
| InterruptionTimeout
| InterruptionWorkerLost
| InterruptionDeadLettered
| InterruptionFailed.
#[export] Instance TaskInterruptionKind_eq_dec : EqDecision TaskInterruptionKind.
Proof. solve_decision. Defined.
Definition TaskInterruptionKind_text (x : TaskInterruptionKind) : string :=
  match x with
  | InterruptionStaleLease => "stale_lease"
  | InterruptionStaleWorker => "stale_worker"
  | InterruptionRequeued => "requeued"
  | InterruptionOperatorCanceled => "operator_canceled"
  | InterruptionTimeout => "timeout"
  | InterruptionWorkerLost => "worker_lost"
  | InterruptionDeadLettered => "dead_lettered"
  | InterruptionFailed => "failed"
  end.

Inductive InterruptionSource : Type :=
| SourceTaskState
| SourceWorkerState
| SourceAudit
| SourceTombstone.
#[export] Instance InterruptionSource_eq_dec : EqDecision InterruptionSource.
Proof. solve_decision. Defined.
Definition InterruptionSource_text (x : InterruptionSource) : string :=
  match x with
  | SourceTaskState => "task_state"
  | SourceWorkerState => "worker_state"
  | SourceAudit => "audit"
  | SourceTombstone => "tombstone"
  end.

(** ** Records *)

Record A2APartyRef : Type := mkA2APartyRef {
  party_id : string;
  party_kind : option A2APartyKind;
  party_role : option A2APartyRole;
}.
#[export] Instance eta_A2APartyRef : Eta A2APartyRef := fun r =>
  mkA2APartyRef (party_id r) (party_kind r) (party_role r).

Record A2AExchangeVia : Type := mkA2AExchangeVia {
  via_transport : option string;
  via_channel : option string;
  via_nodeId : option string;
  via_sessionId : option string;
  via_traceId : option string;
}.
#[export] Instance eta_A2AExchangeVia : Eta A2AExchangeVia := fun r =>
  mkA2AExchangeVia (via_transport r) (via_channel r) (via_nodeId r) (via_sessionId r) (via_traceId r).

Record WorkspaceRef : Type := mkWorkspaceRef {
  ws_nodeId : string;
  ws_workspaceId : string;
  ws_pathHint : option string;
  ws_branch : option string;
  ws_strategyId : option string;
}.
#[export] Instance eta_WorkspaceRef : Eta WorkspaceRef := fun r =>
  mkWorkspaceRef (ws_nodeId r) (ws_workspaceId r) (ws_pathHint r) (ws_branch r) (ws_strategyId r).

Record A2AExchangeRequest : Type := mkA2AExchangeRequest {
  xr_requester : A2APartyRef;
  xr_target : A2APartyRef;
  xr_message : string;
  xr_maxTurns : option Z;
  xr_intent : option A2AExchangeIntent;
  xr_via : option A2AExchangeVia;
}.
#[export] Instance eta_A2AExchangeRequest : Eta A2AExchangeRequest := fun r =>
  mkA2AExchangeRequest (xr_requester r) (xr_target r) (xr_message r) (xr_maxTurns r) (xr_intent r) (xr_via r).

Record A2AExchangeMessageRecord : Type := mkA2AExchangeMessageRecord {
  msg_id : string;
  msg_exchangeId : string;
  msg_kind : A2AExchangeMessageKind;
  msg_message : string;
  msg_requester : option A2APartyRef;
  msg_actor : option A2APartyRef;
  msg_via : option A2AExchangeVia;
  msg_decision : option A2AExchangeDecision;
  msg_targetNodeId : option string;
  msg_assignedWorkerId : option string;
  msg_parentMessageId : option string;
  msg_createdAt : string;
  msg_updatedAt : string;
}.
#[export] Instance eta_A2AExchangeMessageRecord : Eta A2AExchangeMessageRecord := fun r =>
  mkA2AExchangeMessageRecord (msg_id r) (msg_exchangeId r) (msg_kind r) (msg_message r) (msg_requester r) (msg_actor r) (msg_via r) (msg_decision r) (msg_targetNodeId r) (msg_assignedWorkerId r) (msg_parentMessageId r) (msg_createdAt r) (msg_updatedAt r).

Record A2AExchangeMessageRequest : Type := mkA2AExchangeMessageRequest {
  mr_actor : option A2APartyRef;
  mr_message : string;
  mr_via : option A2AExchangeVia;
  mr_decision : option A2AExchangeDecision;
  mr_targetNodeId : option string;
  mr_assignedWorkerId : option string;
  mr_parentMessageId : option string;
}.
#[export] Instance eta_A2AExchangeMessageRequest : Eta A2AExchangeMessageRequest := fun r =>
  mkA2AExchangeMessageRequest (mr_actor r) (mr_message r) (mr_via r) (mr_decision r) (mr_targetNodeId r) (mr_assignedWorkerId r) (mr_parentMessageId r).

Record A2AExchangeState : Type := mkA2AExchangeState {
  ex_id : string;
  ex_requester : A2APartyRef;
  ex_target : A2APartyRef;
  ex_targetNodeId : string;
  ex_assignedWorkerId : option string;
  ex_message : string;
  ex_maxTurns : Z;
  ex_intent : A2AExchangeIntent;
  ex_status : A2AExchangeStatus;
  ex_currentDecision : option A2AExchangeDecision;
  ex_rootMessageId : string;
  ex_latestMessageId : string;
  ex_messageCount : Z;
  ex_lastMessageAt : string;
  ex_activeTaskId : option string;
  ex_createdAt : string;
  ex_updatedAt : string;
}.
#[export] Instance eta_A2AExchangeState : Eta A2AExchangeState := fun r =>
  mkA2AExchangeState (ex_id r) (ex_requester r) (ex_target r) (ex_targetNodeId r) (ex_assignedWorkerId r) (ex_message r) (ex_maxTurns r) (ex_intent r) (ex_status r) (ex_currentDecision r) (ex_rootMessageId r) (ex_latestMessageId r) (ex_messageCount r) (ex_lastMessageAt r) (ex_activeTaskId r) (ex_createdAt r) (ex_updatedAt r).

Record TaskPolicyContext : Type := mkTaskPolicyContext {
  pc_requiresApproval : option bool;
  pc_liveImpact : option bool;
  pc_targetEnvironment : option A2AWorkerEnvironment;
}.
#[export] Instance eta_TaskPolicyContext : Eta TaskPolicyContext := fun r =>
  mkTaskPolicyContext (pc_requiresApproval r) (pc_liveImpact r) (pc_targetEnvironment r).

Record TaskValidationPayload : Type := mkTaskValidationPayload {
  tv_nodeId : option string;
  tv_kind : ValidationKind;
  tv_verdict : ValidationVerdict;
  tv_metrics : option JsRecord;
  tv_artifactIds : option (list string);
  tv_note : option string;
}.
#[export] Instance eta_TaskValidationPayload : Eta TaskValidationPayload := fun r =>
  mkTaskValidationPayload (tv_nodeId r) (tv_kind r) (tv_verdict r) (tv_metrics r) (tv_artifactIds r) (tv_note r).

Record TaskApplyPayload : Type := mkTaskApplyPayload {
  ta_workspace : option WorkspaceRef;
  ta_artifactIds : option (list string);
  ta_note : option string;
}.
#[export] Instance eta_TaskApplyPayload : Eta TaskApplyPayload := fun r =>
  mkTaskApplyPayload (ta_workspace r) (ta_artifactIds r) (ta_note r).

Record TaskResult : Type := mkTaskResult {
  res_summary : option string;
  res_note : option string;
  res_artifactIds : option (list string);
  res_output : option JsRecord;
  res_validation : option TaskValidationPayload;
  res_apply : option TaskApplyPayload;
}.
#[export] Instance eta_TaskResult : Eta TaskResult := fun r =>
  mkTaskResult (res_summary r) (res_note r) (res_artifactIds r) (res_output r) (res_validation r) (res_apply r).

Record TaskError : Type := mkTaskError {
  err_code : option string;
  err_message : string;
  err_details : option JsRecord;
}.
#[export] Instance eta_TaskError : Eta TaskError := fun r =>
  mkTaskError (err_code r) (err_message r) (err_details r).

Record TaskCancellationInfo : Type := mkTaskCancellationInfo {
  can_requestedAt : string;
  can_requestedBy : string;
  can_reason : option string;
  can_sourceTaskId : option string;
}.
#[export] Instance eta_TaskCancellationInfo : Eta TaskCancellationInfo := fun r =>
  mkTaskCancellationInfo (can_requestedAt r) (can_requestedBy r) (can_reason r) (can_sourceTaskId r).

Record TaskApprovalInfo : Type := mkTaskApprovalInfo {
  apr_approvalId : string;
  apr_approvedAt : string;
  apr_approvedBy : string;
  apr_actorRole : option A2APartyRole;
  apr_requesterRole : option A2APartyRole;
  apr_reason : option string;
}.
#[export] Instance eta_TaskApprovalInfo : Eta TaskApprovalInfo := fun r =>
  mkTaskApprovalInfo (apr_approvalId r) (apr_approvedAt r) (apr_approvedBy r) (apr_actorRole r) (apr_requesterRole r) (apr_reason r).

Record TaskApprovalOutcomeInfo : Type := mkTaskApprovalOutcomeInfo {
  out_status : TaskApprovalOutcomeStatus;
  out_approvalId : string;
  out_decidedAt : string;
  out_decidedBy : string;
  out_actorRole : option A2APartyRole;
  out_requesterRole : option A2APartyRole;
  out_reason : option string;
}.
#[export] Instance eta_TaskApprovalOutcomeInfo : Eta TaskApprovalOutcomeInfo := fun r =>
  mkTaskApprovalOutcomeInfo (out_status r) (out_approvalId r) (out_decidedAt r) (out_decidedBy r) (out_actorRole r) (out_requesterRole r) (out_reason r).

(** [TaskApprovalRequest] and [TaskApprovalTerminalRequest]; the status is read only by the latter's handler. *)
Record TaskApprovalRequest : Type := mkTaskApprovalRequest {
  ar_actor : option A2APartyRef;
  ar_reason : option string;
  ar_approvalId : option string;
  ar_status : option string;
}.
#[export] Instance eta_TaskApprovalRequest : Eta TaskApprovalRequest := fun r =>
  mkTaskApprovalRequest (ar_actor r) (ar_reason r) (ar_approvalId r) (ar_status r).

Record TaskWakeState : Type := mkTaskWakeState {
  wk_status : TaskWakeStatus;
  wk_wakeKey : string;
  wk_idempotencyKey : string;
  wk_targetSessionKey : string;
  wk_targetNodeId : option string;
  wk_waitRunId : option string;
  wk_correlationId : option string;
  wk_parentRunId : option string;
  wk_coalesced : option bool;
  wk_runtimeRunId : option string;
  wk_code : option string;
  wk_message : option string;
  wk_plannedAt : string;
  wk_updatedAt : string;
  wk_decidedAt : option string;
  wk_replayCount : option Z;
}.
#[export] Instance eta_TaskWakeState : Eta TaskWakeState := fun r =>
  mkTaskWakeState (wk_status r) (wk_wakeKey r) (wk_idempotencyKey r) (wk_targetSessionKey r) (wk_targetNodeId r) (wk_waitRunId r) (wk_correlationId r) (wk_parentRunId r) (wk_coalesced r) (wk_runtimeRunId r) (wk_code r) (wk_message r) (wk_plannedAt r) (wk_updatedAt r) (wk_decidedAt r) (wk_replayCount r).

Record TaskWakePlanRequest : Type := mkTaskWakePlanRequest {
  wp_targetSessionKey : option string;
  wp_targetNodeId : option string;
  wp_waitRunId : option string;
  wp_correlationId : option string;
  wp_parentRunId : option string;
  wp_wakeKey : option string;
  wp_idempotencyKey : option string;
  wp_message : option string;
}.
#[export] Instance eta_TaskWakePlanRequest : Eta TaskWakePlanRequest := fun r =>
  mkTaskWakePlanRequest (wp_targetSessionKey r) (wp_targetNodeId r) (wp_waitRunId r) (wp_correlationId r) (wp_parentRunId r) (wp_wakeKey r) (wp_idempotencyKey r) (wp_message r).

Record TaskWakeDecisionRequest : Type := mkTaskWakeDecisionRequest {
  wd_status : TaskWakeStatus;
  wd_coalesced : option bool;
  wd_runtimeRunId : option string;
  wd_code : option string;
  wd_message : option string;
}.
#[export] Instance eta_TaskWakeDecisionRequest : Eta TaskWakeDecisionRequest := fun r =>
  mkTaskWakeDecisionRequest (wd_status r) (wd_coalesced r) (wd_runtimeRunId r) (wd_code r) (wd_message r).

Record CreateTaskRequest : Type := mkCreateTaskRequest {
  ct_id : option string;
  ct_exchangeId : option string;
  ct_parentTaskId : option string;
  ct_referenceTaskIds : option (list string);
  ct_intent : A2AExchangeIntent;
  ct_requester : A2APartyRef;
  ct_target : A2APartyRef;
  ct_workspace : option WorkspaceRef;
  ct_message : option string;
  ct_proposalId : option string;
  ct_artifactIds : option (list string);
  ct_assignedWorkerId : option string;
  ct_via : option A2AExchangeVia;
  ct_policyContext : option TaskPolicyContext;
  ct_createdAt : option string;
  ct_payload : option JsRecord;
  ct_taskOrigin : option TaskOrigin;
  ct_brokerOfRecord : option string;
  ct_teamId : option string;
}.
#[export] Instance eta_CreateTaskRequest : Eta CreateTaskRequest := fun r =>
  mkCreateTaskRequest (ct_id r) (ct_exchangeId r) (ct_parentTaskId r) (ct_referenceTaskIds r) (ct_intent r) (ct_requester r) (ct_target r) (ct_workspace r) (ct_message r) (ct_proposalId r) (ct_artifactIds r) (ct_assignedWorkerId r) (ct_via r) (ct_policyContext r) (ct_createdAt r) (ct_payload r) (ct_taskOrigin r) (ct_brokerOfRecord r) (ct_teamId r).

(** [A2ATaskRequest] extended by [TaskRecord]. *)
Record TaskRecord : Type := mkTaskRecord {
  task_id : string;
  task_exchangeId : option string;
  task_parentTaskId : option string;
  task_referenceTaskIds : option (list string);
  task_intent : A2AExchangeIntent;
  task_requester : A2APartyRef;
  task_target : A2APartyRef;
  task_workspace : option WorkspaceRef;
  task_message : option string;
  task_proposalId : option string;
  task_artifactIds : list string;
  task_assignedWorkerId : option string;
  task_via : option A2AExchangeVia;
  task_policyContext : option TaskPolicyContext;
  task_createdAt : string;
  task_status : TaskStatus;
  task_targetNodeId : string;
  task_payload : JsRecord;
  task_updatedAt : string;
  task_claimedAt : option string;
  task_completedAt : option string;
  task_claimedBy : option string;
  task_result : option TaskResult;
  task_error : option TaskError;
  task_cancellation : option TaskCancellationInfo;
  task_approval : option TaskApprovalInfo;
  task_approvalOutcome : option TaskApprovalOutcomeInfo;
  task_requeueCount : option Z;
  task_lastHeartbeatAt : option string;
  task_attemptId : option string;
  task_wake : option TaskWakeState;
  task_taskOrigin : option TaskOrigin;
  task_brokerOfRecord : option string;
  task_teamId : option string;
}.
#[export] Instance eta_TaskRecord : Eta TaskRecord := fun r =>
  mkTaskRecord (task_id r) (task_exchangeId r) (task_parentTaskId r) (task_referenceTaskIds r) (task_intent r) (task_requester r) (task_target r) (task_workspace r) (task_message r) (task_proposalId r) (task_artifactIds r) (task_assignedWorkerId r) (task_via r) (task_policyContext r) (task_createdAt r) (task_status r) (task_targetNodeId r) (task_payload r) (task_updatedAt r) (task_claimedAt r) (task_completedAt r) (task_claimedBy r) (task_result r) (task_error r) (task_cancellation r) (task_approval r) (task_approvalOutcome r) (task_requeueCount r) (task_lastHeartbeatAt r) (task_attemptId r) (task_wake r) (task_taskOrigin r) (task_brokerOfRecord r) (task_teamId r).

Record TaskReassignRequest : Type := mkTaskReassignRequest {
  rr_actor : option A2APartyRef;
  rr_targetNodeId : option string;
  rr_assignedWorkerId : option string;
  rr_note : option string;
}.
#[export] Instance eta_TaskReassignRequest : Eta TaskReassignRequest := fun r =>
  mkTaskReassignRequest (rr_actor r) (rr_targetNodeId r) (rr_assignedWorkerId r) (rr_note r).

Record TaskListFilters : Type := mkTaskListFilters {
  tf_exchangeId : option string;
  tf_status : option TaskStatus;
  tf_targetNodeId : option string;
  tf_proposalId : option string;
  tf_intent : option A2AExchangeIntent;
  tf_claimedBy : option string;
  tf_assignedWorkerId : option string;
  tf_taskOrigin : option TaskOrigin;
  tf_limit : option Z;
}.
#[export] Instance eta_TaskListFilters : Eta TaskListFilters := fun r =>
  mkTaskListFilters (tf_exchangeId r) (tf_status r) (tf_targetNodeId r) (tf_proposalId r) (tf_intent r) (tf_claimedBy r) (tf_assignedWorkerId r) (tf_taskOrigin r) (tf_limit r).

Record ChangeProposal : Type := mkChangeProposal {
  pr_id : string;
  pr_source : A2APartyRef;
  pr_target : A2APartyRef;
  pr_sourceNodeId : string;
  pr_targetNodeId : string;
  pr_kind : ProposalKind;
  pr_summary : string;
  pr_rationale : option string;
  pr_workspace : WorkspaceRef;
  pr_patchText : option string;
  pr_parameterPayload : option JsRecord;
  pr_artifactIds : list string;
  pr_status : ProposalStatus;
  pr_createdAt : string;
  pr_updatedAt : string;
}.
#[export] Instance eta_ChangeProposal : Eta ChangeProposal := fun r =>
  mkChangeProposal (pr_id r) (pr_source r) (pr_target r) (pr_sourceNodeId r) (pr_targetNodeId r) (pr_kind r) (pr_summary r) (pr_rationale r) (pr_workspace r) (pr_patchText r) (pr_parameterPayload r) (pr_artifactIds r) (pr_status r) (pr_createdAt r) (pr_updatedAt r).

Record ArtifactRecord : Type := mkArtifactRecord {
  art_id : string;
  art_proposalId : string;
  art_kind : string;
  art_uri : string;
  art_contentType : option string;
  art_sizeBytes : option Z;
  art_summary : option string;
  art_createdAt : string;
}.
#[export] Instance eta_ArtifactRecord : Eta ArtifactRecord := fun r =>
  mkArtifactRecord (art_id r) (art_proposalId r) (art_kind r) (art_uri r) (art_contentType r) (art_sizeBytes r) (art_summary r) (art_createdAt r).

Record ValidationResult : Type := mkValidationResult {
  val_id : string;
  val_proposalId : string;
  val_nodeId : string;
  val_kind : ValidationKind;
  val_verdict : ValidationVerdict;
  val_metrics : JsRecord;
  val_artifactIds : list string;
  val_note : option string;
  val_createdAt : string;
}.
#[export] Instance eta_ValidationResult : Eta ValidationResult := fun r =>
  mkValidationResult (val_id r) (val_proposalId r) (val_nodeId r) (val_kind r) (val_verdict r) (val_metrics r) (val_artifactIds r) (val_note r) (val_createdAt r).

Record AuditEvent : Type := mkAuditEvent {
  aud_id : string;
  aud_actorId : string;
  aud_action : AuditAction;
  aud_targetType : AuditTargetType;
  aud_targetId : string;
  aud_proposalId : option string;
  aud_note : option string;
  aud_createdAt : string;
}.
#[export] Instance eta_AuditEvent : Eta AuditEvent := fun r =>
  mkAuditEvent (aud_id r) (aud_actorId r) (aud_action r) (aud_targetType r) (aud_targetId r) (aud_proposalId r) (aud_note r) (aud_createdAt r).

Record WorkerCapabilities : Type := mkWorkerCapabilities {
  canAnalyze : bool;
  canBackfill : bool;
  canPatchWorkspace : bool;
  canPromoteLive : bool;
  workspaceIds : list string;
  environments : list A2AWorkerEnvironment;
}.
#[export] Instance eta_WorkerCapabilities : Eta WorkerCapabilities := fun r =>
  mkWorkerCapabilities (canAnalyze r) (canBackfill r) (canPatchWorkspace r) (canPromoteLive r) (workspaceIds r) (environments r).

#[export] Instance WorkerCapabilities_eq_dec : EqDecision WorkerCapabilities.
Proof. solve_decision. Defined.

Record WorkerRecord : Type := mkWorkerRecord {
  wr_nodeId : string;
  wr_role : A2APartyRole;
  wr_displayName : option string;
  wr_brokerUrl : option string;
  wr_capabilities : WorkerCapabilities;
  wr_workerMode : option WorkerMode;
  wr_metadata : option (list (string * string));
  wr_createdAt : string;
  wr_updatedAt : string;
  wr_lastSeenAt : string;
}.
#[export] Instance eta_WorkerRecord : Eta WorkerRecord := fun r =>
  mkWorkerRecord (wr_nodeId r) (wr_role r) (wr_displayName r) (wr_brokerUrl r) (wr_capabilities r) (wr_workerMode r) (wr_metadata r) (wr_createdAt r) (wr_updatedAt r) (wr_lastSeenAt r).

(** The capabilities arrive as the caller sent them; [normalizeCapabilities] reads them. *)
Record RegisterWorkerRequest : Type := mkRegisterWorkerRequest {
  rw_nodeId : string;
  rw_role : option A2APartyRole;
  rw_displayName : option string;
  rw_brokerUrl : option string;
  rw_capabilities : JsValue;
  rw_workerMode : option WorkerMode;
  rw_metadata : option (list (string * string));
}.
#[export] Instance eta_RegisterWorkerRequest : Eta RegisterWorkerRequest := fun r =>
  mkRegisterWorkerRequest (rw_nodeId r) (rw_role r) (rw_displayName r) (rw_brokerUrl r) (rw_capabilities r) (rw_workerMode r) (rw_metadata r).

Record WorkerHeartbeatRequest : Type := mkWorkerHeartbeatRequest {
  hb_displayName : option string;
  hb_brokerUrl : option string;
  hb_capabilities : JsValue;
  hb_workerMode : option WorkerMode;
  hb_metadata : option (list (string * string));
}.
#[export] Instance eta_WorkerHeartbeatRequest : Eta WorkerHeartbeatRequest := fun r =>
  mkWorkerHeartbeatRequest (hb_displayName r) (hb_brokerUrl r) (hb_capabilities r) (hb_workerMode r) (hb_metadata r).

Record WorkerListFilters : Type := mkWorkerListFilters {
  wf_role : option A2APartyRole;
  wf_environment : option A2AWorkerEnvironment;
  wf_workspaceId : option string;
}.
#[export] Instance eta_WorkerListFilters : Eta WorkerListFilters := fun r =>
  mkWorkerListFilters (wf_role r) (wf_environment r) (wf_workspaceId r).

Record CreateProposalRequest : Type := mkCreateProposalRequest {
  cp_source : A2APartyRef;
  cp_target : A2APartyRef;
  cp_kind : ProposalKind;
  cp_summary : string;
  cp_rationale : option string;
  cp_workspace : WorkspaceRef;
  cp_patchText : option string;
  cp_parameterPayload : option JsRecord;
  cp_artifactIds : option (list string);
}.
#[export] Instance eta_CreateProposalRequest : Eta CreateProposalRequest := fun r =>
  mkCreateProposalRequest (cp_source r) (cp_target r) (cp_kind r) (cp_summary r) (cp_rationale r) (cp_workspace r) (cp_patchText r) (cp_parameterPayload r) (cp_artifactIds r).

Record AttachArtifactRequest : Type := mkAttachArtifactRequest {
  aa_kind : string;
  aa_uri : string;
  aa_contentType : option string;
  aa_sizeBytes : option Z;
  aa_summary : option string;
}.
#[export] Instance eta_AttachArtifactRequest : Eta AttachArtifactRequest := fun r =>
  mkAttachArtifactRequest (aa_kind r) (aa_uri r) (aa_contentType r) (aa_sizeBytes r) (aa_summary r).

Record SubmitValidationRequest : Type := mkSubmitValidationRequest {
  sv_nodeId : string;
  sv_kind : ValidationKind;
  sv_verdict : ValidationVerdict;
  sv_metrics : option JsRecord;
  sv_artifactIds : option (list string);
  sv_note : option string;
}.
#[export] Instance eta_SubmitValidationRequest : Eta SubmitValidationRequest := fun r =>
  mkSubmitValidationRequest (sv_nodeId r) (sv_kind r) (sv_verdict r) (sv_metrics r) (sv_artifactIds r) (sv_note r).

(** [ProposalActorRequest]; the workspace of [ApplyProposalRequest] is an argument of its handler. *)
Record ProposalActorRequest : Type := mkProposalActorRequest {
  pa_actor : option A2APartyRef;
  pa_note : option string;
}.
#[export] Instance eta_ProposalActorRequest : Eta ProposalActorRequest := fun r =>
  mkProposalActorRequest (pa_actor r) (pa_note r).

Record ProposalListFilters : Type := mkProposalListFilters {
  pf_status : option ProposalStatus;
  pf_sourceNodeId : option string;
  pf_targetNodeId : option string;
  pf_kind : option ProposalKind;
}.
#[export] Instance eta_ProposalListFilters : Eta ProposalListFilters := fun r =>
  mkProposalListFilters (pf_status r) (pf_sourceNodeId r) (pf_targetNodeId r) (pf_kind r).

Record TaskInterruptionDiagnostic : Type := mkTaskInterruptionDiagnostic {
  int_kind : TaskInterruptionKind;
  int_source : InterruptionSource;
  int_summary : string;
  int_detectedAt : option string;
  int_actorId : option string;
  int_reason : option string;
}.
#[export] Instance eta_TaskInterruptionDiagnostic : Eta TaskInterruptionDiagnostic := fun r =>
  mkTaskInterruptionDiagnostic (int_kind r) (int_source r) (int_summary r) (int_detectedAt r) (int_actorId r) (int_reason r).

(** The duration is [None] when a timestamp does not parse (NaN); the metadata is the pair of actor id and cancel reason. *)
Record TaskTombstone : Type := mkTaskTombstone {
  tb_taskId : string;
  tb_terminalStatus : TaskStatus;
  tb_tombstoneReason : TombstoneReason;
  tb_durationMs : option Z;
  tb_requeueCount : Z;
  tb_error : option TaskError;
  tb_result : option TaskResult;
  tb_tombstonedAt : string;
  tb_metadata : option (option string * option string);
}.
#[export] Instance eta_TaskTombstone : Eta TaskTombstone := fun r =>
  mkTaskTombstone (tb_taskId r) (tb_terminalStatus r) (tb_tombstoneReason r) (tb_durationMs r) (tb_requeueCount r) (tb_error r) (tb_result r) (tb_tombstonedAt r) (tb_metadata r).

(** ** Small predicates the handlers share *)

Definition isTerminalTaskStatus (s : TaskStatus) : bool :=
  match s with TaskSucceeded | TaskFailed | TaskCanceled => true | _ => false end.

Definition isTerminalExchangeStatus (s : A2AExchangeStatus) : bool :=
  match s with ExchangeCompleted | ExchangeFailed => true | _ => false end.

Definition isTerminalProposalStatus (s : ProposalStatus) : bool :=
  match s with StatusRejected | StatusApplied | StatusRolledBack => true | _ => false end.

Definition role_is (o : option A2APartyRole) (r : A2APartyRole) : bool :=
  bool_decide (o = Some r).
