(* ===== verification/EventBuffer.v ===== *)
(** * The cursor buffer (src/core/event-buffer.ts)

    [CursorEventBuffer]: ids that only grow, a bounded FIFO of events, and replay
    after a cursor.  The invariant [buffer_ok] is what its clients use: ids are
    strictly increasing, at most [nextId], and at most [maxEvents] are kept. *)

From Stdlib Require Import ZArith Lia String Sorted.
From stdpp Require Import base strings list sets.
From S2P Require Import Prelude JsRuntime.

Record CursorEventBuffer (E : Type) : Type := mkCursorEventBuffer {
  cb_events : list E;
  cb_maxEvents : Z;
  cb_nextId : Z;
}.
Arguments mkCursorEventBuffer {E} _ _ _.
Arguments cb_events {E} _.
Arguments cb_maxEvents {E} _.
Arguments cb_nextId {E} _.
#[export] Instance eta_CursorEventBuffer {E} : Eta (CursorEventBuffer E) := fun r =>
  mkCursorEventBuffer (cb_events r) (cb_maxEvents r) (cb_nextId r).

(** [splice(0, length - max)] when the list is longer than [max]. *)
Definition trim_oldest {A} (max : Z) (l : list A) : list A :=
  if (max <? Z.of_nat (length l))%Z then drop (length l - Z.to_nat max) l else l.

Section Buffer.
Context {E : Type} (event_id : E -> Z).
Implicit Types b : CursorEventBuffer E.

Definition new_buffer (maxEvents : Z) : CursorEventBuffer E := mkCursorEventBuffer [] maxEvents 0.

Definition allocateId b : CursorEventBuffer E * Z :=
  let b := b <| cb_nextId ::= Z.add 1 |> in (b, cb_nextId b).

Definition push (e : E) b : CursorEventBuffer E :=
  b <| cb_events := trim_oldest (cb_maxEvents b) (cb_events b ++ [e]) |>.

(** The loop of [subscribe]: [taken] events are in the result already. *)
Fixpoint subscribe_loop (afterId : Z) (limit : option Z) (matches : E -> bool) (taken : Z)
    (l : list E) : list E :=
  match l with
  | [] => []
  | e :: l =>
      if (event_id e <=? afterId)%Z then subscribe_loop afterId limit matches taken l
      else if negb (matches e) then subscribe_loop afterId limit matches taken l
      else
        let taken := (taken + 1)%Z in
        e :: (if match limit with Some n => (n <=? taken)%Z | None => false end
              then [] else subscribe_loop afterId limit matches taken l)
  end.

Definition subscribe (afterId limit : option Z) (matches : E -> bool) b : list E :=
  subscribe_loop (afterId ?? 0%Z) limit matches 0 (cb_events b).

Definition latestId b : Z := cb_nextId b.
Definition buffer_size b : nat := length (cb_events b).

(** ** The invariant *)

Record buffer_ok b : Prop := {
  ok_sorted : StronglySorted (fun x y => (event_id x < event_id y)%Z) (cb_events b);
  ok_latest e : e ∈ cb_events b -> (0 < event_id e <= cb_nextId b)%Z;
  ok_bound : (0 <= cb_maxEvents b)%Z -> (Z.of_nat (length (cb_events b)) <= cb_maxEvents b)%Z;
}.

Lemma trim_oldest_length {A} max (l : list A) :
  (0 <= max)%Z -> (Z.of_nat (length (trim_oldest max l)) <= max)%Z.
Proof.
  unfold trim_oldest. destruct (Z.ltb_spec max (Z.of_nat (length l))); [|lia].
  rewrite length_drop. lia.
Qed.

(** What is kept is the newest part of what was there. *)
Lemma trim_oldest_suffix {A} max (l : list A) : exists k, l = k ++ trim_oldest max l.
Proof.
  unfold trim_oldest. case_match; [|by exists []].
  exists (take (length l - Z.to_nat max) l). by rewrite take_drop.
Qed.

Lemma trim_oldest_elem {A} max (l : list A) x : x ∈ trim_oldest max l -> x ∈ l.
Proof. destruct (trim_oldest_suffix max l) as [k Hk]. rewrite Hk at 2. set_solver. Qed.

Lemma StronglySorted_app_r {A} (R : A -> A -> Prop) l1 l2 :
  StronglySorted R (l1 ++ l2) -> StronglySorted R l2.
Proof. induction l1 as [|x l1 IH]; simpl; [done|]. intros Hs. inversion Hs. auto. Qed.

Lemma StronglySorted_snoc {A} (R : A -> A -> Prop) l x :
  StronglySorted R l -> (forall y, y ∈ l -> R y x) -> StronglySorted R (l ++ [x]).
Proof.
  induction 1 as [|y l Hs IH Hf]; simpl; intros Hx.
  - by repeat constructor.
  - constructor; [apply IH; set_solver|]. apply Forall_app. split; [done|].
    constructor; [apply Hx; set_solver|constructor].
Qed.

Lemma new_buffer_ok max : buffer_ok (new_buffer max).
Proof. split; simpl; [constructor|set_solver|done]. Qed.

(** The only way the code adds an event: allocate an id, push an event with it. *)
Lemma push_allocated_ok b (mk : Z -> E) :
  (0 <= cb_nextId b)%Z -> (forall i, event_id (mk i) = i) -> buffer_ok b ->
  let '(b', i) := allocateId b in buffer_ok (push (mk i) b').
Proof.
  intros Hn Hid [Hs Hl Hb]. simpl.
  assert (StronglySorted (fun x y => (event_id x < event_id y)%Z) (cb_events b ++ [mk (1 + cb_nextId b)%Z])) as Hs'.
  { apply StronglySorted_snoc; [done|]. intros y Hy. rewrite Hid. specialize (Hl y Hy). lia. }
  split; simpl.
  - destruct (trim_oldest_suffix (cb_maxEvents b) (cb_events b ++ [mk (1 + cb_nextId b)%Z])) as [k Hk].
    rewrite Hk in Hs'. by apply StronglySorted_app_r in Hs'.
  - intros e He%trim_oldest_elem%elem_of_app. destruct He as [He|He%list_elem_of_singleton].
    + specialize (Hl e He). lia.
    + subst e. rewrite Hid. lia.
  - intros. by apply trim_oldest_length.
Qed.

(** ** Replay *)

Lemma subscribe_loop_spec afterId matches taken l :
  subscribe_loop afterId None matches taken l
  = List.filter (fun e => (afterId <? event_id e)%Z && matches e) l.
Proof.
  revert taken. induction l as [|e l IH]; intros taken; simpl; [done|].
  destruct (Z.leb_spec (event_id e) afterId) as [Hle|Hlt], (Z.ltb_spec afterId (event_id e)); try lia; simpl.
  - apply IH.
  - destruct (matches e); simpl; [by rewrite IH|apply IH].
Qed.

Lemma subscribe_loop_limit afterId n matches taken l :
  (taken < n)%Z ->
  subscribe_loop afterId (Some n) matches taken l
  = take (Z.to_nat (n - taken)) (subscribe_loop afterId None matches taken l).
Proof.
  revert taken. induction l as [|e l IH]; intros taken Hn; simpl.
  - by rewrite take_nil.
  - destruct (event_id e <=? afterId)%Z; [by apply IH|]. destruct (matches e); simpl; [|by apply IH].
    replace (Z.to_nat (n - taken)) with (S (Z.to_nat (n - (taken + 1)))) by lia. simpl. f_equal.
    destruct (Z.leb_spec n (taken + 1)); [|apply IH; lia].
    replace (Z.to_nat (n - (taken + 1))) with 0 by lia. done.
Qed.

(** The limit is tested after an event is taken: below one it counts as one. *)
Lemma subscribe_loop_small afterId n matches l :
  (n <= 0)%Z ->
  subscribe_loop afterId (Some n) matches 0 l = take 1 (subscribe_loop afterId None matches 0 l).
Proof.
  intros Hn. induction l as [|e l IH]; simpl; [done|].
  destruct (event_id e <=? afterId)%Z; [done|]. destruct (matches e); simpl; [|done].
  destruct (Z.leb_spec n (0 + 1)); [by rewrite take_0|lia].
Qed.
End Buffer.
