(* ===== verification/TaskEventStream.v ===== *)
(** * The task event stream (src/core/task-event-stream.ts)

    [TaskEventStream] projects audit events about tasks onto a bounded stream of
    [TaskStatusEvent]s.  Listeners are functions of the embedding program whose
    errors the code swallows; they have no effect on the stream.  The parallel
    buffer of compact terminal events, whose text fields go through regular
    expressions, is not modelled. *)

From Stdlib Require Import ZArith Lia String.
From stdpp Require Import base strings list.
From S2P Require Import Prelude JsRuntime Types EventBuffer.

Inductive TaskStatusEventKind : Type :=
| KindCreated
| KindApproved
| KindClaimed
| KindStarted
| KindSucceeded
| KindFailed
| KindCanceled
| KindRequeued
| KindReassigned.
#[export] Instance TaskStatusEventKind_eq_dec : EqDecision TaskStatusEventKind.
Proof. solve_decision. Defined.

Record TaskStatusEventMetadata : Type := mkTaskStatusEventMetadata {
  md_taskOrigin : option TaskOrigin;
  md_targetNodeId : option string;
  md_assignedWorkerId : option string;
  md_intent : option A2AExchangeIntent;
  md_repoFullName : option string;
  md_issueNumber : option JsNum;
}.

Record TaskStatusEvent : Type := mkTaskStatusEvent {
  se_id : Z;
  se_timestamp : string;
  se_taskId : string;
  se_parentTaskId : option string;
  se_status : TaskStatus;
  se_kind : TaskStatusEventKind;
  se_metadata : TaskStatusEventMetadata;
}.

Definition DEFAULT_TASK_EVENT_RETENTION : Z := 1000.

Definition ACTION_TO_KIND (a : AuditAction) : option TaskStatusEventKind :=
  match a with
  | AuditTaskCreated => Some KindCreated
  | AuditTaskApproved => Some KindApproved
  | AuditTaskClaimed => Some KindClaimed
  | AuditTaskStarted => Some KindStarted
  | AuditTaskSucceeded => Some KindSucceeded
  | AuditTaskFailed => Some KindFailed
  | AuditTaskCanceled => Some KindCanceled
  | AuditTaskRequeued => Some KindRequeued
  | AuditTaskReassigned => Some KindReassigned
  | _ => None
  end.

Definition stream_state : Type := CursorEventBuffer TaskStatusEvent.

(** The constructor: a cap that is not positive falls back to the default. *)
Definition new_stream (maxEvents : option Z) : stream_state :=
  new_buffer (match maxEvents with
              | Some n => if (0 <? n)%Z then n else DEFAULT_TASK_EVENT_RETENTION
              | None => DEFAULT_TASK_EVENT_RETENTION end).

(** [typeof v === "number" && Number.isFinite(v)]. *)
Definition finite_number (v : JsValue) : option JsNum :=
  match v with
  | JNum NNaN => None
  | JNum n => Some n
  | _ => None
  end.

Definition buildEvent (kind : TaskStatusEventKind) (audit : AuditEvent) (task : TaskRecord) (id : Z)
    : TaskStatusEvent := {|
  se_id := id;
  se_timestamp := aud_createdAt audit;
  se_taskId := task_id task;
  se_parentTaskId := truthy_opt (task_parentTaskId task);
  se_status := task_status task;
  se_kind := kind;
  se_metadata := {|
    md_taskOrigin := task_taskOrigin task;
    md_targetNodeId := truthy_opt (Some (task_targetNodeId task));
    md_assignedWorkerId := truthy_opt (task_assignedWorkerId task);
    md_intent := Some (task_intent task);
    md_repoFullName := truthy_opt (js_string (js_prop "githubRepo" (task_payload task)));
    md_issueNumber := finite_number (js_prop "githubIssueNumber" (task_payload task)) |} |}.

Definition stream_push (audit : AuditEvent) (task : TaskRecord) (s : stream_state)
    : stream_state * option TaskStatusEvent :=
  if negb (bool_decide (aud_targetType audit = TargetTask)) then (s, None)
  else if negb (String.eqb (aud_targetId audit) (task_id task)) then (s, None)
  else match ACTION_TO_KIND (aud_action audit) with
       | None => (s, None)
       | Some kind =>
           let '(s, id) := allocateId s in
           let event := buildEvent kind audit task id in
           (push event s, Some event)
       end.

Definition stream_subscribe (afterId : option Z) (taskId parentTaskId : option string) (limit : option Z)
    (s : stream_state) : list TaskStatusEvent :=
  subscribe se_id afterId limit (fun e =>
    match truthy_opt taskId with Some t => String.eqb (se_taskId e) t | None => true end
    && match truthy_opt parentTaskId with
       | Some p => bool_decide (se_parentTaskId e = Some p) | None => true end) s.

(** ** Facts *)

Definition stream_ok (s : stream_state) : Prop := buffer_ok se_id s /\ (0 <= cb_nextId s)%Z.

Lemma new_stream_ok max : stream_ok (new_stream max).
Proof. split; [apply new_buffer_ok|done]. Qed.

Lemma stream_push_ok audit task s : stream_ok s -> stream_ok (stream_push audit task s).1.
Proof.
  intros [Hok Hn]. unfold stream_push.
  destruct (negb (bool_decide _)); [done|]. destruct (negb (String.eqb _ _)); [done|].
  destruct (ACTION_TO_KIND (aud_action audit)) as [kind|]; [|done].
  split; [|simpl; lia]. by apply (push_allocated_ok se_id s (buildEvent kind audit task)).
Qed.

Lemma stream_push_ignored audit task s :
  ACTION_TO_KIND (aud_action audit) = None \/ aud_targetId audit <> task_id task ->
  stream_push audit task s = (s, None).
Proof.
  intros Hi. unfold stream_push. destruct (bool_decide _); simpl; [|done].
  destruct (String.eqb_spec (aud_targetId audit) (task_id task)); simpl; [|done].
  destruct Hi as [->|]; done.
Qed.
