(* ===== verification/Policy.v ===== *)
(** * Policy (src/core/policy.ts)

    Who may review, apply and validate a proposal, and which tasks need an
    operator's or a hub's approval before a worker may claim them. *)

From Stdlib Require Import ZArith String.
From stdpp Require Import base gmap strings list.
From S2P Require Import Prelude JsRuntime Types.

(** [PolicyError]: its code is always [policy_denied]. *)
Record PolicyError : Type := mkPolicyError { pe_message : string }.

Definition actor_id (a : option A2APartyRef) : string := (party_id <$> a) ?? "".
Definition actor_role (a : option A2APartyRef) : option A2APartyRole := a ≫= party_role.

Definition assertProposalCreationAllowed (source target : A2APartyRef) : result PolicyError unit :=
  if negb (str_truthy (party_id source)) || negb (str_truthy (party_id target)) then
    Err (mkPolicyError "source.id and target.id are required")
  else if role_is (party_role source) RoleResearcher && role_is (party_role target) RoleLiveTrader then Ok tt
  else if role_is (party_role source) RoleOperator || role_is (party_role source) RoleHub then Ok tt
  else if String.eqb (party_id source) (party_id target) then Ok tt
  else Ok tt.

Definition assertProposalReviewAllowed (p : ChangeProposal) (r : ProposalActorRequest)
    : result PolicyError unit :=
  if negb (str_truthy (actor_id (pa_actor r))) then Err (mkPolicyError "actor.id is required")
  else if role_is (actor_role (pa_actor r)) RoleOperator then Ok tt
  else if negb (String.eqb (actor_id (pa_actor r)) (pr_targetNodeId p)) then
    Err (mkPolicyError "only the target node or an operator may review this proposal")
  else Ok tt.

Definition assertProposalApplyAllowed (p : ChangeProposal) (r : ProposalActorRequest)
    : result PolicyError unit :=
  if negb (str_truthy (actor_id (pa_actor r))) then Err (mkPolicyError "actor.id is required")
  else if role_is (actor_role (pa_actor r)) RoleOperator then Ok tt
  else if negb (String.eqb (actor_id (pa_actor r)) (pr_targetNodeId p)) then
    Err (mkPolicyError "only the target node or an operator may apply this proposal")
  else if role_is (actor_role (pa_actor r)) RoleResearcher
          && role_is (party_role (pr_target p)) RoleLiveTrader then
    Err (mkPolicyError "research nodes cannot apply directly to live workspaces")
  else Ok tt.

Definition assertValidationSubmissionAllowed (p : ChangeProposal) (r : SubmitValidationRequest)
    : result PolicyError unit :=
  if negb (str_truthy (sv_nodeId r)) then Err (mkPolicyError "nodeId is required")
  else if String.eqb (sv_nodeId r) (pr_targetNodeId p) || String.eqb (sv_nodeId r) (pr_sourceNodeId p)
  then Ok tt
  else Err (mkPolicyError "validation may only be submitted by the source or target node in phase 1").

Definition LIVE_IMPACT_INTENTS : list A2AExchangeIntent := [IntentPromoteToLive; IntentRollbackLive].
Definition DANGEROUS_TASK_INTENTS : list A2AExchangeIntent :=
  [IntentApplyLocalChange; IntentPromoteToLive; IntentRollbackLive].

Definition isLiveImpactTask (r : CreateTaskRequest) : bool :=
  if bool_decide (ct_intent r ∈ LIVE_IMPACT_INTENTS) then true
  else if bool_decide ((ct_policyContext r ≫= pc_liveImpact) = Some true) then true
  else if bool_decide ((ct_policyContext r ≫= pc_targetEnvironment) = Some EnvLive) then true
  else bool_decide (ct_intent r = IntentApplyLocalChange) && role_is (party_role (ct_target r)) RoleLiveTrader.

Definition isTaskApprovalRequired (r : CreateTaskRequest) : bool :=
  bool_decide (ct_intent r ∈ DANGEROUS_TASK_INTENTS)
  || bool_decide ((ct_policyContext r ≫= pc_requiresApproval) = Some true)
  || bool_decide ((ct_policyContext r ≫= pc_liveImpact) = Some true)
  || bool_decide ((ct_policyContext r ≫= pc_targetEnvironment) = Some EnvLive)
  || isLiveImpactTask r.

Definition empty_context : TaskPolicyContext := mkTaskPolicyContext None None None.

(** The default a missing flag gets: [if (cond && context.f === undefined) context.f = v]. *)
Definition fill {A} (cond : bool) (v : A) (o : option A) : option A :=
  match o with
  | Some a => Some a
  | None => if cond then Some v else None
  end.

Definition normalizeTaskPolicyContext (r : CreateTaskRequest) : option TaskPolicyContext :=
  let inferredLiveImpact := isLiveImpactTask r in
  let requiresGate := isTaskApprovalRequired r in
  let context := ct_policyContext r ?? empty_context in
  let context := context
    <| pc_liveImpact ::= fill inferredLiveImpact true |>
    <| pc_targetEnvironment ::= fill inferredLiveImpact EnvLive |>
    <| pc_requiresApproval ::= fill requiresGate true |> in
  if is_some (pc_requiresApproval context) || is_some (pc_liveImpact context)
     || is_some (pc_targetEnvironment context)
  then Some context else None.

Definition isPrivilegedTaskApprover (a : option A2APartyRef) : bool :=
  role_is (actor_role a) RoleOperator || role_is (actor_role a) RoleHub.

(** The flag the claim gate reads: [context?.requiresApproval === true]. *)
Definition requires_approval (c : option TaskPolicyContext) : bool :=
  bool_decide ((c ≫= pc_requiresApproval) = Some true).

(** ** Theorems *)

Lemma requires_approval_true c :
  requires_approval c = true <-> (c ≫= pc_requiresApproval) = Some true.
Proof. unfold requires_approval. by rewrite bool_decide_eq_true. Qed.

Lemma normalize_context_approval r :
  (normalizeTaskPolicyContext r ≫= pc_requiresApproval)
  = fill (isTaskApprovalRequired r) true (ct_policyContext r ≫= pc_requiresApproval).
Proof.
  unfold normalizeTaskPolicyContext.
  generalize (isLiveImpactTask r) (isTaskApprovalRequired r). intros live gate.
  destruct (ct_policyContext r) as [[a l e]|]; simpl.
  - destruct a, l, e, live, gate; reflexivity.
  - destruct live, gate; reflexivity.
Qed.

Lemma declared_approval_required r :
  (ct_policyContext r ≫= pc_requiresApproval) = Some true -> isTaskApprovalRequired r = true.
Proof.
  intros H. unfold isTaskApprovalRequired. rewrite (bool_decide_true _ H).
  by rewrite orb_true_r.
Qed.

(** Whatever the caller omits, the normalised context of a gated request asks
    for approval, except when the caller wrote [requiresApproval: false]. *)
Lemma normalize_requires_approval r :
  requires_approval (normalizeTaskPolicyContext r)
  = isTaskApprovalRequired r
    && negb (bool_decide ((ct_policyContext r ≫= pc_requiresApproval) = Some false)).
Proof.
  unfold requires_approval. rewrite normalize_context_approval.
  destruct (ct_policyContext r ≫= pc_requiresApproval) as [[]|] eqn:Hd; simpl.
  - by rewrite (declared_approval_required r Hd).
  - by rewrite andb_false_r.
  - by destruct (isTaskApprovalRequired r).
Qed.

Lemma live_impact_requires_approval r : isLiveImpactTask r = true -> isTaskApprovalRequired r = true.
Proof. unfold isTaskApprovalRequired. intros ->. by rewrite orb_true_r. Qed.

Lemma apply_allowed_actor p r :
  assertProposalApplyAllowed p r = Ok tt ->
  role_is (actor_role (pa_actor r)) RoleOperator = true \/ actor_id (pa_actor r) = pr_targetNodeId p.
Proof.
  unfold assertProposalApplyAllowed. destruct (str_truthy _); simpl; [|done].
  destruct (role_is (actor_role (pa_actor r)) RoleOperator); [by left|].
  destruct (String.eqb_spec (actor_id (pa_actor r)) (pr_targetNodeId p)); simpl; [by right|done].
Qed.

Lemma review_allowed_actor p r :
  assertProposalReviewAllowed p r = Ok tt ->
  role_is (actor_role (pa_actor r)) RoleOperator = true \/ actor_id (pa_actor r) = pr_targetNodeId p.
Proof.
  unfold assertProposalReviewAllowed. destruct (str_truthy _); simpl; [|done].
  destruct (role_is (actor_role (pa_actor r)) RoleOperator); [by left|].
  destruct (String.eqb_spec (actor_id (pa_actor r)) (pr_targetNodeId p)); simpl; [by right|done].
Qed.

Lemma validation_allowed_node p r :
  assertValidationSubmissionAllowed p r = Ok tt ->
  sv_nodeId r = pr_targetNodeId p \/ sv_nodeId r = pr_sourceNodeId p.
Proof.
  unfold assertValidationSubmissionAllowed. destruct (str_truthy _); simpl; [|done].
  destruct (String.eqb_spec (sv_nodeId r) (pr_targetNodeId p)); [by left|].
  destruct (String.eqb_spec (sv_nodeId r) (pr_sourceNodeId p)); simpl; [by right|done].
Qed.
