(* ===== verification/Retention.v ===== *)
(** * Retention (applyRetentionPolicy and its helpers, src/core/broker.ts)

    Which records a full persist keeps.  Active records are never dropped:
    terminal records older than the window compete for a bounded number of
    places, and whatever a retained record refers to is retained with it. *)

From Stdlib Require Import ZArith Lia String Sorted.
From stdpp Require Import base gmap strings list sets.
From S2P Require Import Prelude JsRuntime Types.

Record BrokerRetentionPolicy : Type := mkBrokerRetentionPolicy {
  terminalRetentionMs : Z;
  maxTerminalExchanges : Z;
  maxTerminalTasks : Z;
  maxTerminalProposals : Z;
  inactiveWorkerRetentionMs : Z;
  maxInactiveWorkers : Z;
  auditRetentionMs : Z;
  maxAuditEvents : Z;
  maxHeartbeatAuditEvents : Z;
  heartbeatAuditSampleIntervalMs : Z;
}.

Definition DEFAULT_HEARTBEAT_AUDIT_SAMPLE_INTERVAL_MS : Z := 60000.

Definition DEFAULT_BROKER_RETENTION_POLICY : BrokerRetentionPolicy :=
  {| terminalRetentionMs := 7 * 24 * 60 * 60 * 1000;
     maxTerminalExchanges := 1000;
     maxTerminalTasks := 2000;
     maxTerminalProposals := 1000;
     inactiveWorkerRetentionMs := 14 * 24 * 60 * 60 * 1000;
     maxInactiveWorkers := 500;
     auditRetentionMs := 7 * 24 * 60 * 60 * 1000;
     maxAuditEvents := 5000;
     maxHeartbeatAuditEvents := 500;
     heartbeatAuditSampleIntervalMs := DEFAULT_HEARTBEAT_AUDIT_SAMPLE_INTERVAL_MS |}.

(** The maps retention reads: a broker's eight pruned collections. *)
Record RetentionView : Type := mkRetentionView {
  rv_exchanges : jsmap A2AExchangeState;
  rv_exchangeMessages : jsmap A2AExchangeMessageRecord;
  rv_proposals : jsmap ChangeProposal;
  rv_artifacts : jsmap ArtifactRecord;
  rv_validations : jsmap ValidationResult;
  rv_auditEvents : jsmap AuditEvent;
  rv_workers : jsmap WorkerRecord;
  rv_tasks : jsmap TaskRecord;
}.

Record RetainedIds : Type := mkRetainedIds {
  ret_exchanges : gset string;
  ret_exchangeMessages : gset string;
  ret_proposals : gset string;
  ret_artifacts : gset string;
  ret_validations : gset string;
  ret_auditEvents : gset string;
  ret_workers : gset string;
  ret_tasks : gset string;
}.

Definition in_set (s : gset string) (k : string) : bool := bool_decide (k ∈ s).

(** The set of the truthy ids a list of optional ids mentions. *)
Definition ids_of (l : list string) : gset string := list_to_set l.
Definition opt_ids (o : option string) : list string :=
  match truthy_opt o with Some s => [s] | None => [] end.

Section Select.
Context `{JsHost}.

Definition parseRetentionTimestamp (value : option string) : option Z :=
  match truthy_opt value with Some v => date_parse v | None => None end.

(** Newest first, then by id. *)
Definition candidate_cmp (a b : string * Z) : Z :=
  let d := (b.2 - a.2)%Z in if (d =? 0)%Z then host_localeCompare a.1 b.1 else d.

Definition take_newest (max : Z) (candidates : list (string * Z)) : gset string :=
  ids_of (map fst (take (Z.to_nat max) (js_sort candidate_cmp candidates))).

Section Terminal.
Context {T : Type} (isTerminal : T -> bool) (getId : T -> string)
  (getTimestamp : T -> option string) (cutoffMs : Z).

(** One iteration of the loop: retained ids and candidates so far. *)
Definition select_step (acc : gset string * list (string * Z)) (record : T)
    : gset string * list (string * Z) :=
  let '(retained, candidates) := acc in
  let id := getId record in
  if negb (isTerminal record) || in_set retained id then ({[id]} ∪ retained, candidates)
  else match parseRetentionTimestamp (getTimestamp record) with
       | None => ({[id]} ∪ retained, candidates)
       | Some t => if (cutoffMs <=? t)%Z then ({[id]} ∪ retained, candidates)
                   else (retained, candidates ++ [(id, t)])
       end.
End Terminal.

Definition selectRetainedTerminalRecordIds {T} (records : list T) (isTerminal : T -> bool)
    (getId : T -> string) (getTimestamp : T -> option string)
    (nowMs retentionMs maxTerminalRecords : Z) (protectedIds : gset string) : gset string :=
  let '(retained, candidates) :=
    foldl (select_step isTerminal getId getTimestamp (nowMs - retentionMs)) (protectedIds, []) records in
  take_newest maxTerminalRecords candidates ∪ retained.

Definition worker_step (cutoffMs : Z) (acc : gset string * list (string * Z)) (w : WorkerRecord)
    : gset string * list (string * Z) :=
  let '(retained, candidates) := acc in
  if in_set retained (wr_nodeId w) then (retained, candidates)
  else match parseRetentionTimestamp (Some (wr_lastSeenAt w)) with
       | None => ({[wr_nodeId w]} ∪ retained, candidates)
       | Some t => if (cutoffMs <=? t)%Z then ({[wr_nodeId w]} ∪ retained, candidates)
                   else (retained, candidates ++ [(wr_nodeId w, t)])
       end.

Definition selectRetainedWorkerIds (workers : list WorkerRecord)
    (nowMs inactiveRetentionMs maxInactive : Z) (protectedIds : gset string) : gset string :=
  let '(retained, candidates) :=
    foldl (worker_step (nowMs - inactiveRetentionMs)) (protectedIds, []) workers in
  take_newest maxInactive candidates ∪ retained.

Definition isHeartbeatAuditEvent (action : AuditAction) (target : AuditTargetType) : bool :=
  (bool_decide (action = AuditWorkerHeartbeat) && bool_decide (target = TargetWorker))
  || (bool_decide (action = AuditTaskHeartbeat) && bool_decide (target = TargetTask)).

Definition isAuditEventRetained (event : AuditEvent) (r : RetainedIds) : bool :=
  if isHeartbeatAuditEvent (aud_action event) (aud_targetType event) then false
  else if match truthy_opt (aud_proposalId event) with
          | Some p => in_set (ret_proposals r) p | None => false end then true
  else match aud_targetType event with
       | TargetProposal => in_set (ret_proposals r) (aud_targetId event)
       | TargetArtifact => in_set (ret_artifacts r) (aud_targetId event)
       | TargetValidation => in_set (ret_validations r) (aud_targetId event)
       | TargetWorker => in_set (ret_workers r) (aud_targetId event)
       | TargetTask => in_set (ret_tasks r) (aud_targetId event)
       | TargetExchange => in_set (ret_exchanges r) (aud_targetId event)
       | TargetExchangeMessage => in_set (ret_exchangeMessages r) (aud_targetId event)
       | TargetBroker => false
       end.

Definition audit_step (r : RetainedIds)
    (acc : gset string * list (string * Z) * list (string * Z)) (event : AuditEvent)
    : gset string * list (string * Z) * list (string * Z) :=
  let '(retained, candidates, heartbeats) := acc in
  match parseRetentionTimestamp (Some (aud_createdAt event)) with
  | None => ({[aud_id event]} ∪ retained, candidates, heartbeats)
  | Some t =>
      if isAuditEventRetained event r then ({[aud_id event]} ∪ retained, candidates, heartbeats)
      else if isHeartbeatAuditEvent (aud_action event) (aud_targetType event)
      then (retained, candidates, heartbeats ++ [(aud_id event, t)])
      else (retained, candidates ++ [(aud_id event, t)], heartbeats)
  end.

Definition retainRecentCandidates (cutoffMs max : Z) (candidates : list (string * Z)) : gset string :=
  ids_of (map fst (take (Z.to_nat max)
    (List.filter (fun e => (cutoffMs <=? e.2)%Z) (js_sort candidate_cmp candidates)))).

(** [r] carries the other seven retained sets. *)
Definition selectRetainedAuditEventIds (events : list AuditEvent) (nowMs : Z)
    (policy : BrokerRetentionPolicy) (r : RetainedIds) : gset string :=
  let cutoffMs := (nowMs - auditRetentionMs policy)%Z in
  let '(retained, candidates, heartbeats) := foldl (audit_step r) (∅, [], []) events in
  retainRecentCandidates cutoffMs (maxHeartbeatAuditEvents policy) heartbeats
  ∪ (retainRecentCandidates cutoffMs (maxAuditEvents policy) candidates ∪ retained).

Definition flat_ids {V} (s : gset string) (m : jsmap V) (f : V -> list string) : gset string :=
  ids_of (flat_map (fun id => match jm_get id m with Some v => f v | None => [] end) (elements s)).

Definition collectRetainedExchangeMessageIds (v : RetentionView) (exchanges : gset string) : gset string :=
  ids_of (map msg_id (List.filter (fun m => in_set exchanges (msg_exchangeId m))
    (jm_values (rv_exchangeMessages v)))).

(** The artifacts a task and its result mention. *)
Definition task_artifact_ids (t : TaskRecord) : list string :=
  task_artifactIds t
  ++ (task_result t ?> res_artifactIds ?? [])
  ++ (task_result t ?> res_validation ?> tv_artifactIds ?? [])
  ++ (task_result t ?> res_apply ?> ta_artifactIds ?? []).

Definition collectRetainedArtifactIds (v : RetentionView) (tasks proposals : gset string) : gset string :=
  flat_ids proposals (rv_proposals v) pr_artifactIds
  ∪ ids_of (map art_id (List.filter (fun a => in_set proposals (art_proposalId a))
      (jm_values (rv_artifacts v))))
  ∪ flat_ids tasks (rv_tasks v) task_artifact_ids.

Definition collectRetainedValidationIds (v : RetentionView) (proposals : gset string) : gset string :=
  ids_of (map val_id (List.filter (fun x => in_set proposals (val_proposalId x))
    (jm_values (rv_validations v)))).

Definition exchange_worker_ids (ex : A2AExchangeState) : list string :=
  ex_targetNodeId ex :: opt_ids (ex_assignedWorkerId ex) ++ [party_id (ex_target ex)].
Definition task_worker_ids (t : TaskRecord) : list string :=
  task_targetNodeId t :: party_id (task_target t)
    :: opt_ids (task_assignedWorkerId t) ++ opt_ids (task_claimedBy t).
Definition proposal_worker_ids (p : ChangeProposal) : list string :=
  [pr_sourceNodeId p; pr_targetNodeId p; party_id (pr_source p); party_id (pr_target p)].

Definition collectProtectedWorkerIds (v : RetentionView) (exchanges tasks proposals : gset string) : gset string :=
  flat_ids exchanges (rv_exchanges v) exchange_worker_ids
  ∪ flat_ids tasks (rv_tasks v) task_worker_ids
  ∪ flat_ids proposals (rv_proposals v) proposal_worker_ids.

(** The sets [applyRetentionPolicy] computes before it prunes. *)
Definition retainedIds (policy : BrokerRetentionPolicy) (nowMs : Z) (v : RetentionView) : RetainedIds :=
  let exchanges0 := selectRetainedTerminalRecordIds (jm_values (rv_exchanges v))
    (fun ex => isTerminalExchangeStatus (ex_status ex)) ex_id (fun ex => Some (ex_updatedAt ex))
    nowMs (terminalRetentionMs policy) (maxTerminalExchanges policy) ∅ in
  let protectedTasks := flat_ids exchanges0 (rv_exchanges v) (fun ex => opt_ids (ex_activeTaskId ex)) in
  let tasks := selectRetainedTerminalRecordIds (jm_values (rv_tasks v))
    (fun t => isTerminalTaskStatus (task_status t)) task_id
    (fun t => Some (task_completedAt t ?? task_updatedAt t))
    nowMs (terminalRetentionMs policy) (maxTerminalTasks policy) protectedTasks in
  let exchanges := flat_ids tasks (rv_tasks v) (fun t => opt_ids (task_exchangeId t)) ∪ exchanges0 in
  let protectedProposals := flat_ids tasks (rv_tasks v) (fun t => opt_ids (task_proposalId t)) in
  let proposals := selectRetainedTerminalRecordIds (jm_values (rv_proposals v))
    (fun p => isTerminalProposalStatus (pr_status p)) pr_id (fun p => Some (pr_updatedAt p))
    nowMs (terminalRetentionMs policy) (maxTerminalProposals policy) protectedProposals in
  let artifacts := collectRetainedArtifactIds v tasks proposals in
  let validations := collectRetainedValidationIds v proposals in
  let messages := collectRetainedExchangeMessageIds v exchanges in
  let workers := selectRetainedWorkerIds (jm_values (rv_workers v)) nowMs
    (inactiveWorkerRetentionMs policy) (maxInactiveWorkers policy)
    (collectProtectedWorkerIds v exchanges tasks proposals) in
  let r := mkRetainedIds exchanges messages proposals artifacts validations ∅ workers tasks in
  mkRetainedIds exchanges messages proposals artifacts validations
    (selectRetainedAuditEventIds (jm_values (rv_auditEvents v)) nowMs policy r) workers tasks.

Definition pruneMapEntries {V} (m : jsmap V) (retained : gset string) : jsmap V :=
  jm_filter (in_set retained) m.
End Select.

(** ** Facts about the selection *)

Lemma in_set_true s k : in_set s k = true <-> k ∈ s.
Proof. unfold in_set. by rewrite bool_decide_eq_true. Qed.

Lemma in_set_false s k : in_set s k = false <-> k ∉ s.
Proof. unfold in_set. by rewrite bool_decide_eq_false. Qed.

Lemma elem_of_ids_of l x : x ∈ ids_of l <-> x ∈ l.
Proof. unfold ids_of. by rewrite elem_of_list_to_set. Qed.

Lemma size_ids_of l : size (ids_of l) <= length l.
Proof.
  unfold ids_of. induction l as [|x l IH]; [by rewrite list_to_set_nil, size_empty|].
  rewrite list_to_set_cons. simpl.
  destruct (decide (x ∈ (list_to_set l : gset string))).
  - rewrite subseteq_union_1_L by set_solver. unfold gset in *. lia.
  - rewrite size_union, size_singleton by set_solver. lia.
Qed.

Section SelectFacts.
Context `{JsHost} {T : Type} (isTerminal : T -> bool) (getId : T -> string)
  (getTimestamp : T -> option string).

Notation step := (select_step isTerminal getId getTimestamp).

Lemma select_fold_mono cutoff records acc :
  acc.1 ⊆ (foldl (step cutoff) acc records).1.
Proof.
  revert acc. induction records as [|r l IH]; intros [ret cand]; simpl; [done|].
  etransitivity; [|apply IH]. unfold select_step.
  repeat case_match; simpl; set_solver.
Qed.

(** An active record, or one without a readable timestamp before the cutoff,
    is always kept. *)
Lemma select_fold_keeps cutoff records acc r :
  r ∈ records ->
  isTerminal r = false
  \/ (forall t, parseRetentionTimestamp (getTimestamp r) = Some t -> (cutoff <= t)%Z) ->
  getId r ∈ (foldl (step cutoff) acc records).1.
Proof.
  intros Hin Hr. revert acc. induction records as [|r' l IH]; intros [ret cand]; [set_solver|].
  apply elem_of_cons in Hin as [<-|Hin]; [|by apply IH]. simpl.
  apply select_fold_mono. destruct Hr as [Ht|Ht].
  - rewrite Ht. simpl. set_solver.
  - destruct (isTerminal r); simpl; [|set_solver].
    destruct (in_set ret (getId r)); simpl; [set_solver|].
    destruct (parseRetentionTimestamp (getTimestamp r)) as [t|] eqn:Hp; simpl; [|set_solver].
    specialize (Ht t eq_refl). destruct (Z.leb_spec cutoff t); simpl; [set_solver|lia].
Qed.

Lemma select_keeps records nowMs retentionMs max prot r :
  r ∈ records ->
  isTerminal r = false
  \/ (forall t, parseRetentionTimestamp (getTimestamp r) = Some t -> (nowMs - retentionMs <= t)%Z) ->
  getId r ∈ selectRetainedTerminalRecordIds records isTerminal getId getTimestamp
              nowMs retentionMs max prot.
Proof.
  intros Hin Hr. unfold selectRetainedTerminalRecordIds.
  pose proof (select_fold_keeps (nowMs - retentionMs) records (prot, []) r Hin Hr) as Hk.
  destruct (foldl _ _ _) as [ret cand]. set_solver.
Qed.

Lemma select_protected records nowMs retentionMs max prot :
  prot ⊆ selectRetainedTerminalRecordIds records isTerminal getId getTimestamp
           nowMs retentionMs max prot.
Proof.
  unfold selectRetainedTerminalRecordIds.
  pose proof (select_fold_mono (nowMs - retentionMs) records (prot, [])) as Hk.
  destruct (foldl _ _ _) as [ret cand]. set_solver.
Qed.

(** The expired terminal records kept beyond the mandatory ones are at most
    the configured number. *)
Lemma take_newest_size max cand : size (take_newest max cand) <= Z.to_nat max.
Proof.
  unfold take_newest. etransitivity; [apply size_ids_of|]. rewrite length_map, length_take. lia.
Qed.
End SelectFacts.

Section RetainedFacts.
Context `{JsHost} (policy : BrokerRetentionPolicy) (nowMs : Z) (v : RetentionView).

Lemma elem_of_flat_ids {V} (s : gset string) (m : jsmap V) f k x :
  k ∈ s -> forall r, jm_get k m = Some r -> x ∈ f r -> x ∈ flat_ids s m f.
Proof.
  intros Hk r Hr Hx. unfold flat_ids. rewrite elem_of_ids_of, list_elem_of_In, in_flat_map.
  exists k. rewrite <- !list_elem_of_In, elem_of_elements, Hr. done.
Qed.

(** A task that is not terminal survives every full persist. *)
Lemma retained_active_task t :
  t ∈ jm_values (rv_tasks v) -> isTerminalTaskStatus (task_status t) = false ->
  task_id t ∈ ret_tasks (retainedIds policy nowMs v).
Proof. intros Hin Ht. simpl. apply select_keeps; [done|by left]. Qed.

Lemma retained_recent_task t ms :
  t ∈ jm_values (rv_tasks v) ->
  date_parse (task_completedAt t ?? task_updatedAt t) = Some ms ->
  (nowMs - terminalRetentionMs policy <= ms)%Z ->
  task_id t ∈ ret_tasks (retainedIds policy nowMs v).
Proof.
  intros Hin Ht Hms. simpl. apply select_keeps; [done|]. right.
  intros ms'. unfold parseRetentionTimestamp, truthy_opt.
  destruct (str_truthy _); [|done]. rewrite Ht. by intros [= <-].
Qed.

(** What a retained task refers to is retained with it. *)
Lemma retained_task_exchange k t e :
  k ∈ ret_tasks (retainedIds policy nowMs v) -> jm_get k (rv_tasks v) = Some t ->
  truthy_opt (task_exchangeId t) = Some e -> e ∈ ret_exchanges (retainedIds policy nowMs v).
Proof.
  intros Hk Ht He. simpl in *. apply elem_of_union_l.
  eapply elem_of_flat_ids; [done|exact Ht|]. simpl. unfold opt_ids. rewrite He. set_solver.
Qed.

Lemma retained_task_proposal k t p :
  k ∈ ret_tasks (retainedIds policy nowMs v) -> jm_get k (rv_tasks v) = Some t ->
  truthy_opt (task_proposalId t) = Some p -> p ∈ ret_proposals (retainedIds policy nowMs v).
Proof.
  intros Hk Ht Hp. simpl in *. apply select_protected.
  eapply elem_of_flat_ids; [done|exact Ht|]. simpl. unfold opt_ids. rewrite Hp. set_solver.
Qed.

Lemma select_workers_protected ws now ret max prot :
  prot ⊆ selectRetainedWorkerIds ws now ret max prot.
Proof.
  unfold selectRetainedWorkerIds.
  assert (forall acc, acc.1 ⊆ (foldl (worker_step (now - ret)) acc ws).1) as Hmono.
  { induction ws as [|w l IH]; intros [r c]; simpl; [done|]. etransitivity; [|apply IH].
    unfold worker_step. repeat case_match; simpl; set_solver. }
  specialize (Hmono (prot, [])). destruct (foldl _ _ _) as [r c]. set_solver.
Qed.

Lemma retained_task_worker k t w :
  k ∈ ret_tasks (retainedIds policy nowMs v) -> jm_get k (rv_tasks v) = Some t ->
  w ∈ task_worker_ids t -> w ∈ ret_workers (retainedIds policy nowMs v).
Proof.
  intros Hk Ht Hw. simpl in *. apply select_workers_protected.
  unfold collectProtectedWorkerIds. apply elem_of_union_l, elem_of_union_r.
  by eapply elem_of_flat_ids.
Qed.

Lemma retained_task_artifact k t a :
  k ∈ ret_tasks (retainedIds policy nowMs v) -> jm_get k (rv_tasks v) = Some t ->
  a ∈ task_artifact_ids t -> a ∈ ret_artifacts (retainedIds policy nowMs v).
Proof.
  intros Hk Ht Ha. simpl in *. unfold collectRetainedArtifactIds. apply elem_of_union_r.
  by eapply elem_of_flat_ids.
Qed.

Lemma retained_active_exchange e :
  e ∈ jm_values (rv_exchanges v) -> isTerminalExchangeStatus (ex_status e) = false ->
  ex_id e ∈ ret_exchanges (retainedIds policy nowMs v).
Proof. intros Hin Ht. simpl. apply elem_of_union_r, select_keeps; [done|by left]. Qed.

Lemma retained_active_proposal p :
  p ∈ jm_values (rv_proposals v) -> isTerminalProposalStatus (pr_status p) = false ->
  pr_id p ∈ ret_proposals (retainedIds policy nowMs v).
Proof. intros Hin Ht. simpl. apply select_keeps; [done|by left]. Qed.
End RetainedFacts.

(** ** Which records retention drops

    [selectRetainedTerminalRecordIds] (src/core/broker.ts), for exchanges, tasks
    and proposals alike: only a terminal record, protected by nothing and older
    than the window, may be dropped, and of those the newest are kept, at most the
    configured number. *)

Lemma NoDup_map_inj {A B} (f : A -> B) l x y :
  NoDup (map f l) -> x ∈ l -> y ∈ l -> f x = f y -> x = y.
Proof.
  induction l as [|z l IH]; simpl; [set_solver|]. intros [Hn Hnd]%NoDup_cons Hx Hy Hf.
  assert (forall w, w ∈ l -> f w <> f z) as Hz.
  { intros w Hw Heq. apply Hn. rewrite <- Heq. apply list_elem_of_fmap. eauto. }
  apply elem_of_cons in Hx as [->|Hx]; apply elem_of_cons in Hy as [->|Hy]; auto;
    [symmetry in Hf|]; by destruct (Hz _ ltac:(eassumption)).
Qed.

Section Select.
Context `{JsHost} {T : Type} (isTerminal : T -> bool) (getId : T -> string)
  (getTimestamp : T -> option string).
Context (records : list T) (cutoff : Z) (prot : gset string).

(** A record that may be dropped, and when it was last touched. *)
Definition expired (r : T) (t : Z) : Prop :=
  r ∈ records /\ isTerminal r = true /\ getId r ∉ prot
  /\ parseRetentionTimestamp (getTimestamp r) = Some t /\ (t < cutoff)%Z.

Notation step := (select_step isTerminal getId getTimestamp cutoff).

(** What the loop has kept and put aside after the records [l]. *)
Definition loop_ok (l : list T) (acc : gset string * list (string * Z)) : Prop :=
  (forall x, x ∈ acc.1 -> x ∈ prot \/ exists r, r ∈ l /\ getId r = x /\ forall t, ~ expired r t)
  /\ (forall c, c ∈ acc.2 <-> exists r, r ∈ l /\ getId r = c.1 /\ expired r c.2)
  /\ (forall r, r ∈ l -> (forall t, ~ expired r t) -> getId r ∈ acc.1).

Lemma loop_step l acc r :
  NoDup (map getId (l ++ [r])) -> (forall x, x ∈ l ++ [r] -> x ∈ records) ->
  loop_ok l acc -> prot ⊆ acc.1 -> loop_ok (l ++ [r]) (step acc r).
Proof.
  intros Hnd Hrec (Hkept & Hcand & Hall) Hp.
  assert (forall x, x ∈ l -> getId x <> getId r) as Hfresh.
  { rewrite map_app in Hnd. apply NoDup_app in Hnd as (_ & Hd & _). intros x Hx Heq.
    apply (Hd (getId x)); [apply list_elem_of_fmap; eauto|]. rewrite Heq. set_solver. }
  assert (r ∈ records) as Hr by (apply Hrec; set_solver).
  destruct acc as [ret cand]. cbn [fst snd] in Hkept, Hcand, Hall, Hp.
  assert (step (ret, cand) r = (ret, cand ++ [(getId r, match parseRetentionTimestamp (getTimestamp r) with Some t => t | None => 0%Z end)])
    /\ (exists t, expired r t) /\ getId r ∉ ret
    \/ step (ret, cand) r = ({[getId r]} ∪ ret, cand) /\ (forall t, ~ expired r t)) as Hcases.
  { unfold step. destruct (isTerminal r) eqn:Hterm; simpl;
      [|right; split; [done|intros t (_ & Ht & _); congruence]].
    destruct (in_set ret (getId r)) eqn:Hin; simpl.
    - right. split; [done|]. intros t (_ & _ & Hn & _). apply in_set_true in Hin.
      destruct (Hkept _ Hin) as [Hpr|(r' & Hr' & Heq & _)]; [done|]. by destruct (Hfresh r' Hr').
    - apply in_set_false in Hin.
      destruct (parseRetentionTimestamp (getTimestamp r)) as [t|] eqn:Hts;
        [|right; split; [done|intros t (_ & _ & _ & Ht & _); congruence]].
      destruct (Z.leb_spec cutoff t); [right; split; [done|]|left].
      + intros t' (_ & _ & _ & Ht & Hlt). assert (t' = t) by congruence. lia.
      + split_and!; [done| |done]. exists t. split_and!; try done. set_solver. }
  destruct Hcases as [(-> & [t0 Hex] & Hnin)|[-> Hne]].
  - assert (parseRetentionTimestamp (getTimestamp r) = Some t0) as Hts by apply Hex. rewrite Hts.
    split_and!; simpl.
    + intros x Hx. destruct (Hkept x Hx) as [?|(r' & ? & ? & ?)]; [by left|]. right. exists r'. set_solver.
    + intros c. rewrite elem_of_app, Hcand, list_elem_of_singleton. split.
      * intros [(r' & ? & ? & ?)|Hc]; [exists r'; set_solver|]. subst c. exists r. set_solver.
      * intros (r' & Hr' & Hid & He). apply elem_of_app in Hr' as [Hr'|Hr']; [left; eauto|].
        apply list_elem_of_singleton in Hr' as ->. right. destruct c as [i t]. simpl in *.
        assert (parseRetentionTimestamp (getTimestamp r) = Some t) by apply He. congruence.
    + intros r' Hr' Hn. apply elem_of_app in Hr' as [Hr'|Hr']; [by apply Hall|].
      apply list_elem_of_singleton in Hr' as ->. by destruct (Hn t0).
  - split_and!; simpl.
    + intros x Hx. apply elem_of_union in Hx as [Hx|Hx]; [apply elem_of_singleton in Hx; right; exists r; set_solver|].
      destruct (Hkept x Hx) as [?|(r' & ? & ? & ?)]; [by left|]. right. exists r'. set_solver.
    + intros c. rewrite Hcand. split; [intros (r' & ? & ? & ?); exists r'; set_solver|].
      intros (r' & Hr' & Hid & He). apply elem_of_app in Hr' as [Hr'|Hr']; [eauto|].
      apply list_elem_of_singleton in Hr' as ->. by destruct (Hne c.2).
    + intros r' Hr' Hn. apply elem_of_app in Hr' as [Hr'|Hr']; [apply elem_of_union_r; by apply Hall|].
      apply list_elem_of_singleton in Hr' as ->. set_solver.
Qed.

Lemma loop_run :
  NoDup (map getId records) -> loop_ok records (foldl step (prot, []) records).
Proof.
  intros Hnd.
  assert (forall l2 l1 acc, l1 ++ l2 = records -> loop_ok l1 acc -> prot ⊆ acc.1 ->
    loop_ok records (foldl step acc l2)) as Hgen.
  { induction l2 as [|r l2 IH]; intros l1 acc Heq Hok Hp; simpl.
    - by rewrite <- Heq, app_nil_r.
    - apply (IH (l1 ++ [r])); [by rewrite <- app_assoc| |].
      + apply loop_step; [| |done|done].
        * replace (l1 ++ r :: l2) with ((l1 ++ [r]) ++ l2) in Heq by (by rewrite <- app_assoc).
          rewrite <- Heq, map_app in Hnd. by apply NoDup_app in Hnd as [? _].
        * intros x Hx. rewrite <- Heq. set_solver.
      + etransitivity; [exact Hp|]. apply (select_fold_mono isTerminal getId getTimestamp cutoff [r] acc). }
  apply (Hgen records [] (prot, [])); [done| |done]. split_and!; simpl; [by left| |set_solver].
  intros c. split; [set_solver|]. intros (r & Hr & _). set_solver.
Qed.

(** The candidates are sorted by time, whatever the order of equal times. *)
Lemma candidates_sorted cand :
  StronglySorted (fun a b : string * Z => (b.2 <= a.2)%Z) (js_sort candidate_cmp cand).
Proof.
  apply js_sort_respects; [intros x y z; simpl; lia|..];
    intros x y; unfold candidate_cmp; destruct (Z.eqb_spec (y.2 - x.2) 0); lia.
Qed.

Lemma sorted_take_drop {A} (R : A -> A -> Prop) n l x y :
  StronglySorted R l -> x ∈ take n l -> y ∈ drop n l -> R x y.
Proof.
  intros Hs. rewrite <- (take_drop n l) in Hs. revert Hs. generalize (take n l), (drop n l).
  intros l1 l2 Hs Hx Hy. induction l1 as [|z l1 IH]; [set_solver|].
  inversion Hs as [|z' l' Hs' Hf]; subst. apply elem_of_cons in Hx as [->|Hx]; [|by apply IH].
  rewrite Forall_forall in Hf. apply Hf. set_solver.
Qed.

Section Outcome.
Context (max : Z).

Let kept : gset string := take_newest max (foldl step (prot, []) records).2 ∪ (foldl step (prot, []) records).1.
Let newest : list (string * Z) :=
  take (Z.to_nat max) (js_sort candidate_cmp (foldl step (prot, []) records).2).

Lemma expired_kept r t :
  NoDup (map getId records) -> expired r t -> getId r ∈ kept <-> (getId r, t) ∈ newest.
Proof.
  intros Hnd He. destruct (loop_run Hnd) as (Hk & Hc & _). unfold kept, newest, take_newest.
  rewrite elem_of_union, elem_of_ids_of. split.
  - intros [Hin|Hin].
    + apply list_elem_of_fmap in Hin as ([i t'] & Hi & Hin). simpl in Hi. subst i.
      assert ((getId r, t') ∈ (foldl step (prot, []) records).2) as Hcand.
      { rewrite <- (elem_of_js_sort candidate_cmp). rewrite <- (take_drop (Z.to_nat max)). set_solver. }
      apply Hc in Hcand as (r' & Hr' & Hid & He'). simpl in *.
      assert (r' = r) as -> by (eapply (NoDup_map_inj getId records); eauto; apply He).
      assert (parseRetentionTimestamp (getTimestamp r) = Some t') by apply He'.
      assert (parseRetentionTimestamp (getTimestamp r) = Some t) by apply He. congruence.
    + apply Hk in Hin as [Hp|(r' & Hr' & Hid & Hn)]; [by destruct (proj1 (proj2 (proj2 He)))|].
      assert (r' = r) as -> by (eapply (NoDup_map_inj getId records); eauto; apply He).
      by destruct (Hn t).
  - intros Hin. left. apply list_elem_of_fmap. by exists (getId r, t).
Qed.

Lemma unexpired_kept r :
  NoDup (map getId records) -> r ∈ records -> (forall t, ~ expired r t) -> getId r ∈ kept.
Proof. intros Hnd Hr Hn. destruct (loop_run Hnd) as (_ & _ & Hall). apply elem_of_union_r. by apply Hall. Qed.

(** What is dropped is no newer than what is kept. *)
Lemma dropped_older r r' t t' :
  NoDup (map getId records) -> expired r t -> expired r' t' ->
  getId r ∈ kept -> getId r' ∉ kept -> (t' <= t)%Z.
Proof.
  intros Hnd He He' Hk Hn. apply (expired_kept r t Hnd He) in Hk.
  assert ((getId r', t') ∉ newest) as Hn' by (by rewrite <- expired_kept).
  assert ((getId r', t') ∈ js_sort candidate_cmp (foldl step (prot, []) records).2) as Hin.
  { apply elem_of_js_sort. destruct (loop_run Hnd) as (_ & Hc & _). apply Hc. exists r'.
    split_and!; [apply He'|done|done]. }
  unfold newest in *. rewrite <- (take_drop (Z.to_nat max)) in Hin.
  apply elem_of_app in Hin as [Hin|Hin]; [done|].
  exact (sorted_take_drop _ _ _ _ _ (candidates_sorted _) Hk Hin).
Qed.
End Outcome.

(** The selection, as the code calls it. *)
Lemma selection_outcome max nowMs retentionMs :
  NoDup (map getId records) -> cutoff = (nowMs - retentionMs)%Z ->
  let kept := selectRetainedTerminalRecordIds records isTerminal getId getTimestamp nowMs retentionMs
                max prot in
  (forall r, r ∈ records -> (forall t, ~ expired r t) -> getId r ∈ kept)
  /\ (forall r r' t t', expired r t -> expired r' t' -> getId r ∈ kept -> getId r' ∉ kept -> (t' <= t)%Z)
  /\ exists l : list string, length l <= Z.to_nat max
       /\ forall r t, expired r t -> getId r ∈ kept -> getId r ∈ l.
Proof.
  intros Hnd Hcut kept.
  assert (kept = take_newest max (foldl step (prot, []) records).2 ∪ (foldl step (prot, []) records).1) as Hkept.
  { unfold kept, selectRetainedTerminalRecordIds. rewrite <- Hcut. by destruct (foldl _ _ _). }
  rewrite Hkept. split_and!.
  - intros. by apply unexpired_kept.
  - intros r r' t t'. by apply dropped_older.
  - exists (map fst (take (Z.to_nat max) (js_sort candidate_cmp (foldl step (prot, []) records).2))).
    split; [rewrite length_map, length_take; lia|]. intros r t He Hk.
    apply (expired_kept max r t Hnd He) in Hk. apply list_elem_of_fmap. by exists (getId r, t).
Qed.
End Select.
