(* ===== verification/BrokerCore.v ===== *)
(** * The broker's state and the steps every handler shares
    (src/core/broker.ts)

    [Broker] is the mutable state of [InMemoryA2ABroker]; the monad [BM] runs a
    method body on it.  The handlers themselves are in the files [Workers],
    [Proposals], [Tasks] and [Exchanges].  Modelled with the repositories of the options absent
    (then the optional calls on them do nothing); exchange records, which the
    code copies on every save while handlers keep the old object, live in a heap
    of objects so that the aliasing is the program's. *)

From Stdlib Require Import ZArith Lia String.
From stdpp Require Import base gmap strings list pretty.
From S2P Require Import Prelude JsRuntime Types Policy Retention.

Inductive BrokerErrorCode : Type :=
| CodeBadRequest
| CodeNotFound
| CodePolicyDenied
| CodeInvalidTransition
| CodeGithubCompletionEvidenceMissing
| CodeGithubCompletionReceiptInvalid
| CodeUnauthorized
| CodeRateLimited.
#[export] Instance BrokerErrorCode_eq_dec : EqDecision BrokerErrorCode.
Proof. solve_decision. Defined.
Definition BrokerErrorCode_text (x : BrokerErrorCode) : string :=
  match x with
  | CodeBadRequest => "bad_request"
  | CodeNotFound => "not_found"
  | CodePolicyDenied => "policy_denied"
  | CodeInvalidTransition => "invalid_transition"
  | CodeGithubCompletionEvidenceMissing => "github_completion_evidence_missing"
  | CodeGithubCompletionReceiptInvalid => "github_completion_receipt_invalid"
  | CodeUnauthorized => "unauthorized"
  | CodeRateLimited => "rate_limited"
  end.

Record BrokerError : Type := mkBrokerError {
  be_code : BrokerErrorCode;
  be_message : string;
}.
#[export] Instance eta_BrokerError : Eta BrokerError := fun r =>
  mkBrokerError (be_code r) (be_message r).

Definition normalizePolicyError (e : PolicyError) : BrokerError :=
  mkBrokerError CodePolicyDenied (pe_message e).

Inductive TaskUpdateReason : Type :=
| ReasonCreated
| ReasonApproved
| ReasonClaimed
| ReasonStarted
| ReasonSucceeded
| ReasonFailed
| ReasonCanceled
| ReasonUpdated
| ReasonReassigned
| ReasonRequeued
| ReasonDeadLettered
| ReasonWakePlanned
| ReasonWakeScheduled
| ReasonWakeSkipped
| ReasonWakeFailed.
#[export] Instance TaskUpdateReason_eq_dec : EqDecision TaskUpdateReason.
Proof. solve_decision. Defined.
Definition TaskUpdateReason_text (x : TaskUpdateReason) : string :=
  match x with
  | ReasonCreated => "created"
  | ReasonApproved => "approved"
  | ReasonClaimed => "claimed"
  | ReasonStarted => "started"
  | ReasonSucceeded => "succeeded"
  | ReasonFailed => "failed"
  | ReasonCanceled => "canceled"
  | ReasonUpdated => "updated"
  | ReasonReassigned => "reassigned"
  | ReasonRequeued => "requeued"
  | ReasonDeadLettered => "dead_lettered"
  | ReasonWakePlanned => "wake_planned"
  | ReasonWakeScheduled => "wake_scheduled"
  | ReasonWakeSkipped => "wake_skipped"
  | ReasonWakeFailed => "wake_failed"
  end.

Record TaskUpdate : Type := mkTaskUpdate {
  tu_task : TaskRecord;
  tu_reason : TaskUpdateReason;
  tu_final : bool;
  tu_seq : Z;
}.
#[export] Instance eta_TaskUpdate : Eta TaskUpdate := fun r =>
  mkTaskUpdate (tu_task r) (tu_reason r) (tu_final r) (tu_seq r).

Record BufferedTaskEvent : Type := mkBufferedTaskEvent {
  bt_seq : Z;
  bt_event : string;
  bt_data : TaskUpdate;
}.
#[export] Instance eta_BufferedTaskEvent : Eta BufferedTaskEvent := fun r =>
  mkBufferedTaskEvent (bt_seq r) (bt_event r) (bt_data r).

(** ** Configuration *)

Definition DEFAULT_MAX_REQUEUE_ATTEMPTS : Z := 5.
Definition DEFAULT_WORKER_HEARTBEAT_PERSIST_INTERVAL_MS : Z := 60000.
Definition HOT_PERSIST_FULL_RETENTION_INTERVAL_MS : Z := 5 * 60000.
Definition REQUEUE_EXHAUSTED_ERROR_CODE : string := "exceeded_requeue_limit".

(** The state store: none, one that saves snapshots, or one that also offers
    [saveHotEntities]. *)
Inductive StoreKind : Type := NoStore | SnapshotStore | HotStore.

Class BrokerConfig : Type := {
  cfg_brokerId : option string;
  cfg_teamId : option string;
  cfg_retention : BrokerRetentionPolicy;
  cfg_maxRequeueAttempts : Z;
  cfg_maxBufferedEventsPerTask : Z;
  cfg_workerHeartbeatPersistIntervalMs : Z;
  cfg_store : StoreKind;
}.

(** The audit actions the task event stream projects (its [ACTION_TO_KIND]). *)
Definition lifecycle_action (a : AuditAction) : bool :=
  match a with
  | AuditTaskCreated | AuditTaskApproved | AuditTaskClaimed | AuditTaskStarted
  | AuditTaskSucceeded | AuditTaskFailed | AuditTaskCanceled | AuditTaskRequeued
  | AuditTaskReassigned => true
  | _ => false
  end.

(** What [appendAuditEvent] asks of the event projections behind it (the task
    event stream followed by the terminal outbox): a push may produce a terminal
    outbox record, and audit events that are not lifecycle transitions, or whose
    target is another task, leave them alone. *)
Class TaskEventSink : Type := {
  sink_state : Type;
  sink_event : Type;
  sink_event_id : sink_event -> string;
  sink_push : AuditEvent -> TaskRecord -> sink_state -> sink_state * option sink_event;
  sink_snapshot : sink_state -> list sink_event;
  sink_restore : list sink_event -> sink_state -> sink_state;
  sink_push_ignored a t s :
    lifecycle_action (aud_action a) = false \/ aud_targetId a <> task_id t ->
    sink_push a t s = (s, None);
  sink_update : Type;
  sink_reads_clock : sink_update -> sink_state -> bool;
  sink_apply : sink_update -> string -> sink_state -> sink_state * result string (option sink_event);
}.

(** ** State *)

Section State.
Context `{TaskEventSink}.

(** The [pendingHot*] maps: copies of the records changed since the last save. *)
Record PendingHot : Type := mkPendingHot {
  ph_exchanges : jsmap A2AExchangeState;
  ph_exchangeMessages : jsmap A2AExchangeMessageRecord;
  ph_proposals : jsmap ChangeProposal;
  ph_artifacts : jsmap ArtifactRecord;
  ph_validations : jsmap ValidationResult;
  ph_tasks : jsmap TaskRecord;
  ph_tombstones : jsmap TaskTombstone;
  ph_auditEvents : jsmap AuditEvent;
  ph_workers : jsmap WorkerRecord;
  ph_terminalOutbox : jsmap sink_event;
}.
#[export] Instance eta_PendingHot : Eta PendingHot := fun r =>
  mkPendingHot (ph_exchanges r) (ph_exchangeMessages r) (ph_proposals r) (ph_artifacts r) (ph_validations r) (ph_tasks r) (ph_tombstones r) (ph_auditEvents r) (ph_workers r) (ph_terminalOutbox r).

Definition no_pending : PendingHot := mkPendingHot [] [] [] [] [] [] [] [] [] [].

Record BrokerSnapshot : Type := mkBrokerSnapshot {
  sn_exchanges : list A2AExchangeState;
  sn_exchangeMessages : list A2AExchangeMessageRecord;
  sn_proposals : list ChangeProposal;
  sn_artifacts : list ArtifactRecord;
  sn_validations : list ValidationResult;
  sn_auditEvents : list AuditEvent;
  sn_workers : list WorkerRecord;
  sn_tasks : list TaskRecord;
  sn_tombstones : list TaskTombstone;
  sn_terminalOutbox : list sink_event;
}.
#[export] Instance eta_BrokerSnapshot : Eta BrokerSnapshot := fun r =>
  mkBrokerSnapshot (sn_exchanges r) (sn_exchangeMessages r) (sn_proposals r) (sn_artifacts r) (sn_validations r) (sn_auditEvents r) (sn_workers r) (sn_tasks r) (sn_tombstones r) (sn_terminalOutbox r).

(** A call of the store: the full snapshot with the hints that survive it, or
    the hot records alone. *)
Inductive StoreCall : Type :=
| SaveFull (snapshot : BrokerSnapshot) (hints : option PendingHot)
| SaveHot (hints : PendingHot).

(** [br_storeCalls], [br_deliveries] and [br_stateNotifications] log the calls made to the store, the task listeners and the state listeners; [br_ticks] and [br_uuids] count the readings of the clock and of [randomUUID]. *)
Record Broker : Type := mkBroker {
  br_exchangeObjs : list A2AExchangeState;
  br_exchanges : jsmap nat;
  br_exchangeMessages : jsmap A2AExchangeMessageRecord;
  br_proposals : jsmap ChangeProposal;
  br_artifacts : jsmap ArtifactRecord;
  br_validations : jsmap ValidationResult;
  br_auditEvents : jsmap AuditEvent;
  br_workers : jsmap WorkerRecord;
  br_tasks : jsmap TaskRecord;
  br_tombstones : jsmap TaskTombstone;
  br_taskListeners : jsmap (list nat);
  br_taskEventBuffers : jsmap (list BufferedTaskEvent);
  br_taskEventSeqs : jsmap Z;
  br_pending : PendingHot;
  br_lastPersistedWorkerHeartbeatAtMs : jsmap Z;
  br_lastPersistedTaskHeartbeatAuditAtMs : jsmap Z;
  br_lastFullRetentionPersistAtMs : Z;
  br_sink : sink_state;
  br_storeCalls : list StoreCall;
  br_deliveries : list (nat * TaskUpdate);
  br_stateNotifications : nat;
  br_ticks : nat;
  br_uuids : nat;
}.
#[export] Instance eta_Broker : Eta Broker := fun r =>
  mkBroker (br_exchangeObjs r) (br_exchanges r) (br_exchangeMessages r) (br_proposals r) (br_artifacts r) (br_validations r) (br_auditEvents r) (br_workers r) (br_tasks r) (br_tombstones r) (br_taskListeners r) (br_taskEventBuffers r) (br_taskEventSeqs r) (br_pending r) (br_lastPersistedWorkerHeartbeatAtMs r) (br_lastPersistedTaskHeartbeatAuditAtMs r) (br_lastFullRetentionPersistAtMs r) (br_sink r) (br_storeCalls r) (br_deliveries r) (br_stateNotifications r) (br_ticks r) (br_uuids r).

End State.

Abbreviation BM := (stM Broker BrokerError).
Section Core.
Context `{JsHost} `{TaskEventSink} `{BrokerConfig}.

Definition throw {A} (code : BrokerErrorCode) (message : string) : BM A :=
  m_throw (mkBrokerError code message).
Definition throw_if (b : bool) (code : BrokerErrorCode) (message : string) : BM unit :=
  m_throw_if b (mkBrokerError code message).

(** [try { f() } catch (error) { throw normalizePolicyError(error) }]. *)
Definition lift_policy (r : result PolicyError unit) : BM unit :=
  match r with Ok _ => m_ret tt | Err e => m_throw (normalizePolicyError e) end.

(** [Date.now()], [isoNow()] and [randomUUID()]. *)
Definition now_ms : BM Z := fun b =>
  (b <| br_ticks ::= S |>, Ok (host_clock (br_ticks b))).
Definition isoNow : BM string := ms <-- now_ms; m_ret (toISOString ms).
Definition randomUUID : BM string := fun b =>
  (b <| br_uuids ::= S |>, Ok (host_uuid (br_uuids b))).

Definition gets_map {V} (m : Broker -> jsmap V) (k : string) : BM (option V) :=
  m_gets (fun b => jm_get k (m b)).

(** *** Exchange objects *)

(** The object behind a reference; a reference the broker made is never dangling. *)
Definition deref_exchange (r : nat) : BM A2AExchangeState := fun b =>
  match br_exchangeObjs b !! r with
  | Some ex => (b, Ok ex)
  | None => (b, Err (mkBrokerError CodeNotFound "exchange not found"))
  end.

Definition mutate_exchange (r : nat) (f : A2AExchangeState -> A2AExchangeState) : BM unit :=
  m_modify (fun b => b <| br_exchangeObjs ::= alter f r |>).

Definition alloc_exchange (ex : A2AExchangeState) : BM nat := fun b =>
  (b <| br_exchangeObjs ::= fun l => l ++ [ex] |>, Ok (length (br_exchangeObjs b))).

(** The exchanges map with the objects its references denote. *)
Definition exchange_view (b : Broker) : jsmap A2AExchangeState :=
  omap (fun kr => match br_exchangeObjs b !! kr.2 with
                  | Some ex => Some (kr.1, ex) | None => None end) (br_exchanges b).

Definition getExchange (id : string) : BM (option nat) := gets_map br_exchanges id.
Definition getTask (id : string) : BM (option TaskRecord) := gets_map br_tasks id.
Definition getWorker (id : string) : BM (option WorkerRecord) := gets_map br_workers id.
Definition getProposal (id : string) : BM (option ChangeProposal) := gets_map br_proposals id.
Definition getTombstone (id : string) : BM (option TaskTombstone) := gets_map br_tombstones id.

Definition require {A} (m : BM (option A)) (message : string) : BM A :=
  o <-- m; match o with Some a => m_ret a | None => throw CodeNotFound message end.

Definition requireExchange (id : string) : BM nat := require (getExchange id) "exchange not found".
Definition requireTask (id : string) : BM TaskRecord := require (getTask id) "task not found".
Definition requireWorker (id : string) : BM WorkerRecord := require (getWorker id) "worker not found".
Definition requireProposal (id : string) : BM ChangeProposal := require (getProposal id) "proposal not found".

Definition requireExchangeMessage (exchangeId messageId : string) : BM A2AExchangeMessageRecord :=
  o <-- gets_map br_exchangeMessages messageId;
  match o with
  | Some m => if String.eqb (msg_exchangeId m) exchangeId then m_ret m
              else throw CodeNotFound "exchange message not found"
  | None => throw CodeNotFound "exchange message not found"
  end.

(** *** Saving records: the map and its pending copy *)

Definition setTaskRecord (t : TaskRecord) : BM unit := m_modify (fun b => b
  <| br_tasks ::= jm_set (task_id t) t |>
  <| br_pending ::= fun p => p <| ph_tasks ::= jm_set (task_id t) t |> |>).

(** Saving an exchange stores a fresh copy of the object and copies it to the
    pending map. *)
Definition setExchangeRecord (r : nat) : BM unit :=
  ex <-- deref_exchange r;
  r' <-- alloc_exchange ex;
  m_modify (fun b => b
    <| br_exchanges ::= jm_set (ex_id ex) r' |>
    <| br_pending ::= fun p => p <| ph_exchanges ::= jm_set (ex_id ex) ex |> |>).

Definition setExchangeMessageRecord (m : A2AExchangeMessageRecord) : BM unit := m_modify (fun b => b
  <| br_exchangeMessages ::= jm_set (msg_id m) m |>
  <| br_pending ::= fun p => p <| ph_exchangeMessages ::= jm_set (msg_id m) m |> |>).

Definition setProposalRecord (x : ChangeProposal) : BM unit := m_modify (fun b => b
  <| br_proposals ::= jm_set (pr_id x) x |>
  <| br_pending ::= fun p => p <| ph_proposals ::= jm_set (pr_id x) x |> |>).

Definition setArtifactRecord (x : ArtifactRecord) : BM unit := m_modify (fun b => b
  <| br_artifacts ::= jm_set (art_id x) x |>
  <| br_pending ::= fun p => p <| ph_artifacts ::= jm_set (art_id x) x |> |>).

Definition setValidationRecord (x : ValidationResult) : BM unit := m_modify (fun b => b
  <| br_validations ::= jm_set (val_id x) x |>
  <| br_pending ::= fun p => p <| ph_validations ::= jm_set (val_id x) x |> |>).

(** *** Retention and persistence *)

Definition retention_view (b : Broker) : RetentionView :=
  mkRetentionView (exchange_view b) (br_exchangeMessages b) (br_proposals b) (br_artifacts b)
    (br_validations b) (br_auditEvents b) (br_workers b) (br_tasks b).

Definition prune (r : RetainedIds) (b : Broker) : Broker := b
  <| br_exchanges ::= fun m => pruneMapEntries m (ret_exchanges r) |>
  <| br_exchangeMessages ::= fun m => pruneMapEntries m (ret_exchangeMessages r) |>
  <| br_tasks ::= fun m => pruneMapEntries m (ret_tasks r) |>
  <| br_proposals ::= fun m => pruneMapEntries m (ret_proposals r) |>
  <| br_artifacts ::= fun m => pruneMapEntries m (ret_artifacts r) |>
  <| br_validations ::= fun m => pruneMapEntries m (ret_validations r) |>
  <| br_workers ::= fun m => pruneMapEntries m (ret_workers r) |>
  <| br_auditEvents ::= fun m => pruneMapEntries m (ret_auditEvents r) |>.

Definition applyRetentionPolicy : BM unit :=
  nowMs <-- now_ms;
  m_modify (fun b => prune (retainedIds cfg_retention nowMs (retention_view b)) b).

Definition exportSnapshot (b : Broker) : BrokerSnapshot :=
  {| sn_exchanges := jm_values (exchange_view b);
     sn_exchangeMessages := jm_values (br_exchangeMessages b);
     sn_proposals := jm_values (br_proposals b);
     sn_artifacts := jm_values (br_artifacts b);
     sn_validations := jm_values (br_validations b);
     sn_auditEvents := jm_values (br_auditEvents b);
     sn_workers := jm_values (br_workers b);
     sn_tasks := jm_values (br_tasks b);
     sn_tombstones := jm_values (br_tombstones b);
     sn_terminalOutbox := sink_snapshot (br_sink b) |}.

Definition nonempty {V} (m : jsmap V) : bool := negb (length m =? 0).

Definition hasPendingStateSaveHints (p : PendingHot) : bool :=
  nonempty (ph_exchanges p) || nonempty (ph_exchangeMessages p) || nonempty (ph_proposals p)
  || nonempty (ph_artifacts p) || nonempty (ph_validations p) || nonempty (ph_tasks p)
  || nonempty (ph_tombstones p) || nonempty (ph_auditEvents p) || nonempty (ph_workers p)
  || nonempty (ph_terminalOutbox p).

Definition clearPendingStateSaveHints : BM unit :=
  m_modify (fun b => b <| br_pending := no_pending |>).

Definition consumeStateSaveHintsWithoutSnapshot : BM (option PendingHot) :=
  p <-- m_gets br_pending;
  if negb (hasPendingStateSaveHints p) then m_ret None
  else clearPendingStateSaveHints;;; m_ret (Some p).

(** The entries of a pending map whose record is still in the snapshot. *)
Definition still_in {V} (id : V -> string) (l : list V) (m : jsmap V) : jsmap V :=
  List.filter (fun kv => in_set (ids_of (map id l)) (id kv.2)) m.

Definition consumeStateSaveHints (s : BrokerSnapshot) : BM (option PendingHot) :=
  p <-- m_gets br_pending;
  if negb (hasPendingStateSaveHints p) then m_ret None
  else clearPendingStateSaveHints;;; m_ret (Some {|
    ph_exchanges := still_in ex_id (sn_exchanges s) (ph_exchanges p);
    ph_exchangeMessages := still_in msg_id (sn_exchangeMessages s) (ph_exchangeMessages p);
    ph_proposals := still_in pr_id (sn_proposals s) (ph_proposals p);
    ph_artifacts := still_in art_id (sn_artifacts s) (ph_artifacts p);
    ph_validations := still_in val_id (sn_validations s) (ph_validations p);
    ph_tasks := still_in task_id (sn_tasks s) (ph_tasks p);
    ph_tombstones := still_in tb_taskId (sn_tombstones s) (ph_tombstones p);
    ph_auditEvents := still_in aud_id (sn_auditEvents s) (ph_auditEvents p);
    ph_workers := still_in wr_nodeId (sn_workers s) (ph_workers p);
    ph_terminalOutbox := still_in sink_event_id (sn_terminalOutbox s) (ph_terminalOutbox p) |}).

(** [stateStore?.save] and [saveHotEntities], logged. *)
Definition store_call (c : StoreCall) : BM unit :=
  m_modify (fun b => b <| br_storeCalls ::= fun l => l ++ [c] |>).

Definition emitStateChange : BM unit := m_modify (fun b => b <| br_stateNotifications ::= S |>).

Definition has_hot_store : bool := match cfg_store with HotStore => true | _ => false end.
Definition has_store : bool := match cfg_store with NoStore => false | _ => true end.

Definition persist_full (startedAtMs : Z) : BM unit :=
  applyRetentionPolicy;;;
  m_modify (fun b => b <| br_lastFullRetentionPersistAtMs := startedAtMs |>);;;
  snapshot <-- m_gets exportSnapshot;
  hints <-- consumeStateSaveHints snapshot;
  m_when has_store (store_call (SaveFull snapshot hints));;;
  emitStateChange;;;
  now_ms;;; m_ret tt.

Definition persistState : BM unit :=
  startedAtMs <-- now_ms;
  b <-- m_get;
  if has_hot_store && hasPendingStateSaveHints (br_pending b)
     && (startedAtMs - br_lastFullRetentionPersistAtMs b <? HOT_PERSIST_FULL_RETENTION_INTERVAL_MS)%Z
  then hints <-- consumeStateSaveHintsWithoutSnapshot;
       match hints with
       | Some h => store_call (SaveHot h);;; emitStateChange;;; now_ms;;; m_ret tt
       | None => persist_full startedAtMs
       end
  else persist_full startedAtMs.

(** *** The records of the terminal outbox *)

(** An operation of the outbox by its caller; a [TypeError] it throws is the
    message, and what it changed before it threw stays. *)
Definition update_sink (u : sink_update) (now : string) : BM (result string (option sink_event)) :=
  s <-- m_gets br_sink;
  m_modify (fun b => b <| br_sink := (sink_apply u now s).1 |>);;;
  m_ret (sink_apply u now s).2.

Definition pend_sink_event (e : sink_event) : BM unit :=
  m_modify (fun b => b <| br_pending ::= fun p => p <| ph_terminalOutbox ::= jm_set (sink_event_id e) e |> |>).

Definition persistTerminalTaskOutboxEvent (e : sink_event) : BM unit :=
  pend_sink_event e;;; persistState.

(** The clock is read where the operation needs the time and was given none. *)
Definition updateTerminalTaskOutboxEvent (u : sink_update) : BM (result string (option sink_event)) :=
  s <-- m_gets br_sink;
  now <-- (if sink_reads_clock u s then isoNow else m_ret "");
  r <-- update_sink u now;
  match r with
  | Ok (Some e) => persistTerminalTaskOutboxEvent e;;; m_ret r
  | _ => m_ret r
  end.

(** *** Task updates: buffers and listeners *)

Definition advanceTaskEventSeq (taskId : string) : BM Z :=
  o <-- gets_map br_taskEventSeqs taskId;
  let next := ((o ?? 0) + 1)%Z in
  m_modify (fun b => b <| br_taskEventSeqs ::= jm_set taskId next |>);;;
  m_ret next.

(** Keep the newest [max] elements: [splice(0, length - max)]. *)
Definition keep_newest {A} (max : Z) (l : list A) : list A :=
  drop (length l - Z.to_nat max) l.

Definition bufferTaskEvent (taskId : string) (event : BufferedTaskEvent) : BM unit :=
  m_modify (fun b => b <| br_taskEventBuffers ::= fun m =>
    jm_set taskId (keep_newest cfg_maxBufferedEventsPerTask ((jm_get taskId m ?? []) ++ [event])) m |>).

Definition emitTaskUpdate (task : TaskRecord) (reason : TaskUpdateReason) : BM unit :=
  b <-- m_get;
  let listeners := jm_get (task_id task) (br_taskListeners b) ?? [] in
  let hasBuffer := jm_has (task_id task) (br_taskEventBuffers b) in
  if (length listeners =? 0) && negb hasBuffer then m_ret tt
  else
    seq <-- advanceTaskEventSeq (task_id task);
    let snapshot := mkTaskUpdate task reason (isTerminalTaskStatus (task_status task)) seq in
    bufferTaskEvent (task_id task) (mkBufferedTaskEvent seq "task-status-update" snapshot);;;
    m_modify (fun b => b <| br_deliveries ::= fun l => l ++ map (fun i => (i, snapshot)) listeners |>).

Definition replayTaskEvents (taskId : string) (afterSeq : Z) (b : Broker) : list BufferedTaskEvent :=
  match jm_get taskId (br_taskEventBuffers b) with
  | None => []
  | Some buffer => List.filter (fun e => (afterSeq <? bt_seq e)%Z) buffer
  end.

(** Listeners are closures of the caller; they are represented by numbers. *)
Definition subscribeToTask (taskId : string) (listener : nat) : BM unit :=
  m_modify (fun b => b <| br_taskListeners ::= fun m =>
    let l := jm_get taskId m ?? [] in
    jm_set taskId (if decide (listener ∈ l) then l else l ++ [listener]) m |>).

(** The function [subscribeToTask] returns. *)
Definition unsubscribeFromTask (taskId : string) (listener : nat) : BM unit :=
  m_modify (fun b => b <| br_taskListeners ::= fun m =>
    match jm_get taskId m with
    | None => m
    | Some l => let l' := List.filter (fun i => negb (i =? listener)) l in
                match l' with [] => jm_delete taskId m | _ => jm_set taskId l' m end
    end |>).

(** *** Audit events *)

Definition getHeartbeatAuditEventId (action : AuditAction) (target : AuditTargetType) (targetId : string)
    : option string :=
  if bool_decide (action = AuditWorkerHeartbeat) && bool_decide (target = TargetWorker)
  then Some ("worker-heartbeat:" ++ targetId)%string
  else if bool_decide (action = AuditTaskHeartbeat) && bool_decide (target = TargetTask)
  then Some ("task-heartbeat:" ++ targetId)%string
  else None.

Record AuditInput : Type := mkAuditInput {
  ai_actorId : string;
  ai_action : AuditAction;
  ai_targetType : AuditTargetType;
  ai_targetId : string;
  ai_proposalId : option string;
  ai_note : option string;
}.

Definition push_to_sink (event : AuditEvent) : BM unit := m_modify (fun b =>
  match aud_targetType event, jm_get (aud_targetId event) (br_tasks b) with
  | TargetTask, Some task =>
      let '(s, o) := sink_push event task (br_sink b) in
      let b := b <| br_sink := s |> in
      match o with
      | Some te => b <| br_pending ::= fun p => p <| ph_terminalOutbox ::= jm_set (sink_event_id te) te |> |>
      | None => b
      end
  | _, _ => b
  end).

Definition appendAuditEvent (i : AuditInput) : BM AuditEvent :=
  eventId <-- match getHeartbeatAuditEventId (ai_action i) (ai_targetType i) (ai_targetId i) with
              | Some id => m_ret id
              | None => randomUUID
              end;
  createdAt <-- isoNow;
  let event := mkAuditEvent eventId (ai_actorId i) (ai_action i) (ai_targetType i) (ai_targetId i)
                 (ai_proposalId i) (ai_note i) createdAt in
  m_modify (fun b => b
    <| br_auditEvents ::= jm_set (aud_id event) event |>
    <| br_pending ::= fun p => p <| ph_auditEvents ::= jm_set (aud_id event) event |> |>);;;
  push_to_sink event;;;
  m_ret event.

(** An audit event about a task, the form every task handler uses. *)
Definition audit_task (actorId : string) (action : AuditAction) (t : TaskRecord) (note : option string)
    : BM unit :=
  appendAuditEvent (mkAuditInput actorId action TargetTask (task_id t) (task_proposalId t) note);;;
  m_ret tt.

(** *** Tombstones *)

Definition time_diff (a b : option Z) : option Z :=
  match a, b with Some x, Some y => Some (x - y)%Z | _, _ => None end.

Definition writeTombstone (task : TaskRecord) (reason : TombstoneReason)
    (context : option (option string * option string)) : BM unit :=
  now <-- isoNow;
  completedAtMs <-- match truthy_opt (task_completedAt task) with
                    | Some c => m_ret (date_parse c)
                    | None => ms <-- now_ms; m_ret (Some ms)
                    end;
  let tombstone := {|
    tb_taskId := task_id task;
    tb_terminalStatus := task_status task;
    tb_tombstoneReason := reason;
    tb_durationMs := time_diff completedAtMs (date_parse (task_createdAt task));
    tb_requeueCount := task_requeueCount task ?? 0%Z;
    tb_error := task_error task;
    tb_result := task_result task;
    tb_tombstonedAt := now;
    tb_metadata := context |} in
  m_modify (fun b => b
    <| br_tombstones ::= jm_set (task_id task) tombstone |>
    <| br_pending ::= fun p => p <| ph_tombstones ::= jm_set (task_id task) tombstone |> |>);;;
  audit_task ((context ?> fst) ?? "broker") AuditTaskTombstoned task
    (Some ("tombstoned: " ++ TombstoneReason_text reason)%string).

(** *** Keeping an exchange in step with its task *)

Definition linkTaskToExchange (task : TaskRecord) : BM unit :=
  match truthy_opt (task_exchangeId task) with
  | None => m_ret tt
  | Some id =>
      o <-- getExchange id;
      match o with
      | None => m_ret tt
      | Some r =>
          now <-- isoNow;
          mutate_exchange r (fun ex => ex
            <| ex_activeTaskId := Some (task_id task) |>
            <| ex_targetNodeId := task_targetNodeId task |>
            <| ex_assignedWorkerId := Some (task_assignedWorkerId task ?? task_targetNodeId task) |>
            <| ex_target := task_target task |>
            <| ex_updatedAt := now |>);;;
          setExchangeRecord r
      end
  end.

Definition syncExchangeStateFromTask (task : TaskRecord) (nextStatus : A2AExchangeStatus) : BM unit :=
  match truthy_opt (task_exchangeId task) with
  | None => m_ret tt
  | Some id =>
      o <-- getExchange id;
      match o with
      | None => m_ret tt
      | Some r =>
          now <-- isoNow;
          mutate_exchange r (fun ex => ex
            <| ex_activeTaskId := Some (task_id task) |>
            <| ex_targetNodeId := task_targetNodeId task |>
            <| ex_assignedWorkerId := Some (task_assignedWorkerId task ?? task_targetNodeId task) |>
            <| ex_target := task_target task |>
            <| ex_status := nextStatus |>
            <| ex_updatedAt := now |>);;;
          setExchangeRecord r
      end
  end.

(** *** Guards *)

Definition normalizeOwnershipString (o : option string) : option string := o ≫= trimmed.

Definition assertTransition (current : ProposalStatus) (allowed : list ProposalStatus) (action : string) : BM unit :=
  throw_if (negb (bool_decide (current ∈ allowed))) CodeInvalidTransition
    ("cannot " ++ action ++ " proposal while status is " ++ ProposalStatus_text current)%string.

Definition assertTaskStatus (current : TaskStatus) (allowed : list TaskStatus) (action : string) : BM unit :=
  throw_if (negb (bool_decide (current ∈ allowed))) CodeInvalidTransition
    ("cannot " ++ action ++ " task while status is " ++ TaskStatus_text current)%string.

Definition assertTaskOwnership (task : TaskRecord) (action : string) : BM unit :=
  match normalizeOwnershipString (task_brokerOfRecord task) with
  | Some taskBroker =>
      throw_if (negb (bool_decide (cfg_brokerId = Some taskBroker))) CodePolicyDenied
        (action ++ " requires broker-of-record " ++ taskBroker)%string
  | None => m_ret tt
  end;;;
  match normalizeOwnershipString (task_teamId task) with
  | Some taskTeam =>
      throw_if (negb (bool_decide (cfg_teamId = Some taskTeam))) CodePolicyDenied
        (action ++ " requires teamId " ++ taskTeam)%string
  | None => m_ret tt
  end.

Definition assertTaskWorker (task : TaskRecord) (workerId action : string) : BM unit :=
  assertTaskOwnership task action;;;
  requireWorker workerId;;;
  let expectedWorkerId := task_assignedWorkerId task ?? task_targetNodeId task in
  throw_if (negb (String.eqb workerId expectedWorkerId)) CodePolicyDenied
    (action ++ " requires the assigned worker")%string;;;
  throw_if (match truthy_opt (task_claimedBy task) with
            | Some c => negb (String.eqb c workerId) | None => false end) CodePolicyDenied
    (action ++ " requires the worker that claimed the task")%string.

End Core.
