(* ===== verification/Outbox.v ===== *)
(** * The terminal task outbox (src/core/terminal-event-outbox.ts)

    [TerminalTaskEventOutbox]: idempotent enqueue of one record per terminal
    transition, bounded retention, cursor replay, and the receipt/acknowledgement
    state of each record.  The payload's text (built and sanitised with regular
    expressions) is a parameter, [OutboxText]; the state machine only carries it.
    Together with the task event stream the outbox implements the interface
    [TaskEventSink] that [BrokerCore] appends audit events through. *)

From Stdlib Require Import ZArith Lia String Ascii.
From stdpp Require Import base gmap strings list pretty.
From S2P Require Import Prelude JsRuntime Types Policy Retention BrokerCore EventBuffer.
From S2P Require Import TaskEventStream.

(** ** Data *)

Inductive TerminalTaskOutboxAckEvidence : Type :=
| EvCurrentSessionVisible
| EvOperatorVisible
| EvOperatorConfirmed
| EvProviderDeliveryReceipt.
#[export] Instance AckEvidence_eq_dec : EqDecision TerminalTaskOutboxAckEvidence.
Proof. solve_decision. Defined.

Definition parse_evidence (s : string) : option TerminalTaskOutboxAckEvidence :=
  if String.eqb s "current_session_visible" then Some EvCurrentSessionVisible
  else if String.eqb s "operator_visible" then Some EvOperatorVisible
  else if String.eqb s "operator_confirmed" then Some EvOperatorConfirmed
  else if String.eqb s "provider_delivery_receipt" then Some EvProviderDeliveryReceipt
  else None.

Inductive TerminalTaskReceiptStatus : Type :=
| RsAccepted
| RsStarted
| RsProduced
| RsProviderSent
| RsProviderAccepted
| RsCurrentSessionVisible
| RsOperatorVisible
| RsTimedOut
| RsStale
| RsFailed.
#[export] Instance ReceiptStatus_eq_dec : EqDecision TerminalTaskReceiptStatus.
Proof. solve_decision. Defined.

Definition parse_receipt_status (s : string) : option TerminalTaskReceiptStatus :=
  if String.eqb s "accepted" then Some RsAccepted
  else if String.eqb s "started" then Some RsStarted
  else if String.eqb s "produced" then Some RsProduced
  else if String.eqb s "provider_sent" then Some RsProviderSent
  else if String.eqb s "provider_accepted" then Some RsProviderAccepted
  else if String.eqb s "current_session_visible" then Some RsCurrentSessionVisible
  else if String.eqb s "operator_visible" then Some RsOperatorVisible
  else if String.eqb s "timed_out" then Some RsTimedOut
  else if String.eqb s "stale" then Some RsStale
  else if String.eqb s "failed" then Some RsFailed
  else None.

(** [normalizeTerminalTaskReceiptStatus]: two legacy names mean "sent". *)
Definition normalizeTerminalTaskReceiptStatus (s : string) : option TerminalTaskReceiptStatus :=
  match parse_receipt_status s with
  | Some st => Some st
  | None => if String.eqb s "sent" || String.eqb s "provider_delivered_if_known"
            then Some RsProviderSent else None
  end.

Inductive AckDecision : Type := AckPending | AckEligible | AckConfirmed | AckRejected.
#[export] Instance AckDecision_eq_dec : EqDecision AckDecision.
Proof. solve_decision. Defined.

(** The payload fields that the outbox reads or writes; the others ride along. *)
Record TerminalTaskEventPayload : Type := mkTerminalTaskEventPayload {
  tp_taskId : string;
  tp_status : TaskStatus;
  tp_parentRoundId : option string;
  tp_run : option string;
  tp_traceId : option string;
  tp_worker : option string;
  tp_repo : option string;
  tp_issue : option JsNum;
  tp_taskBrief : option string;
  tp_parentRoundProgress : option Z;
  tp_parentRoundTotal : option Z;
  tp_terminalBriefTitle : option string;
  tp_title : option string;
  tp_other : JsRecord;
}.
#[export] Instance eta_TerminalTaskEventPayload : Eta TerminalTaskEventPayload := fun r =>
  mkTerminalTaskEventPayload (tp_taskId r) (tp_status r) (tp_parentRoundId r) (tp_run r) (tp_traceId r) (tp_worker r) (tp_repo r) (tp_issue r) (tp_taskBrief r) (tp_parentRoundProgress r) (tp_parentRoundTotal r) (tp_terminalBriefTitle r) (tp_title r) (tp_other r).

Record OutboxAckState : Type := mkOutboxAckState {
  ak_evidence : TerminalTaskOutboxAckEvidence;
  ak_acknowledgedAt : string;
  ak_receiptId : option string;
  ak_note : option string;
}.

Record OutboxReceiptState : Type := mkOutboxReceiptState {
  rc_status : TerminalTaskReceiptStatus;
  rc_updatedAt : string;
  rc_evidence : option TerminalTaskOutboxAckEvidence;
  rc_receiptId : option string;
  rc_note : option string;
}.

Record OutboxAckAudit : Type := mkOutboxAckAudit {
  au_decision : AckDecision;
  au_reason : string;
  au_updatedAt : string;
  au_taskId : string;
  au_worker : option string;
  au_repo : option string;
  au_issue : option JsNum;
  au_taskBrief : option string;
  au_run : option string;
  au_traceId : option string;
  au_receiptStatus : option TerminalTaskReceiptStatus;
  au_evidence : option TerminalTaskOutboxAckEvidence;
  au_receiptId : option string;
}.

Record TerminalTaskOutboxEvent : Type := mkOutboxEvent {
  ob_id : string;
  ob_taskEventId : Z;
  ob_payload : TerminalTaskEventPayload;
  ob_createdAt : string;
  ob_ack : option OutboxAckState;
  ob_receipt : OutboxReceiptState;
  ob_ackAudit : option OutboxAckAudit;
  ob_deliveredAt : option string;
  ob_attempts : Z;
}.
#[export] Instance eta_TerminalTaskOutboxEvent : Eta TerminalTaskOutboxEvent := fun r =>
  mkOutboxEvent (ob_id r) (ob_taskEventId r) (ob_payload r) (ob_createdAt r) (ob_ack r) (ob_receipt r) (ob_ackAudit r) (ob_deliveredAt r) (ob_attempts r).

(** [seen] is the set of the ids in [seenOrder], which has no repetition; the
    order alone is kept. *)
Record TerminalTaskEventOutbox : Type := mkOutbox {
  ox_events : list TerminalTaskOutboxEvent;
  ox_seenOrder : list string;
  ox_maxEvents : Z;
  ox_succeededChildIds : jsmap (list string);
}.
#[export] Instance eta_TerminalTaskEventOutbox : Eta TerminalTaskEventOutbox := fun r =>
  mkOutbox (ox_events r) (ox_seenOrder r) (ox_maxEvents r) (ox_succeededChildIds r).

Definition DEFAULT_TERMINAL_TASK_OUTBOX_RETENTION : Z := 1000.
Definition MAX_ACK_NOTE_CHARS : Z := 240.

Class OutboxText : Type := {
  text_payload : TaskRecord -> TerminalTaskEventPayload;
  text_ack : option string -> option string;
}.

(** ** Ids *)

(** The characters encodeURIComponent leaves alone. *)
Definition uri_unreserved (c : ascii) : bool :=
  let n := ascii_code c in
  ((65 <=? n) && (n <=? 90)) || ((97 <=? n) && (n <=? 122)) || is_digit c
  || bool_decide (c ∈ chars "-_.!~*'()").

Definition hex_digit (n : nat) : ascii := Ascii.ascii_of_nat (if n <? 10 then 48 + n else 55 + n).

Definition encodeURIComponent (s : string) : string :=
  unchars (flat_map (fun c =>
    if uri_unreserved c then [c]
    else let n := ascii_code c in ["%"%char; hex_digit (n / 16); hex_digit (n mod 16)]) (chars s)).

Definition formatTerminalTaskEventId (taskId : string) (status : TaskStatus) (completedAt : string) : string :=
  ("terminal:" ++ encodeURIComponent taskId ++ ":" ++ TaskStatus_text status ++ ":"
   ++ encodeURIComponent completedAt)%string.

Definition isTerminalStatus (s : TaskStatus) : bool :=
  bool_decide (s ∈ [TaskSucceeded; TaskFailed; TaskCanceled; TaskBlocked]).

Definition terminal_kind (k : TaskStatusEventKind) : bool :=
  bool_decide (k ∈ [KindSucceeded; KindFailed; KindCanceled]).

(** ** Receipts and acknowledgements *)

Section Outbox.
Context `{OutboxText}.

Definition buildAckAudit (p : TerminalTaskEventPayload) (decision : AckDecision) (reason updatedAt : string)
    (receiptStatus : option TerminalTaskReceiptStatus)
    (evidence : option TerminalTaskOutboxAckEvidence) (receiptId : option string) : OutboxAckAudit := {|
  au_decision := decision; au_reason := reason; au_updatedAt := updatedAt; au_taskId := tp_taskId p;
  au_worker := truthy_opt (tp_worker p); au_repo := truthy_opt (tp_repo p); au_issue := tp_issue p;
  au_taskBrief := truthy_opt (tp_taskBrief p); au_run := truthy_opt (tp_run p);
  au_traceId := truthy_opt (tp_traceId p); au_receiptStatus := receiptStatus;
  au_evidence := evidence; au_receiptId := truthy_opt receiptId |}.

Definition receipt_text (s : TerminalTaskReceiptStatus) : string :=
  match s with
  | RsAccepted => "accepted" | RsStarted => "started" | RsProduced => "produced"
  | RsProviderSent => "provider_sent" | RsProviderAccepted => "provider_accepted"
  | RsCurrentSessionVisible => "current_session_visible" | RsOperatorVisible => "operator_visible"
  | RsTimedOut => "timed_out" | RsStale => "stale" | RsFailed => "failed"
  end.

Definition ackAuditFromReceipt (p : TerminalTaskEventPayload) (r : OutboxReceiptState) : OutboxAckAudit :=
  let '(decision, reason) :=
    match rc_status r with
    | RsOperatorVisible =>
        (AckEligible, "operator-visible receipt recorded; terminal ACK is eligible with operator_visible/operator_confirmed evidence")
    | RsCurrentSessionVisible =>
        (AckEligible, "current-session-visible receipt recorded; terminal ACK is eligible with current_session_visible evidence but is not manual operator confirmation")
    | RsProviderSent | RsProviderAccepted =>
        (AckPending, "provider send-only success recorded; awaiting provider-delivery receipt or operator-visible evidence before ACK")
    | RsFailed | RsTimedOut | RsStale =>
        (AckPending, ("terminal ACK pending: notification receipt is " ++ receipt_text (rc_status r)
          ++ " without current-session-visible/operator-visible/provider-delivery evidence")%string)
    | _ =>
        (AckPending, "terminal ACK pending: notification has not produced current-session-visible/operator-visible/provider-delivery evidence")
    end in
  buildAckAudit p decision reason (rc_updatedAt r) (Some (rc_status r)) (rc_evidence r) (rc_receiptId r).

Definition ackConfirmedReason (e : TerminalTaskOutboxAckEvidence) : string :=
  match e with
  | EvProviderDeliveryReceipt => "terminal ACK confirmed from provider-delivery receipt evidence, not provider send-only success"
  | EvCurrentSessionVisible => "terminal ACK confirmed from current-session-visible evidence, not provider send-only success or manual operator confirmation"
  | _ => "terminal ACK confirmed from operator-visible evidence"
  end.

Record AckInput : Type := mkAckInput {
  ki_evidence : string;
  ki_acknowledgedAt : option string;
  ki_receiptId : option string;
  ki_note : option string;
}.

(** [now] is the reading of the clock. *)
Definition buildAckState (r : AckInput) (e : TerminalTaskOutboxAckEvidence) (now : string) : OutboxAckState :=
  mkOutboxAckState e (ki_acknowledgedAt r ?? now) (text_ack (ki_receiptId r)) (text_ack (ki_note r)).

Definition buildReceiptStateFromAck (a : OutboxAckState) : OutboxReceiptState := {|
  rc_status := match ak_evidence a with
               | EvProviderDeliveryReceipt => RsProviderSent
               | EvCurrentSessionVisible => RsCurrentSessionVisible
               | _ => RsOperatorVisible end;
  rc_updatedAt := ak_acknowledgedAt a;
  rc_evidence := Some (ak_evidence a);
  rc_receiptId := truthy_opt (ak_receiptId a);
  rc_note := truthy_opt (ak_note a) |}.

Definition buildReceiptState (s : TerminalTaskReceiptStatus) (updatedAt : string) (note : option string)
    : OutboxReceiptState := mkOutboxReceiptState s updatedAt None None (text_ack note).

(** ** The payload's round progress and title *)

Definition applyRoundProgressMetadata (p : TerminalTaskEventPayload) (m : jsmap (list string))
    : TerminalTaskEventPayload * jsmap (list string) :=
  match truthy_opt (tp_run p) with
  | None => (p, m)
  | Some runKey =>
      let m := if bool_decide (tp_status p = TaskSucceeded)
               then jm_set runKey (js_unique ((jm_get runKey m ?? []) ++ [tp_taskId p])) m else m in
      let succeededCount := Z.of_nat (length (jm_get runKey m ?? [])) in
      (match tp_parentRoundTotal p with
       | Some t => if (t =? 0)%Z then p else p <| tp_parentRoundProgress := Some succeededCount |>
       | None => p
       end, m)
  end.

Definition status_label (s : TaskStatus) : string :=
  match s with
  | TaskFailed => "실패"
  | TaskCanceled => "취소"
  | TaskBlocked => "차단"
  | _ => "완료"
  end.

Definition buildTerminalBriefTitle (p : TerminalTaskEventPayload) : option string :=
  match truthy_opt (tp_worker p) with
  | None => None
  | Some worker =>
      let title := ("A2A Terminal Brief " ++ status_label (tp_status p) ++ ": " ++ worker)%string in
      match tp_parentRoundProgress p, tp_parentRoundTotal p with
      | Some n, Some t => Some (title ++ "(" ++ pretty n ++ "/" ++ pretty t ++ ")")%string
      | _, _ => Some title
      end
  end.

Definition applyTerminalBriefTitle (p : TerminalTaskEventPayload) : TerminalTaskEventPayload :=
  match truthy_opt (buildTerminalBriefTitle p) with
  | Some t => p <| tp_terminalBriefTitle := Some t |>
  | None => p
  end.

Definition applyTerminalBriefCompatibilityAliases (p : TerminalTaskEventPayload) : TerminalTaskEventPayload :=
  let p := match truthy_opt (tp_run p), truthy_opt (tp_parentRoundId p) with
           | Some r, None => p <| tp_parentRoundId := Some r |>
           | _, _ => p end in
  match truthy_opt (tp_terminalBriefTitle p), truthy_opt (tp_title p) with
  | Some t, None => p <| tp_title := Some t |>
  | _, _ => p
  end.

(** ** Operations *)

Definition new_outbox (maxEvents : option Z) : TerminalTaskEventOutbox :=
  mkOutbox [] [] (match maxEvents with
                  | Some n => if (0 <? n)%Z then n else DEFAULT_TERMINAL_TASK_OUTBOX_RETENTION
                  | None => DEFAULT_TERMINAL_TASK_OUTBOX_RETENTION end) [].

Definition find_event (id : string) (l : list TerminalTaskOutboxEvent) : option TerminalTaskOutboxEvent :=
  List.find (fun e => String.eqb (ob_id e) id) l.

(** The mutation of the event object that [find] returned. *)
Fixpoint update_event (id : string) (f : TerminalTaskOutboxEvent -> TerminalTaskOutboxEvent)
    (l : list TerminalTaskOutboxEvent) : list TerminalTaskOutboxEvent :=
  match l with
  | [] => []
  | e :: l => if String.eqb (ob_id e) id then f e :: l else e :: update_event id f l
  end.

(** [maxSeen] is twice [maxEvents]; an id already in the order is never marked
    again.  The shifted empty id would stay in the set: ids start with
    "terminal:". *)
Definition markSeen (id : string) (o : TerminalTaskEventOutbox) : TerminalTaskEventOutbox :=
  o <| ox_seenOrder := trim_oldest (2 * ox_maxEvents o) (ox_seenOrder o ++ [id]) |>.

Definition enforceRetention (o : TerminalTaskEventOutbox) : TerminalTaskEventOutbox :=
  o <| ox_events := trim_oldest (ox_maxEvents o) (ox_events o) |>.

Definition new_event (id : string) (te : TaskStatusEvent) (p : TerminalTaskEventPayload)
    : TerminalTaskOutboxEvent := {|
  ob_id := id;
  ob_taskEventId := se_id te;
  ob_payload := p;
  ob_createdAt := se_timestamp te;
  ob_ack := None;
  ob_receipt := mkOutboxReceiptState RsAccepted (se_timestamp te) None None None;
  ob_ackAudit := Some (buildAckAudit p AckPending
    "terminal event accepted; awaiting current-session-visible/operator-visible/provider-delivery evidence before ACK"
    (se_timestamp te) (Some RsAccepted) None None);
  ob_deliveredAt := None;
  ob_attempts := 0 |}.

Definition enqueue (te : TaskStatusEvent) (task : TaskRecord) (o : TerminalTaskEventOutbox)
    : TerminalTaskEventOutbox * option TerminalTaskOutboxEvent :=
  if negb (terminal_kind (se_kind te)) then (o, None)
  else if negb (isTerminalStatus (task_status task)) then (o, None)
  else if negb (bool_decide (se_status te = task_status task)) then (o, None)
  else if negb (String.eqb (se_taskId te) (task_id task)) then (o, None)
  else
    let id := formatTerminalTaskEventId (task_id task) (task_status task)
                (task_completedAt task ?? task_updatedAt task) in
    match find_event id (ox_events o) with
    | Some existing => (o, Some existing)
    | None =>
        if bool_decide (id ∈ ox_seenOrder o) then (o, None)
        else
          let '(payload, children) := applyRoundProgressMetadata (text_payload task) (ox_succeededChildIds o) in
          let payload := applyTerminalBriefCompatibilityAliases (applyTerminalBriefTitle payload) in
          let event := new_event id te payload in
          (enforceRetention (markSeen id (o
             <| ox_succeededChildIds := children |>
             <| ox_events ::= fun l => l ++ [event] |>)), Some event)
    end.

Definition ack_type_error : string :=
  "terminal outbox ack requires current-session-visible/receipt/operator-visible evidence".

Definition rejected_ack (now : string) (e : TerminalTaskOutboxEvent) : TerminalTaskOutboxEvent :=
  e <| ob_ackAudit := Some (buildAckAudit (ob_payload e) AckRejected
      "terminal ACK rejected: provider send success is not current-session-visible/operator-visible/provider-delivery evidence"
      now (Some (rc_status (ob_receipt e))) None None) |>.

Definition confirmed_ack (a : OutboxAckState) (e : TerminalTaskOutboxEvent) : TerminalTaskOutboxEvent :=
  let receipt := buildReceiptStateFromAck a in
  e <| ob_ack := Some a |>
    <| ob_receipt := receipt |>
    <| ob_ackAudit := Some (buildAckAudit (ob_payload e) AckConfirmed (ackConfirmedReason (ak_evidence a))
         (ak_acknowledgedAt a) (Some (rc_status receipt)) (Some (ak_evidence a)) (ak_receiptId a)) |>
    <| ob_deliveredAt := None |>
    <| ob_attempts ::= Z.add 1 |>.

(** A thrown [TypeError] is its message. *)
Definition acknowledge (id : string) (r : AckInput) (now : string) (o : TerminalTaskEventOutbox)
    : TerminalTaskEventOutbox * result string (option TerminalTaskOutboxEvent) :=
  match parse_evidence (ki_evidence r) with
  | None => (o <| ox_events ::= update_event id (rejected_ack now) |>, Err ack_type_error)
  | Some e =>
      match find_event id (ox_events o) with
      | None => (o, Ok None)
      | Some event =>
          match ob_ack event with
          | Some _ => (o, Ok (Some event))
          | None =>
              let a := buildAckState r e now in
              (o <| ox_events ::= update_event id (confirmed_ack a) |>, Ok (Some (confirmed_ack a event)))
          end
      end
  end.

Definition receipt_type_error : string :=
  "terminal outbox receipt status must be accepted, started, produced, provider_sent, provider_accepted, current_session_visible, operator_visible, timed_out, stale, or failed".

Definition with_receipt (s : TerminalTaskReceiptStatus) (updatedAt : string) (note : option string)
    (e : TerminalTaskOutboxEvent) : TerminalTaskOutboxEvent :=
  let receipt := buildReceiptState s updatedAt note in
  e <| ob_receipt := receipt |> <| ob_ackAudit := Some (ackAuditFromReceipt (ob_payload e) receipt) |>.

Definition recordReceiptStatus (id status : string) (updatedAt note : option string) (now : string)
    (o : TerminalTaskEventOutbox) : TerminalTaskEventOutbox * result string (option TerminalTaskOutboxEvent) :=
  match parse_receipt_status status with
  | None => (o, Err receipt_type_error)
  | Some s =>
      match find_event id (ox_events o) with
      | None => (o, Ok None)
      | Some event =>
          let f := with_receipt s (updatedAt ?? now) note in
          (o <| ox_events ::= update_event id f |>, Ok (Some (f event)))
      end
  end.

(** ** Restart *)

(** A record of an older version may carry a delivery time and no
    acknowledgement.  The statuses of a receipt are members of their type here. *)
Definition migrated_ack (e : TerminalTaskOutboxEvent) : option OutboxAckState :=
  match ob_ack e, truthy_opt (ob_deliveredAt e) with
  | None, Some d => Some (mkOutboxAckState EvOperatorVisible d None (Some "migrated legacy deliveredAt ack"))
  | a, _ => a
  end.

Definition restored_event (e : TerminalTaskOutboxEvent) : TerminalTaskOutboxEvent :=
  let e := e <| ob_ack := migrated_ack e |> in
  e <| ob_ackAudit := Some match ob_ack e with
       | Some a => buildAckAudit (ob_payload e) AckConfirmed (ackConfirmedReason (ak_evidence a))
                     (ak_acknowledgedAt a) (Some (rc_status (ob_receipt e))) (Some (ak_evidence a))
                     (ak_receiptId a)
       | None => ackAuditFromReceipt (ob_payload e) (ob_receipt e)
       end |>.

Definition restore (o : TerminalTaskEventOutbox) (e : TerminalTaskOutboxEvent) : TerminalTaskEventOutbox :=
  if bool_decide (ob_id e ∈ ox_seenOrder o) then o
  else markSeen (ob_id e) (o <| ox_events ::= fun l => l ++ [restored_event e] |>).

Definition rebuildSucceededChildren (o : TerminalTaskEventOutbox) : TerminalTaskEventOutbox :=
  o <| ox_succeededChildIds := foldl (fun m e =>
    match truthy_opt (tp_run (ob_payload e)) with
    | Some runKey =>
        if bool_decide (tp_status (ob_payload e) = TaskSucceeded)
        then jm_set runKey (js_unique ((jm_get runKey m ?? []) ++ [tp_taskId (ob_payload e)])) m else m
    | None => m
    end) [] (ox_events o) |>.

Definition restoreSnapshot (events : list TerminalTaskOutboxEvent) (o : TerminalTaskEventOutbox)
    : TerminalTaskEventOutbox :=
  rebuildSucceededChildren (enforceRetention (foldl restore o events)).

(** ** Replay *)

Definition isReceiptConfirmed (e : TerminalTaskOutboxEvent) : bool :=
  is_some (ob_ack e) || ostr_truthy (ob_deliveredAt e).

Fixpoint index_of (id : string) (l : list TerminalTaskOutboxEvent) : option nat :=
  match l with
  | [] => None
  | e :: l => if String.eqb (ob_id e) id then Some 0 else S <$> index_of id l
  end.

Definition indexOfId (id : option string) (o : TerminalTaskEventOutbox) : option nat :=
  match truthy_opt id with Some i => index_of i (ox_events o) | None => None end.

Definition applyLimit (events : list TerminalTaskOutboxEvent) (limit : option Z) : list TerminalTaskOutboxEvent :=
  match limit with
  | Some n => if (0 <=? n)%Z then take (Z.to_nat n) events else events
  | None => events
  end.

Definition outbox_subscribe (afterId : option string) (limit : option Z) (o : TerminalTaskEventOutbox)
    : list TerminalTaskOutboxEvent :=
  applyLimit (match indexOfId afterId o with
              | Some i => drop (S i) (ox_events o) | None => ox_events o end) limit.

Definition nextCursor (afterId : option string) (afterIndex : option nat)
    (events : list TerminalTaskOutboxEvent) (o : TerminalTaskEventOutbox) : option string :=
  match truthy_opt afterId, afterIndex with
  | Some a, Some i =>
      match last (List.filter (fun j => i <? j) (omap (fun e => index_of (ob_id e) (ox_events o)) events)) with
      | Some j => ob_id <$> (ox_events o !! j)
      | None => Some a
      end
  | _, _ => ob_id <$> last events
  end.

Record SubscribeResult : Type := mkSubscribeResult {
  sr_events : list TerminalTaskOutboxEvent;
  sr_cursor : option string;
  sr_reconciledUnacked : nat;
}.

Definition subscribeWithCursor (afterId : option string) (limit : option Z) (o : TerminalTaskEventOutbox)
    : SubscribeResult :=
  let afterIndex := indexOfId afterId o in
  let unacknowledgedBeforeCursor :=
    match afterIndex with
    | Some i => List.filter (fun e => negb (isReceiptConfirmed e)) (take (S i) (ox_events o))
    | None => [] end in
  let newEvents := match afterIndex with Some i => drop (S i) (ox_events o) | None => ox_events o end in
  let events := applyLimit (unacknowledgedBeforeCursor ++ newEvents) limit in
  {| sr_events := events;
     sr_cursor := nextCursor afterId afterIndex events o;
     sr_reconciledUnacked := length (List.filter (fun e =>
       match index_of (ob_id e) (ox_events o), afterIndex with
       | Some j, Some i => (j <=? i) && negb (isReceiptConfirmed e)
       | _, _ => false end) events) |}.
End Outbox.

(** ** What the operator tells the outbox *)

Inductive OutboxUpdate : Type :=
| UpdateAck (id : string) (r : AckInput)
| UpdateReceipt (id status : string) (updatedAt note : option string).

(** [new Date()] is evaluated on the branches that use it. *)
Definition update_reads_clock (u : OutboxUpdate) (o : TerminalTaskEventOutbox) : bool :=
  match u with
  | UpdateAck id r =>
      match parse_evidence (ki_evidence r), find_event id (ox_events o) with
      | None, found => is_some found
      | Some _, Some e => negb (is_some (ob_ack e)) && negb (is_some (ki_acknowledgedAt r))
      | Some _, None => false
      end
  | UpdateReceipt id status updatedAt _ =>
      is_some (parse_receipt_status status) && is_some (find_event id (ox_events o))
      && negb (is_some updatedAt)
  end.

Definition apply_update `{OutboxText} (u : OutboxUpdate) (now : string) (o : TerminalTaskEventOutbox)
    : TerminalTaskEventOutbox * result string (option TerminalTaskOutboxEvent) :=
  match u with
  | UpdateAck id r => acknowledge id r now o
  | UpdateReceipt id status updatedAt note => recordReceiptStatus id status updatedAt note now o
  end.

(** ** The broker's event projections as a [TaskEventSink] *)

Lemma lifecycle_action_kind a : lifecycle_action a = false -> ACTION_TO_KIND a = None.
Proof. by destruct a. Qed.

#[export] Instance broker_sink `{OutboxText} : TaskEventSink := {|
  sink_state := stream_state * TerminalTaskEventOutbox;
  sink_event := TerminalTaskOutboxEvent;
  sink_event_id := ob_id;
  sink_push audit task s :=
    match stream_push audit task s.1 with
    | (st, Some te) => let '(ob, e) := enqueue te task s.2 in ((st, ob), e)
    | (st, None) => ((st, s.2), None)
    end;
  sink_snapshot s := ox_events s.2;
  sink_restore l s := (s.1, restoreSnapshot l s.2);
  sink_push_ignored := ltac:(intros a t [st ob] Hi; simpl; rewrite stream_push_ignored;
    [done|destruct Hi as [Hi|Hi]; [left; by apply lifecycle_action_kind|by right]]);
  sink_update := OutboxUpdate;
  sink_reads_clock u s := update_reads_clock u s.2;
  sink_apply u now s := let '(ob, r) := apply_update u now s.2 in ((s.1, ob), r);
|}.

(** The broker's two entry points. *)
Definition acknowledgeTerminalTaskOutboxEvent `{JsHost} `{OutboxText} `{BrokerConfig}
    (id : string) (r : AckInput) : BM (result string (option TerminalTaskOutboxEvent)) :=
  updateTerminalTaskOutboxEvent (UpdateAck id r).

Definition recordTerminalTaskOutboxReceiptStatus `{JsHost} `{OutboxText} `{BrokerConfig}
    (id status : string) (updatedAt note : option string)
    : BM (result string (option TerminalTaskOutboxEvent)) :=
  updateTerminalTaskOutboxEvent (UpdateReceipt id status updatedAt note).

(** ** Facts *)

Section Facts.
Context `{OutboxText}.

Lemma find_event_id id l e : find_event id l = Some e -> ob_id e = id.
Proof. unfold find_event. intros [_ He]%find_some. by apply String.eqb_eq. Qed.

Lemma find_event_elem id l e : find_event id l = Some e -> e ∈ l.
Proof. unfold find_event. intros [Hin _]%find_some. by apply list_elem_of_In. Qed.

Lemma find_event_None id l : find_event id l = None -> id ∉ map ob_id l.
Proof.
  unfold find_event. intros Hn Hin. apply list_elem_of_fmap in Hin as (e & -> & Hin).
  apply list_elem_of_In in Hin. apply (find_none _ _ Hn) in Hin. by rewrite String.eqb_refl in Hin.
Qed.

Lemma find_event_app id l l' :
  find_event id (l ++ l') = match find_event id l with Some e => Some e | None => find_event id l' end.
Proof. unfold find_event. induction l as [|e l IH]; simpl; [done|]. by destruct (String.eqb _ _). Qed.

Lemma find_event_update id f l :
  (forall e, ob_id (f e) = ob_id e) -> find_event id (update_event id f l) = f <$> find_event id l.
Proof.
  intros Hf. unfold find_event. induction l as [|e l IH]; simpl; [done|].
  destruct (String.eqb (ob_id e) id) eqn:He; simpl; [by rewrite Hf, He|by rewrite He].
Qed.

Lemma update_event_ids id f l :
  (forall e, ob_id (f e) = ob_id e) -> map ob_id (update_event id f l) = map ob_id l.
Proof.
  intros Hf. induction l as [|e l IH]; simpl; [done|].
  destruct (String.eqb (ob_id e) id); simpl; [by rewrite Hf|by rewrite IH].
Qed.

(** The newest record is found after retention. *)
Lemma trim_oldest_last {A} max (l : list A) x : (0 < max)%Z -> x ∈ trim_oldest max (l ++ [x]).
Proof.
  intros Hm. unfold trim_oldest. case_match; [|set_solver].
  rewrite length_app in *. simpl in *. rewrite drop_app_le by lia. set_solver.
Qed.

(** The outbox invariant: every retained record was seen, no id occurs twice,
    and both lists respect their caps. *)
Record outbox_ok (o : TerminalTaskEventOutbox) : Prop := {
  oo_max : (0 < ox_maxEvents o)%Z;
  oo_ids : NoDup (map ob_id (ox_events o));
  oo_seen : NoDup (ox_seenOrder o);
  oo_suffix : exists k, ox_seenOrder o = k ++ map ob_id (ox_events o);
  oo_bound : (Z.of_nat (length (ox_events o)) <= ox_maxEvents o)%Z;
  oo_seen_bound : (Z.of_nat (length (ox_seenOrder o)) <= 2 * ox_maxEvents o)%Z;
}.

Lemma new_outbox_ok max : outbox_ok (new_outbox max).
Proof.
  assert (0 < ox_maxEvents (new_outbox max))%Z as Hm.
  { unfold new_outbox, DEFAULT_TERMINAL_TASK_OUTBOX_RETENTION. simpl.
    destruct max as [n|]; [|lia]. destruct (Z.ltb_spec 0 n); lia. }
  split; simpl in *; try apply NoDup_nil_2; try done; try lia. by exists [].
Qed.

Lemma map_trim_oldest {A B} (f : A -> B) max l : map f (trim_oldest max l) = trim_oldest max (map f l).
Proof.
  unfold trim_oldest. rewrite length_map. case_match; [|done]. by rewrite fmap_drop.
Qed.

Lemma trim_oldest_drop {A} max (l : list A) : trim_oldest max l = drop (length l - Z.to_nat max) l.
Proof.
  unfold trim_oldest. destruct (Z.ltb_spec max (Z.of_nat (length l))); [done|].
  by replace (length l - Z.to_nat max) with 0 by lia.
Qed.

(** Trimming two lists of which one is a suffix of the other, the larger cap
    for the longer list, keeps the suffix. *)
Lemma trim_suffix {A} m (k l : list A) :
  (0 < m)%Z -> exists k', trim_oldest (2 * m) (k ++ l) = k' ++ trim_oldest m l.
Proof.
  intros Hm. rewrite !trim_oldest_drop, length_app.
  set (a := length k + length l - Z.to_nat (2 * m)). set (b := length l - Z.to_nat m).
  exists (take (length k + b - a) (drop a (k ++ l))).
  assert (drop b l = drop (length k + b) (k ++ l)) as ->
    by (rewrite drop_app_ge by lia; f_equal; lia).
  replace (length k + b) with (a + (length k + b - a)) at 2 by lia.
  by rewrite <- drop_drop, take_drop.
Qed.

(** A fresh record comes last. *)
Lemma record_new_ok e children o :
  outbox_ok o -> ob_id e ∉ ox_seenOrder o ->
  outbox_ok (enforceRetention (markSeen (ob_id e) (o
    <| ox_succeededChildIds := children |> <| ox_events ::= fun l => l ++ [e] |>))).
Proof.
  intros [Hm Hids Hs (k & Hk) Hb Hsb] Hseen. set (id := ob_id e) in *.
  assert (NoDup (ox_seenOrder o ++ [id])) as Hnd.
  { apply NoDup_app. split_and!; [done| |by apply NoDup_singleton].
    intros x Hx ->%list_elem_of_singleton. done. }
  assert (forall max (l : list string), NoDup l -> NoDup (trim_oldest max l)) as Htrim.
  { intros max l Hl. destruct (trim_oldest_suffix max l) as [p Hp]. rewrite Hp in Hl.
    by apply NoDup_app in Hl as (_ & _ & ?). }
  split; simpl.
  - done.
  - rewrite map_trim_oldest, map_app. simpl. apply Htrim.
    rewrite Hk, <- app_assoc in Hnd. by apply NoDup_app in Hnd as (_ & _ & ?).
  - by apply Htrim.
  - rewrite map_trim_oldest, map_app. simpl. rewrite Hk, <- app_assoc. by apply trim_suffix.
  - apply trim_oldest_length. lia.
  - apply trim_oldest_length. lia.
Qed.

Lemma enqueue_ok te task o : outbox_ok o -> outbox_ok (enqueue te task o).1.
Proof.
  intros Hok. unfold enqueue.
  destruct (negb (terminal_kind _)); [done|]. destruct (negb (isTerminalStatus _)); [done|].
  destruct (negb (bool_decide _)); [done|]. destruct (negb (String.eqb _ _)); [done|].
  destruct (find_event _ (ox_events o)); [done|]. case_bool_decide as Hseen; [done|].
  destruct (applyRoundProgressMetadata _ _) as [payload children]. simpl.
  by apply (record_new_ok (new_event _ te _)).
Qed.

Lemma outbox_ok_update id f o :
  (forall e, ob_id (f e) = ob_id e) -> outbox_ok o -> outbox_ok (o <| ox_events ::= update_event id f |>).
Proof.
  intros Hf [Hm Hids Hs Hk Hb Hsb].
  assert (length (update_event id f (ox_events o)) = length (ox_events o)) as Hlen.
  { rewrite <- (length_map ob_id), update_event_ids by done. apply length_map. }
  split; simpl; rewrite ?update_event_ids, ?Hlen by done; done.
Qed.

Lemma acknowledge_ok id r now o : outbox_ok o -> outbox_ok (acknowledge id r now o).1.
Proof.
  intros Hok. unfold acknowledge. destruct (parse_evidence _); [|by apply outbox_ok_update].
  destruct (find_event _ _); [|done]. destruct (ob_ack _); [done|]. by apply outbox_ok_update.
Qed.

Lemma recordReceiptStatus_ok id status updatedAt note now o :
  outbox_ok o -> outbox_ok (recordReceiptStatus id status updatedAt note now o).1.
Proof.
  intros Hok. unfold recordReceiptStatus. destruct (parse_receipt_status _); [|done].
  destruct (find_event _ _); [|done]. by apply outbox_ok_update.
Qed.

Lemma apply_update_ok u now o : outbox_ok o -> outbox_ok (apply_update u now o).1.
Proof. destruct u; [apply acknowledge_ok|apply recordReceiptStatus_ok]. Qed.
End Facts.
