(* ===== verification/CoreFacts.v ===== *)
(** * Well-formed stores, and steps that leave the tasks alone

    The invariant [wf_broker] every handler preserves: the maps have distinct
    keys, every record is stored under its own id, and every exchange reference
    denotes an object of that id.  [quiet] relates two states between which no
    task was written (a full persist may have dropped terminal tasks); the shared
    steps of [BrokerCore] are quiet. *)

From Stdlib Require Import ZArith Lia String.
From stdpp Require Import base gmap strings list pretty.
From S2P Require Import Prelude JsRuntime Types Policy Retention BrokerCore.

(** ** Keyed maps *)

Definition keyed {V} (getId : V -> string) (m : jsmap V) : Prop :=
  jm_wf m /\ forall k v, jm_get k m = Some v -> getId v = k.

Section Keyed.
Context {V : Type} (getId : V -> string).
Implicit Types m : jsmap V.

Lemma keyed_nil : keyed getId [].
Proof. split; [apply jm_wf_nil|done]. Qed.

Lemma keyed_set k v m : getId v = k -> keyed getId m -> keyed getId (jm_set k v m).
Proof.
  intros <- [Hwf Hk]. split; [by apply jm_wf_set|]. intros k v'. rewrite jm_get_set.
  destruct (String.eqb_spec k (getId v)) as [->|]; [by intros [= <-]|apply Hk].
Qed.

Lemma keyed_filter p m : keyed getId m -> keyed getId (jm_filter p m).
Proof.
  intros [Hwf Hk]. split; [by apply jm_wf_filter|]. intros k v.
  rewrite jm_get_filter. destruct (p k); [apply Hk|done].
Qed.

Lemma keyed_value m v : keyed getId m -> v ∈ jm_values m <-> jm_get (getId v) m = Some v.
Proof.
  intros [Hwf Hk]. rewrite jm_elem_values. split.
  - intros [k Hin]. apply jm_elem_get in Hin; [|done]. by rewrite (Hk k v Hin).
  - intros Hg. exists (getId v). by apply jm_get_elem.
Qed.

Lemma keyed_ids_NoDup m : keyed getId m -> NoDup (map getId (jm_values m)).
Proof.
  intros [Hwf Hk]. assert (map getId (jm_values m) = jm_keys m) as ->; [|done].
  unfold jm_values, jm_keys. rewrite map_map. apply map_ext_in. intros [k v] Hin. simpl.
  apply Hk, jm_elem_get; [done|]. by apply list_elem_of_In.
Qed.

(** A keyed list of records is searched by id. *)
Lemma keyed_find m id :
  keyed getId m -> List.find (fun v => String.eqb (getId v) id) (jm_values m) = jm_get id m.
Proof.
  intros Hk. destruct (List.find _ _) as [v|] eqn:Hf.
  - apply find_some in Hf as [Hin Heq]. apply String.eqb_eq in Heq. subst id.
    symmetry. apply keyed_value; [done|]. by apply list_elem_of_In.
  - destruct (jm_get id m) as [v|] eqn:Hg; [|done]. exfalso.
    assert (getId v = id) as <- by by apply (proj2 Hk).
    apply keyed_value in Hg; [|done]. apply list_elem_of_In in Hg.
    apply (find_none _ _ Hf) in Hg. by rewrite String.eqb_refl in Hg.
Qed.
End Keyed.

#[export] Hint Resolve keyed_nil keyed_set keyed_filter : js_db.

(** ** The store invariant *)

(** What may become of a task nobody writes. *)
Definition kept (o o' : option TaskRecord) : Prop :=
  o' = o \/ exists t, o = Some t /\ isTerminalTaskStatus (task_status t) = true /\ o' = None.

#[export] Instance kept_refl : Reflexive kept.
Proof. intros o. by left. Qed.
#[export] Instance kept_trans : Transitive kept.
Proof.
  intros o1 o2 o3 [->|(t & -> & Ht & ->)] [->|(t' & ? & Ht' & ->)]; simplify_eq;
    unfold kept; eauto 6.
Qed.

Lemma kept_active o o' t :
  kept o o' -> o = Some t -> isTerminalTaskStatus (task_status t) = false -> o' = Some t.
Proof. intros [->|(t' & -> & Ht & ->)] ? ?; simplify_eq; congruence. Qed.

Section WF.
Context `{JsHost} `{TaskEventSink}.

Record wf_broker (b : Broker) : Prop := {
  wf_exchanges : jm_wf (br_exchanges b);
  wf_exchange_refs k r : jm_get k (br_exchanges b) = Some r ->
    exists ex, br_exchangeObjs b !! r = Some ex /\ ex_id ex = k;
  wf_messages : keyed msg_id (br_exchangeMessages b);
  wf_proposals : keyed pr_id (br_proposals b);
  wf_artifacts : keyed art_id (br_artifacts b);
  wf_validations : keyed val_id (br_validations b);
  wf_auditEvents : keyed aud_id (br_auditEvents b);
  wf_workers : keyed wr_nodeId (br_workers b);
  wf_tasks : keyed task_id (br_tasks b);
  wf_tombstones : keyed tb_taskId (br_tombstones b);
  wf_fresh n : br_uuids b <= n -> jm_get (host_uuid n) (br_tasks b) = None;
}.

(** No task was written between [b] and [b']. *)
Definition quiet (b b' : Broker) : Prop :=
  wf_broker b -> wf_broker b' /\ br_uuids b <= br_uuids b'
    /\ forall id, kept (jm_get id (br_tasks b)) (jm_get id (br_tasks b')).

#[export] Instance quiet_refl : Reflexive quiet.
Proof. intros b Hb. split_and!; [done..|]. intros. reflexivity. Qed.
#[export] Instance quiet_trans : Transitive quiet.
Proof.
  intros b1 b2 b3 H12 H23 H1. destruct (H12 H1) as (H2 & L12 & K12).
  destruct (H23 H2) as (H3 & L23 & K23). split_and!; [done|lia|]. intros id. etransitivity; [apply K12|apply K23].
Qed.

(** A change of [f] that keeps the invariant and the tasks map. *)
Lemma quiet_modify (f : Broker -> Broker) :
  (forall b, wf_broker b -> wf_broker (f b)) ->
  (forall b, br_tasks (f b) = br_tasks b /\ br_uuids (f b) = br_uuids b) ->
  preserves (E:=BrokerError) quiet (m_modify f).
Proof.
  intros Hwf Ht. apply preserves_modify. intros b Hb. destruct (Ht b) as [-> ->].
  split; [by apply Hwf|]. split; [done|]. intros id. reflexivity.
Qed.

End WF.

(** Split the invariant of an updated state into the fields that changed. *)
Ltac wf_update :=
  let b := fresh "b" in let Hb := fresh "Hb" in
  intros b Hb; destruct Hb; unfold update; split; simpl; eauto with js_db.
(** For a change outside the store. *)
Ltac quiet_other :=
  apply quiet_modify; [let b := fresh in let Hb := fresh in intros b Hb; by destruct Hb|intros; split; reflexivity].
Ltac quiet_update := apply quiet_modify; [wf_update|intros; split; reflexivity].

(** ** The shared steps are quiet *)

Section Steps.
Context `{JsHost} `{TaskEventSink} `{BrokerConfig}.

Lemma quiet_now_ms : preserves quiet now_ms.
Proof. intros b Hb. split; [|done]. destruct Hb; split; simpl; eauto. Qed.
Hint Resolve quiet_now_ms : preserves_db.

Lemma quiet_isoNow : preserves quiet isoNow.
Proof. unfold isoNow. preserves_auto. Qed.

Lemma quiet_randomUUID : preserves quiet randomUUID.
Proof. intros b Hb. split; [|split; [simpl; lia|done]]. destruct Hb; split; simpl; eauto with lia. Qed.
Hint Resolve quiet_isoNow quiet_randomUUID : preserves_db.

Lemma quiet_throw {A} code message : preserves quiet (throw (A:=A) code message).
Proof. unfold throw. preserves_auto. Qed.
Lemma quiet_throw_if c code message : preserves quiet (throw_if c code message).
Proof. unfold throw_if. preserves_auto. Qed.
Lemma quiet_lift_policy r : preserves quiet (lift_policy r).
Proof. unfold lift_policy. preserves_auto. Qed.
Lemma quiet_gets_map {V} (m : Broker -> jsmap V) k : preserves quiet (gets_map m k).
Proof. unfold gets_map. preserves_auto. Qed.
Hint Resolve quiet_throw quiet_throw_if quiet_lift_policy quiet_gets_map : preserves_db.

Lemma quiet_require {A} (m : BM (option A)) message :
  preserves quiet m -> preserves quiet (require m message).
Proof. intros Hm. unfold require. preserves_auto. Qed.
Hint Resolve quiet_require : preserves_db.

Lemma quiet_requireExchange id : preserves quiet (requireExchange id).
Proof. unfold requireExchange, getExchange. preserves_auto. Qed.
Lemma quiet_requireTask id : preserves quiet (requireTask id).
Proof. unfold requireTask, getTask. preserves_auto. Qed.
Lemma quiet_requireWorker id : preserves quiet (requireWorker id).
Proof. unfold requireWorker, getWorker. preserves_auto. Qed.
Lemma quiet_requireProposal id : preserves quiet (requireProposal id).
Proof. unfold requireProposal, getProposal. preserves_auto. Qed.
Lemma quiet_requireExchangeMessage e id : preserves quiet (requireExchangeMessage e id).
Proof. unfold requireExchangeMessage. preserves_auto. Qed.
Hint Resolve quiet_requireExchange quiet_requireTask quiet_requireWorker quiet_requireProposal
  quiet_requireExchangeMessage : preserves_db.

Lemma quiet_deref_exchange r : preserves quiet (deref_exchange r).
Proof. intros b Hb. unfold deref_exchange. by destruct (_ !! r). Qed.
Hint Resolve quiet_deref_exchange : preserves_db.

(** Handlers update an exchange in place, but never its id. *)
Lemma quiet_mutate_exchange r f :
  (forall ex, ex_id (f ex) = ex_id ex) -> preserves quiet (mutate_exchange r f).
Proof.
  intros Hf. quiet_update. intros k r' Hr. destruct (wf_exchange_refs0 k r' Hr) as (ex & Hex & <-).
  destruct (decide (r' = r)) as [->|].
  - exists (f ex). rewrite list_lookup_alter, Hex. split; [by simpl; rewrite ?decide_True by done|apply Hf].
  - exists ex. by rewrite list_lookup_alter_ne.
Qed.

Lemma quiet_setExchangeRecord r : preserves quiet (setExchangeRecord r).
Proof.
  intros b Hb. unfold setExchangeRecord, m_bind, deref_exchange.
  destruct (br_exchangeObjs b !! r) as [ex|] eqn:Hex; [|done]. simpl.
  split; [|done]. destruct Hb; split; simpl; auto with js_db.
  intros k r'. rewrite jm_get_set. destruct (String.eqb_spec k (ex_id ex)) as [->|].
  - intros [= <-]. exists ex. split; [|done]. rewrite lookup_app_r by lia. by rewrite Nat.sub_diag.
  - intros Hr. destruct (wf_exchange_refs0 k r' Hr) as (ex' & Hex' & ?). exists ex'.
    split; [|done]. rewrite lookup_app_l; [done|]. by eapply lookup_lt_Some.
Qed.
Hint Resolve quiet_mutate_exchange quiet_setExchangeRecord : preserves_db.

Lemma quiet_alloc_exchange ex : preserves quiet (alloc_exchange ex).
Proof.
  intros b Hb. split; [|done]. destruct Hb; split; simpl; auto.
  intros k r' Hr. destruct (wf_exchange_refs0 k r' Hr) as (ex' & Hex' & ?). exists ex'.
  split; [|done]. rewrite lookup_app_l; [done|]. by eapply lookup_lt_Some.
Qed.

Lemma quiet_setExchangeMessageRecord x : preserves quiet (setExchangeMessageRecord x).
Proof. quiet_update. Qed.
Lemma quiet_setProposalRecord x : preserves quiet (setProposalRecord x).
Proof. quiet_update. Qed.
Lemma quiet_setArtifactRecord x : preserves quiet (setArtifactRecord x).
Proof. quiet_update. Qed.
Lemma quiet_setValidationRecord x : preserves quiet (setValidationRecord x).
Proof. quiet_update. Qed.
Hint Resolve quiet_alloc_exchange quiet_setExchangeMessageRecord quiet_setProposalRecord
  quiet_setArtifactRecord quiet_setValidationRecord : preserves_db.

(** Retention drops no active task. *)
Lemma quiet_prune nowMs :
  preserves (E:=BrokerError) quiet (m_modify (fun b => prune (retainedIds cfg_retention nowMs (retention_view b)) b)).
Proof.
  intros b Hb. unfold m_modify, fst.
  pose proof (retained_active_task cfg_retention nowMs (retention_view b)) as Hact.
  set (r := retainedIds _ _ _) in *. clearbody r. simpl in Hact. split.
  - destruct Hb; split; simpl; unfold pruneMapEntries; auto with js_db.
    + intros k i. rewrite jm_get_filter. destruct (in_set _ k); [apply wf_exchange_refs0|done].
    + intros n Hn. rewrite jm_get_filter. destruct (in_set _ _); auto.
  - split; [done|]. intros id. simpl. unfold pruneMapEntries. rewrite jm_get_filter.
    destruct (in_set (ret_tasks r) id) eqn:Hin; [by left|].
    destruct (jm_get id (br_tasks b)) as [t|] eqn:Ht; [|by left].
    right. exists t. split_and!; [done| |done].
    destruct (isTerminalTaskStatus (task_status t)) eqn:Hterm; [done|]. exfalso.
    apply in_set_false in Hin. apply Hin.
    assert (task_id t = id) as <- by (by apply (wf_tasks _ Hb)).
    apply Hact; [|done]. by apply (keyed_value task_id), Ht; apply (wf_tasks _ Hb).
Qed.
Hint Resolve quiet_prune : preserves_db.

Lemma quiet_applyRetentionPolicy : preserves quiet applyRetentionPolicy.
Proof. unfold applyRetentionPolicy. preserves_auto. Qed.
Lemma quiet_clearPendingStateSaveHints : preserves quiet clearPendingStateSaveHints.
Proof. quiet_other. Qed.
Lemma quiet_store_call c : preserves quiet (store_call c).
Proof. quiet_other. Qed.
Lemma quiet_emitStateChange : preserves quiet emitStateChange.
Proof. quiet_other. Qed.
Lemma quiet_setLastFull ms :
  preserves (E:=BrokerError) quiet (m_modify (fun b => b <| br_lastFullRetentionPersistAtMs := ms |>)).
Proof. quiet_other. Qed.
Hint Resolve quiet_applyRetentionPolicy quiet_clearPendingStateSaveHints quiet_store_call
  quiet_emitStateChange quiet_setLastFull : preserves_db.

Lemma quiet_consumeStateSaveHints s : preserves quiet (consumeStateSaveHints s).
Proof. unfold consumeStateSaveHints. preserves_auto. Qed.
Lemma quiet_consumeWithoutSnapshot : preserves quiet consumeStateSaveHintsWithoutSnapshot.
Proof. unfold consumeStateSaveHintsWithoutSnapshot. preserves_auto. Qed.
Hint Resolve quiet_consumeStateSaveHints quiet_consumeWithoutSnapshot : preserves_db.

Lemma quiet_persist_full ms : preserves quiet (persist_full ms).
Proof. unfold persist_full. preserves_auto. Qed.
Hint Resolve quiet_persist_full : preserves_db.

Lemma quiet_persistState : preserves quiet persistState.
Proof. unfold persistState. preserves_auto. Qed.

Lemma quiet_emitTaskUpdate t reason : preserves quiet (emitTaskUpdate t reason).
Proof.
  unfold emitTaskUpdate, advanceTaskEventSeq, bufferTaskEvent. preserves_auto; quiet_other.
Qed.

Lemma quiet_subscribeToTask id l : preserves quiet (subscribeToTask id l).
Proof. quiet_other. Qed.
Lemma quiet_unsubscribeFromTask id l : preserves quiet (unsubscribeFromTask id l).
Proof. quiet_other. Qed.
Hint Resolve quiet_persistState quiet_emitTaskUpdate : preserves_db.

Lemma quiet_push_to_sink event : preserves quiet (push_to_sink event).
Proof.
  unfold push_to_sink. apply quiet_modify.
  - intros b Hb. repeat case_match; try done; by destruct Hb.
  - intros b. repeat case_match; done.
Qed.
Hint Resolve quiet_push_to_sink : preserves_db.

Lemma quiet_updateTerminalTaskOutboxEvent u : preserves quiet (updateTerminalTaskOutboxEvent u).
Proof.
  assert (forall now, preserves quiet (update_sink u now)) as Hu.
  { intros now. unfold update_sink. preserves_auto. quiet_other. }
  assert (forall e, preserves quiet (pend_sink_event e)) as Hp by (intros; quiet_other).
  unfold updateTerminalTaskOutboxEvent, persistTerminalTaskOutboxEvent. preserves_auto.
Qed.

Lemma quiet_appendAuditEvent i : preserves quiet (appendAuditEvent i).
Proof.
  unfold appendAuditEvent. preserves_auto.
  all: quiet_update.
Qed.
Hint Resolve quiet_appendAuditEvent : preserves_db.

Lemma quiet_audit_task actor action t note : preserves quiet (audit_task actor action t note).
Proof. unfold audit_task. preserves_auto. Qed.
Hint Resolve quiet_audit_task : preserves_db.

Lemma quiet_writeTombstone t reason ctx : preserves quiet (writeTombstone t reason ctx).
Proof. unfold writeTombstone. preserves_auto. all: quiet_update. Qed.

Lemma quiet_linkTaskToExchange t : preserves quiet (linkTaskToExchange t).
Proof. unfold linkTaskToExchange, getExchange. preserves_auto. Qed.
Lemma quiet_syncExchangeStateFromTask t st : preserves quiet (syncExchangeStateFromTask t st).
Proof. unfold syncExchangeStateFromTask, getExchange. preserves_auto. Qed.

Lemma quiet_assertTransition c l a : preserves quiet (assertTransition c l a).
Proof. unfold assertTransition. preserves_auto. Qed.
Lemma quiet_assertTaskStatus c l a : preserves quiet (assertTaskStatus c l a).
Proof. unfold assertTaskStatus. preserves_auto. Qed.
Lemma quiet_assertTaskOwnership t a : preserves quiet (assertTaskOwnership t a).
Proof. unfold assertTaskOwnership. preserves_auto. Qed.
Hint Resolve quiet_assertTaskOwnership : preserves_db.
Lemma quiet_assertTaskWorker t w a : preserves quiet (assertTaskWorker t w a).
Proof. unfold assertTaskWorker. preserves_auto. Qed.
End Steps.

#[export] Hint Resolve quiet_prune quiet_persist_full quiet_push_to_sink quiet_now_ms quiet_isoNow quiet_randomUUID quiet_throw quiet_throw_if
  quiet_lift_policy quiet_gets_map quiet_require quiet_requireExchange quiet_requireTask
  quiet_requireWorker quiet_requireProposal quiet_requireExchangeMessage quiet_deref_exchange
  quiet_mutate_exchange quiet_setExchangeRecord quiet_alloc_exchange quiet_setExchangeMessageRecord
  quiet_setProposalRecord quiet_setArtifactRecord quiet_setValidationRecord quiet_persistState
  quiet_emitTaskUpdate quiet_subscribeToTask quiet_unsubscribeFromTask quiet_appendAuditEvent
  quiet_audit_task quiet_writeTombstone quiet_linkTaskToExchange quiet_syncExchangeStateFromTask
  quiet_assertTransition quiet_assertTaskStatus quiet_assertTaskOwnership quiet_assertTaskWorker
  : preserves_db.

Section Answers.
Context `{JsHost} `{TaskEventSink} `{BrokerConfig}.

(** ** Steps that never throw on a well-formed store *)

Definition answers {A} (m : BM A) : Prop := forall b, wf_broker b -> exists a, (m b).2 = Ok a.

Lemma answers_bind {A B} (m : BM A) (k : A -> BM B) :
  preserves quiet m -> answers m -> (forall a, answers (k a)) -> answers (m_bind m k).
Proof.
  intros Hq Hm Hk b Hb. destruct (Hm b Hb) as [a Ha]. destruct (Hq b Hb) as [Hb' _].
  unfold m_bind. destruct (m b) as [b' r]. simpl in *. subst r. by apply Hk.
Qed.

Lemma answers_ret {A} (a : A) : answers (m_ret a).
Proof. intros b _. by exists a. Qed.
Lemma answers_modify f : answers (m_modify f).
Proof. intros b _. by exists tt. Qed.
Lemma answers_gets {A} (f : Broker -> A) : answers (m_gets f).
Proof. intros b _. by exists (f b). Qed.
Lemma answers_get : answers m_get.
Proof. intros b _. by exists b. Qed.
Lemma answers_now_ms : answers now_ms.
Proof. intros b _. eexists. reflexivity. Qed.
Lemma answers_when c (m : BM unit) : answers m -> answers (m_when c m).
Proof. unfold m_when. destruct c; eauto using answers_ret. Qed.
End Answers.

Create HintDb answers_db discriminated.
#[export] Hint Constants Opaque : answers_db.

Ltac quiet_solve := preserves_auto; first [quiet_other | solve [quiet_update] | idtac].
Ltac answers_step :=
  cbv beta;
  lazymatch goal with
  | |- answers (let x := ?v in @?k x) =>
      let y := fresh x in generalize v; intros y; change (answers (k y)); cbv beta
  | |- answers (m_bind _ _) => apply answers_bind; [quiet_solve| |intro]
  | |- answers (m_ret _) => apply answers_ret
  | |- answers (m_modify _) => apply answers_modify
  | |- answers (m_gets _) => apply answers_gets
  | |- answers m_get => apply answers_get
  | |- answers now_ms => apply answers_now_ms
  | |- answers (m_when _ _) => apply answers_when
  | |- answers (match ?x with _ => _ end) => destruct x
  | |- answers _ => eauto with answers_db
  end.
Ltac answers_auto := repeat (answers_step; try done).

Section AnswersSteps.
Context `{JsHost} `{TaskEventSink} `{BrokerConfig}.

Lemma answers_isoNow : answers isoNow.
Proof. unfold isoNow. answers_auto. Qed.
Lemma answers_randomUUID : answers randomUUID.
Proof. intros b _. eexists. reflexivity. Qed.
Hint Resolve answers_isoNow answers_randomUUID : answers_db.

Lemma answers_persist_full ms : answers (persist_full ms).
Proof.
  unfold persist_full, applyRetentionPolicy, consumeStateSaveHints, clearPendingStateSaveHints,
    store_call, emitStateChange. answers_auto.
Qed.
Hint Resolve answers_persist_full : answers_db.
Lemma answers_persistState : answers persistState.
Proof.
  unfold persistState, consumeStateSaveHintsWithoutSnapshot, clearPendingStateSaveHints, store_call,
    emitStateChange. answers_auto.
Qed.
Lemma answers_emitTaskUpdate t r : answers (emitTaskUpdate t r).
Proof. unfold emitTaskUpdate, advanceTaskEventSeq, gets_map, bufferTaskEvent. answers_auto. Qed.
Lemma answers_push_to_sink e : answers (push_to_sink e).
Proof. apply answers_modify. Qed.
Hint Resolve answers_push_to_sink : answers_db.
Lemma answers_appendAuditEvent i : answers (appendAuditEvent i).
Proof. reveal appendAuditEvent. answers_auto. Qed.
Hint Resolve answers_appendAuditEvent : answers_db.
Lemma answers_audit_task a c t n : answers (audit_task a c t n).
Proof. unfold audit_task. answers_auto. Qed.
Hint Resolve answers_persistState answers_emitTaskUpdate answers_audit_task : answers_db.
Lemma answers_writeTombstone t r c : answers (writeTombstone t r c).
Proof. unfold writeTombstone. answers_auto. Qed.

(** The object of a stored exchange is never missing. *)
Lemma answers_syncExchangeStateFromTask t st : answers (syncExchangeStateFromTask t st).
Proof.
  unfold syncExchangeStateFromTask, getExchange, gets_map. destruct (truthy_opt _) as [id|];
    [|apply answers_ret].
  intros b Hb. unfold m_bind at 1, m_gets. simpl. destruct (jm_get id (br_exchanges b)) as [r|] eqn:Hr;
    [|by exists tt].
  destruct (wf_exchange_refs b Hb id r Hr) as (ex & Hex & _). simpl.
  unfold setExchangeRecord, deref_exchange, m_bind. simpl.
  rewrite list_lookup_alter, Hex. simpl. rewrite ?decide_True by done. simpl. eauto.
Qed.

Lemma answers_linkTaskToExchange t : answers (linkTaskToExchange t).
Proof.
  unfold linkTaskToExchange, getExchange, gets_map. destruct (truthy_opt _) as [id|];
    [|apply answers_ret].
  intros b Hb. unfold m_bind at 1, m_gets. simpl. destruct (jm_get id (br_exchanges b)) as [r|] eqn:Hr;
    [|by exists tt].
  destruct (wf_exchange_refs b Hb id r Hr) as (ex & Hex & _). simpl.
  unfold setExchangeRecord, deref_exchange, m_bind. simpl.
  rewrite list_lookup_alter, Hex. simpl. rewrite ?decide_True by done. simpl. eauto.
Qed.
End AnswersSteps.

#[export] Hint Resolve answers_linkTaskToExchange answers_isoNow answers_randomUUID answers_persistState answers_emitTaskUpdate
  answers_audit_task answers_writeTombstone answers_syncExchangeStateFromTask : answers_db.
