(* ===== verification/Workers.v ===== *)
(** * Workers (registerWorker, heartbeatWorker and the worker read paths,
    src/core/broker.ts) *)

From Stdlib Require Import ZArith Lia String.
From stdpp Require Import base gmap strings list pretty.
From S2P Require Import Prelude JsRuntime Types Policy Retention BrokerCore CoreFacts.

(** ** Capabilities *)

Definition js_array (v : JsValue) : option (list JsValue) :=
  match v with JArr l => Some l | _ => None end.

Definition uniqueStringList (values : JsValue) : list string :=
  match js_array values with
  | Some l => js_unique (List.filter str_truthy (map js_String l))
  | None => []
  end.

Definition environment_of (s : string) : option A2AWorkerEnvironment :=
  if String.eqb s "research" then Some EnvResearch
  else if String.eqb s "staging" then Some EnvStaging
  else if String.eqb s "live" then Some EnvLive
  else None.

Definition uniqueEnvironmentList (values : JsValue) : list A2AWorkerEnvironment :=
  omap environment_of (uniqueStringList values).

Definition js_is_true (v : JsValue) : bool := match v with JBool true => true | _ => false end.

Definition normalizeCapabilities (capabilities : JsValue) : WorkerCapabilities :=
  match js_array capabilities with
  | Some l =>
      let names := map js_String l in
      {| canAnalyze := bool_decide ("canAnalyze" ∈ names);
         canBackfill := bool_decide ("canBackfill" ∈ names);
         canPatchWorkspace := bool_decide ("canPatchWorkspace" ∈ names);
         canPromoteLive := bool_decide ("canPromoteLive" ∈ names);
         workspaceIds := [];
         environments := [] |}
  | None =>
      let r := js_record capabilities ?? [] in
      {| canAnalyze := js_is_true (js_prop "canAnalyze" r);
         canBackfill := js_is_true (js_prop "canBackfill" r);
         canPatchWorkspace := js_is_true (js_prop "canPatchWorkspace" r);
         canPromoteLive := js_is_true (js_prop "canPromoteLive" r);
         workspaceIds := uniqueStringList (js_prop "workspaceIds" r);
         environments := uniqueEnvironmentList (js_prop "environments" r) |}
  end.

(** A stored capability record as the object it is. *)
Definition capabilities_value (c : WorkerCapabilities) : JsValue :=
  JObj [("canAnalyze", JBool (canAnalyze c)); ("canBackfill", JBool (canBackfill c));
        ("canPatchWorkspace", JBool (canPatchWorkspace c)); ("canPromoteLive", JBool (canPromoteLive c));
        ("workspaceIds", JArr (map JStr (workspaceIds c)));
        ("environments", JArr (map (fun e => JStr (A2AWorkerEnvironment_text e)) (environments c)))].

Definition normalizeWorkerRecord (w : WorkerRecord) : WorkerRecord :=
  w <| wr_capabilities ::= fun c => normalizeCapabilities (capabilities_value c) |>.

Definition js_falsy (v : JsValue) : bool :=
  match v with
  | JUndef | JNull | JBool false | JNum (NInt 0) | JNum NNaN => true
  | JStr s => negb (str_truthy s)
  | _ => false
  end.

(** ** Handlers *)

Section Handlers.
Context `{JsHost} `{TaskEventSink} `{BrokerConfig}.

Definition setWorkerRecord (w : WorkerRecord) : BM unit :=
  let n := normalizeWorkerRecord w in
  m_modify (fun b => b
    <| br_workers ::= jm_set (wr_nodeId n) n |>
    <| br_pending ::= fun p => p <| ph_workers ::= jm_set (wr_nodeId n) n |> |>).

Definition assertWorkerRegistrationPayload (r : RegisterWorkerRequest) : BM unit :=
  throw_if (negb (str_truthy (rw_nodeId r))) CodeBadRequest "nodeId is required";;;
  throw_if (negb (is_some (rw_role r))) CodeBadRequest "role is required";;;
  throw_if (js_falsy (rw_capabilities r)) CodeBadRequest "capabilities are required".

Definition registerWorker (r : RegisterWorkerRequest) : BM WorkerRecord :=
  assertWorkerRegistrationPayload r;;;
  now <-- isoNow;
  existing <-- getWorker (rw_nodeId r);
  match rw_role r with
  | None => throw CodeBadRequest "role is required"
  | Some role =>
      let worker := {|
        wr_nodeId := rw_nodeId r;
        wr_role := role;
        wr_displayName := rw_displayName r;
        wr_brokerUrl := rw_brokerUrl r;
        wr_capabilities := normalizeCapabilities (rw_capabilities r);
        wr_workerMode := rw_workerMode r;
        wr_metadata := rw_metadata r;
        wr_createdAt := (wr_createdAt <$> existing) ?? now;
        wr_updatedAt := now;
        wr_lastSeenAt := now |} in
      setWorkerRecord worker;;;
      appendAuditEvent (mkAuditInput (wr_nodeId worker) AuditWorkerRegistered TargetWorker
        (wr_nodeId worker) None (Some (wr_displayName worker ?? A2APartyRole_text (wr_role worker))));;;
      persistState;;;
      m_ret worker
  end.

Definition heartbeatWorker (nodeId : string) (request : option WorkerHeartbeatRequest) : BM WorkerRecord :=
  worker <-- requireWorker nodeId;
  nowMs <-- now_ms;
  let now := toISOString nowMs in
  let caps := (hb_capabilities <$> request) ?? JUndef in
  let nextCapabilities := if js_falsy caps then wr_capabilities worker else normalizeCapabilities caps in
  let nextDisplayName := request ?> hb_displayName ??o wr_displayName worker in
  let nextBrokerUrl := request ?> hb_brokerUrl ??o wr_brokerUrl worker in
  let nextWorkerMode := request ?> hb_workerMode ??o wr_workerMode worker in
  let nextMetadata := request ?> hb_metadata ??o wr_metadata worker in
  let materialChange :=
    negb (bool_decide (nextDisplayName = wr_displayName worker))
    || negb (bool_decide (nextBrokerUrl = wr_brokerUrl worker))
    || negb (bool_decide (nextWorkerMode = wr_workerMode worker))
    || negb (bool_decide (nextCapabilities = wr_capabilities worker))
    || negb (bool_decide (nextMetadata = wr_metadata worker)) in
  let worker := worker
    <| wr_displayName := nextDisplayName |>
    <| wr_brokerUrl := nextBrokerUrl |>
    <| wr_capabilities := nextCapabilities |>
    <| wr_workerMode := nextWorkerMode |>
    <| wr_metadata := nextMetadata |>
    <| wr_updatedAt := now |>
    <| wr_lastSeenAt := now |> in
  setWorkerRecord worker;;;
  last <-- gets_map br_lastPersistedWorkerHeartbeatAtMs (wr_nodeId worker);
  let shouldPersistHeartbeat :=
    (cfg_workerHeartbeatPersistIntervalMs =? 0)%Z || materialChange
    || (cfg_workerHeartbeatPersistIntervalMs <=? nowMs - (last ?? 0))%Z in
  if negb shouldPersistHeartbeat then m_ret worker
  else
    appendAuditEvent (mkAuditInput (wr_nodeId worker) AuditWorkerHeartbeat TargetWorker
      (wr_nodeId worker) None (Some "heartbeat"));;;
    persistState;;;
    m_modify (fun b => b <| br_lastPersistedWorkerHeartbeatAtMs ::= jm_set (wr_nodeId worker) nowMs |>);;;
    m_ret worker.

(** ** Read paths *)

Definition workerMatchesFilters (w : WorkerRecord) (f : option WorkerListFilters) : bool :=
  match f ?> wf_role with Some r => bool_decide (wr_role w = r) | None => true end
  && match f ?> wf_environment with
     | Some e => bool_decide (e ∈ environments (wr_capabilities w)) | None => true end
  && match truthy_opt (f ?> wf_workspaceId) with
     | Some i => bool_decide (i ∈ workspaceIds (wr_capabilities w)) | None => true end.

(** A comparator that never answers 0, as the code's. *)
Definition newest_first {A} (at_ : A -> string) (a b : A) : Z :=
  if String.ltb (at_ a) (at_ b) then 1 else -1.

Definition listWorkers (f : option WorkerListFilters) (b : Broker) : list WorkerRecord :=
  js_sort (newest_first wr_lastSeenAt)
    (List.filter (fun w => workerMatchesFilters w f) (jm_values (br_workers b))).

Definition isWorkerStale (lastSeenAt : string) (offlineAfterMs nowMs : Z) : bool :=
  match date_parse lastSeenAt with
  | None => false
  | Some t => (offlineAfterMs <? nowMs - t)%Z
  end.

(** [Date.now() - Date.parse(lastSeenAt) <= offlineAfterMs]; a comparison with
    NaN is false. *)
Definition computeWorkerStatus (lastSeenAt : string) (offlineAfterMs nowMs : Z) : WorkerStatus :=
  match date_parse lastSeenAt with
  | Some t => if (nowMs - t <=? offlineAfterMs)%Z then WorkerOnline else WorkerStale
  | None => WorkerStale
  end.

Definition listStaleWorkerIds (offlineAfterMs nowMs : Z) (b : Broker) : list string :=
  map wr_nodeId (List.filter (fun w => isWorkerStale (wr_lastSeenAt w) offlineAfterMs nowMs)
    (jm_values (br_workers b))).
End Handlers.

(** ** Facts *)

Section Facts.
Context `{JsHost} `{TaskEventSink} `{BrokerConfig}.

Lemma quiet_setWorkerRecord w : preserves quiet (setWorkerRecord w).
Proof. quiet_update. Qed.
Hint Resolve quiet_setWorkerRecord : preserves_db.

Lemma quiet_registerWorker r : preserves quiet (registerWorker r).
Proof. unfold registerWorker, assertWorkerRegistrationPayload, getWorker. preserves_auto. Qed.

Lemma quiet_heartbeatWorker id r : preserves quiet (heartbeatWorker id r).
Proof. reveal heartbeatWorker. preserves_auto. all: quiet_update. Qed.
End Facts.

#[export] Hint Resolve quiet_registerWorker quiet_heartbeatWorker : preserves_db.
