(* ===== verification/Proposals.v ===== *)
(** * Proposals (createProposal, attachArtifact, submitValidationResult,
    approveProposal, rejectProposal, applyProposalLocally, src/core/broker.ts) *)

From Stdlib Require Import ZArith Lia String.
From stdpp Require Import base gmap strings list pretty.
From S2P Require Import Prelude JsRuntime Types Policy Retention BrokerCore CoreFacts Workers.

Section Handlers.
Context `{JsHost} `{TaskEventSink} `{BrokerConfig}.

Definition assertProposalPayload (r : CreateProposalRequest) : BM unit :=
  throw_if (negb (str_truthy (party_id (cp_source r))) || negb (str_truthy (party_id (cp_target r))))
    CodeBadRequest "source.id and target.id are required";;;
  throw_if (negb (str_truthy (cp_summary r))) CodeBadRequest "summary is required";;;
  throw_if (negb (str_truthy (ws_nodeId (cp_workspace r))) || negb (str_truthy (ws_workspaceId (cp_workspace r))))
    CodeBadRequest "workspace.nodeId and workspace.workspaceId are required";;;
  throw_if (bool_decide (cp_kind r = ProposalPatch) && negb (ostr_truthy (cp_patchText r)))
    CodeBadRequest "patch proposals require patchText";;;
  throw_if (bool_decide (cp_kind r = ProposalParams) && negb (is_some (cp_parameterPayload r)))
    CodeBadRequest "params proposals require parameterPayload";;;
  throw_if (bool_decide (cp_kind r = ProposalHybrid) && negb (ostr_truthy (cp_patchText r))
            && negb (is_some (cp_parameterPayload r)))
    CodeBadRequest "hybrid proposals require patchText, parameterPayload, or both".

Definition audit_proposal (actorId : string) (action : AuditAction) (target : AuditTargetType)
    (targetId proposalId : string) (note : option string) : BM unit :=
  appendAuditEvent (mkAuditInput actorId action target targetId (Some proposalId) note);;;
  m_ret tt.

Definition createProposal (r : CreateProposalRequest) : BM ChangeProposal :=
  assertProposalPayload r;;;
  lift_policy (assertProposalCreationAllowed (cp_source r) (cp_target r));;;
  now <-- isoNow;
  id <-- randomUUID;
  let proposal := {|
    pr_id := id;
    pr_source := cp_source r;
    pr_target := cp_target r;
    pr_sourceNodeId := party_id (cp_source r);
    pr_targetNodeId := party_id (cp_target r);
    pr_kind := cp_kind r;
    pr_summary := cp_summary r;
    pr_rationale := cp_rationale r;
    pr_workspace := cp_workspace r;
    pr_patchText := cp_patchText r;
    pr_parameterPayload := cp_parameterPayload r;
    pr_artifactIds := cp_artifactIds r ?? [];
    pr_status := StatusSubmitted;
    pr_createdAt := now;
    pr_updatedAt := now |} in
  setProposalRecord proposal;;;
  audit_proposal (party_id (cp_source r)) AuditProposalCreated TargetProposal id id (Some (cp_summary r));;;
  persistState;;;
  m_ret proposal.

Definition attachArtifact (proposalId : string) (r : AttachArtifactRequest) : BM ArtifactRecord :=
  proposal <-- requireProposal proposalId;
  throw_if (negb (str_truthy (aa_kind r)) || negb (str_truthy (aa_uri r)))
    CodeBadRequest "kind and uri are required";;;
  id <-- randomUUID;
  createdAt <-- isoNow;
  let artifact := {|
    art_id := id;
    art_proposalId := proposalId;
    art_kind := aa_kind r;
    art_uri := aa_uri r;
    art_contentType := aa_contentType r;
    art_sizeBytes := aa_sizeBytes r;
    art_summary := aa_summary r;
    art_createdAt := createdAt |} in
  setArtifactRecord artifact;;;
  now <-- isoNow;
  let proposal := proposal
    <| pr_artifactIds ::= fun l => js_unique (l ++ [id]) |>
    <| pr_updatedAt := now |> in
  setProposalRecord proposal;;;
  audit_proposal (pr_sourceNodeId proposal) AuditArtifactAttached TargetArtifact id proposalId (art_summary artifact);;;
  persistState;;;
  m_ret artifact.

(** [kind] and [verdict] are members of their enumerations here, hence truthy. *)
Definition submitValidationResult (proposalId : string) (r : SubmitValidationRequest) : BM ValidationResult :=
  proposal <-- requireProposal proposalId;
  throw_if (negb (str_truthy (sv_nodeId r))) CodeBadRequest "nodeId, kind, and verdict are required";;;
  lift_policy (assertValidationSubmissionAllowed proposal r);;;
  id <-- randomUUID;
  createdAt <-- isoNow;
  let validation := {|
    val_id := id;
    val_proposalId := proposalId;
    val_nodeId := sv_nodeId r;
    val_kind := sv_kind r;
    val_verdict := sv_verdict r;
    val_metrics := sv_metrics r ?? [];
    val_artifactIds := sv_artifactIds r ?? [];
    val_note := sv_note r;
    val_createdAt := createdAt |} in
  setValidationRecord validation;;;
  now <-- isoNow;
  let proposal := proposal
    <| pr_status := StatusValidated |>
    <| pr_updatedAt := now |>
    <| pr_artifactIds ::= fun l => js_unique (l ++ val_artifactIds validation) |> in
  setProposalRecord proposal;;;
  audit_proposal (sv_nodeId r) AuditValidationSubmitted TargetValidation id proposalId (sv_note r);;;
  persistState;;;
  m_ret validation.

(** The common tail of the three decisions on a proposal. *)
Definition decide_proposal (proposalId : string) (proposal : ChangeProposal) (status : ProposalStatus) (action : AuditAction)
    (r : ProposalActorRequest) : BM ChangeProposal :=
  now <-- isoNow;
  let proposal := proposal <| pr_status := status |> <| pr_updatedAt := now |> in
  setProposalRecord proposal;;;
  audit_proposal (actor_id (pa_actor r)) action TargetProposal (pr_id proposal) proposalId (pa_note r);;;
  persistState;;;
  m_ret proposal.

Definition approveProposal (proposalId : string) (r : ProposalActorRequest) : BM ChangeProposal :=
  proposal <-- requireProposal proposalId;
  assertTransition (pr_status proposal) [StatusSubmitted; StatusValidated] "approve";;;
  lift_policy (assertProposalReviewAllowed proposal r);;;
  decide_proposal proposalId proposal StatusApproved AuditProposalApproved r.

Definition rejectProposal (proposalId : string) (r : ProposalActorRequest) : BM ChangeProposal :=
  proposal <-- requireProposal proposalId;
  assertTransition (pr_status proposal) [StatusSubmitted; StatusValidated] "reject";;;
  lift_policy (assertProposalReviewAllowed proposal r);;;
  decide_proposal proposalId proposal StatusRejected AuditProposalRejected r.

Definition applyProposalLocally (proposalId : string) (r : ProposalActorRequest) (workspace : WorkspaceRef)
    : BM ChangeProposal :=
  proposal <-- requireProposal proposalId;
  assertTransition (pr_status proposal) [StatusApproved] "apply";;;
  throw_if (negb (String.eqb (ws_nodeId workspace) (pr_targetNodeId proposal))) CodePolicyDenied
    "apply workspace nodeId must match the proposal target node";;;
  lift_policy (assertProposalApplyAllowed proposal r);;;
  decide_proposal proposalId proposal StatusApplied AuditProposalApplied r.

Definition proposalMatchesFilters (p : ChangeProposal) (f : option ProposalListFilters) : bool :=
  match f ?> pf_status with Some s => bool_decide (pr_status p = s) | None => true end
  && match truthy_opt (f ?> pf_sourceNodeId) with Some n => String.eqb (pr_sourceNodeId p) n | None => true end
  && match truthy_opt (f ?> pf_targetNodeId) with Some n => String.eqb (pr_targetNodeId p) n | None => true end
  && match f ?> pf_kind with Some k => bool_decide (pr_kind p = k) | None => true end.

Definition listProposals (f : option ProposalListFilters) (b : Broker) : list ChangeProposal :=
  js_sort (newest_first pr_createdAt)
    (List.filter (fun p => proposalMatchesFilters p f) (jm_values (br_proposals b))).
End Handlers.

(** ** Facts *)

Section Facts.
Context `{JsHost} `{TaskEventSink} `{BrokerConfig}.

Lemma quiet_audit_proposal a c t i p n : preserves quiet (audit_proposal a c t i p n).
Proof. unfold audit_proposal. preserves_auto. Qed.
Hint Resolve quiet_audit_proposal : preserves_db.

Lemma quiet_createProposal r : preserves quiet (createProposal r).
Proof. unfold createProposal, assertProposalPayload. preserves_auto. Qed.

Lemma quiet_attachArtifact id r : preserves quiet (attachArtifact id r).
Proof. unfold attachArtifact. preserves_auto. Qed.

Lemma quiet_submitValidationResult id r : preserves quiet (submitValidationResult id r).
Proof. unfold submitValidationResult. preserves_auto. Qed.

Lemma quiet_decide_proposal id p st a r : preserves quiet (decide_proposal id p st a r).
Proof. unfold decide_proposal. preserves_auto. Qed.
Hint Resolve quiet_decide_proposal : preserves_db.

Lemma quiet_approveProposal id r : preserves quiet (approveProposal id r).
Proof. unfold approveProposal. preserves_auto. Qed.

Lemma quiet_rejectProposal id r : preserves quiet (rejectProposal id r).
Proof. unfold rejectProposal. preserves_auto. Qed.

Lemma quiet_applyProposalLocally id r w : preserves quiet (applyProposalLocally id r w).
Proof. unfold applyProposalLocally. preserves_auto. Qed.
End Facts.

#[export] Hint Resolve quiet_createProposal quiet_attachArtifact quiet_submitValidationResult
  quiet_approveProposal quiet_rejectProposal quiet_applyProposalLocally : preserves_db.
