(* ===== verification/Github.v ===== *)
(** * GitHub dispatch requests and completion evidence

    [normalizeGitHubPatchTaskRequest] (src/core/broker.ts) turns the payload
    shapes callers use for GitHub work into the canonical one or rejects them;
    [validateGithubTaskCompletionEvidence] (src/core/github-task-completion.ts)
    decides whether a worker's result carries the evidence such a task needs. *)

From Stdlib Require Import ZArith Lia String Ascii.
From stdpp Require Import base gmap strings list pretty.
From S2P Require Import Prelude JsRuntime Types Policy Retention BrokerCore.

(** ** Reading payload fields *)

Definition readString (v : JsValue) : option string := js_string v ≫= trimmed.

Definition opt_chars (s : option string) : list ascii := chars (s ?? "").

(** [Number(digits)] after an optional [#]. *)
Definition readIssueNumber (v : JsValue) : option Z :=
  match v with
  | JNum (NInt z) => if (0 <? z)%Z then Some z else None
  | JStr s =>
      let l := trim_chars (chars s) in
      let l := match l with c :: l' => if Ascii.eqb c "#" then l' else l | [] => l end in
      if all_digits l then Some (digits_value l) else None
  | _ => None
  end.

(** Case-insensitive prefix; the rest of the text after it. *)
Fixpoint strip_ci (p l : list ascii) : option (list ascii) :=
  match p, l with
  | [], _ => Some l
  | c :: p, d :: l => if Ascii.eqb (ascii_lower c) (ascii_lower d) then strip_ci p l else None
  | _ :: _, [] => None
  end.

Definition segment_char (c : ascii) : bool := negb (Ascii.eqb c "/") && negb (is_space c).

(** A non-empty maximal run of characters satisfying [p], and the rest. *)
Definition run1 (p : ascii -> bool) (l : list ascii) : option (list ascii * list ascii) :=
  match take_while p l with [] => None | r => Some (r, drop_while p l) end.

(** [/https?:\/\/github\.com\/([^/\s]+\/[^/\s]+)\/issues\/(\d+)/i] at the head of
    the text; every part is delimited by a character it cannot contain. *)
Definition match_issue_url (l : list ascii) : option (string * Z) :=
  l ← strip_ci (chars "http") l;
  let l := match l with c :: l' => if Ascii.eqb (ascii_lower c) "s" then l' else l | [] => l end in
  l ← strip_ci (chars "://github.com/") l;
  '(owner, l) ← run1 segment_char l;
  l ← strip_ci (chars "/") l;
  '(name, l) ← run1 segment_char l;
  l ← strip_ci (chars "/issues/") l;
  '(digits, _) ← run1 is_digit l;
  Some (unchars (owner ++ chars "/" ++ name), digits_value digits).

Fixpoint search_issue_url (l : list ascii) : option (string * Z) :=
  match match_issue_url l with
  | Some r => Some r
  | None => match l with [] => None | _ :: l => search_issue_url l end
  end.

Definition readGitHubIssueUrl (v : option string) : option (string * Z) :=
  v ≫= fun s => search_issue_url (chars s).

(** [/^[^/\s]+\/[^/\s]+$/]. *)
Definition is_owner_name (s : string) : bool :=
  match run1 segment_char (chars s) with
  | Some (_, c :: rest) => Ascii.eqb c "/" && negb (length rest =? 0) && forallb segment_char rest
  | _ => false
  end.

(** ** Canonical dispatch requests *)

Definition GITHUB_READ_ONLY_TASK_MODES : list string :=
  ["analysis-only"; "read-only-analysis"; "analyze-only"; "github-verify";
   "github-read-only-validation"; "read-only-validation"; "github-libero-validation";
   "libero-validation"].

Definition isGithubReadOnlyTaskRequest (intent : A2AExchangeIntent) (mode : option string) : bool :=
  match truthy_opt mode with
  | Some m => bool_decide (m ∈ GITHUB_READ_ONLY_TASK_MODES)
              && bool_decide (intent ∈ [IntentAnalyze; IntentVerify; IntentValidateChange])
  | None => false
  end.

Definition bad_request {A} (message : string) : result BrokerError A :=
  Err (mkBrokerError CodeBadRequest message).

(** The fields the normalisation reads from a request. *)
Record GithubFields : Type := mkGithubFields {
  gf_mode : option string;
  gf_repo : option string;
  gf_legacyRepo : option string;
  gf_issueNumber : option Z;
  gf_legacyIssueNumber : option Z;
  gf_issueUrl : option string;
  gf_legacyIssueUrl : option string;
  gf_workMode : option string;
  gf_githubWorkMode : option string;
  gf_messageIssue : option (string * Z);
  gf_payloadIssue : option (string * Z);
}.

Definition github_fields (r : CreateTaskRequest) : GithubFields :=
  let payload := ct_payload r ?? [] in
  let issueUrl := readString (js_prop "issueUrl" payload) in
  let legacyIssueUrl := readString (js_prop "githubIssueUrl" payload) in
  {| gf_mode := readString (js_prop "mode" payload);
     gf_repo := readString (js_prop "repo" payload);
     gf_legacyRepo := readString (js_prop "githubRepo" payload);
     gf_issueNumber := readIssueNumber (js_or (js_prop "issueNumber" payload) (js_prop "issue" payload));
     gf_legacyIssueNumber := readIssueNumber (js_prop "githubIssueNumber" payload);
     gf_issueUrl := issueUrl;
     gf_legacyIssueUrl := legacyIssueUrl;
     gf_workMode := readString (js_prop "workMode" payload);
     gf_githubWorkMode := readString (js_prop "githubWorkMode" payload);
     gf_messageIssue := readGitHubIssueUrl (ct_message r);
     gf_payloadIssue := readGitHubIssueUrl (issueUrl ??o legacyIssueUrl) |}.

Definition payloadHasRepoIssuePair (f : GithubFields) : bool :=
  (is_some (gf_repo f) || is_some (gf_legacyRepo f))
  && (is_some (gf_issueNumber f) || is_some (gf_legacyIssueNumber f)
      || is_some (gf_issueUrl f) || is_some (gf_legacyIssueUrl f)).

Definition hasLegacyGitHubMetadata (f : GithubFields) : bool :=
  is_some (gf_legacyRepo f) || is_some (gf_legacyIssueNumber f) || is_some (gf_legacyIssueUrl f).

Definition work_mode_github (f : GithubFields) : bool :=
  bool_decide (gf_workMode f = Some "github") || bool_decide (gf_githubWorkMode f = Some "github").

Definition hasExplicitGithubDispatchSignal (intent : A2AExchangeIntent) (f : GithubFields) : bool :=
  bool_decide (gf_mode f = Some "github-propose-patch")
  || (isGithubReadOnlyTaskRequest intent (gf_mode f)
      && (payloadHasRepoIssuePair f || is_some (gf_messageIssue f) || is_some (gf_payloadIssue f)
          || hasLegacyGitHubMetadata f))
  || (is_some (gf_mode f) && hasLegacyGitHubMetadata f)
  || is_some (gf_messageIssue f) || is_some (gf_payloadIssue f)
  || work_mode_github f.

Definition looksLikeGithubTask (intent : A2AExchangeIntent) (f : GithubFields) : bool :=
  hasExplicitGithubDispatchSignal intent f
  || (bool_decide (intent = IntentProposePatch)
      && (negb (is_some (gf_mode f)) || bool_decide (gf_mode f = Some "github-propose-patch"))
      && payloadHasRepoIssuePair f).

Definition normalized_repo (f : GithubFields) : option string :=
  gf_repo f ??o gf_legacyRepo f ??o (fst <$> gf_payloadIssue f) ??o (fst <$> gf_messageIssue f).
Definition normalized_issue (f : GithubFields) : option Z :=
  gf_issueNumber f ??o gf_legacyIssueNumber f ??o (snd <$> gf_payloadIssue f) ??o (snd <$> gf_messageIssue f).
Definition normalized_url (f : GithubFields) (repo : string) (issue : Z) : string :=
  gf_issueUrl f ??o gf_legacyIssueUrl f
    ?? ("https://github.com/" ++ repo ++ "/issues/" ++ pretty issue)%string.

(** [{ ...payload, mode, repo, issue, issueNumber, issueUrl }]. *)
Definition canonical_payload (payload : JsRecord) (mode repo : string) (issue : Z) (url : string) : JsRecord :=
  jm_set "issueUrl" (JStr url) (jm_set "issueNumber" (JNum (NInt issue))
    (jm_set "issue" (JStr ("#" ++ pretty issue)%string) (jm_set "repo" (JStr repo)
      (jm_set "mode" (JStr mode) payload)))).

(** Repository and issue of a GitHub-looking request, or the rejection. *)
Definition repo_and_issue (f : GithubFields) (repoError issueError : string)
    : result BrokerError (string * Z) :=
  match truthy_opt (normalized_repo f) with
  | None => bad_request repoError
  | Some repo =>
      if negb (is_owner_name repo) then bad_request repoError
      else match normalized_issue f with
           | None => bad_request issueError
           | Some issue => Ok (repo, issue)
           end
  end.

Definition not_github_origin (r : CreateTaskRequest) : bool :=
  match ct_taskOrigin r with
  | Some OriginGithub | None => false
  | Some _ => true
  end.

Definition legacy_key (k : string) : bool :=
  starts_with "github" k || String.eqb k "workMode" || String.eqb k "githubWorkMode".

Definition normalize_read_only (r : CreateTaskRequest) (f : GithubFields) : result BrokerError CreateTaskRequest :=
  if not_github_origin r then
    bad_request "GitHub read-only validation tasks require taskOrigin=github"
  else match repo_and_issue f
               "GitHub read-only validation payload requires repo in owner/name form"
               "GitHub read-only validation payload requires issueNumber, issue, or issueUrl" with
       | Err e => Err e
       | Ok (repo, issue) =>
           Ok (r <| ct_taskOrigin := Some OriginGithub |>
                 <| ct_payload := Some (canonical_payload (ct_payload r ?? []) (gf_mode f ?? "") repo issue
                                          (normalized_url f repo issue)) |>)
       end.

Definition normalize_patch (r : CreateTaskRequest) (f : GithubFields) : result BrokerError CreateTaskRequest :=
  let payload := ct_payload r ?? [] in
  let legacyCompatibilityAllowed := hasLegacyGitHubMetadata f && work_mode_github f in
  if not_github_origin r then bad_request "GitHub patch dispatch tasks require taskOrigin=github"
  else if negb (is_some (gf_mode f)) && negb legacyCompatibilityAllowed then
    bad_request "GitHub-looking dispatch requires payload.mode=github-propose-patch; legacy github* fields must include workMode=github for compatibility normalization"
  else
    let normalizedMode := gf_mode f ?? "github-propose-patch" in
    if negb (String.eqb normalizedMode "github-propose-patch") then
      bad_request "GitHub patch dispatch payload requires mode=github-propose-patch"
    else match repo_and_issue f
                 "GitHub patch dispatch payload requires repo in owner/name form"
                 "GitHub patch dispatch payload requires issueNumber or issue" with
         | Err e => Err e
         | Ok (repo, issue) =>
             let normalizedPayload := canonical_payload payload normalizedMode repo issue
                                        (normalized_url f repo issue) in
             let normalizedPayload :=
               if negb (is_some (gf_mode f)) || negb (is_some (gf_repo f))
                  || negb (is_some (gf_issueNumber f)) || negb (is_some (gf_issueUrl f))
               then jm_set "githubDispatchCompatibility"
                      (JObj [("normalizedFromLegacyPayload", JBool true);
                             ("legacyFields", JArr (map JStr (List.filter legacy_key (jm_keys payload))))])
                      normalizedPayload
               else normalizedPayload in
             Ok (r <| ct_taskOrigin := Some OriginGithub |> <| ct_payload := Some normalizedPayload |>)
         end.

Definition normalizeGitHubPatchTaskRequest (r : CreateTaskRequest) : result BrokerError CreateTaskRequest :=
  let payload := ct_payload r ?? [] in
  let f := github_fields r in
  if bool_decide (ct_intent r = IntentProposePatch)
     && bool_decide (gf_mode f = Some "github-issue-instruction") then Ok r
  else if negb (looksLikeGithubTask (ct_intent r) f) then Ok r
  else if isGithubReadOnlyTaskRequest (ct_intent r) (gf_mode f) then normalize_read_only r f
  else if negb (bool_decide (ct_intent r = IntentProposePatch)) then
    if bool_decide (ct_taskOrigin r = Some OriginGithub)
       && ostr_truthy (readString (js_prop "githubDeliveryId" payload))
       && ostr_truthy (readString (js_prop "githubKind" payload))
    then Ok r
    else bad_request "GitHub-looking tasks require canonical intent=propose_patch, taskOrigin=github, and payload.mode=github-propose-patch"
  else normalize_patch r f.

(** ** Completion evidence *)

Definition GITHUB_TASK_MODES : list string := ["github-propose-patch"; "github-issue-instruction"].
Definition READ_ONLY_ANALYSIS_MODES : list string :=
  ["analysis-only"; "read-only-analysis"; "analyze-only"].
Definition GITHUB_READ_ONLY_VALIDATION_MODES : list string :=
  ["github-verify"; "github-read-only-validation"; "read-only-validation";
   "github-libero-validation"; "libero-validation"].
Definition RECEIPT_STATUSES : list string :=
  ["accepted"; "started"; "produced"; "sent"; "provider_sent"; "provider_accepted";
   "current_session_visible"; "operator_visible"; "timed_out"; "stale"; "failed"].
Definition RECEIPT_ACK_EVIDENCE : list string :=
  ["current_session_visible"; "operator_visible"; "operator_confirmed"; "provider_delivery_receipt"].

Definition task_mode (t : TaskRecord) : option string := js_string (js_prop "mode" (task_payload t)).

(** [/^https?:\/\//]. *)
Definition isHttpUrl (v : JsValue) : bool :=
  match js_string v with
  | Some s => starts_with "http://" s || starts_with "https://" s
  | None => false
  end.

Definition isGithubTaskMode (mode : option string) : bool :=
  match mode with Some m => bool_decide (m ∈ GITHUB_TASK_MODES) | None => false end.

Definition isReadOnlyAnalysisMode (mode : option string) : bool :=
  match mode with Some m => bool_decide (m ∈ READ_ONLY_ANALYSIS_MODES) | None => false end.

Definition isGithubReadOnlyValidationTask (t : TaskRecord) : bool :=
  if negb (bool_decide (task_taskOrigin t = Some OriginGithub)) then false
  else match truthy_opt (task_mode t) with
       | None => false
       | Some m =>
           bool_decide (task_intent t ∈ [IntentVerify; IntentAnalyze; IntentValidateChange])
           && bool_decide (m ∈ GITHUB_READ_ONLY_VALIDATION_MODES)
       end.

Definition requiresGithubCompletionEvidence (t : TaskRecord) : bool :=
  if isGithubReadOnlyValidationTask t then true
  else if bool_decide (task_intent t = IntentAnalyze) && isReadOnlyAnalysisMode (task_mode t) then false
  else bool_decide (task_intent t = IntentProposePatch)
       && (bool_decide (task_taskOrigin t = Some OriginGithub) || isGithubTaskMode (task_mode t)).

Definition any_url (keys : list string) (m : JsRecord) : bool :=
  existsb (fun k => isHttpUrl (js_prop k m)) keys.

(** Evidence in [output.github] when it is an object, or in the output itself. *)
Definition has_evidence (keys : list string) (r : TaskResult) : bool :=
  match res_output r with
  | None => false
  | Some output =>
      match js_record (js_prop "github" output) with
      | Some github => any_url keys github || any_url keys output
      | None => any_url keys output
      end
  end.

Definition hasGithubCompletionEvidence : TaskResult -> bool :=
  has_evidence ["prUrl"; "doneCommentUrl"; "blockCommentUrl"].
Definition hasGithubNoPatchCompletionEvidence : TaskResult -> bool :=
  has_evidence ["doneCommentUrl"; "blockCommentUrl"].

Definition isCanonicalReceiptStatus (v : JsValue) : bool :=
  match js_string v with Some s => bool_decide (s ∈ RECEIPT_STATUSES) | None => false end.
Definition isReceiptAckEvidence (v : JsValue) : bool :=
  match js_string v with Some s => bool_decide (s ∈ RECEIPT_ACK_EVIDENCE) | None => false end.

Definition safeDetailValue (v : JsValue) : string :=
  match v with JStr s => String.substring 0 80 s | _ => js_typeof v end.

Definition opt_str_value (o : option string) : JsValue :=
  match o with Some s => JStr s | None => JUndef end.

Definition evidence_error (t : TaskRecord) (message : string) (required : list string) : TaskError :=
  mkTaskError (Some "github_completion_evidence_missing") message
    (Some [("taskId", JStr (task_id t));
           ("taskOrigin", opt_str_value (TaskOrigin_text <$> task_taskOrigin t));
           ("mode", opt_str_value (task_mode t));
           ("requiredEvidence", JArr (map JStr required))]).

Definition validateCompletionReceipt (r : TaskResult) : option TaskError :=
  match res_output r with
  | None => None
  | Some output =>
      let receipt := js_record (js_prop "receipt" output) in
      let field k alt := js_or ((js_prop k <$> receipt) ?? JUndef) (js_prop alt output) in
      let status := field "status" "receiptStatus" in
      let evidence := field "evidence" "receiptEvidence" in
      if negb (js_undefined status) && negb (isCanonicalReceiptStatus status) then
        Some (mkTaskError (Some "github_completion_receipt_invalid")
          "github-origin propose_patch completion receipt status must be accepted, sent/provider_sent/provider_accepted, current_session_visible, operator_visible, timed_out, stale, or failed"
          (Some [("receiptStatus", JStr (safeDetailValue status))]))
      else if negb (js_undefined evidence) && negb (isReceiptAckEvidence evidence) then
        Some (mkTaskError (Some "github_completion_receipt_invalid")
          "github-origin propose_patch completion receipt evidence must be current_session_visible, operator_visible, operator_confirmed, or provider_delivery_receipt; provider send success is not receipt evidence"
          (Some [("receiptEvidence", JStr (safeDetailValue evidence))]))
      else None
  end.

Definition validateGithubTaskCompletionEvidence (t : TaskRecord) (r : TaskResult) : option TaskError :=
  if negb (requiresGithubCompletionEvidence t) then None
  else if isGithubReadOnlyValidationTask t && negb (hasGithubNoPatchCompletionEvidence r) then
    Some (evidence_error t
      "github-origin read-only validation/libero tasks must return Done-comment or Block-comment evidence; PR-only evidence is reserved for propose_patch tasks"
      ["result.output.github.doneCommentUrl"; "result.output.github.blockCommentUrl";
       "result.output.doneCommentUrl"; "result.output.blockCommentUrl"])
  else if negb (hasGithubCompletionEvidence r) then
    Some (evidence_error t
      "github-origin propose_patch tasks must return PR, Done-comment, or Block-comment evidence before they can succeed"
      ["result.output.github.prUrl"; "result.output.github.doneCommentUrl";
       "result.output.github.blockCommentUrl"; "result.output.prUrl";
       "result.output.doneCommentUrl"; "result.output.blockCommentUrl"])
  else validateCompletionReceipt r.

(** ** Facts about the canonical form *)

(** Normalisation writes the origin and the payload, nothing else. *)
Lemma normalize_shape r r' :
  normalizeGitHubPatchTaskRequest r = Ok r' ->
  exists o p, r' = r <| ct_taskOrigin := o |> <| ct_payload := p |>.
Proof.
  assert (r = r <| ct_taskOrigin := ct_taskOrigin r |> <| ct_payload := ct_payload r |>) as Hr
    by (by destruct r).
  unfold normalizeGitHubPatchTaskRequest, normalize_read_only, normalize_patch, bad_request.
  repeat case_match; intros; simplify_eq; eauto.
Qed.

Lemma normalize_keeps_id r r' : normalizeGitHubPatchTaskRequest r = Ok r' -> ct_id r' = ct_id r.
Proof. intros (o & p & ->)%normalize_shape. done. Qed.

(** ** The canonical form of a GitHub request

    [normalizeGitHubPatchTaskRequest] (src/core/broker.ts) leaves its own result
    alone: what it writes into the payload it reads back unchanged. *)

(** ** Text without white space *)

Definition spaceless (l : list ascii) : Prop := Forall (fun c => is_space c = false) l.

Lemma trim_spaceless l : spaceless l -> trim_chars l = l.
Proof.
  intros Hl. assert (forall m, spaceless m -> drop_while is_space m = m) as Hd.
  { intros m Hm. apply drop_while_id. intros c m' ->. by inversion Hm. }
  unfold trim_chars. rewrite (Hd l Hl), Hd, rev_involutive; [done|]. by apply List.Forall_rev.
Qed.

Lemma trimmed_spaceless s : s <> "" -> spaceless (chars s) -> trimmed s = Some s.
Proof.
  intros Hne Hs. unfold trimmed, js_trim. rewrite trim_spaceless, unchars_chars by done.
  unfold truthy_opt. by apply str_truthy_spec in Hne as ->.
Qed.

Lemma spaceless_app l l' : spaceless l -> spaceless l' -> spaceless (l ++ l').
Proof. intros. by apply Forall_app. Qed.

Lemma spaceless_pretty n : (0 < n)%Z -> spaceless (chars (pretty n)).
Proof.
  intros Hn. apply pretty_chars; [|lia]. intros c. destruct c as [[] [] [] [] [] [] [] []]; vm_compute; congruence.
Qed.

Lemma segment_spaceless l : Forall (fun c => segment_char c = true) l -> spaceless l.
Proof.
  intros Hl. eapply Forall_impl; [exact Hl|]. intros c. cbv beta. unfold segment_char. rewrite andb_true_iff, !negb_true_iff. tauto.
Qed.

Lemma owner_name_spaceless s : is_owner_name s = true -> s <> "" /\ spaceless (chars s).
Proof.
  unfold is_owner_name, run1. destruct (take_while segment_char (chars s)) as [|c l] eqn:Ht; [done|].
  destruct (drop_while segment_char (chars s)) as [|d rest] eqn:Hd; [done|].
  rewrite !andb_true_iff. intros [[Hs%Ascii.eqb_eq _] Hr]. split; [by intros ->|].
  rewrite <- (take_drop_while segment_char (chars s)), Hd, Ht. subst d. apply spaceless_app.
  - apply segment_spaceless. rewrite <- Ht. apply take_while_Forall.
  - constructor; [done|]. apply segment_spaceless. apply List.Forall_forall. by apply forallb_forall.
Qed.

Lemma owner_name_trimmed s : is_owner_name s = true -> trimmed s = Some s.
Proof. intros [Hne Hs]%owner_name_spaceless. by apply trimmed_spaceless. Qed.

(** ** Reading back what was written *)

Lemma js_prop_set k k' v m : js_prop k' (jm_set k v m) = if String.eqb k' k then v else js_prop k' m.
Proof. unfold js_prop. rewrite jm_get_set. by destruct (String.eqb k' k). Qed.

Lemma jm_set_same {V} k (v : V) m : jm_get k m = Some v -> jm_set k v m = m.
Proof.
  induction m as [|[k' v'] m IH]; simpl; [done|].
  destruct (String.eqb_spec k k') as [->|]; [by intros [= ->]|]. intros Hk. by rewrite IH.
Qed.

(** The five canonical entries. *)
Record canonical_entries (p : JsRecord) (mode repo : string) (n : Z) (url : string) : Prop := {
  ce_mode : jm_get "mode" p = Some (JStr mode);
  ce_repo : jm_get "repo" p = Some (JStr repo);
  ce_issue : jm_get "issue" p = Some (JStr ("#" ++ pretty n)%string);
  ce_number : jm_get "issueNumber" p = Some (JNum (NInt n));
  ce_url : jm_get "issueUrl" p = Some (JStr url);
}.

Lemma canonical_payload_entries p mode repo n url :
  canonical_entries (canonical_payload p mode repo n url) mode repo n url.
Proof. unfold canonical_payload. by split; rewrite !jm_get_set. Qed.

Lemma entries_set p mode repo n url v :
  canonical_entries p mode repo n url ->
  canonical_entries (jm_set "githubDispatchCompatibility" v p) mode repo n url.
Proof. intros []. by split; rewrite jm_get_set. Qed.

Lemma entries_canonical p mode repo n url :
  canonical_entries p mode repo n url -> canonical_payload p mode repo n url = p.
Proof.
  intros []. unfold canonical_payload.
  rewrite (jm_set_same "mode"), (jm_set_same "repo"), (jm_set_same "issue"), (jm_set_same "issueNumber"),
    (jm_set_same "issueUrl"); done.
Qed.

(** What the fields are read as from such a payload. *)
Lemma entries_fields r p mode repo n url :
  ct_payload r = Some p -> canonical_entries p mode repo n url ->
  trimmed mode = Some mode -> trimmed repo = Some repo -> trimmed url = Some url -> (0 < n)%Z ->
  gf_mode (github_fields r) = Some mode /\ gf_repo (github_fields r) = Some repo
  /\ gf_issueNumber (github_fields r) = Some n /\ gf_issueUrl (github_fields r) = Some url.
Proof.
  intros Hp [] Hm Hr Hu Hn. unfold github_fields. rewrite Hp. simpl.
  unfold js_prop. rewrite ce_mode0, ce_repo0, ce_number0, ce_url0. simpl.
  split_and!; [done|done| |done]. by destruct (Z.ltb_spec 0 n); [|lia].
Qed.

(** The url a request is given is its own, trimmed, or made from the issue. *)
Lemma normalized_url_trimmed r repo n :
  trimmed repo = Some repo -> spaceless (chars repo) -> (0 < n)%Z ->
  trimmed (normalized_url (github_fields r) repo n) = Some (normalized_url (github_fields r) repo n).
Proof.
  intros Hr Hs Hn. unfold normalized_url, github_fields, readString. simpl.
  destruct (js_string (js_prop "issueUrl" (ct_payload r ?? [])) ≫= trimmed) as [u|] eqn:Hu; simpl.
  { destruct (js_string _) as [s|]; [|done]. by apply trimmed_idemp in Hu. }
  destruct (js_string (js_prop "githubIssueUrl" (ct_payload r ?? [])) ≫= trimmed) as [u|] eqn:Hu'; simpl.
  { destruct (js_string (js_prop "githubIssueUrl" _)) as [s|]; [|done]. by apply trimmed_idemp in Hu'. }
  apply trimmed_spaceless; [done|]. rewrite !chars_app.
  repeat apply spaceless_app; [|done| |by apply spaceless_pretty]; by repeat constructor.
Qed.

(** ** The canonical form is left alone *)

Definition canonical_mode (r : CreateTaskRequest) (mode : string) : Prop :=
  isGithubReadOnlyTaskRequest (ct_intent r) (Some mode) = true
  \/ (mode = "github-propose-patch" /\ ct_intent r = IntentProposePatch).

Lemma repo_and_issue_ok f repo n e1 e2 :
  gf_repo f = Some repo -> gf_issueNumber f = Some n -> is_owner_name repo = true ->
  repo_and_issue f e1 e2 = Ok (repo, n).
Proof.
  intros Hr Hn Ho. unfold repo_and_issue, normalized_repo, normalized_issue. rewrite Hr, Hn. simpl.
  destruct (owner_name_spaceless repo Ho) as [Hne%str_truthy_spec _].
  unfold truthy_opt. by rewrite Hne, Ho.
Qed.

Lemma request_set_same r p :
  ct_taskOrigin r = Some OriginGithub -> ct_payload r = Some p ->
  r <| ct_taskOrigin := Some OriginGithub |> <| ct_payload := Some p |> = r.
Proof. destruct r; simpl. by intros -> ->. Qed.

Lemma canonical_fixed r p mode repo n url :
  ct_payload r = Some p -> canonical_entries p mode repo n url -> canonical_mode r mode ->
  ct_taskOrigin r = Some OriginGithub -> is_owner_name repo = true ->
  trimmed mode = Some mode -> trimmed url = Some url -> (0 < n)%Z ->
  normalizeGitHubPatchTaskRequest r = Ok r.
Proof.
  intros Hp He Hmode Ho Hrepo Hm Hu Hn.
  destruct (entries_fields r p mode repo n url) as (Fm & Fr & Fn & Fu); try done;
    [by apply owner_name_trimmed|].
  unfold normalizeGitHubPatchTaskRequest.
  destruct (_ && _); [done|]. destruct (negb (looksLikeGithubTask _ _)) eqn:Hl; [done|]. clear Hl.
  assert (not_github_origin r = false) as Hno by (unfold not_github_origin; by rewrite Ho).
  assert (normalized_url (github_fields r) repo n = url) as Hurl
    by (unfold normalized_url; by rewrite Fu).
  rewrite Fm. destruct (isGithubReadOnlyTaskRequest (ct_intent r) (Some mode)) eqn:Hro.
  - unfold normalize_read_only. rewrite Hno, (repo_and_issue_ok _ repo n), Hurl, Fm, Hp by done. simpl.
    rewrite (entries_canonical _ _ _ _ _ He). by rewrite request_set_same.
  - destruct Hmode as [Hc|[-> Hi]]; [congruence|]. rewrite bool_decide_true by done. simpl.
    unfold normalize_patch. rewrite Hno, Fm. cbn [is_some negb andb from_option].
    rewrite (repo_and_issue_ok _ repo n) by done. rewrite Fr, Fn, Fu, Hurl, Hp. simpl.
    rewrite (entries_canonical _ _ _ _ _ He). by rewrite request_set_same.
Qed.

(** Issue numbers are never negative. *)
Lemma digits_value_nonneg l : Forall (fun c => is_digit c = true) l -> (0 <= digits_value l)%Z.
Proof.
  unfold digits_value. assert (forall acc, (0 <= acc)%Z -> Forall (fun c => is_digit c = true) l ->
    (0 <= foldl (fun acc c => 10 * acc + digit_value c) acc l)%Z) as Hg; [|by apply Hg].
  induction l as [|c l IH]; intros acc Hacc Hl; simpl; [done|].
  inversion Hl as [|c' l' Hc Hl']; subst. apply IH; [|done].
  unfold is_digit, digit_value in *. apply andb_true_iff in Hc as [Hc%Nat.leb_le _]. lia.
Qed.

Lemma readIssueNumber_nonneg v n : readIssueNumber v = Some n -> (0 <= n)%Z.
Proof.
  unfold readIssueNumber, all_digits. destruct v as [| | |[z| | |]|s| |]; try done.
  - destruct (Z.ltb_spec 0 z); [intros [= <-]; lia|done].
  - set (l := match trim_chars (chars s) with [] => _ | _ => _ end).
    destruct (_ && _) eqn:Hl; [|done]. intros [= <-].
    apply digits_value_nonneg, List.Forall_forall, forallb_forall. by apply andb_true_iff in Hl as [_ ?].
Qed.

Lemma match_issue_url_nonneg l s n : match_issue_url l = Some (s, n) -> (0 <= n)%Z.
Proof.
  unfold match_issue_url. intros (l1 & _ & Hm)%bind_Some. revert Hm. cbv zeta.
  intros (l2 & _ & ([owner l3] & _ & (l4 & _ & ([name l5] & _ & (l6 & _ & ([digits l7] & Hd &
    Hs)%bind_Some)%bind_Some)%bind_Some)%bind_Some)%bind_Some)%bind_Some.
  injection Hs as _ <-. apply digits_value_nonneg. unfold run1 in Hd.
  pose proof (take_while_Forall is_digit l6) as Hall. destruct (take_while is_digit l6); [done|].
  injection Hd as <- _. exact Hall.
Qed.

Lemma search_issue_nonneg l s n : search_issue_url l = Some (s, n) -> (0 <= n)%Z.
Proof.
  induction l as [|c l IH]; [done|]. cbn [search_issue_url].
  destruct (match_issue_url (c :: l)) as [[s' n']|] eqn:Hm; [|exact IH].
  intros [= <- <-]. exact (match_issue_url_nonneg _ _ _ Hm).
Qed.

Lemma readGitHubIssueUrl_nonneg v s n : readGitHubIssueUrl v = Some (s, n) -> (0 <= n)%Z.
Proof. unfold readGitHubIssueUrl. destruct v as [t|]; [|done]. apply search_issue_nonneg. Qed.

Lemma normalized_issue_nonneg r n : normalized_issue (github_fields r) = Some n -> (0 <= n)%Z.
Proof.
  assert (forall m, gf_issueNumber (github_fields r) = Some m -> (0 <= m)%Z) as H1
    by (intros m; apply readIssueNumber_nonneg).
  assert (forall m, gf_legacyIssueNumber (github_fields r) = Some m -> (0 <= m)%Z) as H2
    by (intros m; apply readIssueNumber_nonneg).
  assert (forall s m, gf_payloadIssue (github_fields r) = Some (s, m) -> (0 <= m)%Z) as H3
    by (intros s m; apply readGitHubIssueUrl_nonneg).
  assert (forall s m, gf_messageIssue (github_fields r) = Some (s, m) -> (0 <= m)%Z) as H4
    by (intros s m; apply readGitHubIssueUrl_nonneg).
  revert H1 H2 H3 H4. generalize (github_fields r). intros f H1 H2 H3 H4. unfold normalized_issue.
  destruct (gf_issueNumber f) as [m|]; [intros [= <-]; by apply H1|].
  destruct (gf_legacyIssueNumber f) as [m|]; [intros [= <-]; by apply H2|].
  destruct (gf_payloadIssue f) as [[s m]|]; [intros [= <-]; by eapply H3|].
  destruct (gf_messageIssue f) as [[s m]|]; [intros [= <-]; by eapply H4|done].
Qed.

Lemma repo_and_issue_inv r e1 e2 repo n :
  repo_and_issue (github_fields r) e1 e2 = Ok (repo, n) -> is_owner_name repo = true /\ (0 <= n)%Z.
Proof.
  unfold repo_and_issue, bad_request. destruct (truthy_opt _) as [s|]; [|done].
  destruct (is_owner_name s) eqn:Ho; simpl; [|done].
  destruct (normalized_issue _) as [m|] eqn:Hi; [|done]. intros [= <- <-].
  split; [done|]. by eapply normalized_issue_nonneg.
Qed.

Lemma gf_mode_trimmed r m : gf_mode (github_fields r) = Some m -> trimmed m = Some m.
Proof.
  unfold github_fields, readString. simpl. destruct (js_string _) as [s|]; [|done]. apply trimmed_idemp.
Qed.

(** What normalisation returned was canonical, or left alone. *)
Definition canonical_request (r : CreateTaskRequest) (mode repo : string) (n : Z) (url : string) : Prop :=
  ct_taskOrigin r = Some OriginGithub /\ canonical_mode r mode /\ is_owner_name repo = true
  /\ exists p, ct_payload r = Some p /\ canonical_entries p mode repo n url.

Lemma normalize_canonical r r' :
  normalizeGitHubPatchTaskRequest r = Ok r' ->
  r' = r \/ exists mode repo n url, canonical_request r' mode repo n url
    /\ trimmed mode = Some mode /\ (0 <= n)%Z /\ ((0 < n)%Z -> trimmed url = Some url).
Proof.
  unfold normalizeGitHubPatchTaskRequest.
  destruct (_ && _); [left; congruence|]. destruct (negb (looksLikeGithubTask _ _)); [left; congruence|].
  destruct (isGithubReadOnlyTaskRequest _ _) eqn:Hro.
  - unfold normalize_read_only. destruct (not_github_origin r); [done|].
    destruct (repo_and_issue _ _ _) as [[repo n]|] eqn:Hri; [|done].
    apply repo_and_issue_inv in Hri as [Hri Hn].
    destruct (gf_mode (github_fields r)) as [m|] eqn:Hm; [|done]. intros [= <-]. right.
    exists m, repo, n, (normalized_url (github_fields r) repo n). split_and!.
    + split_and!; [done|by left|done|]. eexists. split; [reflexivity|apply canonical_payload_entries].
    + by eapply gf_mode_trimmed.
    + done.
    + apply normalized_url_trimmed; [by apply owner_name_trimmed|by apply owner_name_spaceless].
  - case_bool_decide as Hi; simpl; [|destruct (_ && _); [left; congruence|done]].
    unfold normalize_patch. destruct (not_github_origin r); [done|].
    destruct (_ && _); [done|]. destruct (String.eqb_spec (gf_mode (github_fields r) ?? "github-propose-patch") "github-propose-patch") as [Hm|]; [|done].
    cbn [negb]. rewrite Hm. destruct (repo_and_issue _ _ _) as [[repo n]|] eqn:Hri; [|done].
    apply repo_and_issue_inv in Hri as [Hri Hn]. intros [= <-]. right.
    exists "github-propose-patch", repo, n, (normalized_url (github_fields r) repo n). split_and!.
    + split_and!; [done|by right|done|]. eexists. split; [reflexivity|].
      destruct (_ || _); [apply entries_set|]; apply canonical_payload_entries.
    + reflexivity.
    + done.
    + apply normalized_url_trimmed; [by apply owner_name_trimmed|by apply owner_name_spaceless].
Qed.

(** Normalisation is idempotent, issue number zero apart: the text "0" is read as
    an issue number and the number 0 is not. *)
Lemma normalize_idempotent r r' :
  normalizeGitHubPatchTaskRequest r = Ok r' ->
  (forall p, ct_payload r' = Some p -> js_prop "issueNumber" p <> JNum (NInt 0)) ->
  normalizeGitHubPatchTaskRequest r' = Ok r'.
Proof.
  intros Hr H0.
  destruct (normalize_canonical r r' Hr) as [->|(mode & repo & n & url & Hc & Hm & Hn & Hu)]; [done|].
  destruct Hc as (Ho & Hmode & Hrepo & p & Hp & He).
  assert (n <> 0)%Z as Hn0.
  { intros ->. apply (H0 p Hp). unfold js_prop. by rewrite (ce_number _ _ _ _ _ He). }
  eapply canonical_fixed; eauto; [apply Hu|]; lia.
Qed.
