(* ===== verification/TerminalBrief.v ===== *)
(** * Terminal Brief dispatch metadata (src/core/terminal-brief-metadata.ts)

    The fail-closed validation of the round metadata a task payload carries, as
    [assertTerminalBriefMetadata] runs it when a task is created. *)

From Stdlib Require Import ZArith Lia String.
From stdpp Require Import base gmap strings list pretty.
From S2P Require Import Prelude JsRuntime Types Policy Retention BrokerCore.

Inductive MetadataValidationSeverity : Type := SeverityError | SeverityWarning.
#[export] Instance MetadataValidationSeverity_eq_dec : EqDecision MetadataValidationSeverity.
Proof. solve_decision. Defined.

Record MetadataValidationIssue : Type := mkIssue {
  is_path : string;
  is_message : string;
  is_severity : MetadataValidationSeverity;
  is_expected : option string;
  is_actual : JsValue;
}.

Record TerminalBriefMetadataValidationResult : Type := mkValidation {
  tv_valid : bool;
  tv_issues : list MetadataValidationIssue;
  tv_summary : string;
}.

Definition normalizeToken (v : JsValue) : option string := js_string v ≫= trimmed.

Definition MAX_SAFE_INTEGER : Z := 9007199254740991.

(** A positive integer, or a decimal string denoting a positive safe integer. *)
Definition normalizePositiveInt (v : JsValue) : option Z :=
  match v with
  | JNum (NInt z) => if (0 <? z)%Z then Some z else None
  | JStr s =>
      let l := trim_chars (chars s) in
      if all_digits l then
        let n := digits_value l in
        if (n <=? MAX_SAFE_INTEGER)%Z && (0 <? n)%Z then Some n else None
      else None
  | _ => None
  end.

Definition issue (path message expected : string) (actual : JsValue) : MetadataValidationIssue :=
  mkIssue path message SeverityError (Some expected) actual.

(** A string between double quotes. *)
Definition quoted (s : string) : string :=
  let q := String (Ascii.ascii_of_nat 34) EmptyString in (q ++ s ++ q)%string.

(** A field that must be a non-empty string. *)
Definition require_token (path message : string) (v : JsValue) : list MetadataValidationIssue :=
  match normalizeToken v with
  | Some _ => []
  | None => [issue path message "non-empty string" v]
  end.

(** An optional field: absent, [null], or a non-empty string. *)
Definition optional_token (path : string) (v : JsValue) : list MetadataValidationIssue :=
  if js_nullish v then []
  else match normalizeToken v with
       | Some _ => []
       | None => [issue path (path ++ " must be a non-empty string when present")%string
                    "non-empty string or absent" v]
       end.

(** [typeof handoff !== "object" || handoff === null]; an array passes the test
    and has none of the fields. *)
Definition validateHandoff (handoff : JsValue) : list MetadataValidationIssue :=
  let fields :=
    match handoff with JObj m => Some m | JArr _ => Some [] | _ => None end in
  match fields with
  | None => [issue "crossBrokerHandoff" "crossBrokerHandoff must be a non-null object"
               "object with parentRoundId and originBrokerId" handoff]
  | Some h =>
      require_token "crossBrokerHandoff.parentRoundId" "crossBrokerHandoff.parentRoundId is required"
        (js_prop "parentRoundId" h)
      ++ require_token "crossBrokerHandoff.originBrokerId" "crossBrokerHandoff.originBrokerId is required"
        (js_prop "originBrokerId" h)
      ++ optional_token "crossBrokerHandoff.handoffBrokerId" (js_prop "handoffBrokerId" h)
      ++ optional_token "crossBrokerHandoff.originTaskId" (js_prop "originTaskId" h)
      ++ optional_token "crossBrokerHandoff.childWorkerId" (js_prop "childWorkerId" h)
  end.

Definition origin_issues (input : JsRecord) (receiver : option string) (allowLocalOrigin : bool)
    : list MetadataValidationIssue :=
  let actual := js_prop "originBrokerId" input in
  match normalizeToken actual with
  | None => [issue "originBrokerId" "originBrokerId is required for Terminal Brief dispatch"
               "non-empty string" actual]
  | Some origin =>
      match truthy_opt receiver with
      | Some rcv =>
          if negb allowLocalOrigin && String.eqb origin rcv then
            [issue "originBrokerId"
               ("originBrokerId " ++ quoted origin ++ " must differ from the receiving broker " ++ quoted rcv)%string
               ("different from " ++ quoted rcv)%string (JStr origin)]
          else []
      | None => []
      end
  end.

Definition round_issues (input : JsRecord) : list MetadataValidationIssue :=
  let total := normalizePositiveInt (js_prop "parentRoundTotal" input) in
  let order := normalizePositiveInt (js_prop "parentRoundOrder" input) in
  match total with
  | None => [issue "parentRoundTotal" "parentRoundTotal is required and must be a positive integer"
               "positive integer (or numeric string)" (js_prop "parentRoundTotal" input)]
  | Some _ => []
  end
  ++ match order, total with
     | None, _ => [issue "parentRoundOrder" "parentRoundOrder is required and must be a positive integer"
                     "positive integer (or numeric string)" (js_prop "parentRoundOrder" input)]
     | Some o, Some t =>
         if (t <? o)%Z then
           [issue "parentRoundOrder"
              ("parentRoundOrder (" ++ pretty o ++ ") must not exceed parentRoundTotal (" ++ pretty t ++ ")")%string
              ("≤ " ++ pretty t)%string (JNum (NInt o))]
         else []
     | Some _, None => []
     end.

Definition is_error (i : MetadataValidationIssue) : bool := bool_decide (is_severity i = SeverityError).

Definition validateTerminalBriefMetadata (input : JsRecord) (receiver : option string)
    (allowLocalOrigin : bool) : TerminalBriefMetadataValidationResult :=
  let handoff := js_prop "crossBrokerHandoff" input in
  let issues :=
    require_token "parentRoundId" "parentRoundId is required for Terminal Brief dispatch"
      (js_prop "parentRoundId" input)
    ++ origin_issues input receiver allowLocalOrigin
    ++ round_issues input
    ++ (if js_nullish handoff then [] else validateHandoff handoff) in
  let valid := forallb (fun i => negb (is_error i)) issues in
  {| tv_valid := valid;
     tv_issues := issues;
     tv_summary := if valid then "Terminal Brief metadata validation passed"
                   else ("Terminal Brief metadata validation failed: "
                         ++ pretty (length (List.filter is_error issues)) ++ " error(s)")%string |}.

Definition hasTerminalBriefMetadata (payload : JsRecord) : bool :=
  existsb (fun key => let v := js_prop key payload in
             negb (js_nullish v) && str_truthy (js_trim (js_String v)))
    ["originBrokerId"; "parentRoundOrder"; "parentRoundIndex"; "terminalBriefTitle"; "terminalBrief"].

Definition extractDispatchMetadata (payload : JsRecord) : JsRecord :=
  let p k := js_prop k payload in
  [("parentRoundId", js_or (p "parentRoundId") (js_or (p "run") (js_or (p "runId")
      (js_or (p "round") (p "roundId")))));
   ("originBrokerId", p "originBrokerId");
   ("brokerOfRecordId", p "brokerOfRecordId");
   ("parentRoundTotal", js_or (p "parentRoundTotal") (js_or (p "roundTotal")
      (js_or (p "expectedWorkers") (p "taskCount"))));
   ("parentRoundOrder", js_or (p "parentRoundOrder") (p "parentRoundIndex"));
   ("crossBrokerHandoff", p "crossBrokerHandoff")].

(** The creation-time guard (assertTerminalBriefMetadata, src/core/broker.ts):
    [None] is acceptance, [Some message] the message of the rejection. *)
Definition terminal_brief_rejection (payload : option JsRecord) (brokerId : option string) : option string :=
  match payload with
  | None => None
  | Some payload =>
      if negb (hasTerminalBriefMetadata payload) then None
      else
        let result := validateTerminalBriefMetadata (extractDispatchMetadata payload) brokerId true in
        if tv_valid result then None
        else Some ("Terminal Brief metadata validation failed: "
                   ++ String.concat "; " (map is_message (List.filter is_error (tv_issues result))))%string
  end.

(** ** Theorems *)

(** Every issue the validation reports is an error, so acceptance means that it
    found none. *)
Lemma issues_are_errors input receiver allow :
  Forall (fun i => is_error i = true) (tv_issues (validateTerminalBriefMetadata input receiver allow)).
Proof.
  assert (forall p m e a, Forall (fun i => is_error i = true) [issue p m e a]) as Hi
    by (intros; by apply Forall_singleton).
  assert (forall p m v, Forall (fun i => is_error i = true) (require_token p m v)) as Hreq
    by (intros; unfold require_token; case_match; auto).
  assert (forall p v, Forall (fun i => is_error i = true) (optional_token p v)) as Hopt
    by (intros; unfold optional_token; repeat case_match; auto).
  unfold validateTerminalBriefMetadata, tv_issues. rewrite !Forall_app. split_and!.
  - apply Hreq.
  - unfold origin_issues. repeat case_match; auto.
  - unfold round_issues. rewrite Forall_app. split; repeat case_match; auto.
  - case_match; [auto|]. unfold validateHandoff. case_match; [|auto].
    rewrite !Forall_app. auto 10.
Qed.

Lemma valid_iff_no_issue input receiver allow :
  tv_valid (validateTerminalBriefMetadata input receiver allow) = true <->
  tv_issues (validateTerminalBriefMetadata input receiver allow) = [].
Proof.
  pose proof (issues_are_errors input receiver allow) as Hall.
  change (tv_valid (validateTerminalBriefMetadata input receiver allow)) with
    (forallb (fun i => negb (is_error i)) (tv_issues (validateTerminalBriefMetadata input receiver allow))).
  destruct (tv_issues _) as [|i l]; [done|].
  apply Forall_cons in Hall as [Hi _]. simpl. rewrite Hi. done.
Qed.

(** An accepted input names a round, an origin and an ordinal within the total. *)
Lemma valid_metadata input receiver allow :
  tv_valid (validateTerminalBriefMetadata input receiver allow) = true ->
  is_Some (normalizeToken (js_prop "parentRoundId" input)) /\
  is_Some (normalizeToken (js_prop "originBrokerId" input)) /\
  exists total order,
    normalizePositiveInt (js_prop "parentRoundTotal" input) = Some total /\
    normalizePositiveInt (js_prop "parentRoundOrder" input) = Some order /\
    (1 <= order <= total)%Z.
Proof.
  rewrite valid_iff_no_issue. unfold validateTerminalBriefMetadata, tv_issues. intros Hi.
  apply app_nil in Hi as [Hround Hi]. apply app_nil in Hi as [Horigin Hi].
  apply app_nil in Hi as [Hr _].
  unfold require_token in Hround. unfold origin_issues in Horigin. unfold round_issues in Hr.
  destruct (normalizeToken (js_prop "parentRoundId" input)); [|done].
  destruct (normalizeToken (js_prop "originBrokerId" input)); [|done].
  split_and!; [done..|].
  destruct (normalizePositiveInt (js_prop "parentRoundTotal" input)) as [total|] eqn:Ht; [|done].
  destruct (normalizePositiveInt (js_prop "parentRoundOrder" input)) as [order|] eqn:Ho; [|done].
  exists total, order. split_and!; [done..| |].
  - unfold normalizePositiveInt in Ho. repeat case_match; simplify_eq; lia.
  - simpl in Hr. destruct (Z.ltb_spec total order); [done|lia].
Qed.
