(* ===== verification/OutboxPayload.v ===== *)
(** * The payload of a terminal event (src/core/terminal-event-outbox.ts)

    [buildTerminalTaskPayload]: what an outbox record tells operators of a task,
    read from the task, its payload and the output of its result.  Free text is
    sanitised ([TextRedaction]); an instance of [OutboxText], through which the
    outbox builds its records. *)

From Stdlib Require Import ZArith Lia String Ascii.
From stdpp Require Import base gmap strings list pretty.
From S2P Require Import Prelude JsRuntime TextRedaction Types BrokerCore EventBuffer TaskEventStream Outbox.
From S2P Require Import TerminalBrief.

(** The URL class of the host: the protocol of a text and the URL it prints, if
    it parses. *)
Class JsUrl : Type := {
  url_protocol : string -> option string;
  url_toString : string -> string;
}.

Definition TASK_BRIEF_KEYS : list string := ["githubIssueTitle"; "taskTitle"; "title"; "taskBrief"].
Definition MAX_TASK_BRIEF_CHARS : nat := 160.

(** ** Pieces *)

(** The first value a reader makes something of. *)
Definition first_of {A} (read : JsValue -> option A) (values : list JsValue) : option A := head (omap read values).

Definition firstSafeText (values : list JsValue) : option string :=
  first_of (fun v => str_slice 160 <$> (sanitizeSummary v ≫= fun s => truthy_opt (Some s))) values.

Definition firstSafePositiveInt (values : list JsValue) : option Z := first_of normalizePositiveInt values.

Definition is_http_protocol (o : option string) : bool :=
  bool_decide (o = Some "https:") || bool_decide (o = Some "http:").

Definition firstSafeHttpUrl `{JsUrl} (values : list JsValue) : option string :=
  first_of (fun v => js_string v ≫= fun s => if is_http_protocol (url_protocol s) then Some s else None) values.

(** [-\w.]+ *)
Definition repo_char (c : ascii) : bool := token_char c || Ascii.eqb c ".".

(** [/^[-\w.]+\/[-\w.]+#\d+\s*:\s*/]: the rest after it. *)
Definition issue_prefix (l : list ascii) : option (list ascii) :=
  match take_while repo_char l, drop_while repo_char l with
  | _ :: _, c :: l =>
      if Ascii.eqb c "/" then
        match take_while repo_char l, drop_while repo_char l with
        | _ :: _, c :: l =>
            if Ascii.eqb c "#" then
              match take_while is_digit l, drop_while is_space (drop_while is_digit l) with
              | _ :: _, c :: l => if Ascii.eqb c ":" then Some (drop_while is_space l) else None
              | _, _ => None
              end
            else None
        | _, _ => None
        end
      else None
  | _, _ => None
  end.

Definition sanitizeTaskBrief (v : JsValue) : option string :=
  match v with
  | JStr s =>
      let withoutIssuePrefix := (unchars <$> issue_prefix (chars s)) ?? s in
      str_slice MAX_TASK_BRIEF_CHARS <$> (sanitizeSummary (JStr withoutIssuePrefix) ≫= fun s => truthy_opt (Some s))
  | _ => None
  end.

Definition opt_value (o : option string) : JsValue := match o with Some s => JStr s | None => JUndef end.

Definition sanitizeTaskMessageBrief (v : JsValue) : option string :=
  match v with
  | JStr s => if is_some (issue_prefix (chars s)) then sanitizeTaskBrief v else None
  | _ => None
  end.

Definition buildTaskBrief (task : TaskRecord) (output : JsRecord) : option string :=
  first_of (fun v => sanitizeTaskBrief v ≫= fun s => truthy_opt (Some s))
    (flat_map (fun key => [js_prop key (task_payload task); js_prop key output]) TASK_BRIEF_KEYS)
  ??o sanitizeTaskMessageBrief (opt_value (task_message task)).

(** [/token|secret|password|authorization|api[_-]?key/i]. *)
Definition contains_secret_word (s : string) : bool :=
  existsb (fun k => existsb (fun p => is_some (strip_literal_i (chars p) (drop k (chars s))))
      ["token"; "secret"; "password"; "authorization"; "api_key"; "api-key"; "apikey"])
    (seq 0 (S (String.length s))).

Definition sanitizeCrossBrokerToken (v : JsValue) : option string :=
  match js_string v ≫= trimmed with
  | None => None
  | Some s =>
      if (160 <? String.length s) || contains_secret_word s then None
      else sanitizeSummary (JStr s) ≫= fun s => truthy_opt (Some s)
  end.

(** A property with its value, if any. *)
Definition field (name : string) (o : option string) : JsRecord :=
  match o with Some s => [(name, JStr s)] | None => [] end.

Definition handoff_of (v : JsValue) : option JsRecord :=
  match js_record v with
  | None => None
  | Some m =>
      let p k := js_prop k m in
      let origin := match js_record (p "originBroker") with Some b => js_prop "id" b | None => JUndef end in
      match sanitizeCrossBrokerToken (js_or (p "parentRoundId") (p "roundId")),
            sanitizeCrossBrokerToken (js_or (p "originBrokerId") (js_or origin (p "origin"))) with
      | Some parentRoundId, Some originBrokerId => Some (
          [("parentRoundId", JStr parentRoundId); ("originBrokerId", JStr originBrokerId)]
          ++ field "handoffBrokerId" (sanitizeCrossBrokerToken (js_or (p "handoffBrokerId")
               (js_or (p "localBrokerId") (p "brokerId"))))
          ++ field "originTaskId" (sanitizeCrossBrokerToken (js_or (p "originTaskId") (p "parentTaskId")))
          ++ field "childWorkerId" (sanitizeCrossBrokerToken (js_or (p "childWorkerId") (p "workerId"))))
      | _, _ => None
      end
  end.
Definition buildCrossBrokerHandoff (values : list JsValue) : option JsRecord := first_of handoff_of values.

Definition finite_value (v : JsValue) : option JsNum :=
  match v with JNum (NInt z) => Some (NInt z) | JNum (NFrac t) => Some (NFrac t) | _ => None end.

Definition buildTaskDescription (task : TaskRecord) (output : JsRecord) : option string :=
  let p k := js_prop k (task_payload task) in
  match firstSafeText [p "taskDescription"; p "taskSummary"; p "issueTitle"; p "title"; p "description";
                       js_prop "taskDescription" output; js_prop "taskSummary" output] with
  | Some explicit => Some explicit
  | None =>
      let repo := truthy_opt (js_string (p "githubRepo")) in
      match repo, finite_value (p "githubIssueNumber") with
      | Some repo, Some issue => Some (repo ++ "#" ++ js_num_String issue)%string
      | Some repo, None => Some repo
      | None, _ => firstSafeText [opt_value (task_result task ?> res_summary); opt_value (task_result task ?> res_note);
                     opt_value (err_message <$> task_error task); JStr (A2AExchangeIntent_text (task_intent task))]
      end
  end.

Definition record_or_empty (v : JsValue) : JsRecord := js_record v ?? [].

(** ** The payload *)

Definition buildTerminalTaskPayload `{JsUrl} (task : TaskRecord) : TerminalTaskEventPayload :=
  let output := (task_result task ?> res_output) ?? [] in
  let githubOutput := record_or_empty (js_prop "github" output) in
  let p k := js_prop k (task_payload task) in
  let o k := js_prop k output in
  let g k := js_prop k githubOutput in
  let payloadTerminalBrief := record_or_empty (p "terminalBrief") in
  let payloadMetadata := record_or_empty (p "metadata") in
  let outputTerminalBrief := record_or_empty (o "terminalBrief") in
  let outputMetadata := record_or_empty (o "metadata") in
  let pb k := js_prop k payloadTerminalBrief in
  let pm k := js_prop k payloadMetadata in
  let ob k := js_prop k outputTerminalBrief in
  let om k := js_prop k outputMetadata in
  let run := firstSafeText [p "parentRoundId"; pb "parentRoundId"; pm "parentRoundId"; p "run"; p "runId";
    p "round"; p "roundId"; o "parentRoundId"; ob "parentRoundId"; om "parentRoundId"; o "run"; o "runId";
    o "round"; o "roundId"] in
  let origin := firstSafeText [p "originBrokerId"; pb "originBrokerId"; pm "originBrokerId"; o "originBrokerId";
    ob "originBrokerId"; om "originBrokerId"] in
  let brokerOfRecordId := firstSafeText [p "brokerOfRecordId"; pb "brokerOfRecordId"; pm "brokerOfRecordId";
    o "brokerOfRecordId"; ob "brokerOfRecordId"; om "brokerOfRecordId"; opt_value (task_brokerOfRecord task)] in
  let originBrokerId := origin ??o (if is_some run then brokerOfRecordId else None) in
  let parentRoundTotal := firstSafePositiveInt [p "roundTotal"; p "parentRoundTotal"; pb "parentRoundTotal";
    pm "parentRoundTotal"; p "expectedWorkers"; p "taskCount"; o "roundTotal"; o "parentRoundTotal";
    ob "parentRoundTotal"; om "parentRoundTotal"; o "expectedWorkers"] in
  let parentRoundOrder := firstSafePositiveInt [p "parentRoundOrder"; p "parentRoundIndex"; pb "parentRoundOrder";
    pb "parentRoundIndex"; pm "parentRoundOrder"; pm "parentRoundIndex"; o "parentRoundOrder";
    o "parentRoundIndex"; ob "parentRoundOrder"; ob "parentRoundIndex"; om "parentRoundOrder";
    om "parentRoundIndex"] in
  let worker := firstSafeText [opt_value (task_claimedBy task); opt_value (task_assignedWorkerId task);
    JStr (task_targetNodeId task); p "worker"; p "workerId"; p "assignedWorkerId"; p "targetNodeId"; pb "worker";
    pb "workerId"; pm "worker"; pm "workerId"; o "worker"; o "workerId"; ob "worker"; ob "workerId"; om "worker";
    om "workerId"] in
  let urls a b := firstSafeHttpUrl [o a; o b; g a; g b; p a; p b] in
  let summary := (task_result task ?> res_summary) ??o (task_result task ?> res_note)
                 ??o (err_message <$> task_error task) in
  {| tp_taskId := task_id task;
     tp_status := task_status task;
     tp_parentRoundId := run;
     tp_run := run;
     tp_traceId := firstSafeText [opt_value (task_via task ?> via_traceId); p "traceId"; o "traceId"];
     tp_worker := worker;
     tp_repo := truthy_opt (js_string (p "githubRepo"));
     tp_issue := finite_value (p "githubIssueNumber");
     tp_taskBrief := buildTaskBrief task output;
     tp_parentRoundProgress := parentRoundOrder;
     tp_parentRoundTotal := parentRoundTotal;
     tp_terminalBriefTitle := None;
     tp_title := None;
     tp_other :=
       [("createdAt", JStr (task_createdAt task)); ("updatedAt", JStr (task_updatedAt task))]
       ++ field "brokerOfRecordId" brokerOfRecordId
       ++ field "originBrokerId" originBrokerId
       ++ match parentRoundOrder with Some n => [("parentRoundOrder", JNum (NInt n))] | None => [] end
       ++ field "taskDescription" (buildTaskDescription task output)
       ++ field "prUrl" (urls "prUrl" "pullRequestUrl")
       ++ field "doneUrl" (urls "doneUrl" "doneCommentUrl")
       ++ field "blockUrl" (urls "blockUrl" "blockCommentUrl")
       ++ match buildCrossBrokerHandoff [p "crossBrokerHandoff"; o "crossBrokerHandoff"] with
          | Some h => [("crossBrokerHandoff", JObj h)] | None => [] end
       ++ field "testSummary" (sanitizeSummary (opt_value summary) ≫= fun s => truthy_opt (Some s))
       ++ field "completedAt" (truthy_opt (task_completedAt task)) |}.

(** The text of an acknowledgement or a receipt. *)
Definition sanitizeAckText (v : option string) (maxChars : Z) : option string :=
  str_slice (Z.to_nat maxChars) <$> (sanitizeSummary (opt_value v) ≫= fun s => truthy_opt (Some s)).

#[export] Instance broker_text `{JsUrl} : OutboxText := {|
  text_payload := buildTerminalTaskPayload;
  text_ack := fun v => sanitizeAckText v MAX_ACK_NOTE_CHARS |}.
