(* ===== verification/Tasks.v ===== *)
(** * Tasks: the lifecycle handlers (src/core/broker.ts)

    [createTask], the approval pair, [claimTask], [startTask], [completeTask],
    [failTask], [heartbeatTask], [reassignTask], [cancelTask] with its fan-out,
    the stale-task requeue, the wake plan and decision, and the read paths.  A
    handler's local [task] is the object of the tasks map; it is written back
    where the code calls [setTaskRecord]. *)

From Stdlib Require Import ZArith Lia String.
From stdpp Require Import base gmap strings list pretty.
From S2P Require Import Prelude JsRuntime Types Policy Retention BrokerCore Workers Proposals.
From S2P Require Import Github TerminalBrief.

(** ** Normalisation of what workers send *)

Definition normalizeTaskPayload (payload : option JsRecord) : JsRecord := payload ?? [].

Definition empty_result : TaskResult := mkTaskResult None None None None None None.

Definition normalizeTaskResult (result : option TaskResult) : TaskResult :=
  match result with
  | None => empty_result
  | Some r =>
      {| res_summary := res_summary r;
         res_note := res_note r;
         res_artifactIds := Some (js_unique (res_artifactIds r ?? []));
         res_output := res_output r;
         res_validation := (fun v => v <| tv_artifactIds ::= fun l => Some (js_unique (l ?? [])) |>)
                             <$> res_validation r;
         res_apply := (fun a => a <| ta_artifactIds ::= fun l => Some (js_unique (l ?? [])) |>)
                        <$> res_apply r |}
  end.

Definition normalizeTaskError (error : option TaskError) : TaskError :=
  match error with
  | None => mkTaskError None "task failed" None
  | Some e => e <| err_message ::= fun m => if str_truthy m then m else "task failed" |>
  end.

Definition normalizeWakeString (o : option string) : option string := o ≫= trimmed.
Definition normalizeApprovalId (o : option string) : option string := o ≫= trimmed.
Definition normalizeApprovalReason (o : option string) : option string := o ≫= trimmed.

Definition normalizeApprovalTerminalStatus (o : option string) : TaskApprovalOutcomeStatus :=
  if bool_decide (o = Some "expired") then ApprovalExpired
  else if bool_decide (o = Some "canceled") then ApprovalCanceled
  else ApprovalRejected.

Definition buildTaskWakeKey (t : TaskRecord) (r : TaskWakePlanRequest) : string :=
  match normalizeWakeString (wp_wakeKey r) with
  | Some explicit => explicit
  | None =>
      let stableCorrelation :=
        normalizeWakeString (wp_correlationId r) ??o readString (js_prop "correlationId" (task_payload t))
          ?? task_id t in
      let stableRun :=
        normalizeWakeString (wp_waitRunId r) ??o readString (js_prop "waitRunId" (task_payload t))
          ??o normalizeWakeString (wp_targetSessionKey r) ?? task_targetNodeId t in
      (stableCorrelation ++ ":" ++ stableRun)%string
  end.

(** For a decided wake; [WakePlanned] is not a decision. *)
Definition defaultWakeDecisionMessage (s : TaskWakeStatus) : string :=
  match s with
  | WakeSkipped => "Wake-on-Task skipped."
  | WakeFailed => "Wake-on-Task failed."
  | _ => "Wake-on-Task scheduled."
  end.

Definition wakeDecisionAuditAction (s : TaskWakeStatus) : AuditAction :=
  match s with
  | WakeSkipped => AuditTaskWakeSkipped
  | WakeFailed => AuditTaskWakeFailed
  | _ => AuditTaskWakeScheduled
  end.

Definition wakeDecisionUpdateReason (s : TaskWakeStatus) : TaskUpdateReason :=
  match s with
  | WakeSkipped => ReasonWakeSkipped
  | WakeFailed => ReasonWakeFailed
  | _ => ReasonWakeScheduled
  end.

(** ** Staleness *)

Section Staleness.
Context `{JsHost}.

Definition or_string (s : string) (o : option string) (d : string) : string :=
  if str_truthy s then s else (truthy_opt o ?? d).

Definition getTaskRequeueReason (t : TaskRecord) (olderThanMs : Z) (staleWorkerIds : list string)
    (nowMs : Z) : option string :=
  if negb (bool_decide (task_status t ∈ [TaskClaimed; TaskRunning])) then None
  else if ostr_truthy (task_completedAt t) then None
  else match truthy_opt (task_claimedBy t) with
       | Some w => if bool_decide (w ∈ staleWorkerIds) then Some ("worker " ++ w ++ " is stale")%string
                   else match date_parse (or_string (task_updatedAt t) (task_claimedAt t) (task_createdAt t)) with
                        | None => None
                        | Some last => if (olderThanMs <=? nowMs - last)%Z
                                       then Some ("task exceeded stale threshold " ++ pretty olderThanMs ++ "ms")%string
                                       else None
                        end
       | None => match date_parse (or_string (task_updatedAt t) (task_claimedAt t) (task_createdAt t)) with
                 | None => None
                 | Some last => if (olderThanMs <=? nowMs - last)%Z
                                then Some ("task exceeded stale threshold " ++ pretty olderThanMs ++ "ms")%string
                                else None
                 end
       end.
End Staleness.

Section Handlers.
Context `{JsHost} `{TaskEventSink} `{BrokerConfig}.

Definition lift_result {A} (r : result BrokerError A) : BM A :=
  match r with Ok a => m_ret a | Err e => m_throw e end.

(** ** createTask *)

Definition assertTerminalBriefMetadata (payload : option JsRecord) : BM unit :=
  match terminal_brief_rejection payload cfg_brokerId with
  | Some message => throw CodeBadRequest message
  | None => m_ret tt
  end.

Definition assertTaskPayload (r : CreateTaskRequest) : BM unit :=
  throw_if (negb (str_truthy (party_id (ct_requester r))) || negb (str_truthy (party_id (ct_target r))))
    CodeBadRequest "requester.id and target.id are required";;;
  throw_if (match ct_workspace r with
            | Some w => negb (String.eqb (ws_nodeId w) (party_id (ct_target r))) | None => false end)
    CodePolicyDenied "task workspace.nodeId must match the target worker node";;;
  throw_if (match truthy_opt (ct_assignedWorkerId r) with
            | Some w => negb (str_truthy (js_trim w)) | None => false end)
    CodeBadRequest "assignedWorkerId must not be empty";;;
  assertTerminalBriefMetadata (ct_payload r).

Definition assertTaskProposalLink (r : CreateTaskRequest) : BM unit :=
  match truthy_opt (ct_proposalId r) with
  | None => m_ret tt
  | Some id =>
      proposal <-- requireProposal id;
      throw_if (negb (String.eqb (party_id (ct_target r)) (pr_targetNodeId proposal)))
        CodePolicyDenied "task target must match the proposal target node";;;
      match ct_intent r with
      | IntentValidateChange =>
          assertTransition (pr_status proposal) [StatusSubmitted; StatusValidated] "queue validation task for"
      | IntentApplyLocalChange =>
          assertTransition (pr_status proposal) [StatusApproved] "queue apply task for";;;
          throw_if (negb (ostr_truthy (ws_workspaceId <$> ct_workspace r))
                    || negb (bool_decide ((ws_nodeId <$> ct_workspace r) = Some (pr_targetNodeId proposal))))
            CodeBadRequest "apply tasks require a target-owned workspace"
      | _ => m_ret tt
      end
  end.

Definition new_task (r : CreateTaskRequest) (id now : string) : TaskRecord :=
  let policyContext := normalizeTaskPolicyContext r in
  {| task_id := id;
     task_exchangeId := ct_exchangeId r;
     task_parentTaskId := ct_parentTaskId r;
     task_referenceTaskIds :=
       match ct_referenceTaskIds r with
       | Some (x :: l) => Some (js_unique (x :: l)) | _ => None end;
     task_intent := ct_intent r;
     task_requester := ct_requester r;
     task_target := ct_target r;
     task_workspace := ct_workspace r;
     task_message := ct_message r;
     task_proposalId := ct_proposalId r;
     task_artifactIds := js_unique (ct_artifactIds r ?? []);
     task_assignedWorkerId := Some (ct_assignedWorkerId r ?? party_id (ct_target r));
     task_via := ct_via r;
     task_policyContext := policyContext;
     task_createdAt := ct_createdAt r ?? now;
     task_status := if requires_approval policyContext then TaskBlocked else TaskQueued;
     task_targetNodeId := party_id (ct_target r);
     task_payload := normalizeTaskPayload (ct_payload r);
     task_updatedAt := now;
     task_claimedAt := None;
     task_completedAt := None;
     task_claimedBy := None;
     task_result := None;
     task_error := None;
     task_cancellation := None;
     task_approval := None;
     task_approvalOutcome := None;
     task_requeueCount := None;
     task_lastHeartbeatAt := None;
     task_attemptId := None;
     task_wake := None;
     task_taskOrigin := Some (ct_taskOrigin r ?? OriginUnknown);
     task_brokerOfRecord := truthy_opt (normalizeOwnershipString (ct_brokerOfRecord r) ??o cfg_brokerId);
     task_teamId := truthy_opt (normalizeOwnershipString (ct_teamId r) ??o cfg_teamId) |}.

(** The checks between the idempotency test and the construction. *)
Definition check_task_references (r : CreateTaskRequest) : BM unit :=
  match truthy_opt (ct_exchangeId r) with
  | Some e => requireExchange e;;; m_ret tt
  | None => m_ret tt
  end;;;
  requireWorker (party_id (ct_target r));;;
  match truthy_opt (ct_assignedWorkerId r) with
  | Some w => requireWorker w;;; m_ret tt
  | None => m_ret tt
  end;;;
  assertTaskProposalLink r.

Definition existing_task (r : CreateTaskRequest) : BM (option TaskRecord) :=
  match truthy_opt (ct_id r) with
  | Some id => getTask id
  | None => m_ret None
  end.

Definition insert_task (r : CreateTaskRequest) : BM TaskRecord :=
  now <-- isoNow;
  id <-- match ct_id r with Some id => m_ret id | None => randomUUID end;
  let task := new_task r id now in
  setTaskRecord task;;;
  m_when (ostr_truthy (task_exchangeId task)) (linkTaskToExchange task);;;
  let label := task_message task ?? A2AExchangeIntent_text (task_intent task) in
  audit_task (party_id (task_requester task)) AuditTaskCreated task
    (Some (if bool_decide (task_status task = TaskBlocked)
           then ("approval required: " ++ label)%string else label));;;
  persistState;;;
  emitTaskUpdate task ReasonCreated;;;
  m_ret task.

Definition createTask (request : CreateTaskRequest) : BM TaskRecord :=
  r <-- lift_result (normalizeGitHubPatchTaskRequest request);
  assertTaskPayload r;;;
  existing <-- existing_task r;
  match existing with
  | Some task => m_ret task
  | None => check_task_references r;;; insert_task r
  end.

(** ** Approval *)

Definition require_actor (a : option A2APartyRef) : BM unit :=
  throw_if (negb (str_truthy (actor_id a))) CodeBadRequest "actor.id is required".

Definition approveTask (taskId : string) (r : TaskApprovalRequest) : BM TaskRecord :=
  task <-- requireTask taskId;
  require_actor (ar_actor r);;;
  throw_if (negb (isPrivilegedTaskApprover (ar_actor r))) CodePolicyDenied
    "task approval requires a hub or operator actor";;;
  throw_if (negb (requires_approval (task_policyContext task))) CodeInvalidTransition
    "task does not require approval";;;
  match task_approval task with
  | Some _ => m_ret task
  | None =>
      throw_if (isTerminalTaskStatus (task_status task)) CodeInvalidTransition
        ("cannot approve task while status is " ++ TaskStatus_text (task_status task))%string;;;
      throw_if (negb (bool_decide (task_status task ∈ [TaskBlocked; TaskQueued]))) CodeInvalidTransition
        ("cannot approve task while status is " ++ TaskStatus_text (task_status task))%string;;;
      now <-- isoNow;
      approvalId <-- match normalizeApprovalId (ar_approvalId r) with
                     | Some id => m_ret id | None => randomUUID end;
      let reason := normalizeApprovalReason (ar_reason r) in
      let by_ := actor_id (ar_actor r) in
      let task := task
        <| task_approval := Some (mkTaskApprovalInfo approvalId now by_ (actor_role (ar_actor r))
                                    (party_role (task_requester task)) reason) |>
        <| task_approvalOutcome := Some (mkTaskApprovalOutcomeInfo ApprovalApproved approvalId now by_
                                    (actor_role (ar_actor r)) (party_role (task_requester task)) reason) |>
        <| task_status := TaskQueued |>
        <| task_updatedAt := now |> in
      setTaskRecord task;;;
      syncExchangeStateFromTask task ExchangeQueued;;;
      audit_task by_ AuditTaskApproved task (Some (reason ?? ("approvalId=" ++ approvalId)%string));;;
      persistState;;;
      emitTaskUpdate task ReasonApproved;;;
      m_ret task
  end.

(** ** Cancellation *)

Record CancelParams : Type := mkCancelParams {
  cn_actorId : string;
  cn_reason : option string;
  cn_sourceTaskId : option string;
}.

Definition canceled_task (task : TaskRecord) (p : CancelParams) (canceledAt : string) : TaskRecord := task
  <| task_status := TaskCanceled |>
  <| task_claimedBy := None |>
  <| task_claimedAt := None |>
  <| task_completedAt := Some canceledAt |>
  <| task_updatedAt := canceledAt |>
  <| task_result := None |>
  <| task_error := None |>
  <| task_cancellation := Some (mkTaskCancellationInfo canceledAt (cn_actorId p) (cn_reason p)
                                  (cn_sourceTaskId p)) |>.

Definition cancelTaskRecord (task : TaskRecord) (p : CancelParams) : BM TaskRecord :=
  canceledAt <-- isoNow;
  let task := canceled_task task p canceledAt in
  setTaskRecord task;;;
  syncExchangeStateFromTask task ExchangeQueued;;;
  audit_task (cn_actorId p) AuditTaskCanceled task (cn_reason p);;;
  persistState;;;
  emitTaskUpdate task ReasonCanceled;;;
  writeTombstone task TombstoneCanceled (Some (Some (cn_actorId p), cn_reason p));;;
  m_ret task.

Definition listChildTasks (parentTaskId : string) (b : Broker) : list TaskRecord :=
  js_sort (newest_first task_createdAt)
    (List.filter (fun t => bool_decide (task_parentTaskId t = Some parentTaskId)) (jm_values (br_tasks b))).

(** The fan-out.  The set of visited ids is threaded through; running out of
    fuel is an error value of its own, which [cancel_tree_run] of the file
    [Cancellation] excludes for the fuel the callers give. *)
Definition out_of_fuel : BrokerError := mkBrokerError CodeInvalidTransition "cancelTaskTree: out of fuel".

(** The loop over the children, [cancel] being the recursive call. *)
Fixpoint cancel_children (cancel : TaskRecord -> list string -> BM (TaskRecord * list string))
    (children : list TaskRecord) (visited : list string) : BM (list string) :=
  match children with
  | [] => m_ret visited
  | child :: children =>
      if isTerminalTaskStatus (task_status child) then cancel_children cancel children visited
      else
        r <-- cancel child visited;
        cancel_children cancel children r.2
  end.

Fixpoint cancelTaskTree (fuel : nat) (task : TaskRecord) (p : CancelParams) (visited : list string)
    : BM (TaskRecord * list string) :=
  match fuel with
  | 0 => m_throw out_of_fuel
  | S fuel =>
      if bool_decide (task_id task ∈ visited) then m_ret (task, visited)
      else
        let visited := task_id task :: visited in
        canceledTask <-- cancelTaskRecord task p;
        children <-- m_gets (listChildTasks (task_id task));
        visited <-- cancel_children (fun child =>
          cancelTaskTree fuel child (mkCancelParams (cn_actorId p) (cn_reason p) (Some (task_id task))))
          children visited;
        m_ret (canceledTask, visited)
  end.

(** Enough for every chain of distinct task ids. *)
Definition cancel_fuel (b : Broker) : nat := S (S (length (br_tasks b))).

Definition cancel_tree (task : TaskRecord) (p : CancelParams) : BM TaskRecord :=
  b <-- m_get;
  r <-- cancelTaskTree (cancel_fuel b) task p [];
  m_ret r.1.

Definition cancelTask (taskId : string) (actor : option A2APartyRef) (reason : option string) : BM TaskRecord :=
  task <-- requireTask taskId;
  require_actor actor;;;
  let actorId := actor_id actor in
  let requesterMatch := String.eqb actorId (party_id (task_requester task)) in
  let workerMatch :=
    bool_decide (task_claimedBy task = Some actorId)
    || bool_decide (task_assignedWorkerId task = Some actorId)
    || String.eqb actorId (task_targetNodeId task) in
  throw_if (negb (role_is (actor_role actor) RoleHub) && negb (role_is (actor_role actor) RoleOperator)
            && negb requesterMatch && negb workerMatch) CodePolicyDenied
    "task cancellation requires a hub, operator, requester, or assigned worker actor";;;
  if isTerminalTaskStatus (task_status task) then m_ret task
  else cancel_tree task (mkCancelParams actorId reason None).

Definition rejectTaskApproval (taskId : string) (r : TaskApprovalRequest) : BM TaskRecord :=
  task <-- requireTask taskId;
  require_actor (ar_actor r);;;
  throw_if (negb (isPrivilegedTaskApprover (ar_actor r))) CodePolicyDenied
    "task approval rejection requires a hub or operator actor";;;
  throw_if (negb (requires_approval (task_policyContext task))) CodeInvalidTransition
    "task does not require approval";;;
  throw_if (is_some (task_approval task)
            || bool_decide ((out_status <$> task_approvalOutcome task) = Some ApprovalApproved))
    CodeInvalidTransition "task approval is already approved";;;
  match task_approvalOutcome task with
  | Some _ => m_ret task
  | None =>
      throw_if (isTerminalTaskStatus (task_status task)) CodeInvalidTransition
        ("cannot reject approval while task status is " ++ TaskStatus_text (task_status task))%string;;;
      throw_if (negb (bool_decide (task_status task ∈ [TaskBlocked; TaskQueued]))) CodeInvalidTransition
        ("cannot reject approval while task status is " ++ TaskStatus_text (task_status task))%string;;;
      now <-- isoNow;
      let status := normalizeApprovalTerminalStatus (ar_status r) in
      let reason := normalizeApprovalReason (ar_reason r)
                      ?? ("approval " ++ TaskApprovalOutcomeStatus_text status)%string in
      approvalId <-- match normalizeApprovalId (ar_approvalId r) with
                     | Some id => m_ret id | None => randomUUID end;
      let by_ := actor_id (ar_actor r) in
      let task := task <| task_approvalOutcome := Some (mkTaskApprovalOutcomeInfo status approvalId now by_
                      (actor_role (ar_actor r)) (party_role (task_requester task)) (Some reason)) |> in
      canceled <-- cancel_tree task (mkCancelParams by_ (Some reason) None);
      audit_task by_ AuditTaskApprovalRejected task
        (Some (TaskApprovalOutcomeStatus_text status ++ ": " ++ reason)%string);;;
      persistState;;;
      m_ret canceled
  end.

(** ** Claim, start, heartbeat *)

(** The common tail: save, sync the exchange, audit, persist, notify. *)
Definition commit_task (task : TaskRecord) (exchangeStatus : A2AExchangeStatus) (actorId : string)
    (action : AuditAction) (note : option string) (reason : TaskUpdateReason) : BM TaskRecord :=
  setTaskRecord task;;;
  syncExchangeStateFromTask task exchangeStatus;;;
  audit_task actorId action task note;;;
  persistState;;;
  emitTaskUpdate task reason;;;
  m_ret task.

Definition claimTask (taskId workerId : string) : BM TaskRecord :=
  task <-- requireTask taskId;
  assertTaskWorker task workerId "claim";;;
  throw_if (requires_approval (task_policyContext task) && negb (is_some (task_approval task)))
    CodePolicyDenied "task requires operator or hub approval before claim";;;
  assertTaskStatus (task_status task) [TaskQueued] "claim";;;
  now <-- isoNow;
  attempt <-- randomUUID;
  let task := task
    <| task_status := TaskClaimed |>
    <| task_attemptId := Some attempt |>
    <| task_claimedBy := Some workerId |>
    <| task_claimedAt := Some now |>
    <| task_updatedAt := now |> in
  commit_task task ExchangeRunning workerId AuditTaskClaimed
    (Some (A2AExchangeIntent_text (task_intent task))) ReasonClaimed.

Definition startTask (taskId workerId : string) : BM TaskRecord :=
  task <-- requireTask taskId;
  assertTaskWorker task workerId "start";;;
  assertTaskStatus (task_status task) [TaskClaimed] "start";;;
  now <-- isoNow;
  let task := task <| task_status := TaskRunning |> <| task_updatedAt := now |> in
  commit_task task ExchangeRunning workerId AuditTaskStarted
    (Some (A2AExchangeIntent_text (task_intent task))) ReasonStarted.

(** [Date.parse(now)] of the instant just printed is that instant. *)
Definition heartbeatTask (taskId workerId : string) : BM TaskRecord :=
  task <-- requireTask taskId;
  assertTaskWorker task workerId "heartbeat";;;
  assertTaskStatus (task_status task) [TaskClaimed; TaskRunning] "heartbeat";;;
  nowMs <-- now_ms;
  let now := toISOString nowMs in
  let task := task <| task_lastHeartbeatAt := Some now |> <| task_updatedAt := now |> in
  setTaskRecord task;;;
  last <-- gets_map br_lastPersistedTaskHeartbeatAuditAtMs (task_id task);
  let interval := heartbeatAuditSampleIntervalMs cfg_retention in
  let shouldPersistHeartbeatAudit := (interval =? 0)%Z || (interval <=? nowMs - (last ?? 0))%Z in
  m_when shouldPersistHeartbeatAudit
    (audit_task workerId AuditTaskHeartbeat task (Some "task heartbeat");;;
     m_modify (fun b => b <| br_lastPersistedTaskHeartbeatAuditAtMs ::= jm_set (task_id task) nowMs |>));;;
  persistState;;;
  emitTaskUpdate task ReasonStarted;;;
  m_ret task.

(** ** Completion and failure *)

(** Any later value of a chain of optional strings. *)
Definition apply_actor (task : TaskRecord) (workerId : string) (note : option string) : ProposalActorRequest :=
  mkProposalActorRequest
    (Some (mkA2APartyRef workerId (party_kind (task_target task)) (party_role (task_target task)))) note.

Definition applyTaskCompletion (task : TaskRecord) (workerId : string) (result : TaskResult) : BM unit :=
  match truthy_opt (task_proposalId task) with
  | None => m_ret tt
  | Some proposalId =>
      match task_intent task with
      | IntentValidateChange =>
          match res_validation result with
          | None => throw CodeBadRequest "validate_change completion requires result.validation"
          | Some v =>
              submitValidationResult proposalId {|
                sv_nodeId := tv_nodeId v ?? workerId;
                sv_kind := tv_kind v;
                sv_verdict := tv_verdict v;
                sv_metrics := tv_metrics v;
                sv_artifactIds := Some (js_unique ((res_artifactIds result ?? []) ++ (tv_artifactIds v ?? [])));
                sv_note := tv_note v ??o res_note result ??o res_summary result |};;;
              m_ret tt
          end
      | IntentApplyLocalChange =>
          match res_apply result ?> ta_workspace ??o task_workspace task with
          | None => throw CodeBadRequest "apply_local_change completion requires a workspace"
          | Some workspace =>
              proposal <-- applyProposalLocally proposalId
                (apply_actor task workerId (res_apply result ?> ta_note ??o res_note result ??o res_summary result))
                workspace;
              let artifactIds := js_unique ((res_artifactIds result ?? [])
                                   ++ (res_apply result ?> ta_artifactIds ?? [])) in
              match artifactIds with
              | [] => m_ret tt
              | _ =>
                  now <-- isoNow;
                  setProposalRecord (proposal
                    <| pr_artifactIds ::= fun l => js_unique (l ++ artifactIds) |>
                    <| pr_updatedAt := now |>)
              end
          end
      | _ => m_ret tt
      end
  end.

Definition evidence_error_code (e : TaskError) : BrokerErrorCode :=
  if bool_decide (err_code e = Some "github_completion_receipt_invalid")
  then CodeGithubCompletionReceiptInvalid else CodeGithubCompletionEvidenceMissing.

Definition completed_task (task : TaskRecord) (workerId now : string) (r : TaskResult) : TaskRecord := task
  <| task_status := TaskSucceeded |>
  <| task_claimedBy := Some workerId |>
  <| task_updatedAt := now |>
  <| task_completedAt := Some now |>
  <| task_result := Some r |>
  <| task_error := None |>
  <| task_artifactIds ::= fun l => js_unique (l ++ (res_artifactIds r ?? [])
       ++ (res_validation r ?> tv_artifactIds ?? []) ++ (res_apply r ?> ta_artifactIds ?? [])) |>.

Definition completeTask (taskId workerId : string) (result : option TaskResult) : BM TaskRecord :=
  task <-- requireTask taskId;
  assertTaskWorker task workerId "complete";;;
  if isTerminalTaskStatus (task_status task) then m_ret task
  else
    throw_if (negb (bool_decide (task_status task ∈ [TaskClaimed; TaskRunning]))) CodeInvalidTransition
      ("cannot complete task while status is " ++ TaskStatus_text (task_status task))%string;;;
    let normalizedResult := normalizeTaskResult result in
    match validateGithubTaskCompletionEvidence task normalizedResult with
    | Some e => throw (evidence_error_code e) (err_message e)
    | None => m_ret tt
    end;;;
    applyTaskCompletion task workerId normalizedResult;;;
    now <-- isoNow;
    let task := completed_task task workerId now normalizedResult in
    commit_task task ExchangeCompleted workerId AuditTaskSucceeded
      (Some (res_note normalizedResult ??o res_summary normalizedResult
               ?? A2AExchangeIntent_text (task_intent task))) ReasonSucceeded.

Definition failed_task (task : TaskRecord) (workerId now : string) (e : TaskError) : TaskRecord := task
  <| task_status := TaskFailed |>
  <| task_claimedBy := Some workerId |>
  <| task_updatedAt := now |>
  <| task_completedAt := Some now |>
  <| task_error := Some e |>.

Definition failTask (taskId workerId : string) (error : option TaskError) : BM TaskRecord :=
  task <-- requireTask taskId;
  assertTaskWorker task workerId "fail";;;
  if isTerminalTaskStatus (task_status task) then m_ret task
  else
    throw_if (negb (bool_decide (task_status task ∈ [TaskClaimed; TaskRunning]))) CodeInvalidTransition
      ("cannot fail task while status is " ++ TaskStatus_text (task_status task))%string;;;
    now <-- isoNow;
    let normalizedError := normalizeTaskError error in
    let task := failed_task task workerId now normalizedError in
    task <-- commit_task task ExchangeFailed workerId AuditTaskFailed
      (Some (err_message normalizedError)) ReasonFailed;
    writeTombstone task TombstoneFailed None;;;
    m_ret task.

(** ** Reassignment *)

Definition reassigned_task (task : TaskRecord) (target assigned : WorkerRecord) (nextTargetNodeId now : string)
    : TaskRecord := task
  <| task_targetNodeId := nextTargetNodeId |>
  <| task_target := mkA2APartyRef (wr_nodeId target) (Some KindNode) (Some (wr_role target)) |>
  <| task_assignedWorkerId := Some (wr_nodeId assigned) |>
  <| task_status := if requires_approval (task_policyContext task) && negb (is_some (task_approval task))
                    then TaskBlocked else TaskQueued |>
  <| task_claimedBy := None |>
  <| task_claimedAt := None |>
  <| task_completedAt := None |>
  <| task_result := None |>
  <| task_error := None |>
  <| task_requeueCount := Some 0%Z |>
  <| task_attemptId := None |>
  <| task_updatedAt := now |>.

Definition reassignTask (taskId : string) (r : TaskReassignRequest) : BM TaskRecord :=
  task <-- requireTask taskId;
  require_actor (rr_actor r);;;
  throw_if (negb (role_is (actor_role (rr_actor r)) RoleHub)
            && negb (role_is (actor_role (rr_actor r)) RoleOperator)) CodePolicyDenied
    "task reassignment requires a hub or operator actor";;;
  throw_if (isTerminalTaskStatus (task_status task)) CodeInvalidTransition
    ("cannot reassign task while status is " ++ TaskStatus_text (task_status task))%string;;;
  let previousTargetNodeId := task_targetNodeId task in
  let previousAssignedWorkerId := task_assignedWorkerId task ?? task_targetNodeId task in
  let nextTargetNodeId := rr_targetNodeId r ?? task_targetNodeId task in
  let nextAssignedWorkerId :=
    rr_assignedWorkerId r ??o rr_targetNodeId r ??o task_assignedWorkerId task ?? nextTargetNodeId in
  targetWorker <-- requireWorker nextTargetNodeId;
  assignedWorker <-- requireWorker nextAssignedWorkerId;
  now <-- isoNow;
  let task := reassigned_task task targetWorker assignedWorker nextTargetNodeId now in
  commit_task task ExchangeQueued (actor_id (rr_actor r)) AuditTaskReassigned
    (Some (rr_note r ??
       ("reassigned targetNodeId " ++ previousTargetNodeId ++ " -> " ++ task_targetNodeId task
        ++ ", assignedWorkerId " ++ previousAssignedWorkerId ++ " -> "
        ++ (task_assignedWorkerId task ?? "undefined"))%string)) ReasonReassigned.

Definition updateTaskPayload (taskId : string) (payload : JsRecord) (actor : option A2APartyRef)
    (note : option string) : BM TaskRecord :=
  task <-- requireTask taskId;
  require_actor actor;;;
  now <-- isoNow;
  let task := task <| task_payload := normalizeTaskPayload (Some payload) |> <| task_updatedAt := now |> in
  setTaskRecord task;;;
  audit_task (actor_id actor) AuditTaskUpdated task (Some (note ?? "task payload updated"));;;
  persistState;;;
  emitTaskUpdate task ReasonUpdated;;;
  m_ret task.

(** ** The stale-task reaper *)

Record RequeueOutcome : Type := mkRequeueOutcome {
  ro_requeued : list TaskRecord;
  ro_deadLettered : list TaskRecord;
}.
#[export] Instance eta_RequeueOutcome : Eta RequeueOutcome := fun r =>
  mkRequeueOutcome (ro_requeued r) (ro_deadLettered r).

Definition plural (n : Z) : string := if (n =? 1)%Z then "" else "s".

Definition dead_lettered_task (task : TaskRecord) (nowIso requeueReason : string) : TaskRecord :=
  let n := task_requeueCount task ?? 0%Z in
  task
  <| task_status := TaskFailed |>
  <| task_updatedAt := nowIso |>
  <| task_completedAt := Some nowIso |>
  <| task_error := Some (mkTaskError (Some REQUEUE_EXHAUSTED_ERROR_CODE)
       ("dead-lettered after " ++ pretty n ++ " automatic requeue" ++ plural n ++ ": " ++ requeueReason)%string
       (Some [("requeueCount", JNum (NInt n));
              ("maxRequeueAttempts", JNum (NInt cfg_maxRequeueAttempts));
              ("previousStatus", JStr (TaskStatus_text (task_status task)));
              ("lastRequeueReason", JStr requeueReason)])) |>.

Definition requeued_task (task : TaskRecord) (nowIso : string) : TaskRecord := task
  <| task_status := TaskQueued |>
  <| task_claimedBy := None |>
  <| task_claimedAt := None |>
  <| task_completedAt := None |>
  <| task_attemptId := None |>
  <| task_updatedAt := nowIso |>
  <| task_requeueCount ::= fun n => Some ((n ?? 0) + 1)%Z |>.

(** One iteration of the loop over the tasks. *)
Definition requeue_one (thresholdMs nowMs : Z) (staleWorkerIds : list string) (task : TaskRecord)
    (out : RequeueOutcome) : BM RequeueOutcome :=
  let nowIso := toISOString nowMs in
  match getTaskRequeueReason task thresholdMs staleWorkerIds nowMs with
  | None => m_ret out
  | Some requeueReason =>
      let currentRequeues := task_requeueCount task ?? 0%Z in
      if (0 <? cfg_maxRequeueAttempts)%Z && (cfg_maxRequeueAttempts <=? currentRequeues)%Z then
        let task := dead_lettered_task task nowIso requeueReason in
        setTaskRecord task;;;
        syncExchangeStateFromTask task ExchangeFailed;;;
        audit_task "broker" AuditTaskFailed task (err_message <$> task_error task);;;
        writeTombstone task TombstoneDeadLettered None;;;
        m_ret (out <| ro_deadLettered ::= fun l => l ++ [task] |>)
      else
        let previousStatus := task_status task in
        let task := requeued_task task nowIso in
        setTaskRecord task;;;
        syncExchangeStateFromTask task ExchangeQueued;;;
        audit_task "broker" AuditTaskRequeued task
          (Some ("requeued " ++ TaskStatus_text previousStatus ++ " task without reassignment (attempt "
                 ++ pretty (task_requeueCount task ?? 0%Z) ++ "): " ++ requeueReason)%string);;;
        m_ret (out <| ro_requeued ::= fun l => l ++ [task] |>)
  end.

Fixpoint requeue_loop (thresholdMs nowMs : Z) (staleWorkerIds : list string) (tasks : list TaskRecord)
    (out : RequeueOutcome) : BM RequeueOutcome :=
  match tasks with
  | [] => m_ret out
  | task :: tasks =>
      out <-- requeue_one thresholdMs nowMs staleWorkerIds task out;
      requeue_loop thresholdMs nowMs staleWorkerIds tasks out
  end.

Definition requeueStaleTasksDetailed (olderThanMs : Z) (nowMs workerOfflineAfterMs : option Z)
    : BM RequeueOutcome :=
  let thresholdMs := Z.max 0 olderThanMs in
  nowMs <-- match nowMs with Some t => m_ret t | None => now_ms end;
  b <-- m_get;
  let staleWorkerIds := match workerOfflineAfterMs with
                        | Some w => if negb (w =? 0)%Z && (0 <=? w)%Z then listStaleWorkerIds w nowMs b else []
                        | None => [] end in
  out <-- requeue_loop thresholdMs nowMs staleWorkerIds (jm_values (br_tasks b)) (mkRequeueOutcome [] []);
  m_when (negb (length (ro_requeued out) =? 0) || negb (length (ro_deadLettered out) =? 0)) persistState;;;
  m_for (ro_deadLettered out) (fun t => emitTaskUpdate t ReasonDeadLettered);;;
  m_for (ro_requeued out) (fun t => emitTaskUpdate t ReasonRequeued);;;
  m_ret out.

Definition requeueStaleTasks (olderThanMs : Z) (nowMs workerOfflineAfterMs : option Z) : BM (list TaskRecord) :=
  out <-- requeueStaleTasksDetailed olderThanMs nowMs workerOfflineAfterMs;
  m_ret (ro_requeued out).

(** ** Wake-on-Task *)

Record TaskWakePlanResult : Type := mkTaskWakePlanResult {
  wpr_task : TaskRecord;
  wpr_wake : TaskWakeState;
  wpr_shouldDispatch : bool;
  wpr_replayed : bool;
}.

Definition planned_wake (r : TaskWakePlanRequest) (wakeKey idempotencyKey now : string) : TaskWakeState :=
  {| wk_status := WakePlanned;
     wk_wakeKey := wakeKey;
     wk_idempotencyKey := idempotencyKey;
     wk_targetSessionKey := js_trim (wp_targetSessionKey r ?? "");
     wk_targetNodeId := normalizeWakeString (wp_targetNodeId r);
     wk_waitRunId := normalizeWakeString (wp_waitRunId r);
     wk_correlationId := normalizeWakeString (wp_correlationId r);
     wk_parentRunId := normalizeWakeString (wp_parentRunId r);
     wk_coalesced := None;
     wk_runtimeRunId := None;
     wk_code := None;
     wk_message := normalizeWakeString (wp_message r);
     wk_plannedAt := now;
     wk_updatedAt := now;
     wk_decidedAt := None;
     wk_replayCount := Some 0%Z |}.

Definition replay_wake (task : TaskRecord) (existing : TaskWakeState) : BM TaskWakePlanResult :=
  now <-- isoNow;
  let wake := existing
    <| wk_replayCount ::= fun n => Some ((n ?? 0) + 1)%Z |>
    <| wk_updatedAt := now |> in
  let task := task <| task_wake := Some wake |> in
  setTaskRecord task;;;
  persistState;;;
  m_ret (mkTaskWakePlanResult task wake (bool_decide (wk_status existing = WakePlanned)) true).

Definition planAcceptedTaskWake (taskId : string) (r : TaskWakePlanRequest) : BM TaskWakePlanResult :=
  task <-- requireTask taskId;
  throw_if (negb (ostr_truthy (js_trim <$> wp_targetSessionKey r))) CodeBadRequest
    "targetSessionKey is required";;;
  throw_if (isTerminalTaskStatus (task_status task)) CodeInvalidTransition
    ("cannot plan wake for terminal task " ++ TaskStatus_text (task_status task))%string;;;
  let wakeKey := buildTaskWakeKey task r in
  let idempotencyKey := normalizeWakeString (wp_idempotencyKey r) ?? ("a2a-wake:" ++ wakeKey)%string in
  match task_wake task with
  | Some existing =>
      throw_if (negb (String.eqb (wk_wakeKey existing) wakeKey)) CodeInvalidTransition
        "task wake already planned with a different wake key";;;
      replay_wake task existing
  | None =>
      now <-- isoNow;
      let wake := planned_wake r wakeKey idempotencyKey now in
      let task := task <| task_wake := Some wake |> <| task_updatedAt := now |> in
      setTaskRecord task;;;
      audit_task (party_id (task_requester task)) AuditTaskWakePlanned task
        (Some (wk_message wake ?? wk_wakeKey wake));;;
      persistState;;;
      emitTaskUpdate task ReasonWakePlanned;;;
      m_ret (mkTaskWakePlanResult task wake true false)
  end.

Definition decided_wake (existing : TaskWakeState) (r : TaskWakeDecisionRequest) (message now : string)
    : TaskWakeState := existing
  <| wk_status := wd_status r |>
  <| wk_coalesced ::= fun o => wd_coalesced r ??o o |>
  <| wk_runtimeRunId ::= fun o => normalizeWakeString (wd_runtimeRunId r) ??o o |>
  <| wk_code ::= fun o => normalizeWakeString (wd_code r) ??o o |>
  <| wk_message := Some message |>
  <| wk_decidedAt := Some now |>
  <| wk_updatedAt := now |>.

Definition recordTaskWakeDecision (taskId : string) (r : TaskWakeDecisionRequest) : BM TaskRecord :=
  task <-- requireTask taskId;
  match task_wake task with
  | None => throw CodeInvalidTransition "task wake has not been planned"
  | Some existing =>
      if negb (bool_decide (wk_status existing = WakePlanned)) then
        if bool_decide (wk_status existing = wd_status r) then m_ret task
        else throw CodeInvalidTransition
               ("task wake already decided as " ++ TaskWakeStatus_text (wk_status existing))%string
      else
        now <-- isoNow;
        let message := normalizeWakeString (wd_message r) ?? defaultWakeDecisionMessage (wd_status r) in
        let task := task
          <| task_wake := Some (decided_wake existing r message now) |>
          <| task_updatedAt := now |> in
        setTaskRecord task;;;
        audit_task "broker" (wakeDecisionAuditAction (wd_status r)) task
          (Some (TaskWakeStatus_text (wd_status r) ++ ": " ++ message)%string);;;
        persistState;;;
        emitTaskUpdate task (wakeDecisionUpdateReason (wd_status r));;;
        m_ret task
  end.

(** ** Read paths *)

(** [filters?.x && x !== filters.x] for a string filter. *)
Definition str_filter (f : option string) (v : option string) : bool :=
  match truthy_opt f with Some s => bool_decide (v = Some s) | None => true end.

Definition taskMatchesFilters (t : TaskRecord) (f : option TaskListFilters) : bool :=
  str_filter (f ?> tf_exchangeId) (task_exchangeId t)
  && match f ?> tf_status with Some s => bool_decide (task_status t = s) | None => true end
  && str_filter (f ?> tf_targetNodeId) (Some (task_targetNodeId t))
  && str_filter (f ?> tf_proposalId) (task_proposalId t)
  && match f ?> tf_intent with Some i => bool_decide (task_intent t = i) | None => true end
  && str_filter (f ?> tf_claimedBy) (task_claimedBy t)
  && str_filter (f ?> tf_assignedWorkerId) (task_assignedWorkerId t)
  && match f ?> tf_taskOrigin with
     | Some o => bool_decide ((task_taskOrigin t ?? OriginUnknown) = o) | None => true end.

Definition applyTaskListLimit (tasks : list TaskRecord) (limit : option Z) : list TaskRecord :=
  match limit with
  | Some n => if (0 <=? n)%Z then take (Z.to_nat n) tasks else tasks
  | None => tasks
  end.

Definition listTasks (f : option TaskListFilters) (b : Broker) : list TaskRecord :=
  applyTaskListLimit
    (js_sort (newest_first task_createdAt)
      (List.filter (fun t => taskMatchesFilters t f) (jm_values (br_tasks b)))) (f ?> tf_limit).

Definition task_last_signal (t : TaskRecord) : option Z :=
  match truthy_opt (task_lastHeartbeatAt t), truthy_opt (task_claimedAt t) with
  | Some h, _ => date_parse h
  | None, Some c => date_parse c
  | None, None => date_parse (task_createdAt t)
  end.

Definition listStaleTasks (staleAfterMs nowMs : Z) (b : Broker) : list TaskRecord :=
  List.filter (fun t =>
    bool_decide (task_status t ∈ [TaskClaimed; TaskRunning])
    && match task_last_signal t with Some s => (s <? nowMs - staleAfterMs)%Z | None => false end)
    (jm_values (br_tasks b)).
End Handlers.
