(* ===== verification/TaskMachine.v ===== *)
(** * The task state machine

    [task_move] is the abstract machine of one task: every way a handler changes
    the record stored under an id, with the guard of the code, and [task_inv] is
    what holds of every record the machine reaches.  The file [TaskFacts] proves
    that every handler moves tasks along this machine only. *)

From Stdlib Require Import ZArith Lia String.
From stdpp Require Import base gmap strings list pretty relations.
From S2P Require Import Prelude JsRuntime Types Policy Retention BrokerCore CoreFacts Workers Proposals Github.
From S2P Require Import TerminalBrief Tasks.

Definition terminal (t : TaskRecord) : Prop := isTerminalTaskStatus (task_status t) = true.
Definition active (t : TaskRecord) : Prop := isTerminalTaskStatus (task_status t) = false.
Definition in_progress (t : TaskRecord) : Prop := task_status t ∈ [TaskClaimed; TaskRunning].
Definition gated (t : TaskRecord) : Prop := requires_approval (task_policyContext t) = true.

Section Machine.
Context `{BrokerConfig}.

(** The wake of a task: planned once, replayed any number of times, decided once. *)
Inductive wake_step : option TaskWakeState -> TaskWakeState -> Prop :=
| WakePlan w :
    wk_status w = WakePlanned -> wake_step None w
| WakeReplay w n now :
    wake_step (Some w) (w <| wk_replayCount := n |> <| wk_updatedAt := now |>)
| WakeDecide w r message now :
    wk_status w = WakePlanned -> wake_step (Some w) (decided_wake w r message now).

(** [may_create] tells whether the id may be given to a new task. *)
Inductive task_move (may_create : Prop) : option TaskRecord -> option TaskRecord -> Prop :=
| MoveCreate r id now :
    may_create -> task_move may_create None (Some (new_task r id now))
| MovePrune t :
    terminal t -> task_move may_create (Some t) None
| MoveApprove t info outcome now :
    gated t -> task_approval t = None -> task_status t ∈ [TaskBlocked; TaskQueued] ->
    out_status outcome = ApprovalApproved -> out_approvalId outcome = apr_approvalId info ->
    task_move may_create (Some t) (Some (t
      <| task_approval := Some info |> <| task_approvalOutcome := Some outcome |>
      <| task_status := TaskQueued |> <| task_updatedAt := now |>))
| MoveCancel t outcome p now :
    active t ->
    outcome = task_approvalOutcome t \/ task_approval t = None ->
    task_move may_create (Some t) (Some (canceled_task (t <| task_approvalOutcome := outcome |>) p now))
| MoveClaim t worker attempt now :
    task_status t = TaskQueued -> (gated t -> is_Some (task_approval t)) ->
    worker = (task_assignedWorkerId t ?? task_targetNodeId t) ->
    task_move may_create (Some t) (Some (t
      <| task_status := TaskClaimed |> <| task_attemptId := Some attempt |>
      <| task_claimedBy := Some worker |> <| task_claimedAt := Some now |>
      <| task_updatedAt := now |>))
| MoveStart t now :
    task_status t = TaskClaimed ->
    task_move may_create (Some t) (Some (t <| task_status := TaskRunning |> <| task_updatedAt := now |>))
| MoveHeartbeat t now :
    in_progress t ->
    task_move may_create (Some t) (Some (t <| task_lastHeartbeatAt := Some now |> <| task_updatedAt := now |>))
| MoveComplete t worker now r :
    in_progress t -> validateGithubTaskCompletionEvidence t r = None ->
    task_move may_create (Some t) (Some (completed_task t worker now r))
| MoveFail t worker now e :
    in_progress t -> task_move may_create (Some t) (Some (failed_task t worker now e))
| MoveDeadLetter t now reason :
    in_progress t -> (0 < cfg_maxRequeueAttempts <= task_requeueCount t ?? 0)%Z ->
    task_move may_create (Some t) (Some (dead_lettered_task t now reason))
| MoveRequeue t now :
    in_progress t -> ~ (0 < cfg_maxRequeueAttempts <= task_requeueCount t ?? 0)%Z ->
    task_move may_create (Some t) (Some (requeued_task t now))
| MoveReassign t target assigned next now :
    active t -> task_move may_create (Some t) (Some (reassigned_task t target assigned next now))
| MovePayload t payload now :
    task_move may_create (Some t) (Some (t <| task_payload := payload |> <| task_updatedAt := now |>))
| MoveWake t wake now :
    wake_step (task_wake t) wake ->
    task_move may_create (Some t) (Some (t <| task_wake := Some wake |> <| task_updatedAt := now |>)).

(** ** What holds of every task the machine reaches *)

Record task_inv (t : TaskRecord) : Prop := {
  inv_gate : gated t ->
    is_Some (task_approval t) \/ task_status t = TaskBlocked \/ task_status t = TaskCanceled;
  inv_blocked : task_status t = TaskBlocked -> gated t /\ task_approval t = None;
  inv_progress : in_progress t ->
    is_Some (task_claimedBy t) /\ is_Some (task_claimedAt t) /\ is_Some (task_attemptId t);
  inv_waiting : task_status t ∈ [TaskBlocked; TaskQueued] ->
    task_claimedBy t = None /\ task_claimedAt t = None /\ task_attemptId t = None;
  inv_completed : is_Some (task_completedAt t) <-> terminal t;
  inv_result : is_Some (task_result t) <-> task_status t = TaskSucceeded;
  inv_error : is_Some (task_error t) <-> task_status t = TaskFailed;
  inv_cancellation : is_Some (task_cancellation t) <-> task_status t = TaskCanceled;
  inv_requeues : (0 <= task_requeueCount t ?? 0)%Z /\
    ((0 < cfg_maxRequeueAttempts)%Z -> (task_requeueCount t ?? 0 <= cfg_maxRequeueAttempts)%Z);
  inv_outcome info : task_approval t = Some info ->
    exists o, task_approvalOutcome t = Some o /\ out_status o = ApprovalApproved
              /\ out_approvalId o = apr_approvalId info;
}.

Lemma task_inv_new r id now : task_inv (new_task r id now).
Proof.
  assert (task_status (new_task r id now)
          = if requires_approval (normalizeTaskPolicyContext r) then TaskBlocked else TaskQueued)
    as Hst by done.
  split; unfold gated, terminal, in_progress; rewrite ?Hst; simpl.
  - intros ->. auto.
  - destruct (requires_approval _) eqn:?; done.
  - destruct (requires_approval _); rewrite !elem_of_cons, elem_of_nil; naive_solver.
  - done.
  - destruct (requires_approval _); split; intros Hs; by inversion Hs.
  - destruct (requires_approval _); split; intros Hs; by inversion Hs.
  - destruct (requires_approval _); split; intros Hs; by inversion Hs.
  - destruct (requires_approval _); split; intros Hs; by inversion Hs.
  - lia.
  - done.
Qed.

Lemma is_Some_None_iff {A} : is_Some (None : option A) <-> False.
Proof. split; [by intros []|done]. Qed.
Lemma is_Some_Some_iff {A} (a : A) : is_Some (Some a) <-> True.
Proof. split; eauto. Qed.

(** Case analysis on the status of the task before the move. *)
Ltac move_cases t :=
  unfold terminal, active, in_progress, gated, canceled_task, completed_task, failed_task,
    dead_lettered_task, requeued_task, reassigned_task in *; update_simpl;
  rewrite ?elem_of_cons, ?elem_of_nil, ?is_Some_None_iff, ?is_Some_Some_iff in *;
  try match goal with
  | |- context [negb (is_some (task_approval t))] =>
      destruct (requires_approval (task_policyContext t)), (task_approval t)
  end;
  destruct (task_status t); cbn in *; rewrite ?is_Some_None_iff, ?is_Some_Some_iff in *;
  try solve [intuition congruence | intuition lia | naive_solver].

Lemma task_inv_move c t t' : task_inv t -> task_move c (Some t) (Some t') -> task_inv t'.
Proof.
  intros [Hg Hb Hp Hw Hc Hr He Hx Hq Ho] Hm. inversion Hm; subst; clear Hm; split.
  all: lazymatch goal with
  | |- is_Some (task_completedAt _) <-> _ => clear Hg Hb Hp Hw Hr He Hx Hq Ho
  | |- is_Some (task_result _) <-> _ => clear Hg Hb Hp Hw Hc He Hx Hq Ho
  | |- is_Some (task_error _) <-> _ => clear Hg Hb Hp Hw Hc Hr Hx Hq Ho
  | |- is_Some (task_cancellation _) <-> _ => clear Hg Hb Hp Hw Hc Hr He Hq Ho
  | |- in_progress _ -> _ => clear Hg Hb Hw Hc Hr He Hx Hq Ho
  | |- _ ∈ _ -> _ => clear Hg Hb Hp Hc Hr He Hx Hq Ho
  | |- (_ <= _)%Z /\ _ => clear Hg Hb Hw Hp Hc Hr He Hx Ho
  | |- forall _, _ = Some _ -> _ => clear Hg Hw Hp Hb Hc Hr He Hx Hq
  | |- _ => clear Hp Hw Hc Hr He Hx Hq Ho
  end.
  all: move_cases t.
Qed.
(** Every record a sequence of moves leaves satisfies the invariant. *)
Definition opt_inv (o : option TaskRecord) : Prop := forall t, o = Some t -> task_inv t.

Lemma opt_inv_move c o o' : opt_inv o -> task_move c o o' -> opt_inv o'.
Proof.
  intros Ho Hm t ->. destruct o as [t0|].
  - eapply task_inv_move; [by apply Ho|done].
  - inversion Hm; subst. apply task_inv_new.
Qed.

Lemma opt_inv_moves c o o' : rtc (task_move c) o o' -> opt_inv o -> opt_inv o'.
Proof. induction 1; eauto using opt_inv_move. Qed.

(** ** A task that ended stays as it ended *)

(** The fields that no move of a terminal task touches. *)
Definition same_outcome (t t' : TaskRecord) : Prop :=
  task_id t' = task_id t /\ task_status t' = task_status t /\ task_result t' = task_result t
  /\ task_error t' = task_error t /\ task_completedAt t' = task_completedAt t
  /\ task_claimedBy t' = task_claimedBy t /\ task_cancellation t' = task_cancellation t
  /\ task_approval t' = task_approval t.

Lemma terminal_move c t t' : terminal t -> task_move c (Some t) (Some t') -> same_outcome t t'.
Proof.
  unfold terminal, same_outcome. intros Ht Hm. inversion Hm; subst; clear Hm; update_simpl.
  all: unfold active, in_progress in *; rewrite ?elem_of_cons, ?elem_of_nil in *.
  all: destruct (task_status t); simpl in *; naive_solver.
Qed.

#[local] Instance same_outcome_trans : Transitive same_outcome.
Proof. unfold same_outcome. intros t1 t2 t3. naive_solver congruence. Qed.

Lemma same_outcome_terminal t t' : same_outcome t t' -> terminal t -> terminal t'.
Proof. unfold terminal. intros (_ & -> & _). done. Qed.

(** Where no task is created, the record of a task that ended either is dropped
    by retention or keeps its outcome. *)
Lemma terminal_moves o o' t :
  rtc (task_move False) o o' -> o = Some t -> terminal t ->
  o' = None \/ exists t', o' = Some t' /\ same_outcome t t'.
Proof.
  intros Hrtc. revert t. induction Hrtc as [o|o1 o2 o3 Hm Hrtc IH]; intros t -> Ht.
  - right. exists t. done.
  - destruct o2 as [t2|].
    + assert (same_outcome t t2) as Hs by (by eapply terminal_move).
      destruct (IH t2 eq_refl (same_outcome_terminal _ _ Hs Ht)) as [->|(t' & -> & ?)]; [by left|].
      right. exists t'. split; [done|]. by transitivity t2.
    + left. inversion Hrtc as [|? ? ? Hm']; subst; [done|]. by inversion Hm'.
Qed.

Lemma move_weaken (c c' : Prop) o o' : (c -> c') -> task_move c o o' -> task_move c' o o'.
Proof.
  intros Hc Hm. destruct Hm.
  - apply MoveCreate. auto.
  - by apply MovePrune.
  - by apply MoveApprove.
  - by apply MoveCancel.
  - by apply MoveClaim.
  - by apply MoveStart.
  - by apply MoveHeartbeat.
  - by apply MoveComplete.
  - by apply MoveFail.
  - by apply MoveDeadLetter.
  - by apply MoveRequeue.
  - by apply MoveReassign.
  - by apply MovePayload.
  - by apply MoveWake.
Qed.

(** Where an id may not be given away, no move creates. *)
Lemma moves_no_create (c : Prop) o o' :
  ~ c -> rtc (task_move c) o o' -> rtc (task_move False) o o'.
Proof.
  intros Hc. induction 1 as [|o1 o2 o3 Hm _ IH]; [reflexivity|].
  eapply rtc_l; [|exact IH]. by eapply move_weaken.
Qed.
End Machine.

(** ** What the moves of a task never change

    The task machine of [TaskMachine] keeps the identity of a task, an approval
    once given, and a wake once planned; the facts are carried along any number
    of moves. *)

Section History.
Context `{BrokerConfig}.

(** A relation every move respects holds from end to end, unless retention
    dropped the record. *)
Lemma moves_carry (R : TaskRecord -> TaskRecord -> Prop) `{!Reflexive R} `{!Transitive R} t o' :
  (forall t t', task_move False (Some t) (Some t') -> R t t') ->
  rtc (task_move False) (Some t) o' -> o' = None \/ exists t', o' = Some t' /\ R t t'.
Proof.
  intros HR Hrtc. remember (Some t) as o eqn:Ho. revert t Ho.
  induction Hrtc as [o|o1 o2 o3 Hm Hrtc IH]; intros t ->; [right; exists t; by split|].
  destruct o2 as [t2|].
  - destruct (IH t2 eq_refl) as [->|(t' & -> & Ht')]; [by left|].
    right. exists t'. split; [done|]. transitivity t2; [by apply HR|done].
  - left. inversion Hrtc as [|? ? ? Hm']; subst; [done|]. by inversion Hm'.
Qed.

(** The fields of a task no request changes; an approval stays once it is given. *)
Record same_identity (t t' : TaskRecord) : Prop := {
  si_id : task_id t' = task_id t;
  si_intent : task_intent t' = task_intent t;
  si_requester : task_requester t' = task_requester t;
  si_parent : task_parentTaskId t' = task_parentTaskId t;
  si_exchange : task_exchangeId t' = task_exchangeId t;
  si_proposal : task_proposalId t' = task_proposalId t;
  si_policy : task_policyContext t' = task_policyContext t;
  si_workspace : task_workspace t' = task_workspace t;
  si_createdAt : task_createdAt t' = task_createdAt t;
  si_origin : task_taskOrigin t' = task_taskOrigin t;
  si_broker : task_brokerOfRecord t' = task_brokerOfRecord t;
  si_team : task_teamId t' = task_teamId t;
  si_approval info : task_approval t = Some info -> task_approval t' = Some info;
}.

#[export] Instance same_identity_refl : Reflexive same_identity.
Proof. by intros t. Qed.
#[export] Instance same_identity_trans : Transitive same_identity.
Proof. intros t1 t2 t3 [] []. split; first [by etransitivity|eauto]. Qed.

Lemma identity_move t t' : task_move False (Some t) (Some t') -> same_identity t t'.
Proof. intros Hm. inversion Hm; subst; clear Hm; split; update_simpl; try done; congruence. Qed.

(** A wake keeps its key; once decided, it keeps the decision. *)
Record same_wake (w w' : TaskWakeState) : Prop := {
  sw_key : wk_wakeKey w' = wk_wakeKey w;
  sw_idempotency : wk_idempotencyKey w' = wk_idempotencyKey w;
  sw_session : wk_targetSessionKey w' = wk_targetSessionKey w;
  sw_plannedAt : wk_plannedAt w' = wk_plannedAt w;
  sw_decision : wk_status w <> WakePlanned ->
    wk_status w' = wk_status w /\ wk_decidedAt w' = wk_decidedAt w /\ wk_message w' = wk_message w
    /\ wk_code w' = wk_code w /\ wk_runtimeRunId w' = wk_runtimeRunId w;
}.

Definition keeps_wake (t t' : TaskRecord) : Prop :=
  forall w, task_wake t = Some w -> exists w', task_wake t' = Some w' /\ same_wake w w'.

Lemma same_wake_refl w : same_wake w w.
Proof. by split. Qed.
#[export] Instance keeps_wake_refl : Reflexive keeps_wake.
Proof. intros t w Hw. exists w. split; [done|apply same_wake_refl]. Qed.
#[export] Instance keeps_wake_trans : Transitive keeps_wake.
Proof.
  intros t1 t2 t3 H12 H23 w Hw. destruct (H12 w Hw) as (w2 & Hw2 & [? ? ? ? Hd]).
  destruct (H23 w2 Hw2) as (w3 & Hw3 & [? ? ? ? Hd']). exists w3. split; [done|].
  split; [congruence..|]. intros Hp. destruct (Hd Hp) as (Hs & ? & ? & ? & ?).
  destruct Hd' as (? & ? & ? & ? & ?); [congruence|]. split_and!; congruence.
Qed.

Lemma wake_step_same w w' : wake_step (Some w) w' -> same_wake w w'.
Proof. intros Hs. inversion Hs; subst; clear Hs; split; update_simpl; done. Qed.

Lemma wake_move t t' : task_move False (Some t) (Some t') -> keeps_wake t t'.
Proof.
  intros Hm w Hw. inversion Hm; subst; clear Hm; update_simpl.
  all: try (exists w; split; [done|apply same_wake_refl]).
  eexists. split; [done|]. apply wake_step_same. by rewrite <- Hw.
Qed.
End History.
