(* ===== verification/TaskFacts.v ===== *)
(** * Every task handler follows the task state machine

    [evolves] relates two broker states when the store stays well formed and the
    record of every task went through moves of [TaskMachine] only.  It is proved
    here for the handlers of [Tasks], the fan-out of a cancellation aside, which
    [Cancellation] treats. *)

From Stdlib Require Import ZArith Lia String.
From stdpp Require Import base gmap strings list pretty relations.
From S2P Require Import Prelude JsRuntime Types Policy Retention BrokerCore CoreFacts Workers.
From S2P Require Import Proposals Github TerminalBrief Tasks TaskMachine.

(** ** The relation and its triples *)

Section Evolution.
Context `{JsHost} `{TaskEventSink} `{BrokerConfig}.

(** [N id]: the id may be given to a task created on the way. *)
Definition evolves (N : string -> Prop) (b b' : Broker) : Prop :=
  wf_broker b -> wf_broker b' /\ br_uuids b <= br_uuids b'
    /\ forall id, rtc (task_move (N id)) (jm_get id (br_tasks b)) (jm_get id (br_tasks b')).

#[export] Instance evolves_refl N : Reflexive (evolves N).
Proof. intros b Hb. split_and!; [done..|]. intros. reflexivity. Qed.
#[export] Instance evolves_trans N : Transitive (evolves N).
Proof.
  intros b1 b2 b3 H12 H23 W1. destruct (H12 W1) as (W2 & L12 & K12).
  destruct (H23 W2) as (W3 & L23 & K23). split_and!; [done|lia|]. intros id.
  etransitivity; [apply K12|apply K23].
Qed.

Lemma kept_moves c o o' : kept o o' -> rtc (task_move c) o o'.
Proof.
  intros [->|(t & -> & Ht & ->)]; [reflexivity|]. apply rtc_once. by apply MovePrune.
Qed.

Lemma quiet_evolves N b b' : quiet b b' -> evolves N b b'.
Proof.
  intros Hq Hb. destruct (Hq Hb) as (? & ? & Hk). split_and!; [done..|].
  intros id. by apply kept_moves.
Qed.

Lemma preserves_quiet_evolves {A} N (m : BM A) : preserves quiet m -> preserves (evolves N) m.
Proof. apply preserves_mono, quiet_evolves. Qed.

(** The record the handler works on is the stored one. *)
Definition holds (t : TaskRecord) (b : Broker) : Prop :=
  wf_broker b /\ jm_get (task_id t) (br_tasks b) = Some t.

Definition tri {A} N (P : Broker -> Prop) (m : BM A) (Q : A -> Broker -> Prop) : Prop :=
  triple (evolves N) P m Q (fun _ => True).

Definition readonly {A} (m : BM A) : Prop := preserves eq m.

(** A quiet step that leaves the tasks map as it is. *)
Definition silent (b b' : Broker) : Prop := quiet b b' /\ br_tasks b' = br_tasks b.

Section Rules.
Context (N : string -> Prop).

Lemma tri_bind {A B} P (m : BM A) R (k : A -> BM B) Q :
  tri N P m R -> (forall a, tri N (R a) (k a) Q) -> tri N P (m_bind m k) Q.
Proof. apply triple_bind, _. Qed.

Lemma tri_pre {A} (P P' : Broker -> Prop) (m : BM A) Q :
  (forall b, P b -> P' b) -> tri N P' m Q -> tri N P m Q.
Proof. intros HP Hm. eapply triple_conseq; eauto. Qed.

Lemma tri_ret {A} P (a : A) : tri N P (m_ret a) (fun r b => r = a /\ P b).
Proof. by apply triple_ret; [apply _|]. Qed.

Lemma tri_readonly {A B} P (m : BM A) (k : A -> BM B) Q :
  readonly m -> (forall a, tri N P (k a) Q) -> tri N P (m_bind m k) Q.
Proof.
  intros Hm Hk. apply (tri_bind P m (fun _ => P)); [|done]. intros b Hb.
  specialize (Hm b). destruct (m b) as [b' r]. simpl in Hm. subst b'. simpl.
  split; [reflexivity|]. by destruct r.
Qed.

Lemma tri_silent {A B} t (m : BM A) (k : A -> BM B) Q :
  preserves silent m -> (forall a, tri N (holds t) (k a) Q) -> tri N (holds t) (m_bind m k) Q.
Proof.
  intros Hm Hk. apply (tri_bind _ m (fun _ => holds t)); [|done]. intros b [Hb Ht].
  specialize (Hm b). destruct (m b) as [b' r]. destruct Hm as [Hq Hs]. simpl in *.
  split; [by apply quiet_evolves|]. destruct r; [|done]. split; [by apply Hq|congruence].
Qed.

Lemma tri_quiet {A B} t (m : BM A) (k : A -> BM B) Q :
  preserves quiet m -> active t -> (forall a, tri N (holds t) (k a) Q) ->
  tri N (holds t) (m_bind m k) Q.
Proof.
  intros Hm Ha Hk. apply (tri_bind _ m (fun _ => holds t)); [|done]. intros b [Hb Ht].
  specialize (Hm b). destruct (m b) as [b' r]. simpl in *. split; [by apply quiet_evolves|].
  destruct r; [|done]. destruct (Hm Hb) as (Hb' & _ & Hk'). split; [done|].
  eapply kept_active; [apply Hk'|exact Ht|exact Ha].
Qed.

Lemma tri_end {A} (P : Broker -> Prop) (m : BM A) :
  preserves quiet m -> tri N P m (fun _ _ => True).
Proof.
  intros Hm b Hb. specialize (Hm b). destruct (m b) as [b' r]. simpl in *.
  split; [by apply quiet_evolves|]. by destruct r.
Qed.

Lemma tri_throw_if {B} P c code message (k : BM B) Q :
  (c = false -> tri N P k Q) -> tri N P (throw_if c code message;;; k) Q.
Proof.
  intros Hk b Hb. unfold throw_if, m_throw_if, m_bind. destruct c; simpl; [|by apply Hk].
  split; [reflexivity|done].
Qed.

Lemma tri_requireTask {B} id (k : TaskRecord -> BM B) Q :
  (forall t, task_id t = id -> tri N (holds t) (k t) Q) ->
  tri N wf_broker (m_bind (requireTask id) k) Q.
Proof.
  intros Hk b Hb. unfold requireTask, require, getTask, gets_map, m_gets, m_bind.
  destruct (jm_get id (br_tasks b)) as [t|] eqn:Ht; simpl; [|by split; [reflexivity|]].
  assert (task_id t = id) as Hid by by apply (wf_tasks _ Hb). subst id.
  by apply Hk.
Qed.

Lemma wf_set_task t b :
  is_Some (jm_get (task_id t) (br_tasks b)) -> wf_broker b -> wf_broker (setTaskRecord t b).1.
Proof.
  intros [t0 Ht] Hb. destruct Hb; split; simpl; auto with js_db. intros n Hn. rewrite jm_get_set.
  destruct (String.eqb_spec (host_uuid n) (task_id t)) as [He|]; [|auto].
  rewrite <- He, wf_fresh in Ht; done.
Qed.

Lemma tri_set {B} t t' (k : BM B) Q :
  task_id t' = task_id t -> (forall c, task_move c (Some t) (Some t')) ->
  tri N (holds t') k Q -> tri N (holds t) (setTaskRecord t';;; k) Q.
Proof.
  intros Hid Hm Hk. eapply (tri_bind _ _ (fun _ => holds t')); [|by intros _].
  intros b [Hb Ht]. assert (wf_broker (setTaskRecord t' b).1) as Hb'
    by (apply wf_set_task; [rewrite Hid; eauto|done]).
  split; [|split; [done|apply jm_get_set_eq]].
  intros _. split_and!; [done..|].
  intros id. simpl. rewrite jm_get_set.
  destruct (String.eqb_spec id (task_id t')) as [->|]; [|reflexivity].
  rewrite Hid, Ht. apply rtc_once, Hm.
Qed.
End Rules.

(** ** Which steps are read-only or silent *)

Lemma readonly_assertTaskWorker t w a : readonly (assertTaskWorker t w a).
Proof.
  unfold readonly, assertTaskWorker, assertTaskOwnership, requireWorker, require, getWorker,
    gets_map, throw, throw_if. preserves_auto.
Qed.
Lemma readonly_require_actor a : readonly (require_actor a).
Proof. unfold readonly, require_actor, throw_if. preserves_auto. Qed.
Lemma readonly_throw_if c code m : readonly (throw_if c code m).
Proof. unfold readonly, throw_if. preserves_auto. Qed.
Lemma readonly_requireWorker id : readonly (requireWorker id).
Proof. unfold readonly, requireWorker, require, getWorker, gets_map, throw. preserves_auto. Qed.
Lemma readonly_gets_map {V} (m : Broker -> jsmap V) k : readonly (gets_map m k).
Proof. unfold readonly, gets_map. preserves_auto. Qed.

#[export] Instance silent_refl : Reflexive silent.
Proof. intros b. by split; [reflexivity|]. Qed.
#[export] Instance silent_trans : Transitive silent.
Proof. intros b1 b2 b3 [Q1 T1] [Q2 T2]. split; [by transitivity b2|congruence]. Qed.

Lemma silent_now_ms : preserves silent now_ms.
Proof. intros b. split; [apply quiet_now_ms|done]. Qed.
Hint Resolve silent_now_ms : preserves_db.
Lemma silent_isoNow : preserves silent isoNow.
Proof. unfold isoNow. preserves_auto. Qed.
Lemma silent_randomUUID : preserves silent randomUUID.
Proof. intros b. split; [apply quiet_randomUUID|done]. Qed.
Hint Resolve silent_isoNow silent_randomUUID : preserves_db.

(** An optional id, or a fresh one. *)
Lemma silent_id_or_uuid (o : option string) :
  preserves silent (match o with Some id => m_ret id | None => randomUUID end).
Proof. preserves_auto. Qed.

Lemma quiet_commit_tail task st actor action note reason :
  preserves quiet
    (syncExchangeStateFromTask task st;;;
     audit_task actor action task note;;;
     persistState;;;
     emitTaskUpdate task reason;;;
     m_ret task).
Proof. preserves_auto. Qed.

Lemma tri_commit N t t' st actor action note reason :
  task_id t' = task_id t -> (forall c, task_move c (Some t) (Some t')) ->
  tri N (holds t) (commit_task t' st actor action note reason) (fun _ _ => True).
Proof. intros Hid Hm. unfold commit_task. apply tri_set; [done..|]. apply tri_end, quiet_commit_tail. Qed.

(** A handler that begins by fetching its task. *)
Lemma evolves_handler {A} N id (k : TaskRecord -> BM A) :
  (forall t, task_id t = id -> tri N (holds t) (k t) (fun _ _ => True)) ->
  preserves (evolves N) (m_bind (requireTask id) k).
Proof.
  intros Hk b. unfold evolves at 1. intros Hb.
  by apply (tri_requireTask N id k _ Hk b Hb).
Qed.
End Evolution.

#[export] Hint Resolve readonly_assertTaskWorker readonly_require_actor readonly_throw_if
  readonly_requireWorker readonly_gets_map silent_now_ms silent_isoNow silent_randomUUID
  silent_id_or_uuid : preserves_db.

Lemma negb_bool_decide_false (P : Prop) `{Decision P} : negb (bool_decide P) = false -> P.
Proof. rewrite negb_false_iff. apply bool_decide_eq_true_1. Qed.

(** ** What the worker guard guarantees *)

Section WorkerGuard.
Context `{JsHost} `{TaskEventSink} `{BrokerConfig}.

(** The worker that [assertTaskWorker] lets through. *)
Definition entitled (t : TaskRecord) (w : string) : Prop :=
  w = (task_assignedWorkerId t ?? task_targetNodeId t)
  /\ (forall c, truthy_opt (task_claimedBy t) = Some c -> c = w)
  /\ (forall o, normalizeOwnershipString (task_brokerOfRecord t) = Some o -> cfg_brokerId = Some o)
  /\ (forall o, normalizeOwnershipString (task_teamId t) = Some o -> cfg_teamId = Some o).

Lemma assertTaskOwnership_ok t a b b' :
  assertTaskOwnership t a b = (b', Ok tt) ->
  b' = b
  /\ (forall o, normalizeOwnershipString (task_brokerOfRecord t) = Some o -> cfg_brokerId = Some o)
  /\ (forall o, normalizeOwnershipString (task_teamId t) = Some o -> cfg_teamId = Some o).
Proof.
  unfold assertTaskOwnership, throw_if, m_throw_if, m_bind, m_ret, m_throw.
  destruct (normalizeOwnershipString (task_brokerOfRecord t)) as [o1|];
    [case_bool_decide; simpl; [|done]|];
    (destruct (normalizeOwnershipString (task_teamId t)) as [o2|];
      [case_bool_decide; simpl; [|done]|]); intros; simplify_eq; naive_solver.
Qed.

Lemma assertTaskWorker_ok t w a b b' :
  assertTaskWorker t w a b = (b', Ok tt) ->
  b' = b /\ entitled t w /\ is_Some (jm_get w (br_workers b)).
Proof.
  intros Hrun. unfold assertTaskWorker in Hrun.
  apply bind_inv_ok in Hrun as (b1 & [] & Hown & Hrun).
  apply assertTaskOwnership_ok in Hown as (-> & Ho1 & Ho2).
  unfold requireWorker, require, getWorker, gets_map, m_gets, throw, throw_if, m_throw_if, m_throw,
    m_ret, m_bind in Hrun.
  destruct (jm_get w (br_workers b)) as [wr|] eqn:Hw; [|done]. simpl in Hrun.
  destruct (String.eqb_spec w (task_assignedWorkerId t ?? task_targetNodeId t)) as [He|]; [|done].
  simpl in Hrun. destruct (truthy_opt (task_claimedBy t)) as [c|] eqn:Hc.
  - destruct (String.eqb_spec c w) as [Hcw|]; [|done]. simpl in Hrun. simplify_eq.
    split_and!; eauto. split_and!; [done| |done|done]. naive_solver.
  - simplify_eq. split_and!; eauto. split_and!; [done| |done|done]. naive_solver.
Qed.

Lemma tri_assertTaskWorker {B} N P t w a (k : BM B) Q :
  (entitled t w -> tri N P k Q) -> tri N P (assertTaskWorker t w a;;; k) Q.
Proof.
  intros Hk b Hb. pose proof (readonly_assertTaskWorker t w a b) as Hro.
  unfold m_bind. destruct (assertTaskWorker t w a b) as [b' [[]|e]] eqn:Hr; simpl in Hro; subst b'.
  - apply assertTaskWorker_ok in Hr as (_ & He & _). by apply Hk.
  - simpl. split; [reflexivity|done].
Qed.
End WorkerGuard.

(** ** The handlers *)

(** One step of a handler: a guard is read off, a read-only or silent step is
    skipped, and the record is written by a move. *)
Ltac tri_step :=
  cbv beta;
  lazymatch goal with
  | |- tri _ _ (let x := ?v in @?k x) _ => cbv zeta
  | |- tri _ _ (m_bind (throw_if _ _ _) _) _ => apply tri_throw_if; intro
  | |- tri _ _ (m_bind (assertTaskStatus _ _ _) _) _ => apply tri_throw_if; intro
  | |- tri _ _ (m_bind (assertTaskWorker _ _ _) _) _ => apply tri_assertTaskWorker; intro
  | |- tri _ _ (m_bind _ _) _ =>
      first [ apply tri_readonly; [solve [eauto with preserves_db]|intro]
            | apply tri_silent; [solve [eauto with preserves_db]|intro] ]
  | |- tri _ _ (throw _ _) _ => apply tri_end; eauto with preserves_db
  | |- tri _ _ (m_ret _) _ => apply tri_end, preserves_ret, _
  end.

(** Read the guards collected as hypotheses. *)
Ltac guards :=
  repeat match goal with
  | G : negb (bool_decide _) = false |- _ => apply negb_bool_decide_false in G
  | G : _ || _ = false |- _ => apply orb_false_iff in G as [? ?]
  end.

Section Handlers.
Context `{JsHost} `{TaskEventSink} `{BrokerConfig}.

Lemma claim_gate t :
  requires_approval (task_policyContext t) && negb (is_some (task_approval t)) = false ->
  gated t -> is_Some (task_approval t).
Proof. unfold gated. intros Hc Hg. rewrite Hg in Hc. destruct (task_approval t); [eauto|done]. Qed.

Lemma evolves_claimTask N id w : preserves (evolves N) (claimTask id w).
Proof.
  reveal claimTask. apply evolves_handler. intros t _. repeat tri_step. guards.
  apply tri_commit; [done|]. intros c. apply MoveClaim.
  - by apply list_elem_of_singleton.
  - by apply claim_gate.
  - match goal with E : entitled _ _ |- _ => apply E end.
Qed.

Lemma evolves_startTask N id w : preserves (evolves N) (startTask id w).
Proof.
  reveal startTask. apply evolves_handler. intros t _. repeat tri_step. guards.
  apply tri_commit; [done|]. intros c. apply MoveStart. by apply list_elem_of_singleton.
Qed.

Lemma evolves_heartbeatTask N id w : preserves (evolves N) (heartbeatTask id w).
Proof.
  reveal heartbeatTask. apply evolves_handler. intros t _. do 4 tri_step. guards. cbv zeta.
  apply tri_set; [done|by intros; apply MoveHeartbeat|]. apply tri_end. preserves_auto. quiet_other.
Qed.

Lemma evolves_approveTask N id r : preserves (evolves N) (approveTask id r).
Proof.
  reveal approveTask. apply evolves_handler. intros t _. do 3 tri_step.
  destruct (task_approval t) as [info|] eqn:Hinfo; [repeat tri_step|].
  repeat tri_step. guards. cbv zeta.
  apply tri_set; [done| |apply tri_end; preserves_auto].
  intros c. apply MoveApprove; try done. by apply negb_false_iff.
Qed.

Lemma evolves_reassignTask N id r : preserves (evolves N) (reassignTask id r).
Proof.
  reveal reassignTask. apply evolves_handler. intros t _. repeat tri_step.
  apply tri_commit; [done|]. intros c. by apply MoveReassign.
Qed.

Lemma evolves_updateTaskPayload N id p a n : preserves (evolves N) (updateTaskPayload id p a n).
Proof.
  reveal updateTaskPayload. apply evolves_handler. intros t _. repeat tri_step. cbv zeta.
  apply tri_set; [done|by intros; apply MovePayload|]. apply tri_end. preserves_auto.
Qed.

Lemma evolves_failTask N id w e : preserves (evolves N) (failTask id w e).
Proof.
  reveal failTask. apply evolves_handler. intros t _. tri_step.
  destruct (isTerminalTaskStatus (task_status t)) eqn:Hterm; repeat tri_step. guards.
  cbv zeta. unfold commit_task.
  eapply (tri_bind _ _ _ (fun _ _ => True)); [|intros t'; apply tri_end; preserves_auto].
  apply tri_set; [done|by intros; apply MoveFail|]. apply tri_end, quiet_commit_tail.
Qed.

Lemma quiet_applyTaskCompletion t w r : preserves quiet (applyTaskCompletion t w r).
Proof. unfold applyTaskCompletion. preserves_auto. Qed.
Hint Resolve quiet_applyTaskCompletion : preserves_db.

Lemma evolves_completeTask N id w r : preserves (evolves N) (completeTask id w r).
Proof.
  reveal completeTask. apply evolves_handler. intros t _. tri_step.
  destruct (isTerminalTaskStatus (task_status t)) eqn:Hterm; [tri_step|]. tri_step. guards.
  cbv zeta. destruct (validateGithubTaskCompletionEvidence t (normalizeTaskResult r)) eqn:Hev;
    [by intros b Hb; split; [reflexivity|]|].
  apply tri_readonly; [by intros b|]. intros _.
  apply tri_quiet; [eauto with preserves_db|done|]. intros _. tri_step.
  apply tri_commit; [done|]. intros c. by apply MoveComplete.
Qed.

Lemma same_updatedAt t wake :
  t <| task_wake := wake |> = t <| task_wake := wake |> <| task_updatedAt := task_updatedAt t |>.
Proof. by destruct t. Qed.

Lemma evolves_planAcceptedTaskWake N id r : preserves (evolves N) (planAcceptedTaskWake id r).
Proof.
  reveal planAcceptedTaskWake. apply evolves_handler. intros t _. do 3 tri_step.
  destruct (task_wake t) as [wake|] eqn:Hwake.
  - tri_step. unfold replay_wake. tri_step. cbv zeta. apply tri_set; [done| |apply tri_end; preserves_auto].
    intros c. rewrite same_updatedAt. apply MoveWake. rewrite Hwake.
    exact (WakeReplay wake _ _).
  - tri_step. cbv zeta. apply tri_set; [done| |apply tri_end; preserves_auto].
    intros c. apply MoveWake. rewrite Hwake. by apply WakePlan.
Qed.

Lemma evolves_recordTaskWakeDecision N id r : preserves (evolves N) (recordTaskWakeDecision id r).
Proof.
  reveal recordTaskWakeDecision. apply evolves_handler. intros t _.
  destruct (task_wake t) as [wake|] eqn:Hwake; [|tri_step].
  destruct (bool_decide (wk_status wake = WakePlanned)) eqn:Hp; simpl.
  - apply bool_decide_eq_true_1 in Hp. tri_step. cbv zeta.
    apply tri_set; [done| |apply tri_end; preserves_auto].
    intros c. apply MoveWake. rewrite Hwake. by apply WakeDecide.
  - case_match; tri_step.
Qed.

(** *** The requeue of stale tasks *)

Definition same_tasks (b b' : Broker) : Prop := br_tasks b' = br_tasks b.

#[export] Instance same_tasks_refl : Reflexive same_tasks.
Proof. done. Qed.
#[export] Instance same_tasks_trans : Transitive same_tasks.
Proof. intros b1 b2 b3 H12 H23. unfold same_tasks in *. congruence. Qed.

Lemma same_tasks_mutate r f : preserves same_tasks (mutate_exchange r f).
Proof. by intros b. Qed.
Lemma same_tasks_setExchange r : preserves same_tasks (setExchangeRecord r).
Proof.
  intros b. unfold setExchangeRecord, deref_exchange, m_bind. by destruct (_ !! r).
Qed.
Hint Resolve same_tasks_mutate same_tasks_setExchange : preserves_db.

Lemma same_tasks_isoNow : preserves same_tasks isoNow.
Proof. by intros b. Qed.
Hint Resolve same_tasks_isoNow : preserves_db.

Lemma same_tasks_sync t st : preserves same_tasks (syncExchangeStateFromTask t st).
Proof. unfold syncExchangeStateFromTask, getExchange, gets_map. preserves_auto. Qed.

Lemma same_tasks_audit a c t n : preserves same_tasks (audit_task a c t n).
Proof.
  unfold audit_task, appendAuditEvent, push_to_sink. preserves_auto; try by intros b.
  intros b. unfold m_modify, same_tasks. simpl. by repeat case_match.
Qed.
Hint Resolve same_tasks_audit : preserves_db.

Lemma same_tasks_tombstone t r c : preserves same_tasks (writeTombstone t r c).
Proof. unfold writeTombstone. preserves_auto; by intros b. Qed.

(** The records of the snapshot the loop has not reached yet are the stored ones. *)
Definition holds_all (l : list TaskRecord) (b : Broker) : Prop :=
  wf_broker b /\ NoDup (map task_id l) /\ forall t, t ∈ l -> jm_get (task_id t) (br_tasks b) = Some t.

Lemma tri_holds_all {A B} N l (m : BM A) (k : A -> BM B) Q :
  preserves quiet m -> preserves same_tasks m ->
  (forall a, tri N (holds_all l) (k a) Q) -> tri N (holds_all l) (m_bind m k) Q.
Proof.
  intros Hq Hs Hk. apply (tri_bind _ _ m (fun _ => holds_all l)); [|done].
  intros b (Hb & Hnd & Hl). specialize (Hq b). specialize (Hs b).
  destruct (m b) as [b' r]. unfold same_tasks in Hs. simpl in *.
  split; [by apply quiet_evolves|]. destruct r; [|done].
  split_and!; [by apply Hq|done|]. rewrite Hs. done.
Qed.

Lemma tri_set_head {B} N t t' l (k : BM B) Q :
  task_id t' = task_id t -> (forall c, task_move c (Some t) (Some t')) ->
  tri N (holds_all l) k Q -> tri N (holds_all (t :: l)) (setTaskRecord t';;; k) Q.
Proof.
  intros Hid Hm Hk. eapply (tri_bind _ _ _ (fun _ => holds_all l)); [|by intros _].
  intros b (Hb & Hnd & Hl).
  destruct (tri_set N t t' (m_ret tt) (fun _ _ => True) Hid Hm (tri_end _ _ _ (preserves_ret _ _)) b)
    as [He _]; [split; [done|apply Hl; set_solver]|].
  split; [exact He|]. apply NoDup_cons in Hnd as [Hni Hnd].
  split_and!; [by apply He|done|]. intros t0 Ht0. simpl. rewrite jm_get_set_ne.
  - apply Hl. set_solver.
  - rewrite Hid. intros Heq. apply Hni. rewrite Heq. apply list_elem_of_fmap. eauto.
Qed.

Lemma requeue_reason_in_progress t th ws now r :
  getTaskRequeueReason t th ws now = Some r -> in_progress t.
Proof.
  unfold getTaskRequeueReason, in_progress. case_bool_decide; [done|]. done.
Qed.

Lemma requeue_cap_false n :
  (0 <? cfg_maxRequeueAttempts)%Z && (cfg_maxRequeueAttempts <=? n)%Z = false ->
  ~ (0 < cfg_maxRequeueAttempts <= n)%Z.
Proof. lia. Qed.

Lemma tri_requeue_one N th now ws t l out :
  tri N (holds_all (t :: l)) (requeue_one th now ws t out) (fun _ => holds_all l).
Proof.
  unfold requeue_one. destruct (getTaskRequeueReason t th ws now) as [reason|] eqn:Hr.
  - apply requeue_reason_in_progress in Hr.
    destruct ((0 <? cfg_maxRequeueAttempts)%Z && _) eqn:Hcap; cbv zeta.
    + apply tri_set_head; [done|intros; apply MoveDeadLetter; [done|lia]|].
      repeat (apply tri_holds_all; [eauto with preserves_db..|intro]).
      all: eauto using same_tasks_sync, same_tasks_tombstone.
      apply triple_ret; [apply _|done].
    + apply tri_set_head; [done|intros; apply MoveRequeue; [done|by apply requeue_cap_false]|].
      repeat (apply tri_holds_all; [eauto with preserves_db..|intro]).
      all: eauto using same_tasks_sync.
      apply triple_ret; [apply _|done].
  - apply triple_ret; [apply _|]. intros b (Hb & Hnd & Hl). apply NoDup_cons in Hnd as [_ Hnd].
    split_and!; [done..|]. set_solver.
Qed.

Lemma tri_requeue_loop N th now ws l out :
  tri N (holds_all l) (requeue_loop th now ws l out) (fun _ => wf_broker).
Proof.
  revert out. induction l as [|t l IH]; intros out; simpl.
  - apply triple_ret; [apply _|]. by intros b [Hb _].
  - apply (tri_bind _ _ _ (fun _ => holds_all l)); [apply tri_requeue_one|done].
Qed.

Lemma evolves_requeueStaleTasksDetailed N older now off :
  preserves (evolves N) (requeueStaleTasksDetailed older now off).
Proof.
  unfold requeueStaleTasksDetailed.
  apply preserves_bind; [apply _|apply preserves_quiet_evolves; preserves_auto|]. intros nowMs b.
  unfold m_bind at 1, m_get at 1. unfold evolves at 1. intros Hb. cbv zeta.
  match goal with |- context [m_bind ?m ?k b] =>
    assert (tri N (holds_all (jm_values (br_tasks b))) (m_bind m k) (fun _ _ => True)) as Ht end.
  { apply (tri_bind _ _ _ (fun _ => wf_broker)); [apply tri_requeue_loop|].
    intros out. apply tri_end. preserves_auto. }
  apply (Ht b); [|done]. split_and!; [done|by apply keyed_ids_NoDup, wf_tasks|].
  intros t Hin. by apply (keyed_value task_id), Hin; apply wf_tasks.
Qed.

Lemma evolves_requeueStaleTasks N older now off :
  preserves (evolves N) (requeueStaleTasks older now off).
Proof.
  unfold requeueStaleTasks. apply preserves_bind; [apply _|apply evolves_requeueStaleTasksDetailed|].
  intros. apply preserves_ret, _.
Qed.

(** *** Creation *)

(** The id the request would be stored under is free for [N], now and later. *)
Record can_create (N : string -> Prop) (r : CreateTaskRequest) (b : Broker) : Prop := {
  cc_wf : wf_broker b;
  cc_uuid n : br_uuids b <= n -> N (host_uuid n);
  cc_id id : ct_id r = Some id ->
    id <> "" /\ (jm_get id (br_tasks b) = None -> N id /\ forall n, br_uuids b <= n -> id <> host_uuid n);
}.

Lemma can_create_silent N r b b' : silent b b' -> can_create N r b -> can_create N r b'.
Proof.
  intros [Hq Ht] [Hwf Hu Hid]. destruct (Hq Hwf) as (Hwf' & Hle & _).
  split; [done|intros n Hn; apply Hu; lia|]. intros id Hi. destruct (Hid id Hi) as [Hne Hfree].
  split; [done|]. rewrite Ht. intros Hn. destruct (Hfree Hn) as [HN Hnu].
  split; [done|]. intros n Hle'. apply Hnu. lia.
Qed.

Lemma tri_stable {A B} N (P : Broker -> Prop) (m : BM A) (k : A -> BM B) Q :
  (forall b b', silent b b' -> P b -> P b') -> preserves silent m ->
  (forall a, tri N P (k a) Q) -> tri N P (m_bind m k) Q.
Proof.
  intros HP Hm Hk. apply (tri_bind _ _ m (fun _ => P)); [|done]. intros b Hb.
  specialize (Hm b). destruct (m b) as [b' r]. simpl in *. split; [by apply quiet_evolves, Hm|].
  destruct r; [|done]. eauto.
Qed.

Lemma readonly_silent {A} (m : BM A) : readonly m -> preserves silent m.
Proof. apply preserves_mono. intros b b' <-. reflexivity. Qed.

Lemma readonly_check_task_references r : readonly (check_task_references r).
Proof.
  unfold readonly, check_task_references, assertTaskProposalLink, assertTransition, requireExchange,
    requireWorker, requireProposal, require, getExchange, getWorker, getProposal, gets_map, throw, throw_if.
  preserves_auto.
Qed.
Lemma readonly_assertTaskPayload r : readonly (assertTaskPayload r).
Proof.
  unfold readonly, assertTaskPayload, assertTerminalBriefMetadata, throw, throw_if. preserves_auto.
Qed.
Lemma readonly_existing_task r : readonly (existing_task r).
Proof. unfold readonly, existing_task, getTask, gets_map. preserves_auto. Qed.

Context (uuid_inj : forall m n, host_uuid m = host_uuid n -> m = n).

(** A new record under a free id. *)
Lemma evolves_new_record N (r : CreateTaskRequest) id now b :
  wf_broker b -> jm_get id (br_tasks b) = None -> N id ->
  (forall n, br_uuids b <= n -> id <> host_uuid n) ->
  evolves N b (setTaskRecord (new_task r id now) b).1.
Proof.
  intros Hwf Hid HN Hfree _. simpl. split_and!.
  - destruct Hwf; split; simpl; auto with js_db. intros n Hn. rewrite jm_get_set.
    destruct (String.eqb_spec (host_uuid n) id) as [He|]; [|auto].
    exfalso. by apply (Hfree n).
  - done.
  - intros id'. rewrite jm_get_set. destruct (String.eqb_spec id' id) as [->|]; [|reflexivity].
    rewrite Hid. apply rtc_once. by apply MoveCreate.
Qed.

Lemma tri_insert_task N r :
  tri N (fun b => can_create N r b /\ forall id, ct_id r = Some id -> jm_get id (br_tasks b) = None)
    (insert_task r) (fun _ _ => True).
Proof.
  unfold insert_task. apply tri_stable; [|eauto with preserves_db|]; intros now.
  { intros b' Hs [Hc Hn]. split; [by eapply can_create_silent|]. destruct Hs as [_ ->]. done. }
  set (tail id := let task := new_task r id now in setTaskRecord task;;; _) in *.
  assert (forall id, tri N (fun b => wf_broker b /\ jm_get id (br_tasks b) = None /\ N id
             /\ forall n, br_uuids b <= n -> id <> host_uuid n) (tail id) (fun _ _ => True)) as Htail.
  { intros id. subst tail. cbv zeta beta. apply (tri_bind _ _ _ (fun _ _ => True)).
    - intros b (Hwf & Hid & HN & Hfree). split; [by apply evolves_new_record|done].
    - intros _. apply tri_end. preserves_auto. }
  destruct (ct_id r) as [id|] eqn:Hid.
  - apply (tri_bind _ _ _ (fun a b => a = id /\ can_create N r b /\ jm_get id (br_tasks b) = None)).
    + apply triple_ret; [apply _|]. intros b [Hc Hn]. eauto.
    + intros a. eapply tri_pre; [|apply Htail]. intros b (-> & Hc & Hn).
      destruct (cc_id _ _ _ Hc id Hid) as [_ Hf]. destruct (Hf Hn). split; [by apply Hc|done].
  - apply (tri_bind _ _ _ (fun a b => wf_broker b /\ jm_get a (br_tasks b) = None /\ N a
             /\ forall n, br_uuids b <= n -> a <> host_uuid n)); [|intros a; apply Htail].
    intros b [Hc _]. split; [by apply quiet_evolves, quiet_randomUUID|]. simpl. split_and!.
    + apply (quiet_randomUUID b), Hc.
    + apply wf_fresh; [apply Hc|done].
    + by apply (cc_uuid _ _ _ Hc).
    + intros n Hn He. apply uuid_inj in He. lia.
Qed.

Lemma can_create_same_id N r r' b : ct_id r' = ct_id r -> can_create N r b -> can_create N r' b.
Proof. intros Hid [Hwf Hu Hi]. split; [done..|]. by rewrite Hid. Qed.

(** No stored task answers to the request. *)
Lemma existing_task_None N r b :
  can_create N r b -> (existing_task r b).2 = Ok None ->
  forall id, ct_id r = Some id -> jm_get id (br_tasks b) = None.
Proof.
  intros Hc He id Hid. destruct (cc_id _ _ _ Hc id Hid) as [Hne _].
  unfold existing_task, truthy_opt in He. rewrite Hid in He.
  assert (str_truthy id = true) as Ht by by apply str_truthy_spec.
  rewrite Ht in He. simpl in He. by simplify_eq.
Qed.

Lemma tri_createTask N r : tri N (can_create N r) (createTask r) (fun _ _ => True).
Proof.
  unfold createTask, lift_result. destruct (normalizeGitHubPatchTaskRequest r) as [r'|e] eqn:Hn;
    [|intros b Hb; split; [reflexivity|done]].
  apply normalize_keeps_id in Hn. eapply tri_pre; [intros b; by apply can_create_same_id, Hn|].
  match goal with |- tri _ _ (m_bind (m_ret r') ?k) _ => change (tri N (can_create N r') (k r') (fun _ _ => True)) end.
  cbv beta. apply tri_readonly; [apply readonly_assertTaskPayload|]. intros _.
  apply (tri_bind _ _ _ (fun o b => can_create N r' b /\
    (o = None -> forall id, ct_id r' = Some id -> jm_get id (br_tasks b) = None))).
  - intros b Hb. pose proof (readonly_existing_task r' b) as Hro.
    destruct (existing_task r' b) as [b' [o|e]] eqn:He; simpl in *; subst b'; (split; [reflexivity|]); [|done].
    split; [done|]. intros ->. eapply existing_task_None; [done|]. by rewrite He.
  - intros [t|]; [apply tri_end, preserves_ret, _|].
    apply tri_readonly; [apply readonly_check_task_references|]. intros _.
    eapply tri_pre; [|apply tri_insert_task]. naive_solver.
Qed.

(** The ids no task had before the call. *)
Definition absent (b : Broker) (id : string) : Prop := jm_get id (br_tasks b) = None.

(** A request a client may make: its id, if any, is not empty, and is not one
    the broker will draw later. *)
Definition admissible (r : CreateTaskRequest) (b : Broker) : Prop :=
  forall id, ct_id r = Some id ->
    id <> "" /\ (absent b id -> forall n, br_uuids b <= n -> id <> host_uuid n).

Lemma evolves_createTask r b :
  admissible r b -> evolves (absent b) b (createTask r b).1.
Proof.
  intros Ha. unfold evolves at 1. intros Hwf.
  apply (tri_createTask (absent b) r b); [|done]. split; [done|by apply wf_fresh|].
  intros id Hid. destruct (Ha id Hid) as [Hne Hfree]. eauto.
Qed.

(** A request without an id may always be made. *)
Lemma can_create_anonymous N r b :
  ct_id r = None -> wf_broker b -> (forall n, br_uuids b <= n -> N (host_uuid n)) -> can_create N r b.
Proof. intros Hid Hwf Hu. split; [done..|]. rewrite Hid. done. Qed.

(** *** Successful runs *)

Definition stored (b : Broker) (id : string) : option TaskRecord := jm_get id (br_tasks b).

(** Every value [m] returns is [a]. *)
Definition yields {A} (a : A) (m : BM A) : Prop := forall b r, (m b).2 = Ok r -> r = a.

Lemma yields_ret {A} (a : A) : yields a (m_ret a).
Proof. intros b r Hr. by inversion Hr. Qed.
Lemma yields_bind {A B} (a : B) (m : BM A) (k : A -> BM B) :
  (forall x, yields a (k x)) -> yields a (m_bind m k).
Proof. intros Hk b r. unfold m_bind. destruct (m b) as [b1 [x|e]]; [apply Hk|done]. Qed.

(** The clock moved on. *)
Definition tick (b : Broker) : Broker := b <| br_ticks ::= S |>.

Lemma isoNow_run b : isoNow b = (tick b, Ok (toISOString (host_clock (br_ticks b)))).
Proof. reflexivity. Qed.

Lemma holds_tick t b : holds t b -> holds t (tick b).
Proof. intros [Hwf Ht]. split; [|done]. destruct Hwf. by split. Qed.

Lemma evolves_tick N b : evolves N b (tick b).
Proof. apply quiet_evolves. exact (quiet_now_ms b). Qed.

(** A handler's tail: the record is written, the rest is quiet and answers. *)
Lemma write_run {A} N t t' (tail : BM A) (a : A) b :
  holds t b -> task_id t' = task_id t -> (forall c, task_move c (Some t) (Some t')) ->
  preserves quiet tail -> answers tail -> yields a tail ->
  exists b', (setTaskRecord t';;; tail) b = (b', Ok a)
    /\ evolves N b b' /\ wf_broker b' /\ kept (Some t') (stored b' (task_id t))
    /\ forall id, id <> task_id t -> kept (stored b id) (stored b' id).
Proof.
  intros Hh Hid Hm Hq Hans Hy.
  destruct (tri_set N t t' (m_ret tt) (fun _ => holds t') Hid Hm) with (s := b) as [He2 Hh2];
    [apply triple_ret; [apply _|done]|done|].
  change (evolves N b (setTaskRecord t' b).1) in He2. change (holds t' (setTaskRecord t' b).1) in Hh2.
  change ((setTaskRecord t';;; tail) b) with (tail (setTaskRecord t' b).1).
  assert (forall id, stored (setTaskRecord t' b).1 id
            = if String.eqb id (task_id t) then Some t' else stored b id) as Hst
    by (intros id; unfold stored; simpl; by rewrite jm_get_set, Hid).
  destruct Hh2 as [Hwf2 _]. generalize dependent (setTaskRecord t' b).1. intros b2 He2 Hwf2 Hst.
  destruct (Hans b2 Hwf2) as [x Hx]. pose proof (Hq b2 Hwf2) as (Hwf3 & L & Hk).
  pose proof (quiet_evolves N _ _ (Hq b2)) as He3. pose proof (Hy b2 x Hx) as ->.
  destruct (tail b2) as [b3 r]. simpl in *. subst r. exists b3. split_and!; [done| |done| |].
  - by transitivity b2.
  - specialize (Hst (task_id t)). rewrite String.eqb_refl in Hst. rewrite <- Hst. apply Hk.
  - intros id Hne. specialize (Hst id). apply String.eqb_neq in Hne. rewrite Hne in Hst.
    rewrite <- Hst. apply Hk.
Qed.
End Handlers.

#[export] Hint Resolve same_tasks_sync same_tasks_audit same_tasks_tombstone : preserves_db.
