(* ===== verification/TaskRuns.v ===== *)
(** * What the task handlers do

    A handler either refuses, leaving the broker as it was, or writes one record.
    [claim_run], [start_run] and their like describe every branch of a handler
    whose task is stored in a well-formed broker. *)

From Stdlib Require Import ZArith Lia String.
From stdpp Require Import base gmap strings list pretty relations.
From S2P Require Import Prelude JsRuntime Types Policy Retention BrokerCore CoreFacts Workers.
From S2P Require Import Proposals Github TerminalBrief Tasks TaskMachine TaskFacts.

Section Runs.
Context `{JsHost} `{TaskEventSink} `{BrokerConfig}.

(** ** Refusals and writes *)

(** The request throws and nothing changed. *)
Definition refused {A} (m : BM A) (b : Broker) : Prop := exists e, m b = (b, Err e).

(** The request returns [t'], which is now stored (or, when it ended, may have
    been dropped by retention at once); every other task is left alone. *)
Definition writes (m : BM TaskRecord) (b : Broker) (t' : TaskRecord) : Prop :=
  exists b', m b = (b', Ok t') /\ wf_broker b'
    /\ kept (Some t') (stored b' (task_id t'))
    /\ forall id, id <> task_id t' -> kept (stored b id) (stored b' id).

Lemma refused_bind {A B} (m : BM A) (k : A -> BM B) b : refused m b -> refused (m_bind m k) b.
Proof. intros [e He]. exists e. by apply bind_err. Qed.

Lemma refused_after {A B} (m : BM A) (k : A -> BM B) b a :
  m b = (b, Ok a) -> refused (k a) b -> refused (m_bind m k) b.
Proof. intros Hm [e He]. exists e. by rewrite (bind_ok _ _ _ _ _ Hm). Qed.

Lemma refused_throw {A} code message b : refused (throw (A:=A) code message) b.
Proof. eexists. reflexivity. Qed.

Lemma refused_throw_if {B} c code message (k : BM B) b :
  c = true -> refused (throw_if c code message;;; k) b.
Proof. intros ->. eexists. reflexivity. Qed.

Lemma throw_if_run c code message b : c = false -> throw_if c code message b = (b, Ok tt).
Proof. by intros ->. Qed.

Lemma requireTask_run id t b : stored b id = Some t -> requireTask id b = (b, Ok t).
Proof.
  unfold stored, requireTask, require, getTask, gets_map, m_bind, m_gets. by intros ->.
Qed.

(** An unknown task is refused by every handler. *)
Lemma refused_unknown {A} id (k : TaskRecord -> BM A) b :
  stored b id = None -> refused (m_bind (requireTask id) k) b.
Proof.
  intros Hn. eexists. apply bind_err.
  unfold stored, requireTask, require, getTask, gets_map, m_bind, m_gets in *. by rewrite Hn.
Qed.

Lemma writes_after {A} (m : BM A) (k : A -> BM TaskRecord) b b1 a t' :
  m b = (b1, Ok a) -> (forall id, kept (stored b id) (stored b1 id)) ->
  writes (k a) b1 t' -> writes (m_bind m k) b t'.
Proof.
  intros Hm Hk (b' & Hrun & Hwf & Ht & Ho). exists b'. rewrite (bind_ok _ _ _ _ _ Hm).
  split_and!; [done..|]. intros id Hne. etransitivity; [apply Hk|by apply Ho].
Qed.

Lemma writes_pure {A} (m : BM A) (k : A -> BM TaskRecord) b a t' :
  m b = (b, Ok a) -> writes (k a) b t' -> writes (m_bind m k) b t'.
Proof. intros Hm. by apply (writes_after m k b b a). Qed.

(** A quiet tail that returns the record does not undo the write. *)
Lemma writes_then (m : BM TaskRecord) (k : TaskRecord -> BM TaskRecord) b t' :
  writes m b t' -> preserves quiet (k t') -> answers (k t') -> yields t' (k t') ->
  writes (m_bind m k) b t'.
Proof.
  intros (b1 & Hrun & Hwf & Ht & Ho) Hq Ha Hy. destruct (Ha b1 Hwf) as [a Hr].
  pose proof (Hy b1 a Hr) as ->. destruct (Hq b1 Hwf) as (Hwf2 & _ & Hk).
  exists (k t' b1).1. rewrite (bind_ok _ _ _ _ _ Hrun). split_and!.
  - rewrite <- Hr. by destruct (k t' b1).
  - done.
  - etransitivity; [exact Ht|apply Hk].
  - intros id Hne. etransitivity; [by apply Ho|apply Hk].
Qed.

Lemma commit_run t t' st actor action note reason b :
  holds t b -> task_id t' = task_id t -> (forall c, task_move c (Some t) (Some t')) ->
  writes (commit_task t' st actor action note reason) b t'.
Proof.
  intros Hh Hid Hm. unfold commit_task.
  destruct (write_run (fun _ => False) t t'
    (syncExchangeStateFromTask t' st;;; audit_task actor action t' note;;; persistState;;;
     emitTaskUpdate t' reason;;; m_ret t') t' b Hh Hid Hm) as (b' & Hrun & _ & Hwf & Hk & Ho).
  - apply quiet_commit_tail.
  - answers_auto.
  - repeat (apply yields_bind; intro). apply yields_ret.
  - exists b'. rewrite Hid. by split_and!.
Qed.

Lemma writes_stored m b t' : writes m b t' -> active t' ->
  exists b', m b = (b', Ok t') /\ wf_broker b' /\ stored b' (task_id t') = Some t'
    /\ forall id, id <> task_id t' -> kept (stored b id) (stored b' id).
Proof.
  intros (b' & Hrun & Hwf & Hk & Ho) Ha. exists b'. split_and!; [done..| |done].
  by eapply kept_active.
Qed.

Lemma wf_tick b : wf_broker b -> wf_broker (tick b).
Proof. intros Hwf. by apply (quiet_now_ms b Hwf). Qed.

Lemma kept_tick b id : kept (stored b id) (stored (tick b) id).
Proof. by left. Qed.

(** ** The worker guard, both ways *)

Definition may_act (b : Broker) (t : TaskRecord) (w : string) : Prop :=
  entitled t w /\ is_Some (jm_get w (br_workers b)).

Lemma assertTaskWorker_run t w a b : may_act b t w -> assertTaskWorker t w a b = (b, Ok tt).
Proof.
  intros [(Hw & Hc & Ho & Hteam) [wr Hwr]].
  unfold assertTaskWorker, assertTaskOwnership, requireWorker, require, getWorker, gets_map, m_gets,
    throw_if, m_throw_if, m_bind, m_ret.
  destruct (normalizeOwnershipString (task_brokerOfRecord t)) as [o1|];
    [rewrite (bool_decide_true _ (Ho o1 eq_refl)); simpl|];
  (destruct (normalizeOwnershipString (task_teamId t)) as [o2|];
    [rewrite (bool_decide_true _ (Hteam o2 eq_refl)); simpl|]);
  rewrite Hwr, <- Hw, String.eqb_refl; simpl;
  (destruct (truthy_opt (task_claimedBy t)) as [c|];
    [by rewrite (Hc c eq_refl), String.eqb_refl|done]).
Qed.

Lemma assertTaskWorker_refused t w a b : ~ may_act b t w -> refused (assertTaskWorker t w a) b.
Proof.
  intros Hn. pose proof (readonly_assertTaskWorker t w a b) as Hro.
  destruct (assertTaskWorker t w a b) as [b' [[]|e]] eqn:Hr; simpl in Hro; subst b'.
  - apply assertTaskWorker_ok in Hr as (_ & He & Hw). by destruct Hn.
  - by exists e.
Qed.

#[export] Instance entitled_dec t w : Decision (entitled t w).
Proof.
  unfold entitled.
  destruct (decide (w = (task_assignedWorkerId t ?? task_targetNodeId t))); [|by right; intros [? _]].
  assert (forall (o p : option string), Decision (forall c, o = Some c -> p = Some c)) as Hdec.
  { intros [c|] p; [|by left]. destruct (decide (p = Some c)); [left; by intros ? [= <-]|].
    right. intros Hf. by apply n, Hf. }
  assert (forall (o : option string) w, Decision (forall c, o = Some c -> c = w)) as Hdec'.
  { intros [c|] w'; [|by left]. destruct (decide (c = w')); [left; by intros ? [= <-]|].
    right. intros Hf. by apply n, Hf. }
  destruct (Hdec' (truthy_opt (task_claimedBy t)) w); [|right; naive_solver].
  destruct (Hdec (normalizeOwnershipString (task_brokerOfRecord t)) cfg_brokerId); [|right; naive_solver].
  destruct (Hdec (normalizeOwnershipString (task_teamId t)) cfg_teamId); [|right; naive_solver].
  by left.
Defined.

#[export] Instance may_act_dec b t w : Decision (may_act b t w).
Proof. unfold may_act. apply _. Defined.
End Runs.

(** The next step is a guard that passes, or an unchanging one. *)
Ltac run_pure := eapply writes_pure; [first [eassumption | by apply requireTask_run
  | by apply assertTaskWorker_run | by apply throw_if_run]|]; cbv beta.
Ltac run_tick := eapply writes_after; [apply isoNow_run|apply kept_tick|]; cbv beta.
(** The handler refuses at its first step, or after it. *)
Ltac refuse_here := apply refused_bind; first [by apply assertTaskWorker_refused | by eexists].
Ltac refuse_next := eapply refused_after; [first [eassumption | by apply requireTask_run
  | by apply assertTaskWorker_run | by apply throw_if_run]|]; cbv beta.

(** ** The handlers *)

Section Handlers.
Context `{JsHost} `{TaskEventSink} `{BrokerConfig}.

(** *** claimTask *)

Definition claimable (b : Broker) (t : TaskRecord) (w : string) : Prop :=
  may_act b t w /\ (gated t -> is_Some (task_approval t)) /\ task_status t = TaskQueued.

#[export] Instance claimable_dec b t w : Decision (claimable b t w).
Proof.
  unfold claimable. destruct (decide (may_act b t w)); [|right; tauto].
  destruct (decide (task_status t = TaskQueued)); [|right; tauto].
  unfold gated. destruct (requires_approval (task_policyContext t)); [|left; done].
  destruct (task_approval t) as [i|]; [left; eauto|right]. intros (_ & Hg & _). by destruct (Hg eq_refl).
Defined.

Definition claimed_task (t : TaskRecord) (w attempt now : string) : TaskRecord := t
  <| task_status := TaskClaimed |> <| task_attemptId := Some attempt |>
  <| task_claimedBy := Some w |> <| task_claimedAt := Some now |> <| task_updatedAt := now |>.

Lemma claim_run b id t w :
  wf_broker b -> stored b id = Some t -> claimable b t w ->
  writes (claimTask id w) b
    (claimed_task t w (host_uuid (br_uuids b)) (toISOString (host_clock (br_ticks b)))).
Proof.
  intros Hwf Ht (Hw & Hg & Hq). assert (task_id t = id) as Hid by by apply (wf_tasks _ Hwf).
  reveal claimTask. run_pure. run_pure. eapply writes_pure; [apply throw_if_run|].
  { destruct (requires_approval _) eqn:Hr; [|done]. simpl. destruct (Hg Hr) as [? ->]. done. }
  cbv beta. eapply writes_pure; [apply throw_if_run; by rewrite Hq|]. cbv beta. run_tick.
  eapply writes_after; [reflexivity|by left|]. cbv beta zeta.
  eapply (commit_run t); [|done|].
  - split; [|by rewrite Hid]. apply (quiet_randomUUID (tick b)), wf_tick, Hwf.
  - intros c. apply MoveClaim; [done|done|]. apply Hw.
Qed.

Lemma claim_refused b id t w :
  stored b id = Some t -> ~ claimable b t w -> refused (claimTask id w) b.
Proof.
  intros Ht Hn. reveal claimTask. refuse_next.
  destruct (decide (may_act b t w)) as [Hw|]; [|refuse_here]. refuse_next.
  destruct (requires_approval (task_policyContext t) && negb (is_some (task_approval t))) eqn:Hg;
    [by apply refused_throw_if|]. refuse_next.
  destruct (decide (task_status t = TaskQueued)) as [Hq|Hq].
  - destruct Hn. split_and!; [done| |done]. by apply claim_gate.
  - apply refused_throw_if. apply negb_true_iff, bool_decide_eq_false. by rewrite list_elem_of_singleton.
Qed.

(** *** startTask *)

Definition started_task (t : TaskRecord) (now : string) : TaskRecord := t
  <| task_status := TaskRunning |> <| task_updatedAt := now |>.

Lemma start_run b id t w :
  wf_broker b -> stored b id = Some t -> may_act b t w -> task_status t = TaskClaimed ->
  writes (startTask id w) b (started_task t (toISOString (host_clock (br_ticks b)))).
Proof.
  intros Hwf Ht Hw Hq. assert (task_id t = id) as Hid by by apply (wf_tasks _ Hwf).
  reveal startTask. run_pure. run_pure.
  eapply writes_pure; [apply throw_if_run; by rewrite Hq|]. cbv beta. run_tick. cbv zeta.
  eapply (commit_run t); [|done|].
  - apply holds_tick. split; [done|by rewrite Hid].
  - intros c. by apply MoveStart.
Qed.

Lemma start_refused b id t w :
  stored b id = Some t -> ~ (may_act b t w /\ task_status t = TaskClaimed) -> refused (startTask id w) b.
Proof.
  intros Ht Hn. reveal startTask. refuse_next.
  destruct (decide (may_act b t w)) as [Hw|]; [|refuse_here]. refuse_next.
  apply refused_throw_if, negb_true_iff, bool_decide_eq_false. rewrite list_elem_of_singleton. tauto.
Qed.

(** *** failTask *)

Lemma fail_run b id t w e :
  wf_broker b -> stored b id = Some t -> may_act b t w -> in_progress t ->
  writes (failTask id w e) b
    (failed_task t w (toISOString (host_clock (br_ticks b))) (normalizeTaskError e)).
Proof.
  intros Hwf Ht Hw Hq. assert (task_id t = id) as Hid by by apply (wf_tasks _ Hwf).
  reveal failTask. run_pure. run_pure.
  assert (isTerminalTaskStatus (task_status t) = false) as ->.
  { unfold in_progress in Hq. rewrite !elem_of_cons, elem_of_nil in Hq.
    by destruct Hq as [->|[->|[]]]. }
  eapply writes_pure; [apply throw_if_run; by rewrite bool_decide_true|]. cbv beta. run_tick. cbv zeta.
  apply writes_then.
  - eapply (commit_run t); [|done|].
    + apply holds_tick. split; [done|by rewrite Hid].
    + intros c. by apply MoveFail.
  - preserves_auto.
  - answers_auto.
  - apply yields_bind. intros. apply yields_ret.
Qed.

Lemma fail_refused b id t w e :
  stored b id = Some t -> ~ may_act b t w \/ task_status t ∈ [TaskBlocked; TaskQueued] ->
  refused (failTask id w e) b.
Proof.
  intros Ht Hn. reveal failTask. refuse_next.
  destruct (decide (may_act b t w)) as [Hw|]; [|refuse_here]. refuse_next.
  destruct Hn as [Hn|Hq]; [done|]. rewrite !elem_of_cons, elem_of_nil in Hq.
  destruct Hq as [Hq|[Hq|[]]]; rewrite Hq; by apply refused_throw_if.
Qed.

(** A report about a task that already ended is answered with the record. *)
Lemma fail_ended b id t w e :
  stored b id = Some t -> may_act b t w -> terminal t -> failTask id w e b = (b, Ok t).
Proof.
  intros Ht Hw Hterm. reveal failTask. rewrite (bind_ok _ _ _ _ _ (requireTask_run id t b Ht)).
  rewrite (bind_ok _ _ _ _ _ (assertTaskWorker_run t w _ b Hw)). unfold terminal in Hterm.
  by rewrite Hterm.
Qed.

(** *** completeTask *)

Lemma in_progress_active t : in_progress t -> isTerminalTaskStatus (task_status t) = false.
Proof.
  unfold in_progress. rewrite !elem_of_cons, elem_of_nil. by intros [->|[->|[]]].
Qed.

(** The worker may report the end of the task. *)
Definition completable (b : Broker) (t : TaskRecord) (w : string) : Prop :=
  may_act b t w /\ in_progress t.

(** Evidence that a completion lacks: nothing changes. *)
Lemma complete_no_evidence b id t w r e :
  stored b id = Some t -> completable b t w ->
  validateGithubTaskCompletionEvidence t (normalizeTaskResult r) = Some e ->
  completeTask id w r b = (b, Err (mkBrokerError (evidence_error_code e) (err_message e))).
Proof.
  intros Ht [Hw Hp] He. reveal completeTask. rewrite (bind_ok _ _ _ _ _ (requireTask_run id t b Ht)).
  rewrite (bind_ok _ _ _ _ _ (assertTaskWorker_run t w _ b Hw)), (in_progress_active t Hp).
  rewrite (bind_ok _ _ b b tt) by by apply throw_if_run; rewrite bool_decide_true.
  cbv zeta. by rewrite He.
Qed.

(** A proposal that does not accept the completion: no task changes. *)
Lemma complete_not_applied b id t w r b1 e :
  wf_broker b -> stored b id = Some t -> completable b t w ->
  validateGithubTaskCompletionEvidence t (normalizeTaskResult r) = None ->
  applyTaskCompletion t w (normalizeTaskResult r) b = (b1, Err e) ->
  completeTask id w r b = (b1, Err e) /\ forall id, kept (stored b id) (stored b1 id).
Proof.
  intros Hwf Ht [Hw Hp] He Ha. split.
  - reveal completeTask. rewrite (bind_ok _ _ _ _ _ (requireTask_run id t b Ht)).
    rewrite (bind_ok _ _ _ _ _ (assertTaskWorker_run t w _ b Hw)), (in_progress_active t Hp).
    rewrite (bind_ok _ _ b b tt) by by apply throw_if_run; rewrite bool_decide_true.
    cbv zeta. rewrite He, (bind_ok _ _ b b tt) by done. by rewrite (bind_err _ _ _ _ _ Ha).
  - pose proof (quiet_applyTaskCompletion t w (normalizeTaskResult r) b Hwf) as (_ & _ & Hk).
    by rewrite Ha in Hk.
Qed.

Lemma complete_run b id t w r b1 :
  wf_broker b -> stored b id = Some t -> completable b t w ->
  validateGithubTaskCompletionEvidence t (normalizeTaskResult r) = None ->
  applyTaskCompletion t w (normalizeTaskResult r) b = (b1, Ok tt) ->
  writes (completeTask id w r) b
    (completed_task t w (toISOString (host_clock (br_ticks b1))) (normalizeTaskResult r)).
Proof.
  intros Hwf Ht [Hw Hp] He Ha. assert (task_id t = id) as Hid by by apply (wf_tasks _ Hwf).
  pose proof (quiet_applyTaskCompletion t w (normalizeTaskResult r) b Hwf) as (Hwf1 & _ & Hk).
  rewrite Ha in Hwf1, Hk. simpl in Hwf1, Hk.
  reveal completeTask. run_pure. run_pure. rewrite (in_progress_active t Hp).
  eapply writes_pure; [apply throw_if_run; by rewrite bool_decide_true|]. cbv beta zeta. rewrite He.
  eapply writes_pure; [reflexivity|]. cbv beta.
  eapply writes_after; [exact Ha|exact Hk|]. cbv beta. run_tick. cbv zeta.
  eapply (commit_run t); [|done|].
  - apply holds_tick. split; [done|]. rewrite Hid. eapply kept_active; [apply Hk|exact Ht|].
    by apply in_progress_active.
  - intros c. by apply MoveComplete.
Qed.

Lemma complete_refused b id t w r :
  stored b id = Some t -> ~ may_act b t w \/ task_status t ∈ [TaskBlocked; TaskQueued] ->
  refused (completeTask id w r) b.
Proof.
  intros Ht Hn. reveal completeTask. refuse_next.
  destruct (decide (may_act b t w)) as [Hw|]; [|refuse_here]. refuse_next.
  destruct Hn as [Hn|Hq]; [done|]. rewrite !elem_of_cons, elem_of_nil in Hq.
  destruct Hq as [Hq|[Hq|[]]]; rewrite Hq; by apply refused_throw_if.
Qed.

Lemma complete_ended b id t w r :
  stored b id = Some t -> may_act b t w -> terminal t -> completeTask id w r b = (b, Ok t).
Proof.
  intros Ht Hw Hterm. reveal completeTask. rewrite (bind_ok _ _ _ _ _ (requireTask_run id t b Ht)).
  rewrite (bind_ok _ _ _ _ _ (assertTaskWorker_run t w _ b Hw)). unfold terminal in Hterm.
  by rewrite Hterm.
Qed.

(** *** approveTask *)

Definition may_approve (r : TaskApprovalRequest) : Prop :=
  actor_id (ar_actor r) <> "" /\ isPrivilegedTaskApprover (ar_actor r) = true.

Definition approved_task (t : TaskRecord) (r : TaskApprovalRequest) (approvalId now : string) : TaskRecord :=
  let by_ := actor_id (ar_actor r) in
  let reason := normalizeApprovalReason (ar_reason r) in
  t <| task_approval := Some (mkTaskApprovalInfo approvalId now by_ (actor_role (ar_actor r))
                                (party_role (task_requester t)) reason) |>
    <| task_approvalOutcome := Some (mkTaskApprovalOutcomeInfo ApprovalApproved approvalId now by_
                                (actor_role (ar_actor r)) (party_role (task_requester t)) reason) |>
    <| task_status := TaskQueued |> <| task_updatedAt := now |>.

Lemma require_actor_run a b : actor_id a <> "" -> require_actor a b = (b, Ok tt).
Proof. intros Ha. apply throw_if_run. unfold str_truthy. by destruct (String.eqb_spec (actor_id a) ""). Qed.

Lemma require_actor_refused a b : actor_id a = "" -> refused (require_actor a) b.
Proof. intros Ha. unfold require_actor. rewrite Ha. eexists. reflexivity. Qed.

(** The approval id: the client's, or a fresh one. *)
Definition approval_id (b : Broker) (r : TaskApprovalRequest) : string :=
  normalizeApprovalId (ar_approvalId r) ?? host_uuid (br_uuids b).

Lemma approve_run b id t r :
  wf_broker b -> stored b id = Some t -> may_approve r -> gated t -> task_approval t = None ->
  task_status t ∈ [TaskBlocked; TaskQueued] ->
  writes (approveTask id r) b
    (approved_task t r (approval_id b r) (toISOString (host_clock (br_ticks b)))).
Proof.
  intros Hwf Ht [Hid Hp] Hg Ha Hs. assert (task_id t = id) as Hti by by apply (wf_tasks _ Hwf).
  reveal approveTask. run_pure. eapply writes_pure; [by apply require_actor_run|]. cbv beta.
  eapply writes_pure; [apply throw_if_run; by rewrite Hp|]. cbv beta.
  unfold gated in Hg. eapply writes_pure; [apply throw_if_run; by rewrite Hg|]. cbv beta. rewrite Ha.
  eapply writes_pure; [apply throw_if_run|].
  { rewrite !elem_of_cons, elem_of_nil in Hs. by destruct Hs as [->|[->|[]]]. }
  cbv beta. eapply writes_pure; [apply throw_if_run; by rewrite bool_decide_true|]. cbv beta. run_tick.
  set (now := toISOString _). unfold approval_id.
  assert (exists b1, (match normalizeApprovalId (ar_approvalId r) with
                      | Some a => m_ret a | None => randomUUID end) (tick b)
            = (b1, Ok (normalizeApprovalId (ar_approvalId r) ?? host_uuid (br_uuids b)))
          /\ holds t b1 /\ br_tasks b1 = br_tasks b) as (b1 & Hrun & Hh & Htk).
  { destruct (normalizeApprovalId (ar_approvalId r)); eexists; (split; [reflexivity|]); (split; [|done]).
    - apply holds_tick. split; [done|by rewrite Hti].
    - split; [apply (quiet_randomUUID (tick b)), wf_tick, Hwf|by rewrite Hti]. }
  eapply writes_after; [exact Hrun|intros i; left; unfold stored; by rewrite Htk|]. cbv beta zeta.
  fold (approved_task t r (normalizeApprovalId (ar_approvalId r) ?? host_uuid (br_uuids b)) now).
  set (t' := approved_task _ _ _ _).
  destruct (write_run (fun _ => False) t t'
    (syncExchangeStateFromTask t' ExchangeQueued;;;
     audit_task (actor_id (ar_actor r)) AuditTaskApproved t' (Some (normalizeApprovalReason (ar_reason r)
       ?? ("approvalId=" ++ (normalizeApprovalId (ar_approvalId r) ?? host_uuid (br_uuids b)))%string));;;
     persistState;;; emitTaskUpdate t' ReasonApproved;;; m_ret t') t' b1 Hh)
    as (b' & Hr & _ & Hwf' & Hk & Ho); [done| | | | |].
  - intros c. by apply MoveApprove.
  - apply quiet_commit_tail.
  - answers_auto.
  - repeat (apply yields_bind; intro). apply yields_ret.
  - exists b'. by split_and!.
Qed.

Lemma approve_again b id t r :
  stored b id = Some t -> may_approve r -> gated t -> is_Some (task_approval t) ->
  approveTask id r b = (b, Ok t).
Proof.
  intros Ht [Hid Hp] Hg [a Ha]. reveal approveTask.
  rewrite (bind_ok _ _ _ _ _ (requireTask_run id t b Ht)).
  rewrite (bind_ok _ _ _ _ _ (require_actor_run _ b Hid)), Hp.
  unfold gated in Hg. by rewrite Hg, Ha.
Qed.

Lemma approve_refused b id t r :
  stored b id = Some t ->
  ~ may_approve r \/ ~ gated t \/ (task_approval t = None /\ task_status t ∉ [TaskBlocked; TaskQueued]) ->
  refused (approveTask id r) b.
Proof.
  intros Ht Hn. reveal approveTask. refuse_next.
  destruct (decide (actor_id (ar_actor r) = "")) as [Ha|Ha]; [by apply refused_bind, require_actor_refused|].
  eapply refused_after; [by apply require_actor_run|]. cbv beta.
  destruct (isPrivilegedTaskApprover (ar_actor r)) eqn:Hp; [|by apply refused_throw_if]. refuse_next.
  destruct (requires_approval (task_policyContext t)) eqn:Hg; [|by apply refused_throw_if]. refuse_next.
  destruct Hn as [Hn|[Hn|[Hap Hs]]]; [by destruct Hn|done|]. rewrite Hap.
  destruct (isTerminalTaskStatus (task_status t)); [by apply refused_throw_if|]. refuse_next.
  apply refused_throw_if. by rewrite bool_decide_false.
Qed.

(** *** reassignTask *)

Definition may_reassign (r : TaskReassignRequest) : Prop :=
  actor_id (rr_actor r) <> ""
  /\ (role_is (actor_role (rr_actor r)) RoleHub || role_is (actor_role (rr_actor r)) RoleOperator) = true.

Definition next_target (t : TaskRecord) (r : TaskReassignRequest) : string :=
  rr_targetNodeId r ?? task_targetNodeId t.
Definition next_assigned (t : TaskRecord) (r : TaskReassignRequest) : string :=
  rr_assignedWorkerId r ??o rr_targetNodeId r ??o task_assignedWorkerId t ?? next_target t r.

Lemma requireWorker_run id w b : jm_get id (br_workers b) = Some w -> requireWorker id b = (b, Ok w).
Proof. unfold requireWorker, require, getWorker, gets_map, m_bind, m_gets. by intros ->. Qed.
Lemma requireWorker_refused id b : jm_get id (br_workers b) = None -> refused (requireWorker id) b.
Proof.
  intros Hn. eexists. unfold requireWorker, require, getWorker, gets_map, m_bind, m_gets. by rewrite Hn.
Qed.

Lemma not_roles a :
  negb (role_is (actor_role a) RoleHub) && negb (role_is (actor_role a) RoleOperator)
  = negb (role_is (actor_role a) RoleHub || role_is (actor_role a) RoleOperator).
Proof. by rewrite negb_orb. Qed.

Lemma reassign_run b id t r target assigned :
  wf_broker b -> stored b id = Some t -> may_reassign r -> active t ->
  jm_get (next_target t r) (br_workers b) = Some target ->
  jm_get (next_assigned t r) (br_workers b) = Some assigned ->
  writes (reassignTask id r) b
    (reassigned_task t target assigned (next_target t r) (toISOString (host_clock (br_ticks b)))).
Proof.
  intros Hwf Ht [Hid Hp] Ha Htg Has. assert (task_id t = id) as Hti by by apply (wf_tasks _ Hwf).
  reveal reassignTask. run_pure. eapply writes_pure; [by apply require_actor_run|]. cbv beta.
  eapply writes_pure; [apply throw_if_run; by rewrite not_roles, Hp|]. cbv beta.
  run_pure. cbv zeta. eapply writes_pure; [by apply requireWorker_run|]. cbv beta.
  eapply writes_pure; [by apply requireWorker_run|]. cbv beta. run_tick. cbv zeta.
  eapply (commit_run t); [|done|].
  - apply holds_tick. split; [done|by rewrite Hti].
  - intros c. by apply MoveReassign.
Qed.

Lemma reassign_refused b id t r :
  stored b id = Some t ->
  ~ may_reassign r \/ terminal t \/ jm_get (next_target t r) (br_workers b) = None
  \/ jm_get (next_assigned t r) (br_workers b) = None ->
  refused (reassignTask id r) b.
Proof.
  intros Ht Hn. reveal reassignTask. refuse_next.
  destruct (decide (actor_id (rr_actor r) = "")) as [Ha|Ha]; [by apply refused_bind, require_actor_refused|].
  eapply refused_after; [by apply require_actor_run|]. cbv beta. rewrite not_roles.
  destruct (_ || _) eqn:Hp; [|by apply refused_throw_if]. refuse_next.
  destruct (isTerminalTaskStatus (task_status t)) eqn:Hterm; [by apply refused_throw_if|]. refuse_next.
  cbv zeta. fold (next_target t r). fold (next_assigned t r).
  destruct (jm_get (next_target t r) (br_workers b)) as [tw|] eqn:Htw;
    [|by apply refused_bind, requireWorker_refused].
  eapply refused_after; [by apply requireWorker_run|]. cbv beta.
  destruct (jm_get (next_assigned t r) (br_workers b)) as [aw|] eqn:Haw;
    [|by apply refused_bind, requireWorker_refused].
  exfalso. unfold terminal in Hn. destruct Hn as [Hn|[Hn|[Hn|Hn]]]; [by destruct Hn|congruence..].
Qed.

(** *** createTask *)

Lemma readonly_cases {A} (m : BM A) b : readonly m -> refused m b \/ exists a, m b = (b, Ok a).
Proof.
  intros Hm. specialize (Hm b). destruct (m b) as [b' [a|e]] eqn:Hr; simpl in Hm; subst b'.
  - right. by exists a.
  - left. by exists e.
Qed.

Lemma existing_run r id t b :
  ct_id r = Some id -> id <> "" -> stored b id = Some t -> existing_task r b = (b, Ok (Some t)).
Proof.
  intros Hid Hne Ht. unfold existing_task, truthy_opt. rewrite Hid.
  assert (str_truthy id = true) as -> by by apply str_truthy_spec.
  unfold getTask, gets_map, m_gets, stored in *. by rewrite Ht.
Qed.

Lemma create_again r id t b :
  ct_id r = Some id -> id <> "" -> stored b id = Some t ->
  refused (createTask r) b \/ createTask r b = (b, Ok t).
Proof.
  intros Hid Hne Ht. unfold createTask, lift_result.
  destruct (normalizeGitHubPatchTaskRequest r) as [r'|e] eqn:Hn; [|left; by eexists].
  apply normalize_keeps_id in Hn. rewrite (bind_ok (m_ret r') _ b b r') by done.
  destruct (readonly_cases (assertTaskPayload r') b (readonly_assertTaskPayload r')) as [Hr|[[] Hr]];
    [left; eapply refused_after; [reflexivity|]; by apply refused_bind|].
  right. rewrite (bind_ok _ _ _ _ _ Hr).
  rewrite (bind_ok _ _ _ _ _ (existing_run r' id t b (eq_trans Hn Hid) Hne Ht)). done.
Qed.

Context (uuid_inj : forall m n, host_uuid m = host_uuid n -> m = n).

(** The id a new task gets. *)
Definition new_id (r : CreateTaskRequest) (b : Broker) : string := ct_id r ?? host_uuid (br_uuids b).

Definition creates (r : CreateTaskRequest) (b : Broker) (m : BM TaskRecord) : Prop :=
  exists b', let t := new_task r (new_id r b) (toISOString (host_clock (br_ticks b))) in
    m b = (b', Ok t) /\ wf_broker b' /\ stored b (new_id r b) = None
    /\ stored b' (new_id r b) = Some t
    /\ forall id, id <> new_id r b -> kept (stored b id) (stored b' id).

Lemma active_new r id now : active (new_task r id now).
Proof. unfold active. simpl. by destruct (requires_approval _). Qed.

Lemma insert_run r b :
  can_create (absent b) r b -> (forall id, ct_id r = Some id -> stored b id = None) ->
  creates r b (insert_task r).
Proof.
  intros [Hwf Hu Hid] Hfree. unfold creates, insert_task.
  rewrite (bind_ok _ _ _ _ _ (isoNow_run b)). set (now := toISOString _).
  assert (exists b1, (match ct_id r with Some id => m_ret id | None => randomUUID end) (tick b)
            = (b1, Ok (new_id r b)) /\ wf_broker b1 /\ br_tasks b1 = br_tasks b
            /\ stored b (new_id r b) = None /\ (forall n, br_uuids b1 <= n -> new_id r b <> host_uuid n))
    as (b1 & Hrun & Hwf1 & Ht1 & Hn & Hfr).
  { unfold new_id. destruct (ct_id r) as [id|] eqn:Hi; eexists; (split; [reflexivity|]).
    - destruct (Hid id eq_refl) as [_ Hf]. destruct (Hf (Hfree id eq_refl)) as [_ Hf'].
      split_and!; [apply wf_tick, Hwf|done|by apply Hfree|exact Hf'].
    - split_and!; [apply (quiet_randomUUID (tick b)), wf_tick, Hwf|done|by apply wf_fresh|].
      simpl. intros n Hle Heq. apply uuid_inj in Heq. lia. }
  rewrite (bind_ok _ _ _ _ _ Hrun). cbv zeta. set (t := new_task r (new_id r b) now).
  assert (wf_broker (setTaskRecord t b1).1) as Hwf2.
  { apply (evolves_new_record (fun _ => True) r (new_id r b) now b1); try done.
    rewrite Ht1. exact Hn. }
  match goal with |- context [(setTaskRecord t;;; ?k) b1] =>
    change ((setTaskRecord t;;; k) b1) with (k (setTaskRecord t b1).1);
    assert (preserves quiet k /\ answers k /\ yields t k) as (Hq & Ha & Hy) end.
  { split_and!; [preserves_auto|answers_auto|repeat (apply yields_bind; intro); apply yields_ret]. }
  destruct (Ha _ Hwf2) as [x Hr]. pose proof (Hy _ _ Hr) as ->. destruct (Hq _ Hwf2) as (Hwf3 & _ & Hk).
  match goal with |- context [?k (setTaskRecord t b1).1] => exists (k (setTaskRecord t b1).1).1 end.
  split_and!; [rewrite <- Hr; by apply surjective_pairing|done|done| |].
  - eapply kept_active; [apply Hk| |apply active_new]. apply jm_get_set_eq.
  - intros id Hne. specialize (Hk id). simpl in Hk. rewrite jm_get_set_ne, Ht1 in Hk by done. exact Hk.
Qed.

(** The checks of the payload do not read the state. *)
Lemma assertTaskPayload_anywhere r b s b1 :
  assertTaskPayload r b = (s, Ok tt) -> assertTaskPayload r b1 = (b1, Ok tt).
Proof.
  unfold assertTaskPayload, assertTerminalBriefMetadata, throw_if, throw, m_throw_if, m_throw, m_ret, m_bind.
  repeat case_match; simplify_eq/=; intros; simplify_eq; done.
Qed.

(** Every branch of createTask. *)
Lemma create_run r b :
  wf_broker b -> admissible r b ->
  refused (createTask r) b
  \/ (exists id t, ct_id r = Some id /\ stored b id = Some t /\ createTask r b = (b, Ok t))
  \/ (exists r', normalizeGitHubPatchTaskRequest r = Ok r' /\ creates r' b (createTask r)).
Proof.
  intros Hwf Hadm. unfold createTask, lift_result.
  destruct (normalizeGitHubPatchTaskRequest r) as [r'|e] eqn:Hn; [|left; by eexists].
  pose proof (normalize_keeps_id _ _ Hn) as Hid.
  assert (can_create (absent b) r' b) as Hc.
  { apply (can_create_same_id _ r); [done|]. split; [done|by apply wf_fresh|].
    intros id Hi. destruct (Hadm id Hi). eauto. }
  destruct (readonly_cases (assertTaskPayload r') b (readonly_assertTaskPayload r')) as [Hr|[[] Hr]].
  { left. eapply refused_after; [reflexivity|]. by apply refused_bind. }
  destruct (readonly_cases (existing_task r') b (readonly_existing_task r')) as [He|[[t|] He]].
  { left. eapply refused_after; [reflexivity|]. eapply refused_after; [exact Hr|]. by apply refused_bind. }
  { right. left. unfold existing_task in He. destruct (truthy_opt (ct_id r')) as [id|] eqn:Htr; [|done].
    assert (ct_id r' = Some id) as Hi.
    { unfold truthy_opt in Htr. destruct (ct_id r'); [|done]. by destruct (str_truthy _). }
    exists id, t. split_and!; [congruence| |].
    - by inversion He.
    - rewrite (bind_ok (m_ret r') _ b b r') by done. rewrite (bind_ok _ _ _ _ _ Hr).
      unfold existing_task. rewrite Htr. by rewrite (bind_ok _ _ _ _ _ He). }
  destruct (readonly_cases (check_task_references r') b (readonly_check_task_references r')) as [Hk|[[] Hk]].
  { left. eapply refused_after; [reflexivity|]. eapply refused_after; [exact Hr|].
    eapply refused_after; [exact He|]. by apply refused_bind. }
  right. right. exists r'. split; [done|]. unfold creates.
  rewrite (bind_ok (m_ret r') _ b b r') by done. rewrite (bind_ok _ _ _ _ _ Hr).
  rewrite (bind_ok _ _ _ _ _ He), (bind_ok _ _ _ _ _ Hk). apply insert_run; [done|].
  intros id Hi. eapply (existing_task_None (absent b)); [exact Hc|by rewrite He|done].
Qed.

(** A repeated creation finds the record it made. *)
Lemma create_twice r b id b' t :
  wf_broker b -> admissible r b -> ct_id r = Some id -> createTask r b = (b', Ok t) ->
  createTask r b' = (b', Ok t).
Proof.
  intros Hwf Hadm Hid Hrun. destruct (Hadm id Hid) as [Hne _].
  assert (forall c, stored c id = Some t -> ~ refused (createTask r) c -> createTask r c = (c, Ok t)) as Hagain.
  { intros c Hc Hnr. by destruct (create_again r id t c Hid Hne Hc). }
  destruct (create_run r b Hwf Hadm) as [[e He]|[(i & t0 & Hi & Ht & He)|(r' & Hr & Hcr)]].
  - congruence.
  - rewrite Hrun in He. injection He as -> ->. done.
  - pose proof Hr as Hr'. apply normalize_keeps_id in Hr'.
    destruct Hcr as (b1 & He & Hwf1 & _ & Hst & _). rewrite Hrun in He. injection He as -> ->.
    assert (new_id r' b = id) as Hnid by (unfold new_id; by rewrite Hr', Hid).
    rewrite Hnid in *. apply Hagain; [done|]. intros [e He].
    (* the payload checks passed before, and do not depend on the state *)
    unfold createTask, lift_result in Hrun, He. rewrite Hr in Hrun, He.
    rewrite (bind_ok (m_ret r') _ b b r') in Hrun by done.
    rewrite (bind_ok (m_ret r') _ b1 b1 r') in He by done.
    apply bind_inv_ok in Hrun as (s1 & [] & Hp & _).
    rewrite (bind_ok _ _ _ _ _ (assertTaskPayload_anywhere r' b s1 b1 Hp)) in He.
    rewrite (bind_ok _ _ _ _ _ (existing_run r' id _ b1 (eq_trans Hr' Hid) Hne Hst)) in He. done.
Qed.

(** Whether a new task waits for approval, in terms of the client's request. *)
Lemma new_task_blocked r r' id now :
  normalizeGitHubPatchTaskRequest r = Ok r' ->
  task_status (new_task r' id now) = TaskBlocked <->
    isTaskApprovalRequired r = true /\ (ct_policyContext r ≫= pc_requiresApproval) <> Some false.
Proof.
  intros (o & p & ->)%normalize_shape. simpl.
  change (normalizeTaskPolicyContext _) with (normalizeTaskPolicyContext r).
  rewrite normalize_requires_approval. destruct (isTaskApprovalRequired r); simpl; [|naive_solver].
  case_bool_decide; simpl; naive_solver.
Qed.
End Handlers.
