(* ===== verification/Requeue.v ===== *)
(** * What the stale-task reaper does

    [requeueStaleTasksDetailed] (src/core/broker.ts) never throws, and gives every
    stored task exactly the record [requeue_result] computes from it. *)

From Stdlib Require Import ZArith Lia String.
From stdpp Require Import base gmap strings list pretty relations.
From S2P Require Import Prelude JsRuntime Types Policy Retention BrokerCore CoreFacts Workers.
From S2P Require Import Proposals Github TerminalBrief Tasks TaskMachine TaskFacts TaskRuns.

Section Requeue.
Context `{JsHost} `{TaskEventSink} `{BrokerConfig}.
Context (thresholdMs nowMs : Z) (staleWorkerIds : list string).

Definition requeue_reason (t : TaskRecord) : option string :=
  getTaskRequeueReason t thresholdMs staleWorkerIds nowMs.

(** The cap on automatic requeues is reached; a cap of zero means none. *)
Definition exhausted (t : TaskRecord) : bool :=
  (0 <? cfg_maxRequeueAttempts)%Z && (cfg_maxRequeueAttempts <=? task_requeueCount t ?? 0)%Z.

(** The record a task has after the reaper ran. *)
Definition requeue_result (t : TaskRecord) : TaskRecord :=
  match requeue_reason t with
  | None => t
  | Some reason => if exhausted t then dead_lettered_task t (toISOString nowMs) reason
                   else requeued_task t (toISOString nowMs)
  end.

Definition is_requeued (t : TaskRecord) : bool := is_some (requeue_reason t) && negb (exhausted t).
Definition is_dead_lettered (t : TaskRecord) : bool := is_some (requeue_reason t) && exhausted t.

(** What the reaper reports about the tasks [l]. *)
Definition requeue_report (l : list TaskRecord) : RequeueOutcome := {|
  ro_requeued := map requeue_result (List.filter is_requeued l);
  ro_deadLettered := map requeue_result (List.filter is_dead_lettered l) |}.

Lemma requeue_result_id t : task_id (requeue_result t) = task_id t.
Proof. unfold requeue_result. by repeat case_match. Qed.

(** A record written recently enough, by a worker that is there, is left alone. *)
Lemma fresh_reason t ms :
  iso_range ms -> task_updatedAt t = toISOString ms -> (nowMs - ms < thresholdMs)%Z ->
  (forall w, task_claimedBy t = Some w -> w ∉ staleWorkerIds) -> requeue_reason t = None.
Proof.
  intros Hms Hu Hlt Hw. unfold requeue_reason, getTaskRequeueReason, or_string.
  rewrite Hu, toISOString_truthy, (date_parse_toISOString ms Hms).
  assert ((thresholdMs <=? nowMs - ms)%Z = false) as -> by lia.
  destruct (negb _); [done|]. destruct (ostr_truthy _); [done|].
  destruct (truthy_opt (task_claimedBy t)) as [w|] eqn:Hc; [|done].
  rewrite bool_decide_false; [done|]. apply Hw. unfold truthy_opt in Hc.
  destruct (task_claimedBy t); [|done]. by destruct (str_truthy _).
Qed.

(** Write a record, then do steps that leave the tasks map alone. *)
Lemma set_run_same {A} t t' (tail : BM A) (a : A) b :
  holds t b -> task_id t' = task_id t -> (forall c, task_move c (Some t) (Some t')) ->
  preserves quiet tail -> preserves same_tasks tail -> answers tail -> yields a tail ->
  exists b', (setTaskRecord t';;; tail) b = (b', Ok a) /\ wf_broker b'
    /\ br_tasks b' = jm_set (task_id t) t' (br_tasks b).
Proof.
  intros [Hwf Ht] Hid Hm Hq Hs Ha Hy.
  assert (wf_broker (setTaskRecord t' b).1) as Hwf1
    by (apply wf_set_task; [rewrite Hid; eauto|done]).
  destruct (Ha _ Hwf1) as [x Hx]. pose proof (Hy _ _ Hx) as ->.
  exists (tail (setTaskRecord t' b).1).1. split_and!.
  - change ((setTaskRecord t';;; tail) b) with (tail (setTaskRecord t' b).1).
    rewrite <- Hx. by destruct (tail _).
  - by apply (Hq _ Hwf1).
  - rewrite <- Hid. apply (Hs (setTaskRecord t' b).1).
Qed.

Lemma requeue_one_run t out b :
  holds t b ->
  exists b', requeue_one thresholdMs nowMs staleWorkerIds t out b
    = (b', Ok (mkRequeueOutcome (ro_requeued out ++ ro_requeued (requeue_report [t]))
                (ro_deadLettered out ++ ro_deadLettered (requeue_report [t]))))
    /\ wf_broker b' /\ stored b' (task_id t) = Some (requeue_result t)
    /\ forall id, id <> task_id t -> stored b' id = stored b id.
Proof.
  intros Hh. unfold requeue_one. fold (requeue_reason t).
  unfold requeue_report, requeue_result, is_requeued, is_dead_lettered. simpl.
  destruct (requeue_reason t) as [reason|] eqn:Hr; simpl.
  - pose proof (requeue_reason_in_progress _ _ _ _ _ Hr) as Hp. fold (exhausted t).
    assert (forall (m : BM RequeueOutcome) a, (exists b', m b = (b', Ok a) /\ wf_broker b'
        /\ br_tasks b' = jm_set (task_id t) (requeue_result t) (br_tasks b)) ->
      exists b', m b = (b', Ok a) /\ wf_broker b' /\ stored b' (task_id t) = Some (requeue_result t)
        /\ forall id, id <> task_id t -> stored b' id = stored b id) as Hset.
    { intros m a (b' & Hrun & Hwf' & Hb'). exists b'. unfold stored. rewrite Hb'.
      split_and!; [done|done|apply jm_get_set_eq|]. intros id Hne. by rewrite jm_get_set_ne. }
    unfold requeue_result in Hset. rewrite Hr in Hset.
    destruct (exhausted t) eqn:Hc; simpl; rewrite ?Hr, ?Hc, ?app_nil_r; cbv zeta; apply Hset;
      (apply (set_run_same t); [done|done|intros c| | | |]).
    1: apply MoveDeadLetter; [done|unfold exhausted in Hc; lia].
    5: apply MoveRequeue; [done|by apply requeue_cap_false].
    all: lazymatch goal with
    | |- preserves quiet _ => preserves_auto
    | |- preserves same_tasks _ => preserves_auto
    | |- answers _ => answers_auto
    | |- yields _ _ => repeat (apply yields_bind; intro); apply yields_ret
    end.
  - exists b. destruct Hh as [Hwf Ht]. rewrite !app_nil_r. split_and!; [by destruct out|done..].
Qed.

Lemma requeue_loop_run l out b :
  holds_all l b ->
  exists b', requeue_loop thresholdMs nowMs staleWorkerIds l out b
    = (b', Ok (mkRequeueOutcome (ro_requeued out ++ ro_requeued (requeue_report l))
                (ro_deadLettered out ++ ro_deadLettered (requeue_report l))))
    /\ wf_broker b' /\ (forall t, t ∈ l -> stored b' (task_id t) = Some (requeue_result t))
    /\ forall id, id ∉ map task_id l -> stored b' id = stored b id.
Proof.
  revert out b. induction l as [|t l IH]; intros out b (Hwf & Hnd & Hl); simpl.
  - exists b. unfold requeue_report. simpl. rewrite !app_nil_r.
    split_and!; [by destruct out|done|set_solver|done].
  - simpl in Hnd. apply NoDup_cons in Hnd as [Hni Hnd].
    destruct (requeue_one_run t out b) as (b1 & Hrun & Hwf1 & Ht1 & Ho1); [split; [done|apply Hl; set_solver]|].
    rewrite (bind_ok _ _ _ _ _ Hrun).
    assert (forall t', t' ∈ l -> task_id t' <> task_id t) as Hne.
    { intros t' Hin Heq. apply Hni. rewrite <- Heq. apply list_elem_of_fmap. eauto. }
    destruct (IH (mkRequeueOutcome (ro_requeued out ++ ro_requeued (requeue_report [t]))
                (ro_deadLettered out ++ ro_deadLettered (requeue_report [t]))) b1)
      as (b2 & Hrun2 & Hwf2 & Ht2 & Ho2).
    { split_and!; [done|done|]. intros t' Hin. change (stored b1 (task_id t') = Some t').
      rewrite Ho1 by by apply Hne. apply Hl. set_solver. }
    exists b2. split_and!; [|done| |].
    + rewrite Hrun2. unfold requeue_report. simpl.
      destruct (is_requeued t), (is_dead_lettered t); simpl; by rewrite <- ?app_assoc, ?app_nil_r.
    + intros t' [->|Hin]%elem_of_cons; [|by apply Ht2]. by rewrite Ho2.
    + intros id Hni'. rewrite elem_of_cons in Hni'. rewrite Ho2 by tauto. apply Ho1. tauto.
Qed.
End Requeue.

Section Reaper.
Context `{JsHost} `{TaskEventSink} `{BrokerConfig}.

Lemma answers_for {A} (l : list A) (f : A -> BM unit) :
  (forall a, preserves quiet (f a)) -> (forall a, answers (f a)) -> answers (m_for l f).
Proof.
  intros Hq Ha. induction l as [|a l IH]; simpl; [apply answers_ret|].
  by apply answers_bind.
Qed.

(** The instant the reaper works with, and the workers it takes to be gone. *)
Definition reaper_now (nowMs : option Z) (b : Broker) : Z := nowMs ?? host_clock (br_ticks b).
Definition reaper_workers (offline : option Z) (now : Z) (b : Broker) : list string :=
  match offline with
  | Some w => if negb (w =? 0)%Z && (0 <=? w)%Z then listStaleWorkerIds w now b else []
  | None => []
  end.

Lemma reaper_run older nowMs offline b :
  wf_broker b ->
  let now := reaper_now nowMs b in
  let stale := reaper_workers offline now b in
  exists b', requeueStaleTasksDetailed older nowMs offline b
    = (b', Ok (requeue_report (Z.max 0 older) now stale (jm_values (br_tasks b))))
    /\ wf_broker b'
    /\ (forall id t, stored b id = Some t ->
          kept (Some (requeue_result (Z.max 0 older) now stale t)) (stored b' id))
    /\ forall id, stored b id = None -> stored b' id = None.
Proof.
  intros Hwf now stale. unfold requeueStaleTasksDetailed. cbv zeta.
  assert (exists b0, (match nowMs with Some t => m_ret t | None => now_ms end) b = (b0, Ok now)
    /\ wf_broker b0 /\ br_tasks b0 = br_tasks b /\ br_workers b0 = br_workers b) as (b0 & Hn & Hwf0 & Ht0 & Hw0).
  { subst now. unfold reaper_now. destruct nowMs; eexists; (split; [reflexivity|]); [done|].
    split; [by apply wf_tick|done]. }
  rewrite (bind_ok _ _ _ _ _ Hn). unfold m_bind at 1, m_get.
  assert (match offline with
          | Some w => if negb (w =? 0)%Z && (0 <=? w)%Z then listStaleWorkerIds w now b0 else []
          | None => [] end = stale) as ->.
  { subst stale. unfold reaper_workers, listStaleWorkerIds. by rewrite Hw0. }
  destruct (requeue_loop_run (Z.max 0 older) now stale (jm_values (br_tasks b0)) (mkRequeueOutcome [] []) b0)
    as (b1 & Hrun & Hwf1 & Hin & Hout).
  { split_and!; [done|by apply keyed_ids_NoDup, wf_tasks|].
    intros t Hint. by apply (keyed_value task_id), Hint; apply wf_tasks. }
  rewrite (bind_ok _ _ _ _ _ Hrun). simpl. rewrite Ht0 in *.
  set (out := requeue_report _ _ _ _).
  change (mkRequeueOutcome (ro_requeued out) (ro_deadLettered out)) with out in *.
  match goal with |- context [?m b1] => assert (preserves quiet m /\ answers m /\ yields out m) as (Hq & Ha & Hy) end.
  { split_and!; [preserves_auto| |repeat (apply yields_bind; intro); apply yields_ret].
    answers_auto; (apply answers_for; intros; [preserves_auto|eauto with answers_db]). }
  destruct (Ha b1 Hwf1) as [a Hr]. pose proof (Hy b1 a Hr) as ->. destruct (Hq b1 Hwf1) as (Hwf2 & _ & Hk).
  match goal with |- context [?m b1] => exists (m b1).1; set (b2 := (m b1).1) in * end.
  split_and!; [rewrite <- Hr; by apply surjective_pairing|done| |].
  - intros id t Ht. assert (task_id t = id) as <- by by apply (wf_tasks _ Hwf).
    rewrite <- (Hin t); [apply Hk|]. apply (keyed_value task_id); [by apply wf_tasks|done].
  - intros id Hn'. assert (stored b1 id = None) as Hn1.
    { rewrite Hout; [unfold stored; by rewrite Ht0|]. intros Hi.
      apply list_elem_of_fmap in Hi as (t & -> & Hi). apply (keyed_value task_id) in Hi; [|by apply wf_tasks].
      unfold stored in Hn'. congruence. }
    pose proof (Hk id) as Hkid. unfold stored in *. rewrite Hn1 in Hkid.
    destruct Hkid as [->|(? & ? & _)]; [done|congruence].
Qed.
End Reaper.
