(* ===== verification/Cancellation.v ===== *)
(** * The fan-out of a cancellation

    [cancelTaskTree] (src/core/broker.ts) cancels a task and, through the parent
    links, every descendant it reaches along tasks that are not terminal.  Shown
    here: the fuel suffices and no error is thrown from a well-formed store, every
    task so reached ends canceled, and every other task is left alone. *)

From Stdlib Require Import ZArith Lia String.
From stdpp Require Import base gmap strings list pretty relations.
From S2P Require Import Prelude JsRuntime Types Policy Retention BrokerCore CoreFacts Workers.
From S2P Require Import Proposals Github TerminalBrief Tasks TaskMachine TaskFacts TaskRuns.

Section Cancellation.
Context `{JsHost} `{TaskEventSink} `{BrokerConfig}.

(** ** One record *)

Definition stored_active (b : Broker) (id : string) : Prop :=
  exists t, stored b id = Some t /\ active t.

(** The task under [id] was canceled (and perhaps already dropped by retention). *)
Definition ended (b : Broker) (id : string) : Prop :=
  forall t, stored b id = Some t -> task_status t = TaskCanceled.

(** What a caller may pass: the stored record, or that record with a negative
    approval outcome written to it. *)
Definition cancelable (b : Broker) (task : TaskRecord) : Prop :=
  exists t o, stored b (task_id task) = Some t /\ active t /\ task_id t = task_id task
    /\ task = t <| task_approvalOutcome := o |>
    /\ (o = task_approvalOutcome t \/ task_approval t = None).

Lemma stored_cancelable b t :
  stored b (task_id t) = Some t -> active t -> cancelable b t.
Proof. intros Hs Ha. exists t, (task_approvalOutcome t). split_and!; try done; [by destruct t|by left]. Qed.

Lemma cancelTaskRecord_ok N task p b :
  wf_broker b -> cancelable b task ->
  exists b' t', cancelTaskRecord task p b = (b', Ok t')
    /\ evolves N b b' /\ wf_broker b'
    /\ (exists now, t' = canceled_task task p now)
    /\ ended b' (task_id task)
    /\ (forall id, id <> task_id task -> kept (stored b id) (stored b' id)).
Proof.
  intros Hwf (t & o & Hs & Ha & Hid & Heq & Ho). unfold cancelTaskRecord.
  rewrite (bind_ok _ _ _ _ _ (isoNow_run b)). cbv zeta.
  set (now := toISOString _). set (t' := canceled_task task p now).
  destruct (write_run N t t' (syncExchangeStateFromTask t' ExchangeQueued;;;
      audit_task (cn_actorId p) AuditTaskCanceled t' (cn_reason p);;;
      persistState;;; emitTaskUpdate t' ReasonCanceled;;;
      writeTombstone t' TombstoneCanceled (Some (Some (cn_actorId p), cn_reason p));;; m_ret t') t' (tick b))
    as (b' & Hrun & He & Hwf' & Hk & Hother).
  - apply holds_tick. split; [done|]. rewrite Hid. exact Hs.
  - symmetry. exact Hid.
  - intros c. unfold t'. rewrite Heq. by apply MoveCancel.
  - preserves_auto.
  - answers_auto.
  - repeat (apply yields_bind; intro). apply yields_ret.
  - exists b', t'. rewrite Hid in *. split_and!.
    + exact Hrun.
    + transitivity (tick b); [apply evolves_tick|done].
    + done.
    + by exists now.
    + intros t1 Ht1. destruct Hk as [Hk|(? & _ & _ & Hk)]; rewrite Hk in Ht1; [|done].
      inversion Ht1. done.
    + exact Hother.
Qed.

(** ** The specification: descendants along tasks that are not terminal *)

(** [reaches b root i]: following child links from [root] through stored tasks
    that are not terminal, one comes to [i]. *)
Inductive reaches (b : Broker) (root : string) : string -> Prop :=
| ReachRoot : stored_active b root -> reaches b root root
| ReachChild q c t :
    reaches b root q -> stored b c = Some t -> active t -> task_parentTaskId t = Some q ->
    reaches b root c.

Lemma reaches_active b root i : reaches b root i -> stored_active b i.
Proof. intros [Hr|q c t _ Hc Ha _]; [done|by exists t]. Qed.

Lemma reaches_root_active b root i : reaches b root i -> stored_active b root.
Proof. by induction 1. Qed.

(** Links between active tasks of a later state were there before. *)
Lemma reaches_before b b1 root i :
  (forall i t, stored b1 i = Some t -> active t -> stored b i = Some t) ->
  reaches b1 root i -> reaches b root i.
Proof.
  intros Hback. induction 1 as [(t & Ht & Ha)|q c t _ IH Hc Ha Hp].
  - apply ReachRoot. exists t. eauto.
  - eapply ReachChild; eauto.
Qed.

Lemma reaches_from_child b root c t i :
  stored_active b root -> stored b c = Some t -> task_parentTaskId t = Some root ->
  reaches b c i -> reaches b root i.
Proof.
  intros Hroot Hc Hp. induction 1 as [(t' & Ht' & Ha)|q c' t' _ IH Hc' Ha Hp'].
  - eapply ReachChild; [by apply ReachRoot|exact Ht'|done|congruence].
  - by eapply ReachChild.
Qed.

(** ** The effect of the fan-out *)

(** The ids the walk added between [visited] and [visited']. *)
Definition fresh_in (visited visited' : list string) (i : string) : Prop :=
  i ∈ visited' /\ i ∉ visited.

(** [roots]: the ids the walk started from. *)
Record fan_out (roots : string -> Prop) (b b' : Broker) (visited visited' : list string) : Prop := {
  fo_wf : wf_broker b';
  fo_mono i : i ∈ visited -> i ∈ visited';
  fo_active i : fresh_in visited visited' i -> stored_active b i;
  fo_ended i : fresh_in visited visited' i -> ended b' i;
  fo_kept i : ~ fresh_in visited visited' i -> kept (stored b i) (stored b' i);
  fo_children i c t : fresh_in visited visited' i -> stored b c = Some t -> active t ->
    task_parentTaskId t = Some i -> c ∈ visited';
  fo_origin i : fresh_in visited visited' i -> exists r, roots r /\ reaches b r i;
}.

Lemma fresh_in_dec visited visited' i : fresh_in visited visited' i \/ ~ fresh_in visited visited' i.
Proof.
  unfold fresh_in. destruct (decide (i ∈ visited')), (decide (i ∈ visited)); tauto.
Qed.

Lemma ended_inactive b i : ended b i -> ~ stored_active b i.
Proof. intros He (t & Hs & Ha). unfold active in Ha. by rewrite (He t Hs) in Ha. Qed.

Lemma kept_stored_active o o' t : kept o o' -> o' = Some t -> o = Some t.
Proof. intros [->|(? & _ & _ & ->)]; [done|done]. Qed.

Lemma fan_out_refl roots b visited :
  wf_broker b -> fan_out roots b b visited visited.
Proof.
  intros Hwf. split; unfold fresh_in; try done; intros; tauto.
Qed.

(** What was visited stays inactive. *)
Definition spent (b : Broker) (visited : list string) : Prop :=
  forall i, i ∈ visited -> ~ stored_active b i.

Lemma fan_out_spent roots b b' visited visited' :
  fan_out roots b b' visited visited' -> spent b visited -> spent b' visited'.
Proof.
  intros F Hs i Hi. destruct (decide (i ∈ visited)) as [Hv|Hv].
  - intros (t & Ht & Ha). apply (Hs i Hv). exists t. split; [|done].
    eapply kept_stored_active; [apply (fo_kept _ _ _ _ _ F)|exact Ht]. unfold fresh_in. tauto.
  - apply ended_inactive, (fo_ended _ _ _ _ _ F). by split.
Qed.

Lemma fan_out_trans R1 R2 b b1 b2 v v1 v2 :
  spent b v -> fan_out R1 b b1 v v1 -> fan_out R2 b1 b2 v1 v2 ->
  fan_out (fun i => R1 i \/ R2 i) b b2 v v2.
Proof.
  intros Hsp F1 F2.
  pose proof (fan_out_spent _ _ _ _ _ F1 Hsp) as Hsp1.
  assert (forall i, fresh_in v v2 i -> fresh_in v v1 i \/ (fresh_in v1 v2 i /\ ~ fresh_in v v1 i)) as Hcase.
  { unfold fresh_in. intros i [H2 Hn]. destruct (decide (i ∈ v1)); tauto. }
  assert (forall i, fresh_in v v1 i -> fresh_in v v2 i) as Hup1.
  { intros i [Hi Hn]. split; [|done]. by apply (fo_mono _ _ _ _ _ F2). }
  assert (forall i, fresh_in v1 v2 i -> fresh_in v v2 i) as Hup2.
  { intros i [Hi Hn]. split; [done|]. intros Hv. by apply Hn, (fo_mono _ _ _ _ _ F1). }
  split.
  - apply F2.
  - intros i Hi. by apply (fo_mono _ _ _ _ _ F2), (fo_mono _ _ _ _ _ F1).
  - intros i Hi. destruct (Hcase i Hi) as [Hf|[Hf Hn]]; [by apply (fo_active _ _ _ _ _ F1)|].
    destruct (fo_active _ _ _ _ _ F2 i Hf) as (t & Ht & Ha). exists t. split; [|done].
    eapply kept_stored_active; [by apply (fo_kept _ _ _ _ _ F1)|done].
  - intros i Hi. destruct (Hcase i Hi) as [Hf|[Hf _]]; [|by apply (fo_ended _ _ _ _ _ F2)].
    intros t Ht. eapply (fo_ended _ _ _ _ _ F1 i Hf).
    eapply kept_stored_active; [apply (fo_kept _ _ _ _ _ F2)|exact Ht].
    intros [_ Hn]. by apply Hn, Hf.
  - intros i Hi. transitivity (stored b1 i).
    + apply (fo_kept _ _ _ _ _ F1). eauto.
    + apply (fo_kept _ _ _ _ _ F2). eauto.
  - intros i c t Hi Hc Ha Hp. destruct (Hcase i Hi) as [Hf|[Hf _]].
    + by eapply (fo_mono _ _ _ _ _ F2), (fo_children _ _ _ _ _ F1).
    + destruct (fresh_in_dec v v1 c) as [Hfc|Hfc]; [apply (Hup1 c Hfc)|].
      eapply (fo_children _ _ _ _ _ F2); [exact Hf| |exact Ha|exact Hp].
      eapply kept_active; [apply (fo_kept _ _ _ _ _ F1 _ Hfc)|exact Hc|exact Ha].
  - intros i Hi. destruct (Hcase i Hi) as [Hf|[Hf Hn]].
    + destruct (fo_origin _ _ _ _ _ F1 i Hf) as (r & Hr & Hreach). eauto.
    + destruct (fo_origin _ _ _ _ _ F2 i Hf) as (r & Hr & Hreach). exists r. split; [by right|].
      eapply reaches_before; [|exact Hreach]. intros j t Hj Ha.
      eapply kept_stored_active; [apply (fo_kept _ _ _ _ _ F1)|exact Hj].
      intros Hfj. apply (ended_inactive _ _ (fo_ended _ _ _ _ _ F1 j Hfj)). by exists t.
Qed.

Lemma fan_out_roots (R R' : string -> Prop) b b' v v' :
  (forall i, stored_active b i -> R i -> R' i) -> fan_out R b b' v v' -> fan_out R' b b' v v'.
Proof.
  intros HR [? ? ? ? ? ? Ho]. split; try done. intros i Hi.
  destruct (Ho i Hi) as (r & Hr & Hreach). eauto using reaches_root_active.
Qed.

(** ** The fuel *)

Definition active_ids (b : Broker) : gset string :=
  ids_of (map task_id (List.filter (fun t => negb (isTerminalTaskStatus (task_status t)))
    (jm_values (br_tasks b)))).

Lemma elem_of_active_ids b i : wf_broker b -> i ∈ active_ids b <-> stored_active b i.
Proof.
  intros Hwf. unfold active_ids, stored_active, stored, active.
  rewrite elem_of_ids_of, list_elem_of_fmap. split.
  - intros (t & -> & Hin). apply list_elem_of_In, filter_In in Hin as [Hin Ha].
    apply list_elem_of_In in Hin. exists t. split; [|by apply negb_true_iff].
    by apply (keyed_value task_id), Hin; apply wf_tasks.
  - intros (t & Ht & Ha). exists t.
    assert (task_id t = i) as Hid by by apply (wf_tasks _ Hwf). split; [done|].
    apply list_elem_of_In, filter_In. split; [|by rewrite Ha].
    apply list_elem_of_In, (keyed_value task_id); [by apply wf_tasks|by rewrite Hid].
Qed.

Lemma active_ids_bound b : size (active_ids b) <= length (br_tasks b).
Proof.
  unfold active_ids. etransitivity; [apply size_ids_of|]. rewrite length_map.
  etransitivity; [apply filter_length_le|]. unfold jm_values. by rewrite length_map.
Qed.

Lemma fan_out_active R b b' v v' i :
  fan_out R b b' v v' -> stored_active b' i -> stored_active b i.
Proof.
  intros F Ha. destruct (fresh_in_dec v v' i) as [Hf|Hf].
  - by destruct (ended_inactive b' i (fo_ended _ _ _ _ _ F i Hf)).
  - destruct Ha as (t & Ht & Ha). exists t. split; [|done].
    eapply kept_stored_active; [by apply (fo_kept _ _ _ _ _ F)|done].
Qed.

Lemma fan_out_active_ids R b b' v v' :
  wf_broker b -> fan_out R b b' v v' -> active_ids b' ⊆ active_ids b.
Proof.
  intros Hwf F i. rewrite !elem_of_active_ids; [by eapply fan_out_active|done|apply F].
Qed.

(** ** The walk *)

Definition tree_spec (fuel : nat) : Prop := forall N task p visited b,
  wf_broker b -> cancelable b task -> task_id task ∉ visited -> spent b visited ->
  size (active_ids b) < fuel ->
  exists b' t' visited', cancelTaskTree fuel task p visited b = (b', Ok (t', visited'))
    /\ evolves N b b' /\ fan_out (eq (task_id task)) b b' visited visited'
    /\ task_id task ∈ visited' /\ exists now, t' = canceled_task task p now.

Lemma cancel_children_ok fuel N p rid cs visited b :
  tree_spec fuel -> wf_broker b -> NoDup (map task_id cs) ->
  (forall c, c ∈ cs -> task_parentTaskId c = Some rid) ->
  (forall c, c ∈ cs -> active c -> stored b (task_id c) = Some c) ->
  rid ∈ visited -> spent b visited -> size (active_ids b) < fuel ->
  exists b' visited', cancel_children (fun c => cancelTaskTree fuel c p) cs visited b = (b', Ok visited')
    /\ evolves N b b' /\ fan_out (fun i => i ∈ map task_id cs) b b' visited visited'
    /\ forall c, c ∈ cs -> active c -> task_id c ∈ visited'.
Proof.
  intros Htree. revert visited b. induction cs as [|c cs IH]; intros visited b Hwf Hnd Hpar Hst Hrid Hsp Hfuel.
  { exists b, visited. split_and!; [done|reflexivity|by apply fan_out_refl|set_solver]. }
  simpl in Hnd. apply NoDup_cons in Hnd as [Hni Hnd]. simpl.
  destruct (isTerminalTaskStatus (task_status c)) eqn:Hterm.
  - destruct (IH visited b) as (b' & v' & Hrun & He & F & Hall); try done; [set_solver..|].
    exists b', v'. split_and!; [done..| |].
    + eapply fan_out_roots; [|done]. intros i _ Hi. by apply elem_of_cons; right.
    + intros c' [->|Hin]%elem_of_cons Ha; [|by apply Hall]. unfold active in Ha. congruence.
  - assert (stored b (task_id c) = Some c) as Hc by (apply Hst; [set_solver|done]).
    assert (task_id c ∉ visited) as Hcv by (intros Hin; apply (Hsp _ Hin); by exists c).
    destruct (Htree N c p visited b) as (b1 & t1 & v1 & Hrun1 & He1 & F1 & Hin1 & _);
      [done|by apply stored_cancelable|done..|].
    pose proof (fan_out_active_ids _ _ _ _ _ Hwf F1) as Hsub. apply subseteq_size in Hsub.
    destruct (IH v1 b1) as (b2 & v2 & Hrun2 & He2 & F2 & Hall).
    + apply F1.
    + done.
    + set_solver.
    + intros c' Hc' Ha. eapply kept_active; [apply (fo_kept _ _ _ _ _ F1)| |exact Ha].
      * intros Hf. destruct (fo_origin _ _ _ _ _ F1 _ Hf) as (r & <- & Hreach).
        inversion Hreach as [|q ? t Hq Ht _ Hp]; subst.
        -- apply Hni. apply list_elem_of_fmap. eauto.
        -- rewrite (Hst c') in Ht by (try done; set_solver). injection Ht as <-.
           rewrite (Hpar c') in Hp by set_solver. injection Hp as <-.
           apply (Hsp rid Hrid). by eapply reaches_active.
      * apply Hst; [set_solver|done].
    + by apply (fo_mono _ _ _ _ _ F1).
    + by eapply fan_out_spent.
    + lia.
    + exists b2, v2. rewrite (bind_ok _ _ _ _ _ Hrun1). split_and!; [done|by transitivity b1| |].
      * eapply fan_out_roots; [|by eapply fan_out_trans]. simpl.
        intros i _ [<-|Hi]; apply elem_of_cons; auto.
      * intros c' [->|Hin]%elem_of_cons Ha; [by apply (fo_mono _ _ _ _ _ F2)|by apply Hall].
Qed.

Lemma elem_of_listChildTasks b rid c :
  c ∈ listChildTasks rid b <-> c ∈ jm_values (br_tasks b) /\ task_parentTaskId c = Some rid.
Proof.
  unfold listChildTasks. rewrite elem_of_js_sort, list_elem_of_In, filter_In, <- list_elem_of_In.
  by rewrite bool_decide_eq_true.
Qed.

Lemma NoDup_filter_ids (p : TaskRecord -> bool) l :
  NoDup (map task_id l) -> NoDup (map task_id (List.filter p l)).
Proof.
  induction l as [|t l IH]; simpl; [done|]. rewrite NoDup_cons. intros [Hni Hnd].
  destruct (p t); simpl; [|by apply IH]. apply NoDup_cons. split; [|by apply IH].
  intros Hin. apply Hni. apply list_elem_of_fmap in Hin as (t' & -> & Hin).
  apply list_elem_of_fmap. exists t'. split; [done|].
  apply list_elem_of_In, filter_In in Hin as [Hin _]. by apply list_elem_of_In.
Qed.

Lemma NoDup_listChildTasks b rid : wf_broker b -> NoDup (map task_id (listChildTasks rid b)).
Proof.
  intros Hwf. unfold listChildTasks.
  rewrite (Permutation_map task_id (js_sort_perm _ _)).
  by apply NoDup_filter_ids, keyed_ids_NoDup, wf_tasks.
Qed.

(** Canceling the root is a walk of one step, but for its children. *)
Lemma cancel_root_active b b' i id :
  ended b' id -> (forall id', id' <> id -> kept (stored b id') (stored b' id')) ->
  stored_active b' i -> stored_active b i /\ i <> id.
Proof.
  intros He Hk (t & Ht & Ha). assert (i <> id) as Hne.
  { intros ->. apply (ended_inactive _ _ He). by exists t. }
  split; [|done]. exists t. split; [|done]. eapply kept_stored_active; [by apply Hk|done].
Qed.

Lemma cancelable_active b task : cancelable b task -> stored_active b (task_id task).
Proof. intros (t & o & Hs & Ha & _). by exists t. Qed.

Lemma fan_out_root b b1 b2 id v v2 :
  stored_active b id -> ended b1 id -> id ∉ v ->
  (forall i, i <> id -> kept (stored b i) (stored b1 i)) ->
  (forall c t, stored b1 c = Some t -> active t -> task_parentTaskId t = Some id -> c ∈ v2) ->
  fan_out (fun i => exists t, stored b i = Some t /\ task_parentTaskId t = Some id) b1 b2 (id :: v) v2 ->
  fan_out (eq id) b b2 v v2.
Proof.
  intros Hact He Hv Hk Hch F.
  assert (id ∈ v2) as Hin by (apply (fo_mono _ _ _ _ _ F); set_solver).
  assert (forall i, fresh_in v v2 i -> i = id \/ (i <> id /\ fresh_in (id :: v) v2 i)) as Hcase.
  { intros i [Hi Hn]. destruct (decide (i = id)) as [->|]; [by left|]. right. split; [done|].
    split; [done|]. set_solver. }
  assert (forall i, fresh_in (id :: v) v2 i -> fresh_in v v2 i /\ i <> id) as Hup.
  { intros i [Hi Hn]. rewrite elem_of_cons in Hn. split; [split|]; naive_solver. }
  split.
  - apply F.
  - intros i Hi. apply (fo_mono _ _ _ _ _ F). set_solver.
  - intros i Hi. destruct (Hcase i Hi) as [->|[_ Hf]]; [done|].
    eapply cancel_root_active; [exact He|exact Hk|by apply (fo_active _ _ _ _ _ F)].
  - intros i Hi. destruct (Hcase i Hi) as [->|[_ Hf]]; [|by apply (fo_ended _ _ _ _ _ F)].
    intros t Ht. apply He. eapply kept_stored_active; [apply (fo_kept _ _ _ _ _ F)|exact Ht].
    intros [_ Hn]. set_solver.
  - intros i Hi. assert (i <> id) as Hne by (intros ->; apply Hi; by split).
    transitivity (stored b1 i); [by apply Hk|]. apply (fo_kept _ _ _ _ _ F).
    intros Hf. by apply Hi, Hup.
  - intros i c t Hi Hc Ha Hp. destruct (decide (c = id)) as [->|Hne]; [done|].
    assert (stored b1 c = Some t) as Hc1 by (eapply kept_active; [by apply Hk|exact Hc|exact Ha]).
    destruct (Hcase i Hi) as [->|[_ Hf]]; [by eapply Hch|].
    by eapply (fo_children _ _ _ _ _ F).
  - intros i Hi. destruct (Hcase i Hi) as [->|[Hne Hf]]; [exists id; split; [done|by apply ReachRoot]|].
    destruct (fo_origin _ _ _ _ _ F i Hf) as (r & (t & Ht & Hp) & Hreach). exists id. split; [done|].
    eapply reaches_from_child; [done|exact Ht|exact Hp|].
    eapply reaches_before; [|exact Hreach]. intros j tj Hj Ha.
    eapply kept_stored_active; [apply Hk|exact Hj]. intros ->. apply (ended_inactive _ _ He). by exists tj.
Qed.

Lemma cancelTaskTree_ok fuel : tree_spec fuel.
Proof.
  induction fuel as [|fuel IH]; intros N task p visited b Hwf Hc Hv Hsp Hfuel; [lia|].
  simpl. rewrite (bool_decide_false _ Hv).
  destruct (cancelTaskRecord_ok N task p b Hwf Hc) as (b1 & t1 & Hrun1 & He1 & Hwf1 & Ht1 & Hend & Hk).
  rewrite (bind_ok _ _ _ _ _ Hrun1).
  pose proof (cancelable_active _ _ Hc) as Hact.
  set (cs := listChildTasks (task_id task) b1).
  assert (forall c, c ∈ cs -> stored b1 (task_id c) = Some c /\ task_parentTaskId c = Some (task_id task)) as Hcs.
  { intros c Hin. apply elem_of_listChildTasks in Hin as [Hin Hp]. split; [|done].
    by apply (keyed_value task_id), Hin; apply wf_tasks. }
  assert (size (active_ids b1) < fuel) as Hfuel1.
  { assert (active_ids b1 ⊂ active_ids b) as Hss%subset_size; [|lia]. split.
    - intros i. rewrite !elem_of_active_ids by done. intros Hi.
      by eapply cancel_root_active.
    - intros Hsub. apply (elem_of_active_ids b _ Hwf), Hsub, (elem_of_active_ids b1 _ Hwf1) in Hact.
      by apply (ended_inactive _ _ Hend). }
  destruct (cancel_children_ok fuel N (mkCancelParams (cn_actorId p) (cn_reason p) (Some (task_id task)))
    (task_id task) cs (task_id task :: visited) b1) as (b2 & v2 & Hrun2 & He2 & F & Hall);
    [done|done|by apply NoDup_listChildTasks|intros c Hin; by apply Hcs|intros c Hin _; by apply Hcs
    |set_solver| |done|].
  { intros i [->|Hi]%elem_of_cons; [by apply ended_inactive|].
    intros Ha. apply (Hsp i Hi). by eapply cancel_root_active. }
  exists b2, t1, v2. split_and!.
  - unfold m_bind at 1, m_gets. fold cs. by rewrite (bind_ok _ _ _ _ _ Hrun2).
  - by transitivity b1.
  - eapply fan_out_root; [done|exact Hend|done|exact Hk| |].
    + intros c t Hct Ha Hp. assert (task_id t = c) as <- by by apply (wf_tasks _ Hwf1).
      apply Hall; [|done]. apply elem_of_listChildTasks. split; [|done].
      by apply (keyed_value task_id); [apply wf_tasks|].
    + eapply fan_out_roots; [|exact F]. simpl. intros i Hact' Hi.
      apply list_elem_of_fmap in Hi as (c & -> & Hin). destruct (Hcs c Hin) as [Hst Hp].
      exists c. split; [|done].
      assert (task_id c <> task_id task) as Hne.
      { intros Heq. apply (ended_inactive _ _ Hend). by rewrite <- Heq. }
      eapply kept_stored_active; [by apply Hk|done].
  - apply (fo_mono _ _ _ _ _ F). set_solver.
  - done.
Qed.

Lemma cancel_tree_run N b task p :
  wf_broker b -> cancelable b task ->
  exists b' t' visited, cancel_tree task p b = (b', Ok t')
    /\ evolves N b b' /\ fan_out (eq (task_id task)) b b' [] visited
    /\ task_id task ∈ visited /\ exists now, t' = canceled_task task p now.
Proof.
  intros Hwf Hc. unfold cancel_tree, m_bind at 1, m_get.
  destruct (cancelTaskTree_ok (cancel_fuel b) N task p [] b) as (b' & t' & v' & Hrun & He & F & Hin & Ht);
    [done|done|set_solver|intros i; set_solver| |].
  - unfold cancel_fuel. pose proof (active_ids_bound b). lia.
  - exists b', t', v'. rewrite (bind_ok _ _ _ _ _ Hrun). by split_and!.
Qed.

Lemma fan_out_reaches b b' root visited i :
  fan_out (eq root) b b' [] visited -> root ∈ visited -> reaches b root i -> i ∈ visited.
Proof.
  intros F Hroot. induction 1 as [|q c t _ IH Hc Ha Hp]; [done|].
  eapply (fo_children _ _ _ _ _ F); [|exact Hc|exact Ha|exact Hp]. split; [done|set_solver].
Qed.

(** ** cancelTask *)

(** Hub, operator, requester, claimant, assigned worker or target. *)
Definition may_cancel (t : TaskRecord) (a : option A2APartyRef) : Prop :=
  actor_id a <> ""
  /\ (role_is (actor_role a) RoleHub = true \/ role_is (actor_role a) RoleOperator = true
      \/ actor_id a = party_id (task_requester t) \/ task_claimedBy t = Some (actor_id a)
      \/ task_assignedWorkerId t = Some (actor_id a) \/ actor_id a = task_targetNodeId t).

(** The guard as the code computes it. *)
Lemma may_cancel_spec t a :
  negb (role_is (actor_role a) RoleHub) && negb (role_is (actor_role a) RoleOperator)
  && negb (String.eqb (actor_id a) (party_id (task_requester t)))
  && negb (bool_decide (task_claimedBy t = Some (actor_id a))
           || bool_decide (task_assignedWorkerId t = Some (actor_id a))
           || String.eqb (actor_id a) (task_targetNodeId t)) = false
  <-> (role_is (actor_role a) RoleHub = true \/ role_is (actor_role a) RoleOperator = true
      \/ actor_id a = party_id (task_requester t) \/ task_claimedBy t = Some (actor_id a)
      \/ task_assignedWorkerId t = Some (actor_id a) \/ actor_id a = task_targetNodeId t).
Proof.
  rewrite !andb_false_iff, !negb_false_iff, !orb_true_iff, !bool_decide_eq_true, !String.eqb_eq. tauto.
Qed.

Lemma cancel_run b id t a reason :
  wf_broker b -> stored b id = Some t -> active t -> may_cancel t a ->
  exists b' t', cancelTask id a reason b = (b', Ok t') /\ wf_broker b'
    /\ (exists now, t' = canceled_task t (mkCancelParams (actor_id a) reason None) now)
    /\ forall i, (reaches b id i -> ended b' i) /\ (~ reaches b id i -> kept (stored b i) (stored b' i)).
Proof.
  intros Hwf Ht Ha [Hid Hm]. assert (task_id t = id) as <- by by apply (wf_tasks _ Hwf).
  destruct (cancel_tree_run (fun _ => True) b t (mkCancelParams (actor_id a) reason None))
    as (b' & t' & visited & Hrun & _ & F & Hroot & Hnow); [done|by apply stored_cancelable|].
  exists b', t'. split_and!.
  - reveal cancelTask. rewrite (bind_ok _ _ _ _ _ (requireTask_run _ t b Ht)).
    rewrite (bind_ok _ _ _ _ _ (require_actor_run a b Hid)). cbv zeta.
    rewrite (bind_ok _ _ b b tt) by by apply throw_if_run, may_cancel_spec.
    unfold active in Ha. by rewrite Ha.
  - apply F.
  - exact Hnow.
  - intros i. assert (i ∈ visited <-> fresh_in [] visited i) as Hf by (unfold fresh_in; set_solver). split.
    + intros Hr. by apply (fo_ended _ _ _ _ _ F), Hf, (fan_out_reaches b b' (task_id t)).
    + intros Hn. apply (fo_kept _ _ _ _ _ F). intros Hi. apply Hn.
      by destruct (fo_origin _ _ _ _ _ F i Hi) as (r & <- & Hr).
Qed.

Lemma cancel_refused b id t a reason :
  stored b id = Some t -> ~ may_cancel t a -> refused (cancelTask id a reason) b.
Proof.
  intros Ht Hn. reveal cancelTask. refuse_next.
  destruct (decide (actor_id a = "")) as [He|He]; [by apply refused_bind, require_actor_refused|].
  eapply refused_after; [by apply require_actor_run|]. cbv beta zeta.
  apply refused_throw_if. apply not_false_iff_true. rewrite may_cancel_spec. intros Hm. by destruct Hn.
Qed.

Lemma cancel_ended b id t a reason :
  stored b id = Some t -> terminal t -> may_cancel t a -> cancelTask id a reason b = (b, Ok t).
Proof.
  intros Ht Hterm [Hid Hm]. reveal cancelTask. rewrite (bind_ok _ _ _ _ _ (requireTask_run _ t b Ht)).
  rewrite (bind_ok _ _ _ _ _ (require_actor_run a b Hid)). cbv zeta.
  rewrite (bind_ok _ _ b b tt) by by apply throw_if_run, may_cancel_spec.
  unfold terminal in Hterm. by rewrite Hterm.
Qed.

(** ** The handlers that cancel *)

Lemma evolves_cancelTask N id actor reason : preserves (evolves N) (cancelTask id actor reason).
Proof.
  reveal cancelTask. apply evolves_handler. intros t _. do 3 tri_step.
  destruct (isTerminalTaskStatus (task_status t)) eqn:Hterm; [tri_step|].
  intros b [Hwf Hs].
  destruct (cancel_tree_run N b t (mkCancelParams (actor_id actor) reason None)) as (b' & t' & v & Hrun & He & _);
    [done|by apply stored_cancelable|]. by rewrite Hrun.
Qed.

Lemma evolves_rejectTaskApproval N id r : preserves (evolves N) (rejectTaskApproval id r).
Proof.
  reveal rejectTaskApproval. apply evolves_handler. intros t _. do 4 tri_step.
  destruct (task_approvalOutcome t) as [o|] eqn:Ho; [tri_step|].
  repeat tri_step. apply (tri_bind _ _ _ (fun _ _ => True)).
  - intros b [Hwf Hs]. edestruct (cancel_tree_run N b) as (b' & t' & v & Hrun & He & _);
      [exact Hwf| |rewrite Hrun; split; [exact He|done]].
    eexists t, _. split_and!; [exact Hs|done|done|reflexivity|]. right.
    guards. by destruct (task_approval t).
  - intros t'. apply tri_end. preserves_auto.
Qed.
End Cancellation.
