(* ===== verification/Exchanges.v ===== *)
(** * Exchanges: threads of messages and the task they drive
    (startExchange, addExchangeMessage and their helpers, src/core/broker.ts)

    [addExchangeMessage] works on the exchange object it fetched while the task
    handlers it calls save copies of that object, so its state is a reference
    into the heap of [BrokerCore]. *)

From Stdlib Require Import ZArith Lia String.
From stdpp Require Import base gmap strings list pretty.
From S2P Require Import Prelude JsRuntime Types Policy Retention BrokerCore Workers Proposals Github TerminalBrief Tasks.

Section Handlers.
Context `{JsHost} `{TaskEventSink} `{BrokerConfig}.

Definition startExchange (r : A2AExchangeRequest) : BM A2AExchangeState :=
  now <-- isoNow;
  exchangeId <-- randomUUID;
  rootId <-- randomUUID;
  let rootMessage := {|
    msg_id := rootId;
    msg_exchangeId := exchangeId;
    msg_kind := MessageRoot;
    msg_message := xr_message r;
    msg_requester := Some (xr_requester r);
    msg_actor := None;
    msg_via := xr_via r;
    msg_decision := None;
    msg_targetNodeId := Some (party_id (xr_target r));
    msg_assignedWorkerId := None;
    msg_parentMessageId := None;
    msg_createdAt := now;
    msg_updatedAt := now |} in
  let exchange := {|
    ex_id := exchangeId;
    ex_requester := xr_requester r;
    ex_target := xr_target r;
    ex_targetNodeId := party_id (xr_target r);
    ex_assignedWorkerId := None;
    ex_message := xr_message r;
    ex_maxTurns := xr_maxTurns r ?? 8%Z;
    ex_intent := xr_intent r ?? IntentChat;
    ex_status := ExchangeQueued;
    ex_currentDecision := None;
    ex_rootMessageId := rootId;
    ex_latestMessageId := rootId;
    ex_messageCount := 1;
    ex_lastMessageAt := now;
    ex_activeTaskId := None;
    ex_createdAt := now;
    ex_updatedAt := now |} in
  setExchangeMessageRecord rootMessage;;;
  ref <-- alloc_exchange exchange;
  setExchangeRecord ref;;;
  persistState;;;
  m_ret exchange.

Definition assertExchangeMessageActor (ex : A2AExchangeState) (actor : A2APartyRef)
    (r : A2AExchangeMessageRequest) : BM unit :=
  let isPrivileged := role_is (party_role actor) RoleHub || role_is (party_role actor) RoleOperator in
  let isRequester := String.eqb (party_id actor) (party_id (ex_requester ex)) in
  let isTarget := String.eqb (party_id actor) (party_id (ex_target ex)) in
  let role_conflict (p : A2APartyRef) :=
    is_some (party_role p) && is_some (party_role actor)
    && negb (bool_decide (party_role p = party_role actor)) in
  throw_if (negb isPrivileged && negb isRequester && negb isTarget) CodePolicyDenied
    "exchange messages require the requester, target, hub, or operator actor";;;
  throw_if (isRequester && role_conflict (ex_requester ex)) CodePolicyDenied
    "requester actor role must match the exchange requester role";;;
  throw_if (isTarget && role_conflict (ex_target ex)) CodePolicyDenied
    "target actor role must match the exchange target role";;;
  throw_if ((ostr_truthy (mr_targetNodeId r) || ostr_truthy (mr_assignedWorkerId r)) && negb isPrivileged)
    CodePolicyDenied "only hub or operator actors may change assignment fields";;;
  throw_if (is_some (mr_decision r) && negb isPrivileged && negb isTarget) CodePolicyDenied
    "only the target, hub, or operator actor may set a decision".

Definition node_party (w : WorkerRecord) : A2APartyRef :=
  mkA2APartyRef (wr_nodeId w) (Some KindNode) (Some (wr_role w)).

(** A task of the tasks map: [this.tasks.get(exchange.activeTaskId)]. *)
Definition active_task (ex : A2AExchangeState) : BM (option TaskRecord) :=
  match truthy_opt (ex_activeTaskId ex) with
  | Some id => getTask id
  | None => m_ret None
  end.

Definition exchange_task_request (ex : A2AExchangeState) (m : A2AExchangeMessageRecord)
    (target assigned : WorkerRecord) : CreateTaskRequest :=
  {| ct_id := None; ct_exchangeId := Some (ex_id ex); ct_parentTaskId := None;
     ct_referenceTaskIds := None; ct_intent := ex_intent ex; ct_requester := ex_requester ex;
     ct_target := node_party target; ct_workspace := None; ct_message := Some (msg_message m);
     ct_proposalId := None; ct_artifactIds := None; ct_assignedWorkerId := Some (wr_nodeId assigned);
     ct_via := msg_via m; ct_policyContext := None; ct_createdAt := None; ct_payload := None;
     ct_taskOrigin := None; ct_brokerOfRecord := None; ct_teamId := None |}.

Definition ensureExchangeTask (ref : nat) (message : A2AExchangeMessageRecord) (assignedWorkerId : string)
    : BM unit :=
  ex <-- deref_exchange ref;
  current <-- active_task ex;
  assignedWorker <-- requireWorker assignedWorkerId;
  targetWorker <-- requireWorker (ex_targetNodeId ex);
  match current with
  | Some current =>
      if negb (isTerminalTaskStatus (task_status current)) then
        m_when (negb (String.eqb (task_targetNodeId current) (ex_targetNodeId ex))
                || negb (bool_decide (task_assignedWorkerId current = Some assignedWorkerId)))
          (reassignTask (task_id current)
             {| rr_actor := Some (msg_actor message ?? mkA2APartyRef "broker" (Some KindService) (Some RoleHub));
                rr_targetNodeId := Some (ex_targetNodeId ex);
                rr_assignedWorkerId := Some assignedWorkerId;
                rr_note := Some ("exchange " ++ ex_id ex ++ " synchronized from thread message "
                                 ++ msg_id message)%string |};;; m_ret tt);;;
        mutate_exchange ref (fun ex => ex <| ex_status := ExchangeRunning |>)
      else
        task <-- createTask (exchange_task_request ex message targetWorker assignedWorker);
        mutate_exchange ref (fun ex => ex
          <| ex_activeTaskId := Some (task_id task) |>
          <| ex_assignedWorkerId := Some (wr_nodeId assignedWorker) |>
          <| ex_targetNodeId := wr_nodeId targetWorker |>
          <| ex_target := node_party targetWorker |>)
  | None =>
      task <-- createTask (exchange_task_request ex message targetWorker assignedWorker);
      mutate_exchange ref (fun ex => ex
        <| ex_activeTaskId := Some (task_id task) |>
        <| ex_assignedWorkerId := Some (wr_nodeId assignedWorker) |>
        <| ex_targetNodeId := wr_nodeId targetWorker |>
        <| ex_target := node_party targetWorker |>)
  end.

Definition cancelActiveExchangeTask (ref : nat) (reason : string) : BM unit :=
  ex <-- deref_exchange ref;
  current <-- active_task ex;
  match current with
  | None => m_ret tt
  | Some task =>
      if isTerminalTaskStatus (task_status task) then m_ret tt
      else cancelTaskRecord task (mkCancelParams "broker" (Some reason) None);;; m_ret tt
  end.

(** The first part of applyExchangeMessageDecision: assignment and decision. *)
Definition adopt_message (ex : A2AExchangeState) (m : A2AExchangeMessageRecord) : A2AExchangeState := ex
  <| ex_targetNodeId ::= fun n => msg_targetNodeId m ?? n |>
  <| ex_assignedWorkerId ::= fun o => msg_assignedWorkerId m ??o o |>
  <| ex_currentDecision ::= fun o => msg_decision m ??o o |>.

Definition applyExchangeMessageDecision (ref : nat) (m : A2AExchangeMessageRecord) : BM unit :=
  mutate_exchange ref (fun ex => adopt_message ex m);;;
  ex <-- deref_exchange ref;
  targetWorker <-- getWorker (ex_targetNodeId ex);
  match targetWorker with
  | Some w => mutate_exchange ref (fun ex => ex <| ex_target := node_party w |>)
  | None => m_ret tt
  end;;;
  let assigned := ex_assignedWorkerId ex ?? ex_targetNodeId ex in
  match msg_decision m with
  | None =>
      m_when (ostr_truthy (msg_targetNodeId m) || ostr_truthy (msg_assignedWorkerId m))
        (ensureExchangeTask ref m assigned;;;
         mutate_exchange ref (fun ex => ex <| ex_status := ExchangeQueued |>))
  | Some DecisionAccepted | Some DecisionPartiallyAccepted =>
      mutate_exchange ref (fun ex => ex
        <| ex_assignedWorkerId := Some assigned |>
        <| ex_status := ExchangeRunning |>);;;
      ensureExchangeTask ref m assigned
  | Some DecisionNeedsClarification =>
      mutate_exchange ref (fun ex => ex <| ex_status := ExchangeQueued |>);;;
      cancelActiveExchangeTask ref "decision=needs_clarification"
  | Some DecisionDeclined =>
      mutate_exchange ref (fun ex => ex <| ex_status := ExchangeFailed |>);;;
      cancelActiveExchangeTask ref "decision=declined";;;
      mutate_exchange ref (fun ex => ex <| ex_status := ExchangeFailed |>)
  end.

(** [if (id) this.requireWorker(id)]. *)
Definition require_worker_if (id : option string) : BM unit :=
  match truthy_opt id with Some w => requireWorker w;;; m_ret tt | None => m_ret tt end.

Definition addExchangeMessage (exchangeId : string) (r : A2AExchangeMessageRequest)
    : BM A2AExchangeMessageRecord :=
  ref <-- requireExchange exchangeId;
  ex <-- deref_exchange ref;
  throw_if (negb (str_truthy (actor_id (mr_actor r)))) CodeBadRequest "actor.id is required";;;
  throw_if (negb (str_truthy (mr_message r))) CodeBadRequest "message is required";;;
  match mr_actor r with
  | None => throw CodeBadRequest "actor.id is required"
  | Some actor =>
      assertExchangeMessageActor ex actor r;;;
      require_worker_if (mr_targetNodeId r);;;
      require_worker_if (mr_assignedWorkerId r);;;
      match truthy_opt (mr_parentMessageId r) with
      | Some p => requireExchangeMessage (ex_id ex) p;;; m_ret tt
      | None => m_ret tt
      end;;;
      now <-- isoNow;
      id <-- randomUUID;
      let message := {|
        msg_id := id;
        msg_exchangeId := exchangeId;
        msg_kind := MessageThread;
        msg_message := mr_message r;
        msg_requester := None;
        msg_actor := Some actor;
        msg_via := mr_via r;
        msg_decision := mr_decision r;
        msg_targetNodeId := Some (mr_targetNodeId r ?? party_id (ex_target ex));
        msg_assignedWorkerId := mr_assignedWorkerId r;
        msg_parentMessageId := Some (mr_parentMessageId r ?? ex_rootMessageId ex);
        msg_createdAt := now;
        msg_updatedAt := now |} in
      setExchangeMessageRecord message;;;
      mutate_exchange ref (fun ex => ex
        <| ex_messageCount ::= Z.add 1 |>
        <| ex_lastMessageAt := now |>
        <| ex_latestMessageId := id |>
        <| ex_updatedAt := now |>);;;
      applyExchangeMessageDecision ref message;;;
      setExchangeRecord ref;;;
      appendAuditEvent (mkAuditInput (party_id actor) AuditExchangeMessageAdded TargetExchangeMessage id None
        (Some (match mr_decision r with
               | Some d => (A2AExchangeDecision_text d ++ ": " ++ mr_message r)%string
               | None => mr_message r end)));;;
      persistState;;;
      m_ret message
  end.

(** ** Reading a thread *)

Definition sortExchangeMessages (a b : A2AExchangeMessageRecord) : Z :=
  if String.eqb (msg_createdAt a) (msg_createdAt b) then
    if bool_decide (msg_kind a = MessageRoot) then -1 else 1
  else if String.ltb (msg_createdAt b) (msg_createdAt a) then 1 else -1.

(** One pass of the loop of collectThreadMessageIds: the ids reached so far, and
    whether the pass reached a new one. *)
Fixpoint thread_pass (messages : list A2AExchangeMessageRecord) (allowed : list string) (changed : bool)
    : list string * bool :=
  match messages with
  | [] => (allowed, changed)
  | m :: messages =>
      if match truthy_opt (msg_parentMessageId m) with
         | Some p => bool_decide (p ∈ allowed) | None => false end
         && negb (bool_decide (msg_id m ∈ allowed))
      then thread_pass messages (msg_id m :: allowed) true
      else thread_pass messages allowed changed
  end.

Fixpoint thread_loop (fuel : nat) (messages : list A2AExchangeMessageRecord) (allowed : list string)
    : option (list string) :=
  match fuel with
  | 0 => None
  | S fuel =>
      let '(allowed, changed) := thread_pass messages allowed false in
      if changed then thread_loop fuel messages allowed else Some allowed
  end.

(** Every pass but the last reaches a new message, so one pass per message and
    one more suffice (below). *)
Definition collectThreadMessageIds (messages : list A2AExchangeMessageRecord) (parentMessageId : string)
    : option (list string) :=
  thread_loop (S (length messages)) messages [parentMessageId].

Definition listExchangeMessages (exchangeId : string) (parentMessageId : option string)
    (includeDescendants : bool) : BM (list A2AExchangeMessageRecord) :=
  ref <-- requireExchange exchangeId;
  ex <-- deref_exchange ref;
  b <-- m_get;
  let items := js_sort sortExchangeMessages
    (List.filter (fun m => String.eqb (msg_exchangeId m) exchangeId) (jm_values (br_exchangeMessages b))) in
  match truthy_opt parentMessageId with
  | None => m_ret items
  | Some p =>
      requireExchangeMessage (ex_id ex) p;;;
      if includeDescendants then
        let allowed := collectThreadMessageIds items p ?? [] in
        m_ret (List.filter (fun m => bool_decide (msg_id m ∈ allowed)) items)
      else m_ret (List.filter (fun m => bool_decide (msg_parentMessageId m = Some p)) items)
  end.
End Handlers.

(** ** The messages of a thread

    [collectThreadMessageIds] (src/core/broker.ts) repeats passes over the
    messages until one adds nothing.  Shown here: the passes end, and the ids
    collected are exactly those reachable from the root along reply links. *)

Section Threads.
Context (messages : list A2AExchangeMessageRecord).

(** [in_thread root id]: [id] is the root or answers a message of the thread. *)
Inductive in_thread (root : string) : string -> Prop :=
| ThreadRoot : in_thread root root
| ThreadReply m p :
    m ∈ messages -> truthy_opt (msg_parentMessageId m) = Some p -> in_thread root p ->
    in_thread root (msg_id m).

Definition replies_to (allowed : list string) (m : A2AExchangeMessageRecord) : bool :=
  match truthy_opt (msg_parentMessageId m) with
  | Some p => bool_decide (p ∈ allowed) | None => false end.

Lemma thread_pass_mono ms allowed changed i :
  i ∈ allowed -> i ∈ (thread_pass ms allowed changed).1.
Proof.
  revert allowed changed. induction ms as [|m ms IH]; intros allowed changed Hi; simpl; [done|].
  case_match; apply IH; [by apply elem_of_cons; right|done].
Qed.

Lemma thread_pass_flag ms allowed : (thread_pass ms allowed true).2 = true.
Proof.
  revert allowed. induction ms as [|m ms IH]; intros allowed; simpl; [done|]. case_match; apply IH.
Qed.

(** What a pass adds belongs to the thread. *)
Lemma thread_pass_sound root ms allowed changed i :
  (forall m, m ∈ ms -> m ∈ messages) -> (forall j, j ∈ allowed -> in_thread root j) ->
  i ∈ (thread_pass ms allowed changed).1 -> in_thread root i.
Proof.
  revert allowed changed. induction ms as [|m ms IH]; intros allowed changed Hms Ha; simpl; [apply Ha|].
  destruct (_ && _) eqn:Hc; [|apply IH; [intros m' Hm'; apply Hms; by apply elem_of_cons; right|done]].
  apply IH; [intros m' Hm'; apply Hms; by apply elem_of_cons; right|].
  intros j [->|Hj]%elem_of_cons; [|by apply Ha]. apply andb_true_iff in Hc as [Hc _].
  destruct (truthy_opt (msg_parentMessageId m)) as [p|] eqn:Hp; [|done].
  apply bool_decide_eq_true_1 in Hc. eapply ThreadReply; [|exact Hp|by apply Ha].
  apply Hms. by apply elem_of_cons; left.
Qed.

(** A pass that changes nothing leaves a closed set. *)
Lemma thread_pass_closed ms allowed :
  (thread_pass ms allowed false).2 = false ->
  (thread_pass ms allowed false).1 = allowed
  /\ forall m, m ∈ ms -> replies_to allowed m = true -> msg_id m ∈ allowed.
Proof.
  induction ms as [|m ms IH]; simpl; [split; [done|set_solver]|].
  destruct (_ && _) eqn:Hc; [by rewrite thread_pass_flag|].
  intros Hf. destruct (IH Hf) as [Heq Hcl]. split; [done|].
  intros m' [->|Hm']%elem_of_cons Hr; [|by apply Hcl].
  apply andb_false_iff in Hc as [Hc|Hc]; [unfold replies_to in Hr; congruence|].
  apply negb_false_iff in Hc. by apply bool_decide_eq_true_1 in Hc.
Qed.

(** The messages a set of ids has not reached yet. *)
Definition unreached (allowed : list string) : nat :=
  length (filter (fun m => msg_id m ∉ allowed) messages).

Lemma unreached_lt allowed allowed' m :
  (forall i, i ∈ allowed -> i ∈ allowed') -> m ∈ messages -> msg_id m ∉ allowed -> msg_id m ∈ allowed' ->
  unreached allowed' < unreached allowed.
Proof.
  intros Hsub Hm Hn Hi. unfold unreached. induction messages as [|m0 ms IH]; [by apply elem_of_nil in Hm|].
  assert (length (filter (fun m => msg_id m ∉ allowed') ms)
          <= length (filter (fun m => msg_id m ∉ allowed) ms)) as Hle.
  { clear IH Hm. induction ms as [|m1 ms IH]; [done|]. rewrite !filter_cons.
    case_decide; case_decide; simpl; try lia. exfalso. naive_solver. }
  rewrite !filter_cons. apply elem_of_cons in Hm as [<-|Hm].
  - rewrite decide_False by tauto. rewrite decide_True by done. simpl. lia.
  - specialize (IH Hm). case_decide; case_decide; simpl; try lia. exfalso. naive_solver.
Qed.

Lemma thread_pass_progress ms allowed :
  (forall m, m ∈ ms -> m ∈ messages) -> (thread_pass ms allowed false).2 = true ->
  unreached (thread_pass ms allowed false).1 < unreached allowed.
Proof.
  induction ms as [|m ms IH]; intros Hms; simpl; [done|].
  destruct (_ && _) eqn:Hc; [|apply IH; intros m' Hm'; apply Hms; by apply elem_of_cons; right].
  intros _. apply andb_true_iff in Hc as [_ Hc].
  apply negb_true_iff, bool_decide_eq_false_1 in Hc.
  apply (unreached_lt _ _ m); [|apply Hms; by apply elem_of_cons; left|done|].
  - intros i Hi. apply thread_pass_mono. by apply elem_of_cons; right.
  - apply thread_pass_mono. by apply elem_of_cons; left.
Qed.

Lemma thread_loop_run fuel root allowed :
  root ∈ allowed -> (forall i, i ∈ allowed -> in_thread root i) -> unreached allowed < fuel ->
  exists ids, thread_loop fuel messages allowed = Some ids /\ forall i, i ∈ ids <-> in_thread root i.
Proof.
  revert allowed. induction fuel as [|fuel IH]; intros allowed Hr Ha Hf; [lia|]. simpl.
  pose proof (thread_pass_progress messages allowed (fun m Hm => Hm)) as Hp.
  pose proof (thread_pass_closed messages allowed) as Hc.
  pose proof (thread_pass_sound root messages allowed false) as Hs.
  pose proof (thread_pass_mono messages allowed false) as Hm.
  destruct (thread_pass messages allowed false) as [allowed' [|]]; simpl in *.
  - apply IH; [by apply Hm|intros i Hi; by apply Hs|]. specialize (Hp eq_refl). lia.
  - destruct (Hc eq_refl) as [-> Hcl]. exists allowed. split; [done|]. intros i. split; [apply Ha|].
    induction 1 as [|m p Hin Hpar _ IHi]; [done|]. apply Hcl; [done|].
    unfold replies_to. rewrite Hpar. by apply bool_decide_eq_true_2.
Qed.

Lemma unreached_bound allowed : unreached allowed <= length messages.
Proof. unfold unreached. apply length_filter. Qed.

Lemma thread_loop_terminates root :
  exists ids, collectThreadMessageIds messages root = Some ids
    /\ forall i, i ∈ ids <-> in_thread root i.
Proof.
  apply thread_loop_run.
  - by apply elem_of_cons; left.
  - intros i Hi. apply list_elem_of_singleton in Hi as ->. apply ThreadRoot.
  - pose proof (unreached_bound [root]). lia.
Qed.
End Threads.
