(* ===== verification/System.v ===== *)
(** * The broker as a transition system

    The exchange handlers follow the task machine too; [call] lists the requests
    the broker serves, [broker_step] runs one of them, and the invariants hold of
    every reachable state. *)

From Stdlib Require Import ZArith Lia String.
From stdpp Require Import base gmap strings list pretty relations.
From S2P Require Import Prelude JsRuntime Types Policy Retention BrokerCore CoreFacts Workers.
From S2P Require Import Proposals Github TerminalBrief Tasks TaskMachine TaskFacts Cancellation.
From S2P Require Import Exchanges.

Section Exchanges.
Context `{JsHost} `{TaskEventSink} `{BrokerConfig}.
Context (uuid_inj : forall m n, host_uuid m = host_uuid n -> m = n).

(** Tasks are created under ids drawn from [u] on. *)
Definition drawn (u : nat) (id : string) : Prop := exists n, u <= n /\ id = host_uuid n.
Definition after (u : nat) (b : Broker) : Prop := wf_broker b /\ u <= br_uuids b.

Definition stays {A} (u : nat) (m : BM A) : Prop := tri (drawn u) (after u) m (fun _ => after u).

Lemma stays_evolves {A} u (m : BM A) : preserves (evolves (drawn u)) m -> stays u m.
Proof.
  intros Hm b [Hwf Hu]. specialize (Hm b). destruct (m b) as [b' r]. simpl in *.
  split; [done|]. destruct r; [|done]. destruct (Hm Hwf) as (? & ? & _). split; [done|lia].
Qed.

Lemma stays_quiet {A} u (m : BM A) : preserves quiet m -> stays u m.
Proof. intros. by apply stays_evolves, preserves_quiet_evolves. Qed.

Lemma stays_bind {A B} u (m : BM A) (k : A -> BM B) :
  stays u m -> (forall a, stays u (k a)) -> stays u (m_bind m k).
Proof. apply tri_bind. Qed.

Lemma stays_when u c (m : BM unit) : stays u m -> stays u (m_when c m).
Proof. intros Hm. destruct c; [done|]. apply stays_quiet, preserves_ret, _. Qed.

Lemma stays_createTask u r : ct_id r = None -> stays u (createTask r).
Proof.
  intros Hid b [Hwf Hu].
  destruct (tri_createTask uuid_inj (drawn u) r b) as [He Hr].
  - apply can_create_anonymous; [done|done|]. intros n Hn. exists n. split; [lia|done].
  - split; [done|]. destruct (createTask r b).2; [|done]. destruct (He Hwf) as (? & ? & _). split; [done|lia].
Qed.

Lemma stays_reassignTask u id r : stays u (reassignTask id r).
Proof. apply stays_evolves, evolves_reassignTask. Qed.

Lemma quiet_active_task ex : preserves quiet (active_task ex).
Proof. unfold active_task, getTask. preserves_auto. Qed.

Lemma active_task_run ex b :
  active_task ex b = (b, Ok (truthy_opt (ex_activeTaskId ex) ≫= fun id => jm_get id (br_tasks b))).
Proof. unfold active_task. by destruct (truthy_opt _). Qed.

Lemma stays_cancelActiveExchangeTask u ref reason : stays u (cancelActiveExchangeTask ref reason).
Proof.
  unfold cancelActiveExchangeTask. apply stays_bind; [apply stays_quiet; preserves_auto|]. intros ex.
  intros b [Hwf Hu]. rewrite (bind_ok _ _ _ _ _ (active_task_run ex b)).
  destruct (truthy_opt (ex_activeTaskId ex)) as [id|]; simpl; [|split; [reflexivity|by split]].
  destruct (jm_get id (br_tasks b)) as [t|] eqn:Ht; [|split; [reflexivity|by split]].
  destruct (isTerminalTaskStatus (task_status t)) eqn:Hterm; [split; [reflexivity|by split]|].
  assert (task_id t = id) as <- by by apply (wf_tasks _ Hwf).
  destruct (cancelTaskRecord_ok (drawn u) t (mkCancelParams "broker" (Some reason) None) b)
    as (b' & t' & Hrun & He & Hwf' & _); [done|by apply stored_cancelable|].
  rewrite (bind_ok _ _ _ _ _ Hrun). split; [exact He|]. split; [done|]. destruct (He Hwf) as (_ & ? & _). simpl. lia.
Qed.

Hint Resolve quiet_active_task : preserves_db.

Ltac stays_step :=
  cbv beta;
  lazymatch goal with
  | |- stays ?u (let x := ?v in @?k x) =>
      let y := fresh x in generalize v; intros y; change (stays u (k y)); cbv beta
  | |- stays _ (createTask _) => apply stays_createTask; reflexivity
  | |- stays _ (reassignTask _ _) => apply stays_reassignTask
  | |- stays _ (cancelActiveExchangeTask _ _) => apply stays_cancelActiveExchangeTask
  | |- stays _ (m_when _ _) => apply stays_when
  | |- stays _ (m_bind _ _) => apply stays_bind; [|intro]
  | |- stays _ (match ?x with _ => _ end) => destruct x
  | |- stays _ _ => solve [apply stays_quiet; preserves_auto | eauto]
  end.

Lemma stays_ensureExchangeTask u ref m w : stays u (ensureExchangeTask ref m w).
Proof. unfold ensureExchangeTask. repeat stays_step. Qed.
Hint Resolve stays_ensureExchangeTask : core.

Lemma stays_applyExchangeMessageDecision u ref m : stays u (applyExchangeMessageDecision ref m).
Proof. unfold applyExchangeMessageDecision, getWorker. repeat stays_step. Qed.
Hint Resolve stays_applyExchangeMessageDecision : core.

Lemma stays_addExchangeMessage u id r : stays u (addExchangeMessage id r).
Proof.
  reveal addExchangeMessage. unfold require_worker_if, assertExchangeMessageActor.
  repeat stays_step.
Qed.

Lemma quiet_startExchange r : preserves quiet (startExchange r).
Proof. reveal startExchange. preserves_auto. Qed.
End Exchanges.

(** ** Calls *)

Section System.
Context `{JsHost} `{TaskEventSink} `{BrokerConfig}.

(** The requests that change the broker's state. *)
Inductive call : Type :=
| CallRegisterWorker (r : RegisterWorkerRequest)
| CallHeartbeatWorker (nodeId : string) (r : option WorkerHeartbeatRequest)
| CallStartExchange (r : A2AExchangeRequest)
| CallAddExchangeMessage (id : string) (r : A2AExchangeMessageRequest)
| CallCreateProposal (r : CreateProposalRequest)
| CallAttachArtifact (id : string) (r : AttachArtifactRequest)
| CallSubmitValidation (id : string) (r : SubmitValidationRequest)
| CallApproveProposal (id : string) (r : ProposalActorRequest)
| CallRejectProposal (id : string) (r : ProposalActorRequest)
| CallApplyProposal (id : string) (r : ProposalActorRequest) (w : WorkspaceRef)
| CallCreateTask (r : CreateTaskRequest)
| CallApproveTask (id : string) (r : TaskApprovalRequest)
| CallRejectTaskApproval (id : string) (r : TaskApprovalRequest)
| CallCancelTask (id : string) (actor : option A2APartyRef) (reason : option string)
| CallReassignTask (id : string) (r : TaskReassignRequest)
| CallUpdateTaskPayload (id : string) (p : JsRecord) (actor : option A2APartyRef) (note : option string)
| CallClaimTask (id worker : string)
| CallStartTask (id worker : string)
| CallHeartbeatTask (id worker : string)
| CallCompleteTask (id worker : string) (r : option TaskResult)
| CallFailTask (id worker : string) (e : option TaskError)
| CallRequeueStaleTasks (olderThanMs : Z) (nowMs workerOfflineAfterMs : option Z)
| CallPlanWake (id : string) (r : TaskWakePlanRequest)
| CallDecideWake (id : string) (r : TaskWakeDecisionRequest)
| CallUpdateOutbox (u : sink_update)
| CallSubscribe (id : string) (listener : nat)
| CallUnsubscribe (id : string) (listener : nat).

Definition ignore {A} (m : BM A) : BM unit := m;;; m_ret tt.

Definition run_call (c : call) : BM unit :=
  match c with
  | CallRegisterWorker r => ignore (registerWorker r)
  | CallHeartbeatWorker id r => ignore (heartbeatWorker id r)
  | CallStartExchange r => ignore (startExchange r)
  | CallAddExchangeMessage id r => ignore (addExchangeMessage id r)
  | CallCreateProposal r => ignore (createProposal r)
  | CallAttachArtifact id r => ignore (attachArtifact id r)
  | CallSubmitValidation id r => ignore (submitValidationResult id r)
  | CallApproveProposal id r => ignore (approveProposal id r)
  | CallRejectProposal id r => ignore (rejectProposal id r)
  | CallApplyProposal id r w => ignore (applyProposalLocally id r w)
  | CallCreateTask r => ignore (createTask r)
  | CallApproveTask id r => ignore (approveTask id r)
  | CallRejectTaskApproval id r => ignore (rejectTaskApproval id r)
  | CallCancelTask id a r => ignore (cancelTask id a r)
  | CallReassignTask id r => ignore (reassignTask id r)
  | CallUpdateTaskPayload id p a n => ignore (updateTaskPayload id p a n)
  | CallClaimTask id w => ignore (claimTask id w)
  | CallStartTask id w => ignore (startTask id w)
  | CallHeartbeatTask id w => ignore (heartbeatTask id w)
  | CallCompleteTask id w r => ignore (completeTask id w r)
  | CallFailTask id w e => ignore (failTask id w e)
  | CallRequeueStaleTasks o n w => ignore (requeueStaleTasksDetailed o n w)
  | CallPlanWake id r => ignore (planAcceptedTaskWake id r)
  | CallDecideWake id r => ignore (recordTaskWakeDecision id r)
  | CallUpdateOutbox u => ignore (updateTerminalTaskOutboxEvent u)
  | CallSubscribe id l => subscribeToTask id l
  | CallUnsubscribe id l => unsubscribeFromTask id l
  end.

(** What the broker relies on: a client names a new task neither by the empty
    string nor by an id the broker itself will draw. *)
Definition proper_call (c : call) (b : Broker) : Prop :=
  match c with CallCreateTask r => admissible r b | _ => True end.

(** One request is served, whether it returns or throws. *)
Definition broker_step (b b' : Broker) : Prop :=
  exists c, proper_call c b /\ (run_call c b).1 = b'.

(** A broker constructed without a snapshot. *)
Definition new_broker (s : sink_state) (startedAtMs : Z) : Broker := {|
  br_exchangeObjs := []; br_exchanges := []; br_exchangeMessages := []; br_proposals := [];
  br_artifacts := []; br_validations := []; br_auditEvents := []; br_workers := []; br_tasks := [];
  br_tombstones := []; br_taskListeners := []; br_taskEventBuffers := []; br_taskEventSeqs := [];
  br_pending := no_pending; br_lastPersistedWorkerHeartbeatAtMs := [];
  br_lastPersistedTaskHeartbeatAuditAtMs := []; br_lastFullRetentionPersistAtMs := startedAtMs;
  br_sink := s; br_storeCalls := []; br_deliveries := []; br_stateNotifications := 0;
  br_ticks := 0; br_uuids := 0 |}.

Definition reachable (b : Broker) : Prop :=
  exists s startedAtMs, rtc broker_step (new_broker s startedAtMs) b.

(** An invariant of every request holds in every reachable state. *)
Lemma reachable_invariant (I : Broker -> Prop) :
  (forall s ms, I (new_broker s ms)) -> (forall c b, I b -> I (run_call c b).1) ->
  forall b, reachable b -> I b.
Proof.
  intros H0' Hc b (s & ms & Hr). specialize (H0' s ms). revert H0'.
  induction Hr as [|b1 b2 b3 (c & _ & <-) _ IH]; auto.
Qed.

(** ** Every call follows the task machine *)

Context (uuid_inj : forall m n, host_uuid m = host_uuid n -> m = n).

Lemma ignore_evolves {A} N (m : BM A) : preserves (evolves N) m -> preserves (evolves N) (ignore m).
Proof. intros Hm. unfold ignore. apply preserves_bind; [apply _|done|]. intros. apply preserves_ret, _. Qed.

Lemma evolves_weaken (N N' : string -> Prop) b b' :
  (forall id, N id -> N' id) -> evolves N b b' -> evolves N' b b'.
Proof.
  intros HN He Hb. destruct (He Hb) as (Hb' & Hu & Hm). split_and!; [done..|]. intros id.
  specialize (Hm id). induction Hm as [|o1 o2 o3 Ho _ IH]; [reflexivity|].
  eapply rtc_l; [|exact IH]. by eapply move_weaken; [apply HN|].
Qed.

Lemma ignore_fst {A} (m : BM A) b : (ignore m b).1 = (m b).1.
Proof. unfold ignore, m_bind. by destruct (m b) as [b' [a|e]]. Qed.

Lemma run_call_evolves c b : proper_call c b -> evolves (absent b) b (run_call c b).1.
Proof.
  intros Hc. assert (forall A (m : BM A), preserves quiet m -> evolves (absent b) b (m b).1) as Hq
    by (intros A m Hm; by apply (preserves_quiet_evolves _ m Hm)).
  destruct c; simpl run_call; rewrite ?ignore_fst; simpl in Hc.
  - apply Hq, quiet_registerWorker.
  - apply Hq, quiet_heartbeatWorker.
  - apply Hq, quiet_startExchange.
  - unfold evolves at 1. intros Hwf.
    destruct (stays_addExchangeMessage uuid_inj (br_uuids b) id r b) as [He _]; [by split|].
    eapply evolves_weaken; [|exact He|exact Hwf]. intros i (n & Hn & ->). by apply wf_fresh.
  - apply Hq, quiet_createProposal.
  - apply Hq, quiet_attachArtifact.
  - apply Hq, quiet_submitValidationResult.
  - apply Hq, quiet_approveProposal.
  - apply Hq, quiet_rejectProposal.
  - apply Hq, quiet_applyProposalLocally.
  - by apply evolves_createTask.
  - apply evolves_approveTask.
  - apply evolves_rejectTaskApproval.
  - apply evolves_cancelTask.
  - apply evolves_reassignTask.
  - apply evolves_updateTaskPayload.
  - apply evolves_claimTask.
  - apply evolves_startTask.
  - apply evolves_heartbeatTask.
  - apply evolves_completeTask.
  - apply evolves_failTask.
  - apply evolves_requeueStaleTasksDetailed.
  - apply evolves_planAcceptedTaskWake.
  - apply evolves_recordTaskWakeDecision.
  - apply Hq, quiet_updateTerminalTaskOutboxEvent.
  - apply Hq, quiet_subscribeToTask.
  - apply Hq, quiet_unsubscribeFromTask.
Qed.

Lemma wf_new_broker s ms : wf_broker (new_broker s ms).
Proof. split; simpl; first [apply jm_wf_nil | apply keyed_nil | done]. Qed.

(** The invariant of reachable states. *)
Definition good (b : Broker) : Prop := wf_broker b /\ forall id, opt_inv (stored b id).

Lemma good_step b b' : good b -> broker_step b b' -> good b'.
Proof.
  intros [Hwf Hinv] (c & Hc & <-). destruct (run_call_evolves c b Hc Hwf) as (Hwf' & _ & Hm).
  split; [done|]. intros id. eapply opt_inv_moves; [apply Hm|apply Hinv].
Qed.

Lemma good_quiet b b' : quiet b b' -> good b -> good b'.
Proof.
  intros Hq [Hwf Hinv]. destruct (quiet_evolves (fun _ => False) b b' Hq Hwf) as (Hwf' & _ & Hm).
  split; [done|]. intros id.
  eapply opt_inv_moves; [apply Hm|apply Hinv].
Qed.

Lemma reachable_good b : reachable b -> good b.
Proof.
  intros (s & ms & Hr). assert (good (new_broker s ms)) as Hg.
  { split; [apply wf_new_broker|]. intros id t. done. }
  induction Hr as [|b1 b2 b3 Hs _ IH]; [done|]. by apply IH, (good_step b1).
Qed.
End System.
