(* ===== verification/Atomicity.v ===== *)
(** * A refused request changes nothing

    Every handler of [src/core/broker.ts] but [addExchangeMessage] makes all its
    checks before its first write, and no step after the first write throws.
    [sound] are the programs that never throw, [atomic] those that, when they
    throw, leave the broker as it was: clock readings, ids, audit events and the
    store included. *)

From Stdlib Require Import ZArith Lia String.
From stdpp Require Import base gmap strings list pretty relations.
From S2P Require Import Prelude JsRuntime Types Policy Retention BrokerCore CoreFacts Workers.
From S2P Require Import Proposals Github TerminalBrief Tasks TaskMachine TaskFacts TaskRuns Requeue.
From S2P Require Import Cancellation Exchanges System.

Section Atomicity.
Context `{JsHost} `{TaskEventSink} `{BrokerConfig}.

(** Every stored exchange denotes an object of its id: what the steps after the
    first write rely on. *)
Definition live_refs (b : Broker) : Prop := forall k r, jm_get k (br_exchanges b) = Some r ->
  exists ex, br_exchangeObjs b !! r = Some ex /\ ex_id ex = k.

Definition sound {A} (m : BM A) : Prop := forall b, live_refs b ->
  exists b' a, m b = (b', Ok a) /\ live_refs b'.

Definition atomic {A} (m : BM A) : Prop := forall b, live_refs b ->
  match m b with (b', Ok _) => live_refs b' | (b', Err _) => b' = b end.

Lemma wf_live_refs b : wf_broker b -> live_refs b.
Proof. exact (wf_exchange_refs b). Qed.

(** ** Combinators *)

Lemma sound_ret {A} (a : A) : sound (m_ret a).
Proof. intros b Hb. by exists b, a. Qed.
Lemma sound_gets {A} (f : Broker -> A) : sound (m_gets f).
Proof. intros b Hb. by exists b, (f b). Qed.
Lemma sound_get : sound m_get.
Proof. intros b Hb. by exists b, b. Qed.
Lemma sound_bind {A B} (m : BM A) (k : A -> BM B) :
  sound m -> (forall a, sound (k a)) -> sound (m_bind m k).
Proof.
  intros Hm Hk b Hb. destruct (Hm b Hb) as (b1 & a & Hr & Hb1). unfold m_bind. rewrite Hr. by apply Hk.
Qed.
Lemma sound_when c (m : BM unit) : sound m -> sound (m_when c m).
Proof. unfold m_when. destruct c; eauto using sound_ret. Qed.
Lemma sound_modify f : (forall b, live_refs b -> live_refs (f b)) -> sound (m_modify f).
Proof. intros Hf b Hb. exists (f b), tt. split; [done|by apply Hf]. Qed.

(** The exchanges and their objects are left alone. *)
Lemma sound_elsewhere f :
  (forall b, br_exchanges (f b) = br_exchanges b /\ br_exchangeObjs (f b) = br_exchangeObjs b) ->
  sound (m_modify f).
Proof.
  intros Hf. apply sound_modify. intros b Hb k r. destruct (Hf b) as [-> ->]. apply Hb.
Qed.

Lemma sound_atomic {A} (m : BM A) : sound m -> atomic m.
Proof. intros Hm b Hb. destruct (Hm b Hb) as (b' & a & -> & Hb'). done. Qed.
Lemma readonly_atomic {A} (m : BM A) : readonly m -> atomic m.
Proof. intros Hm b Hb. specialize (Hm b). destruct (m b) as [b' [a|e]]; simpl in Hm; by subst. Qed.
Lemma atomic_throw {A} c e : atomic (throw (A:=A) c e).
Proof. by intros b Hb. Qed.

(** A check, then the rest. *)
Lemma atomic_check {A B} (m : BM A) (k : A -> BM B) :
  readonly m -> (forall a, atomic (k a)) -> atomic (m_bind m k).
Proof.
  intros Hm Hk b Hb. specialize (Hm b). unfold m_bind.
  destruct (m b) as [b' [a|e]]; simpl in Hm; subst; [by apply Hk|done].
Qed.

(** A step that may refuse, then a rest that does not. *)
Lemma atomic_then {A B} (m : BM A) (k : A -> BM B) :
  atomic m -> (forall a, sound (k a)) -> atomic (m_bind m k).
Proof.
  intros Hm Hk b Hb. specialize (Hm b Hb). unfold m_bind. destruct (m b) as [b' [a|e]]; [|done].
  destruct (Hk a b' Hm) as (b2 & a2 & -> & Hb2). done.
Qed.
End Atomicity.

Create HintDb atomic_db discriminated.
#[export] Hint Constants Opaque : atomic_db.
#[export] Hint Resolve sound_ret sound_gets sound_get atomic_throw : atomic_db.

Ltac sound_step :=
  cbv beta;
  lazymatch goal with
  | |- sound (let x := ?v in @?k x) =>
      let y := fresh x in generalize v; intros y; change (sound (k y)); cbv beta
  | |- sound (m_bind _ _) => apply sound_bind; [|intro]
  | |- sound (m_ret _) => apply sound_ret
  | |- sound (m_gets _) => apply sound_gets
  | |- sound m_get => apply sound_get
  | |- sound (m_when _ _) => apply sound_when
  | |- sound (match ?x with _ => _ end) => destruct x
  | |- sound _ => first [solve [eauto with atomic_db] | apply sound_elsewhere; by intros]
  end.
Ltac sound_auto := repeat (sound_step; try done).

Ltac readonly_solve :=
  first [ solve [eauto with preserves_db]
        | apply readonly_check_task_references | apply readonly_assertTaskPayload
        | apply readonly_existing_task
        | unfold readonly, throw_if, throw; solve [preserves_auto] ].

Ltac atomic_step :=
  cbv beta;
  lazymatch goal with
  | |- atomic (let x := ?v in @?k x) =>
      let y := fresh x in generalize v; intros y; change (atomic (k y)); cbv beta
  | |- atomic (m_ret _) => apply sound_atomic, sound_ret
  | |- atomic (throw _ _) => apply atomic_throw
  | |- atomic (m_bind _ _) =>
      first [ apply atomic_check; [solve [readonly_solve]|intro]
            | apply sound_atomic; solve [sound_auto]
            | apply atomic_then; [|intro; solve [sound_auto]] ]
  | |- atomic (match ?x with _ => _ end) => destruct x
  | |- atomic _ => first [ solve [eauto with atomic_db] | apply readonly_atomic; solve [readonly_solve]
                         | apply sound_atomic; solve [sound_auto] ]
  end.
Ltac atomic_auto := repeat (atomic_step; try done).

Section Steps.
Context `{JsHost} `{TaskEventSink} `{BrokerConfig}.

(** ** The shared steps *)

Lemma sound_now_ms : sound now_ms.
Proof. intros b Hb. by eexists _, _. Qed.
Hint Resolve sound_now_ms : atomic_db.
Lemma sound_isoNow : sound isoNow.
Proof. unfold isoNow. sound_auto. Qed.
Lemma sound_randomUUID : sound randomUUID.
Proof. intros b Hb. by eexists _, _. Qed.
Hint Resolve sound_isoNow sound_randomUUID : atomic_db.

Lemma sound_setTaskRecord t : sound (setTaskRecord t).
Proof. by apply sound_elsewhere. Qed.
Lemma sound_setProposalRecord p : sound (setProposalRecord p).
Proof. by apply sound_elsewhere. Qed.
Lemma sound_setArtifactRecord a : sound (setArtifactRecord a).
Proof. by apply sound_elsewhere. Qed.
Lemma sound_setValidationRecord v : sound (setValidationRecord v).
Proof. by apply sound_elsewhere. Qed.
Lemma sound_setWorkerRecord w : sound (setWorkerRecord w).
Proof. by apply sound_elsewhere. Qed.
Lemma sound_setExchangeMessageRecord m : sound (setExchangeMessageRecord m).
Proof. by apply sound_elsewhere. Qed.
Hint Resolve sound_setTaskRecord sound_setProposalRecord sound_setArtifactRecord
  sound_setValidationRecord sound_setWorkerRecord sound_setExchangeMessageRecord : atomic_db.

Lemma sound_prune f : sound (m_modify (fun b => prune (f b) b)).
Proof.
  apply sound_modify. intros b Hb k r. simpl. unfold pruneMapEntries. rewrite jm_get_filter.
  destruct (in_set _ _); [apply Hb|done].
Qed.
Hint Resolve sound_prune : atomic_db.

Lemma sound_persist_full ms : sound (persist_full ms).
Proof.
  unfold persist_full, applyRetentionPolicy, consumeStateSaveHints, clearPendingStateSaveHints,
    store_call, emitStateChange. sound_auto.
Qed.
Hint Resolve sound_persist_full : atomic_db.
Lemma sound_persistState : sound persistState.
Proof.
  unfold persistState, consumeStateSaveHintsWithoutSnapshot, clearPendingStateSaveHints, store_call,
    emitStateChange. sound_auto.
Qed.
Lemma sound_emitTaskUpdate t r : sound (emitTaskUpdate t r).
Proof. unfold emitTaskUpdate, advanceTaskEventSeq, gets_map, bufferTaskEvent. sound_auto. Qed.
Lemma sound_push_to_sink e : sound (push_to_sink e).
Proof.
  apply sound_elsewhere. intros b. destruct (aud_targetType e); try done.
  destruct (jm_get _ _); [|done]. destruct (sink_push _ _ _) as [? []]; done.
Qed.
Hint Resolve sound_persistState sound_emitTaskUpdate sound_push_to_sink : atomic_db.
Lemma sound_appendAuditEvent i : sound (appendAuditEvent i).
Proof. reveal appendAuditEvent. sound_auto. Qed.
Hint Resolve sound_appendAuditEvent : atomic_db.
Lemma sound_audit_task a c t n : sound (audit_task a c t n).
Proof. unfold audit_task. sound_auto. Qed.
Lemma sound_audit_proposal a c t i p n : sound (audit_proposal a c t i p n).
Proof. unfold audit_proposal. sound_auto. Qed.
Hint Resolve sound_audit_task sound_audit_proposal : atomic_db.
Lemma sound_writeTombstone t r c : sound (writeTombstone t r c).
Proof. reveal writeTombstone. sound_auto. Qed.
Hint Resolve sound_writeTombstone : atomic_db.

(** Saving a live exchange, mutated in place. *)
Lemma sound_save_exchange k r f :
  (forall ex, ex_id (f ex) = ex_id ex) ->
  forall b, live_refs b -> jm_get k (br_exchanges b) = Some r ->
  exists b' a, (mutate_exchange r f;;; setExchangeRecord r) b = (b', Ok a) /\ live_refs b'.
Proof.
  intros Hf b Hb Hr. destruct (Hb k r Hr) as (ex & Hex & <-).
  unfold mutate_exchange, setExchangeRecord, deref_exchange, alloc_exchange, m_bind, m_modify. simpl.
  rewrite list_lookup_alter, Hex, decide_True by done. simpl. do 2 eexists. split; [reflexivity|].
  intros k' r'. simpl. rewrite jm_get_set, Hf. destruct (String.eqb_spec k' (ex_id ex)) as [->|Hne].
  - intros [= <-]. exists (f ex). split; [|apply Hf]. by rewrite lookup_app_r, Nat.sub_diag by lia.
  - intros Hk'. destruct (Hb k' r' Hk') as (ex' & Hex' & <-).
    pose proof (lookup_lt_Some _ _ _ Hex') as Hlt.
    rewrite lookup_app_l by (rewrite length_alter; done). rewrite list_lookup_alter.
    case_decide as Hd; [|eauto]. exists (f ex'). subst r'. rewrite Hex'. split; [done|apply Hf].
Qed.

Lemma sound_syncExchangeStateFromTask t st : sound (syncExchangeStateFromTask t st).
Proof.
  unfold syncExchangeStateFromTask, getExchange, gets_map. destruct (truthy_opt _) as [id|];
    [|apply sound_ret].
  intros b Hb. unfold m_bind at 1, m_gets. simpl. destruct (jm_get id (br_exchanges b)) as [r|] eqn:Hr;
    [|by apply sound_ret]. by apply (sound_save_exchange id r).
Qed.
Lemma sound_linkTaskToExchange t : sound (linkTaskToExchange t).
Proof.
  unfold linkTaskToExchange, getExchange, gets_map. destruct (truthy_opt _) as [id|];
    [|apply sound_ret].
  intros b Hb. unfold m_bind at 1, m_gets. simpl. destruct (jm_get id (br_exchanges b)) as [r|] eqn:Hr;
    [|by apply sound_ret]. by apply (sound_save_exchange id r).
Qed.
Hint Resolve sound_syncExchangeStateFromTask sound_linkTaskToExchange : atomic_db.
Lemma sound_commit_task t st a c n r : sound (commit_task t st a c n r).
Proof. unfold commit_task. sound_auto. Qed.
Hint Resolve sound_commit_task : atomic_db.

(** ** The handlers *)

Lemma atomic_registerWorker r : atomic (registerWorker r).
Proof.
  unfold registerWorker, assertWorkerRegistrationPayload, getWorker, gets_map.
  destruct (rw_role r) as [role|]; [atomic_auto|].
  intros b Hb. unfold m_bind, throw_if, m_throw_if, m_throw. by destruct (negb _).
Qed.
Lemma atomic_heartbeatWorker id r : atomic (heartbeatWorker id r).
Proof. reveal heartbeatWorker. unfold gets_map. atomic_auto. Qed.
(** Saving an exchange object just allocated. *)
Lemma sound_new_exchange {A} ex (k : BM A) :
  sound k -> sound (ref <-- alloc_exchange ex; setExchangeRecord ref;;; k).
Proof.
  intros Hk b Hb. unfold setExchangeRecord, deref_exchange, alloc_exchange, m_bind, m_modify. simpl.
  rewrite lookup_app_r, Nat.sub_diag by lia. simpl. apply Hk. intros k' r'. simpl. rewrite jm_get_set.
  destruct (String.eqb_spec k' (ex_id ex)) as [->|Hne].
  - intros [= <-]. exists ex. split; [|done]. rewrite lookup_app_r, Nat.sub_diag by lia. done.
  - intros Hk'. destruct (Hb k' r' Hk') as (ex' & Hex' & <-). exists ex'. split; [|done].
    by rewrite <- app_assoc, lookup_app_l by (by eapply lookup_lt_Some).
Qed.

Lemma atomic_startExchange r : atomic (startExchange r).
Proof.
  apply sound_atomic. reveal startExchange. do 6 sound_step; [eauto with atomic_db|]. apply sound_new_exchange. sound_auto.
Qed.
Lemma atomic_createProposal r : atomic (createProposal r).
Proof. unfold createProposal, assertProposalPayload, lift_policy. atomic_auto. Qed.
Lemma atomic_attachArtifact id r : atomic (attachArtifact id r).
Proof. unfold attachArtifact, requireProposal, getProposal, require, gets_map. atomic_auto. Qed.
Lemma atomic_submitValidationResult id r : atomic (submitValidationResult id r).
Proof.
  unfold submitValidationResult, requireProposal, getProposal, require, gets_map, lift_policy. atomic_auto.
Qed.
Lemma atomic_approveProposal id r : atomic (approveProposal id r).
Proof.
  unfold approveProposal, decide_proposal, assertTransition, requireProposal, getProposal, require,
    gets_map, lift_policy. atomic_auto.
Qed.
Lemma atomic_rejectProposal id r : atomic (rejectProposal id r).
Proof.
  unfold rejectProposal, decide_proposal, assertTransition, requireProposal, getProposal, require,
    gets_map, lift_policy. atomic_auto.
Qed.
Lemma atomic_applyProposalLocally id r w : atomic (applyProposalLocally id r w).
Proof.
  unfold applyProposalLocally, decide_proposal, assertTransition, requireProposal, getProposal, require,
    gets_map, lift_policy. atomic_auto.
Qed.
Hint Resolve atomic_submitValidationResult atomic_applyProposalLocally : atomic_db.

Lemma atomic_createTask r : atomic (createTask r).
Proof. unfold createTask, insert_task, lift_result. atomic_auto. Qed.
Lemma atomic_approveTask id r : atomic (approveTask id r).
Proof. reveal approveTask. unfold requireTask, getTask, require, gets_map. atomic_auto. Qed.
Lemma atomic_reassignTask id r : atomic (reassignTask id r).
Proof. reveal reassignTask. unfold requireTask, getTask, require, gets_map. atomic_auto. Qed.
Lemma atomic_updateTaskPayload id p a n : atomic (updateTaskPayload id p a n).
Proof. reveal updateTaskPayload. unfold requireTask, getTask, require, gets_map. atomic_auto. Qed.
Lemma atomic_claimTask id w : atomic (claimTask id w).
Proof. reveal claimTask. unfold requireTask, getTask, require, gets_map, assertTaskStatus. atomic_auto. Qed.
Lemma atomic_startTask id w : atomic (startTask id w).
Proof. reveal startTask. unfold requireTask, getTask, require, gets_map, assertTaskStatus. atomic_auto. Qed.
Lemma atomic_heartbeatTask id w : atomic (heartbeatTask id w).
Proof.
  reveal heartbeatTask. unfold requireTask, getTask, require, gets_map, assertTaskStatus. atomic_auto.
Qed.
Lemma atomic_applyTaskCompletion t w r : atomic (applyTaskCompletion t w r).
Proof. unfold applyTaskCompletion. atomic_auto. Qed.
Hint Resolve atomic_applyTaskCompletion : atomic_db.
Lemma atomic_completeTask id w r : atomic (completeTask id w r).
Proof. reveal completeTask. unfold requireTask, getTask, require, gets_map. atomic_auto. Qed.
Lemma atomic_failTask id w e : atomic (failTask id w e).
Proof. reveal failTask. unfold requireTask, getTask, require, gets_map. atomic_auto. Qed.
Lemma atomic_planAcceptedTaskWake id r : atomic (planAcceptedTaskWake id r).
Proof.
  reveal planAcceptedTaskWake. unfold replay_wake, requireTask, getTask, require, gets_map. atomic_auto.
Qed.
Lemma atomic_recordTaskWakeDecision id r : atomic (recordTaskWakeDecision id r).
Proof. reveal recordTaskWakeDecision. unfold requireTask, getTask, require, gets_map. atomic_auto. Qed.
Lemma sound_updateTerminalTaskOutboxEvent u : sound (updateTerminalTaskOutboxEvent u).
Proof.
  unfold updateTerminalTaskOutboxEvent, update_sink, persistTerminalTaskOutboxEvent, pend_sink_event.
  sound_auto.
Qed.

(** ** The fan-out of a cancellation and the reaper, on a well-formed store *)

Definition atomic_at {A} (m : BM A) (b : Broker) : Prop :=
  forall b' e, m b = (b', Err e) -> b' = b.

Lemma atomic_at_wf {A} (m : BM A) b : wf_broker b -> atomic m -> atomic_at m b.
Proof. intros Hwf%wf_live_refs Hm b' e Hr. specialize (Hm b Hwf). by rewrite Hr in Hm. Qed.

Lemma atomic_at_check {A B} (m : BM A) (k : A -> BM B) b :
  readonly m -> (forall a, m b = (b, Ok a) -> atomic_at (k a) b) -> atomic_at (m_bind m k) b.
Proof.
  intros Hm Hk b' e. specialize (Hm b). unfold m_bind.
  destruct (m b) as [b1 [a|e1]]; simpl in Hm; subst; [by apply Hk|congruence].
Qed.

Lemma atomic_at_ok {A} (m : BM A) b : (exists b' a, m b = (b', Ok a)) -> atomic_at m b.
Proof. intros (b' & a & Hr) b1 e. congruence. Qed.

Lemma readonly_requireTask id : readonly (requireTask id).
Proof. unfold readonly, requireTask, require, getTask, gets_map, throw. preserves_auto. Qed.

Lemma requireTask_stored id b t : requireTask id b = (b, Ok t) -> stored b id = Some t.
Proof.
  unfold requireTask, require, getTask, gets_map, m_gets, m_bind, stored. simpl.
  by destruct (jm_get id (br_tasks b)); intros [= ->].
Qed.

Lemma throw_if_passed c code message b : throw_if c code message b = (b, Ok tt) -> c = false.
Proof. by destruct c. Qed.

Lemma atomic_cancelTask id a reason b : wf_broker b -> atomic_at (cancelTask id a reason) b.
Proof.
  intros Hwf. reveal cancelTask.
  apply atomic_at_check; [apply readonly_requireTask|]. intros t Ht%requireTask_stored.
  apply atomic_at_check; [apply readonly_require_actor|]. intros _ _. cbv zeta.
  apply atomic_at_check; [apply readonly_throw_if|]. intros _ _.
  destruct (isTerminalTaskStatus (task_status t)) eqn:Ha; apply atomic_at_ok; [by eexists _, _|].
  destruct (cancel_tree_run (fun _ => True) b t (mkCancelParams (actor_id a) reason None))
    as (b' & t' & v & Hrun & _); [done| |by eexists _, _].
  assert (task_id t = id) as <- by by apply (wf_tasks _ Hwf). by apply stored_cancelable.
Qed.

(** Drawing an id where none was given. *)
Lemma optional_uuid_run (o : option string) b : wf_broker b ->
  exists b' i, (match o with Some i => m_ret i | None => randomUUID end) b = (b', Ok i)
    /\ wf_broker b' /\ forall j, stored b' j = stored b j.
Proof.
  intros Hwf. destruct o as [i|]; [by exists b, i|].
  destruct (quiet_randomUUID b Hwf) as [Hwf' _]. by eexists _, _.
Qed.

Lemma atomic_rejectTaskApproval id r b : wf_broker b -> atomic_at (rejectTaskApproval id r) b.
Proof.
  intros Hwf. reveal rejectTaskApproval.
  apply atomic_at_check; [apply readonly_requireTask|]. intros t Ht%requireTask_stored.
  assert (task_id t = id) as <- by by apply (wf_tasks _ Hwf).
  do 3 (apply atomic_at_check; [first [apply readonly_require_actor|apply readonly_throw_if]|]; intros _ _).
  apply atomic_at_check; [apply readonly_throw_if|]. intros [] Hap%throw_if_passed.
  destruct (task_approvalOutcome t) as [o|] eqn:Ho; [by apply atomic_at_ok; eexists _, _|].
  apply atomic_at_check; [apply readonly_throw_if|]. intros [] Hact%throw_if_passed.
  apply atomic_at_check; [apply readonly_throw_if|]. intros _ _.
  apply atomic_at_ok. rewrite (bind_ok _ _ _ _ _ (isoNow_run b)). cbv zeta.
  destruct (optional_uuid_run (normalizeApprovalId (ar_approvalId r)) (tick b)) as (b1 & i & Hi & Hwf1 & Hst);
    [by apply wf_tick|].
  rewrite (bind_ok _ _ _ _ _ Hi).
  match goal with |- context [cancel_tree ?task ?p] =>
    destruct (cancel_tree_run (fun _ => True) b1 task p) as (b' & t' & v & Hrun & _ & F & _); [done| |] end.
  - eexists t, _. split_and!; [by rewrite Hst|exact Hact|done|reflexivity|].
    right. by destruct (task_approval t).
  - rewrite (bind_ok _ _ _ _ _ Hrun).
    match goal with |- exists b2 a2, ?m b' = _ => assert (sound m) as Hm by sound_auto end.
    destruct (Hm b' (wf_live_refs _ (fo_wf _ _ _ _ _ F))) as (b2 & a2 & -> & _). by eexists _, _.
Qed.

Lemma atomic_requeue older nowMs offline b :
  wf_broker b -> atomic_at (requeueStaleTasksDetailed older nowMs offline) b.
Proof.
  intros Hwf. destruct (reaper_run older nowMs offline b Hwf) as (b' & Hrun & _).
  apply atomic_at_ok. by eexists _, _.
Qed.

Lemma atomic_at_ignore {A} (m : BM A) b : atomic_at m b -> atomic_at (ignore m) b.
Proof.
  intros Hm b' e. unfold ignore, m_bind. destruct (m b) as [b1 [a|e1]] eqn:Hr; [done|].
  intros [= <- <-]. by eapply Hm.
Qed.

Lemma refused_call c b :
  wf_broker b -> match c with CallAddExchangeMessage _ _ => False | _ => True end ->
  atomic_at (run_call c) b.
Proof.
  intros Hwf Hc. destruct c; simpl; try (apply atomic_at_ignore); try done;
    first [ by apply atomic_cancelTask | by apply atomic_rejectTaskApproval | by apply atomic_requeue
          | apply atomic_at_wf; [done|];
            first [ apply atomic_registerWorker | apply atomic_heartbeatWorker | apply atomic_startExchange
                  | apply atomic_createProposal | apply atomic_attachArtifact
                  | apply atomic_submitValidationResult | apply atomic_approveProposal
                  | apply atomic_rejectProposal | apply atomic_applyProposalLocally | apply atomic_createTask
                  | apply atomic_approveTask | apply atomic_reassignTask | apply atomic_updateTaskPayload
                  | apply atomic_claimTask | apply atomic_startTask | apply atomic_heartbeatTask
                  | apply atomic_completeTask | apply atomic_failTask | apply atomic_planAcceptedTaskWake
                  | apply atomic_recordTaskWakeDecision
                  | apply sound_atomic, sound_updateTerminalTaskOutboxEvent
                  | by apply sound_atomic, sound_elsewhere ] ].
Qed.
End Steps.
