(* ===== verification/Walk.v ===== *)
(** * Every request is made of a few steps

    A relation between broker states that is a preorder and holds across each of
    the elementary steps below holds across every request ([walk_call]).  The
    invariants of the event feeds and of the store follow from this one walk over
    the handlers. *)

From Stdlib Require Import ZArith Lia String.
From stdpp Require Import base gmap strings list pretty relations.
From S2P Require Import Prelude JsRuntime Types Policy Retention BrokerCore CoreFacts Workers.
From S2P Require Import Proposals Github TerminalBrief Tasks TaskFacts Exchanges System.

Section Walk.
Context `{JsHost} `{TaskEventSink} `{BrokerConfig}.
Context (R : Broker -> Broker -> Prop) `{!Reflexive R} `{!Transitive R}.

(** The elementary steps. *)
Context
  (W_now : preserves R now_ms)
  (W_uuid : preserves R randomUUID)
  (W_mutate : forall r f, preserves R (mutate_exchange r f))
  (W_alloc : forall ex, preserves R (alloc_exchange ex))
  (W_exchange : forall r, preserves R (setExchangeRecord r))
  (W_message : forall m, preserves R (setExchangeMessageRecord m))
  (W_proposal : forall p, preserves R (setProposalRecord p))
  (W_artifact : forall a, preserves R (setArtifactRecord a))
  (W_validation : forall v, preserves R (setValidationRecord v))
  (W_worker : forall w, preserves R (setWorkerRecord w))
  (W_task : forall t, preserves R (setTaskRecord t))
  (W_worker_beat : forall f, preserves (E:=BrokerError) R
     (m_modify (fun b => b <| br_lastPersistedWorkerHeartbeatAtMs ::= f |>)))
  (W_task_beat : forall f, preserves (E:=BrokerError) R
     (m_modify (fun b => b <| br_lastPersistedTaskHeartbeatAuditAtMs ::= f |>)))
  (W_audit : forall i, preserves R (appendAuditEvent i))
  (W_tombstone : forall t r c, preserves R (writeTombstone t r c))
  (W_persist : preserves R persistState)
  (W_emit : forall t r, preserves R (emitTaskUpdate t r))
  (W_sink : forall u now, preserves R (update_sink u now))
  (W_sink_event : forall e, preserves R (pend_sink_event e))
  (W_subscribe : forall id l, preserves R (subscribeToTask id l))
  (W_unsubscribe : forall id l, preserves R (unsubscribeFromTask id l)).

Hint Resolve W_now W_uuid W_mutate W_alloc W_exchange W_message W_proposal W_artifact W_validation
  W_worker W_task W_worker_beat W_task_beat W_audit W_tombstone W_persist W_emit W_subscribe
  W_unsubscribe W_sink W_sink_event : preserves_db.

(** A step that reads only. *)
Lemma walk_readonly {A} (m : BM A) : readonly m -> preserves R m.
Proof. apply preserves_mono. intros b b' <-. reflexivity. Qed.

Lemma walk_isoNow : preserves R isoNow.
Proof. unfold isoNow. preserves_auto. Qed.
Lemma walk_throw {A} c m : preserves R (throw (A:=A) c m).
Proof. apply preserves_throw, _. Qed.
Lemma walk_throw_if c e m : preserves R (throw_if c e m).
Proof. apply preserves_throw_if, _. Qed.
Lemma walk_gets_map {V} (m : Broker -> jsmap V) k : preserves R (gets_map m k).
Proof. apply preserves_gets, _. Qed.
Lemma walk_lift_policy r : preserves R (lift_policy r).
Proof. unfold lift_policy. preserves_auto. Qed.
Hint Resolve walk_isoNow walk_throw walk_throw_if walk_gets_map walk_lift_policy : preserves_db.

Lemma walk_require {A} (m : BM (option A)) message : preserves R m -> preserves R (require m message).
Proof. intros Hm. unfold require. preserves_auto. Qed.
Hint Resolve walk_require : preserves_db.
Lemma walk_requireExchange id : preserves R (requireExchange id).
Proof. unfold requireExchange, getExchange. preserves_auto. Qed.
Lemma walk_requireTask id : preserves R (requireTask id).
Proof. unfold requireTask, getTask. preserves_auto. Qed.
Lemma walk_requireWorker id : preserves R (requireWorker id).
Proof. unfold requireWorker, getWorker. preserves_auto. Qed.
Lemma walk_requireProposal id : preserves R (requireProposal id).
Proof. unfold requireProposal, getProposal. preserves_auto. Qed.
Lemma walk_requireExchangeMessage e id : preserves R (requireExchangeMessage e id).
Proof. unfold requireExchangeMessage. preserves_auto. Qed.
Lemma walk_deref r : preserves R (deref_exchange r).
Proof. intros b. unfold deref_exchange. destruct (_ !! r); simpl; reflexivity. Qed.
Lemma walk_assertTransition c l a : preserves R (assertTransition c l a).
Proof. unfold assertTransition. preserves_auto. Qed.
Lemma walk_assertTaskStatus c l a : preserves R (assertTaskStatus c l a).
Proof. unfold assertTaskStatus. preserves_auto. Qed.
Lemma walk_assertTaskWorker t w a : preserves R (assertTaskWorker t w a).
Proof. apply walk_readonly, readonly_assertTaskWorker. Qed.
Lemma walk_require_actor a : preserves R (require_actor a).
Proof. apply walk_readonly, readonly_require_actor. Qed.
Lemma walk_audit_task a c t n : preserves R (audit_task a c t n).
Proof. unfold audit_task. preserves_auto. Qed.
Hint Resolve walk_requireExchange walk_requireTask walk_requireWorker walk_requireProposal
  walk_requireExchangeMessage walk_deref walk_assertTransition walk_assertTaskStatus
  walk_assertTaskWorker walk_require_actor walk_audit_task : preserves_db.
Lemma walk_sync t st : preserves R (syncExchangeStateFromTask t st).
Proof. unfold syncExchangeStateFromTask, getExchange. preserves_auto. Qed.
Lemma walk_link t : preserves R (linkTaskToExchange t).
Proof. unfold linkTaskToExchange, getExchange. preserves_auto. Qed.
Lemma walk_audit_proposal a c t i p n : preserves R (audit_proposal a c t i p n).
Proof. unfold audit_proposal. preserves_auto. Qed.
Hint Resolve walk_sync walk_link walk_audit_proposal : preserves_db.
Lemma walk_commit t st a c n r : preserves R (commit_task t st a c n r).
Proof. unfold commit_task. preserves_auto. Qed.
Hint Resolve walk_commit : preserves_db.

(** ** The handlers *)

Lemma walk_registerWorker r : preserves R (registerWorker r).
Proof. unfold registerWorker, assertWorkerRegistrationPayload, getWorker. preserves_auto. Qed.
Lemma walk_heartbeatWorker id r : preserves R (heartbeatWorker id r).
Proof. reveal heartbeatWorker. preserves_auto. Qed.
Lemma walk_createProposal r : preserves R (createProposal r).
Proof. unfold createProposal, assertProposalPayload. preserves_auto. Qed.
Lemma walk_attachArtifact id r : preserves R (attachArtifact id r).
Proof. unfold attachArtifact. preserves_auto. Qed.
Lemma walk_submitValidationResult id r : preserves R (submitValidationResult id r).
Proof. unfold submitValidationResult. preserves_auto. Qed.
Lemma walk_approveProposal id r : preserves R (approveProposal id r).
Proof. unfold approveProposal, decide_proposal. preserves_auto. Qed.
Lemma walk_rejectProposal id r : preserves R (rejectProposal id r).
Proof. unfold rejectProposal, decide_proposal. preserves_auto. Qed.
Lemma walk_applyProposalLocally id r w : preserves R (applyProposalLocally id r w).
Proof. unfold applyProposalLocally, decide_proposal. preserves_auto. Qed.
Hint Resolve walk_registerWorker walk_heartbeatWorker walk_createProposal walk_attachArtifact
  walk_submitValidationResult walk_approveProposal walk_rejectProposal walk_applyProposalLocally : preserves_db.

Lemma walk_createTask r : preserves R (createTask r).
Proof.
  unfold createTask, insert_task, lift_result.
  repeat (preserves_step; try done; try (apply walk_readonly; first
    [apply readonly_assertTaskPayload | apply readonly_existing_task | apply readonly_check_task_references])).
Qed.
Lemma walk_cancelTaskRecord t p : preserves R (cancelTaskRecord t p).
Proof. unfold cancelTaskRecord. preserves_auto. Qed.
Hint Resolve walk_createTask walk_cancelTaskRecord : preserves_db.

Lemma walk_cancel_children cancel cs visited :
  (forall c v, preserves R (cancel c v)) -> preserves R (cancel_children cancel cs visited).
Proof.
  intros Hc. revert visited. induction cs as [|c cs IH]; intros visited; simpl; [apply preserves_ret, _|].
  destruct (isTerminalTaskStatus _); [apply IH|]. apply preserves_bind; [apply _|apply Hc|]. intros. apply IH.
Qed.
Lemma walk_cancelTaskTree fuel t p visited : preserves R (cancelTaskTree fuel t p visited).
Proof.
  revert t p visited. induction fuel as [|fuel IH]; intros t p visited; simpl; [apply preserves_throw, _|].
  preserves_auto. apply walk_cancel_children. intros. apply IH.
Qed.
Hint Resolve walk_cancelTaskTree : preserves_db.
Lemma walk_cancel_tree t p : preserves R (cancel_tree t p).
Proof. unfold cancel_tree. preserves_auto. Qed.
Hint Resolve walk_cancel_tree : preserves_db.

Lemma walk_requeue_one th now ws t out : preserves R (requeue_one th now ws t out).
Proof. unfold requeue_one. preserves_auto. Qed.
Hint Resolve walk_requeue_one : preserves_db.
Lemma walk_requeue_loop th now ws l out : preserves R (requeue_loop th now ws l out).
Proof. revert out. induction l as [|t l IH]; intros out; simpl; preserves_auto. Qed.
Hint Resolve walk_requeue_loop : preserves_db.
Lemma walk_requeue o n w : preserves R (requeueStaleTasksDetailed o n w).
Proof. unfold requeueStaleTasksDetailed. preserves_auto. Qed.
Lemma walk_approveTask id r : preserves R (approveTask id r).
Proof. reveal approveTask. preserves_auto. Qed.
Lemma walk_rejectTaskApproval id r : preserves R (rejectTaskApproval id r).
Proof. reveal rejectTaskApproval. preserves_auto. Qed.
Lemma walk_cancelTask id a r : preserves R (cancelTask id a r).
Proof. reveal cancelTask. preserves_auto. Qed.
Lemma walk_reassignTask id r : preserves R (reassignTask id r).
Proof. reveal reassignTask. preserves_auto. Qed.
Lemma walk_updateTaskPayload id p a n : preserves R (updateTaskPayload id p a n).
Proof. reveal updateTaskPayload. preserves_auto. Qed.
Lemma walk_claimTask id w : preserves R (claimTask id w).
Proof. reveal claimTask. preserves_auto. Qed.
Lemma walk_startTask id w : preserves R (startTask id w).
Proof. reveal startTask. preserves_auto. Qed.
Lemma walk_heartbeatTask id w : preserves R (heartbeatTask id w).
Proof. reveal heartbeatTask. preserves_auto. Qed.
Lemma walk_applyTaskCompletion t w r : preserves R (applyTaskCompletion t w r).
Proof. unfold applyTaskCompletion. preserves_auto. Qed.
Hint Resolve walk_reassignTask walk_applyTaskCompletion : preserves_db.
Lemma walk_completeTask id w r : preserves R (completeTask id w r).
Proof. reveal completeTask. preserves_auto. Qed.
Lemma walk_failTask id w e : preserves R (failTask id w e).
Proof. reveal failTask. preserves_auto. Qed.
Lemma walk_planAcceptedTaskWake id r : preserves R (planAcceptedTaskWake id r).
Proof. reveal planAcceptedTaskWake. unfold replay_wake. preserves_auto. Qed.
Lemma walk_recordTaskWakeDecision id r : preserves R (recordTaskWakeDecision id r).
Proof. reveal recordTaskWakeDecision. preserves_auto. Qed.

Lemma walk_active_task ex : preserves R (active_task ex).
Proof. unfold active_task, getTask. preserves_auto. Qed.
Hint Resolve walk_active_task : preserves_db.
Lemma walk_cancelActiveExchangeTask ref reason : preserves R (cancelActiveExchangeTask ref reason).
Proof. unfold cancelActiveExchangeTask. preserves_auto. Qed.
Lemma walk_ensureExchangeTask ref m w : preserves R (ensureExchangeTask ref m w).
Proof. unfold ensureExchangeTask. preserves_auto. Qed.
Hint Resolve walk_cancelActiveExchangeTask walk_ensureExchangeTask : preserves_db.
Lemma walk_applyExchangeMessageDecision ref m : preserves R (applyExchangeMessageDecision ref m).
Proof. unfold applyExchangeMessageDecision, getWorker. preserves_auto. Qed.
Hint Resolve walk_applyExchangeMessageDecision : preserves_db.
Lemma walk_addExchangeMessage id r : preserves R (addExchangeMessage id r).
Proof.
  reveal addExchangeMessage. unfold require_worker_if, assertExchangeMessageActor. preserves_auto.
Qed.
Lemma walk_startExchange r : preserves R (startExchange r).
Proof. reveal startExchange. preserves_auto. Qed.

Lemma walk_updateTerminalTaskOutboxEvent u : preserves R (updateTerminalTaskOutboxEvent u).
Proof. unfold updateTerminalTaskOutboxEvent, persistTerminalTaskOutboxEvent. preserves_auto. Qed.

Lemma walk_ignore {A} (m : BM A) : preserves R m -> preserves R (ignore m).
Proof. intros Hm. unfold ignore. preserves_auto. Qed.

Lemma walk_call c : preserves R (run_call c).
Proof.
  destruct c; simpl; try apply walk_ignore;
    eauto using walk_requeue, walk_approveTask, walk_rejectTaskApproval, walk_cancelTask,
      walk_updateTaskPayload, walk_claimTask, walk_startTask, walk_heartbeatTask, walk_completeTask,
      walk_failTask, walk_planAcceptedTaskWake, walk_recordTaskWakeDecision, walk_addExchangeMessage,
      walk_updateTerminalTaskOutboxEvent,
      walk_startExchange with preserves_db.
Qed.

End Walk.
