(* ===== verification/ProposalMachine.v ===== *)
(** * The life of a proposal

    The moves a request makes on the record of a proposal, as a relation labelled
    by the request, and the refinement: every request of the broker changes every
    proposal along these moves only. *)

From Stdlib Require Import ZArith Lia String.
From stdpp Require Import base gmap strings list pretty relations.
From S2P Require Import Prelude JsRuntime Types Policy Retention BrokerCore CoreFacts Workers.
From S2P Require Import Proposals Github TerminalBrief Tasks TaskFacts Exchanges System Atomicity Walk.

(** [p'] differs from [p] in status, time and artifacts at most. *)
Definition same_proposal (p p' : ChangeProposal) : Prop :=
  p' = p <| pr_status := pr_status p' |> <| pr_updatedAt := pr_updatedAt p' |>
         <| pr_artifactIds := pr_artifactIds p' |>
  /\ pr_artifactIds p ⊆ pr_artifactIds p'.

(** Who may decide on a proposal: an operator, or the node it is meant for. *)
Definition may_decide (p : ChangeProposal) (r : ProposalActorRequest) : Prop :=
  role_is (actor_role (pa_actor r)) RoleOperator = true \/ actor_id (pa_actor r) = pr_targetNodeId p.

Definition undecided (p : ChangeProposal) : Prop := pr_status p ∈ [StatusSubmitted; StatusValidated].

Section Machine.
Context `{JsHost} `{TaskEventSink} `{BrokerConfig}.

Inductive proposal_move (c : call) (i : string) : option ChangeProposal -> option ChangeProposal -> Prop :=
| ProposalCreated r p :
    c = CallCreateProposal r -> pr_status p = StatusSubmitted ->
    pr_source p = cp_source r -> pr_target p = cp_target r -> pr_workspace p = cp_workspace r ->
    pr_sourceNodeId p = party_id (cp_source r) -> pr_targetNodeId p = party_id (cp_target r) ->
    proposal_move c i None (Some p)
| ProposalExtended p p' :
    (exists r, c = CallAttachArtifact i r) \/ (exists t w r, c = CallCompleteTask t w r) ->
    same_proposal p p' -> pr_status p' = pr_status p ->
    proposal_move c i (Some p) (Some p')
| ProposalValidated r p p' :
    c = CallSubmitValidation i r \/ (exists t w res, c = CallCompleteTask t w res) ->
    same_proposal p p' -> pr_status p' = StatusValidated ->
    sv_nodeId r = pr_targetNodeId p \/ sv_nodeId r = pr_sourceNodeId p ->
    proposal_move c i (Some p) (Some p')
| ProposalApproved r p p' :
    c = CallApproveProposal i r -> same_proposal p p' -> undecided p -> may_decide p r ->
    pr_status p' = StatusApproved -> proposal_move c i (Some p) (Some p')
| ProposalRejected r p p' :
    c = CallRejectProposal i r -> same_proposal p p' -> undecided p -> may_decide p r ->
    pr_status p' = StatusRejected -> proposal_move c i (Some p) (Some p')
| ProposalApplied r w p p' :
    c = CallApplyProposal i r w \/ (exists t res, c = CallCompleteTask t (actor_id (pa_actor r)) res) ->
    same_proposal p p' -> pr_status p = StatusApproved -> may_decide p r ->
    ws_nodeId w = pr_targetNodeId p -> pr_status p' = StatusApplied ->
    proposal_move c i (Some p) (Some p')
| ProposalPruned p :
    isTerminalProposalStatus (pr_status p) = true -> proposal_move c i (Some p) None.

Definition proposal (b : Broker) (i : string) : option ChangeProposal := jm_get i (br_proposals b).

(** Proposals are stored under their own ids, none of which is still to be drawn. *)
Record proposals_ok (b : Broker) : Prop := {
  po_keyed : keyed pr_id (br_proposals b);
  po_fresh n : br_uuids b <= n -> proposal b (host_uuid n) = None;
}.

Definition advances (c : call) (b b' : Broker) : Prop :=
  proposals_ok b -> proposals_ok b' /\ br_uuids b <= br_uuids b'
    /\ forall i, rtc (proposal_move c i) (proposal b i) (proposal b' i).

#[export] Instance advances_refl c : Reflexive (advances c).
Proof. intros b Hb. split_and!; [done..|]. intros. reflexivity. Qed.
#[export] Instance advances_trans c : Transitive (advances c).
Proof.
  intros b1 b2 b3 S12 S23 Hb1. destruct (S12 Hb1) as (Hb2 & L12 & M12). destruct (S23 Hb2) as (Hb3 & L23 & M23).
  split_and!; [done|lia|]. intros i. etransitivity; [apply M12|apply M23].
Qed.

(** ** Steps that write no proposal *)

Section Steps.
Context (c : call).

Lemma advances_same f :
  (forall b, br_proposals (f b) = br_proposals b /\ br_uuids (f b) = br_uuids b) ->
  preserves (E:=BrokerError) (advances c) (m_modify f).
Proof.
  intros Hf. apply preserves_modify. intros b [Hk Hn]. destruct (Hf b) as [Hp Hu].
  unfold proposal in *. split_and!; [split; [by rewrite Hp|intros n; unfold proposal; rewrite Hp, Hu; apply Hn]|by rewrite Hu|].
  intros i. unfold proposal. rewrite Hp. reflexivity.
Qed.

Lemma advances_now : preserves (advances c) now_ms.
Proof. intros b. apply (advances_same (fun b => b <| br_ticks ::= S |>)). by intros. Qed.

Lemma advances_alloc ex : preserves (advances c) (alloc_exchange ex).
Proof. intros b. apply (advances_same (fun b => b <| br_exchangeObjs ::= fun l => l ++ [ex] |>)). by intros. Qed.

Lemma advances_uuid : preserves (advances c) randomUUID.
Proof.
  intros b [Hk Hn]. split_and!; [|simpl; lia|intros; reflexivity].
  split; [done|]. intros n Hle. apply Hn. simpl in Hle. lia.
Qed.

Lemma proposal_prune r b i :
  proposal (prune r b) i = if in_set (ret_proposals r) i then proposal b i else None.
Proof. apply jm_get_filter. Qed.

Lemma advances_prune nowMs : preserves (E:=BrokerError) (advances c)
  (m_modify (fun b => prune (retainedIds cfg_retention nowMs (retention_view b)) b)).
Proof.
  apply preserves_modify. intros b [Hk Hn].
  pose proof (retained_active_proposal cfg_retention nowMs (retention_view b)) as Hact.
  revert Hact. generalize (retainedIds cfg_retention nowMs (retention_view b)). intros r Hact.
  split_and!; [split|done|].
  - by apply keyed_filter.
  - intros n Hle. rewrite proposal_prune. destruct (in_set _ _); [exact (Hn n Hle)|done].
  - intros i. rewrite proposal_prune. destruct (in_set (ret_proposals r) i) eqn:Hin; [reflexivity|].
    destruct (proposal b i) as [p|] eqn:Hp; [|reflexivity].
    apply rtc_once, ProposalPruned. destruct (isTerminalProposalStatus (pr_status p)) eqn:Ht; [done|]. exfalso.
    apply in_set_false in Hin. apply Hin. assert (pr_id p = i) as <- by by apply Hk.
    apply Hact; [|done]. by apply (keyed_value pr_id).
Qed.
End Steps.
Hint Resolve advances_now advances_uuid advances_prune : preserves_db.

Ltac advances_auto := preserves_auto; try (apply advances_same; intros b; repeat case_match; done).

Lemma advances_persist c : preserves (advances c) persistState.
Proof.
  unfold persistState, persist_full, applyRetentionPolicy, consumeStateSaveHints,
    consumeStateSaveHintsWithoutSnapshot, clearPendingStateSaveHints, store_call, emitStateChange.
  advances_auto.
Qed.
Lemma advances_audit c i : preserves (advances c) (appendAuditEvent i).
Proof. reveal appendAuditEvent. unfold isoNow, push_to_sink. advances_auto. Qed.
Hint Resolve advances_persist advances_audit : preserves_db.
Lemma advances_audit_proposal c a k t i p n : preserves (advances c) (audit_proposal a k t i p n).
Proof. unfold audit_proposal. advances_auto. Qed.
Hint Resolve advances_audit_proposal : preserves_db.
Lemma advances_tombstone c t r x : preserves (advances c) (writeTombstone t r x).
Proof. unfold writeTombstone, audit_task, isoNow. advances_auto. Qed.
Lemma advances_emit c t r : preserves (advances c) (emitTaskUpdate t r).
Proof. unfold emitTaskUpdate, advanceTaskEventSeq, gets_map, bufferTaskEvent. advances_auto. Qed.
Lemma advances_exchange c r : preserves (advances c) (setExchangeRecord r).
Proof.
  unfold setExchangeRecord. apply preserves_bind; [apply _| |].
  - intros b. unfold deref_exchange. destruct (_ !! r); simpl; reflexivity.
  - intros ex. apply preserves_bind; [apply _|apply advances_alloc|]. intros. by apply advances_same.
Qed.

(** The requests that are not about proposals. *)
Definition about_proposals (c : call) : bool :=
  match c with
  | CallCreateProposal _ | CallAttachArtifact _ _ | CallSubmitValidation _ _ | CallApproveProposal _ _
  | CallRejectProposal _ _ | CallApplyProposal _ _ _ | CallCompleteTask _ _ _ => true
  | _ => false
  end.

Ltac advances_primitive :=
  lazymatch goal with
  | |- preserves _ now_ms => apply advances_now
  | |- preserves _ randomUUID => apply advances_uuid
  | |- preserves _ persistState => apply advances_persist
  | |- preserves _ (appendAuditEvent _) => apply advances_audit
  | |- preserves _ (writeTombstone _ _ _) => apply advances_tombstone
  | |- preserves _ (emitTaskUpdate _ _) => apply advances_emit
  | |- preserves _ (setExchangeRecord _) => apply advances_exchange
  | |- preserves _ (alloc_exchange _) => apply advances_alloc
  | |- preserves _ (update_sink _ _) => unfold update_sink; advances_auto
  | |- preserves _ _ => by apply advances_same
  end.
Ltac by_walk walk := apply walk_ignore; [apply _..|]; apply walk; try apply _; intros; advances_primitive.

Lemma advances_other c : about_proposals c = false -> preserves (advances c) (run_call c).
Proof.
  intros Hc. destruct c; try discriminate Hc; cbn [run_call]; clear Hc;
  [ by_walk walk_registerWorker | by_walk walk_heartbeatWorker | by_walk walk_startExchange
  | by_walk walk_addExchangeMessage | by_walk walk_createTask | by_walk walk_approveTask
  | by_walk walk_rejectTaskApproval | by_walk walk_cancelTask | by_walk walk_reassignTask
  | by_walk walk_updateTaskPayload | by_walk walk_claimTask | by_walk walk_startTask
  | by_walk walk_heartbeatTask | by_walk walk_failTask | by_walk walk_requeue
  | by_walk walk_planAcceptedTaskWake | by_walk walk_recordTaskWakeDecision
  | by_walk walk_updateTerminalTaskOutboxEvent | by apply advances_same | by apply advances_same ].
Qed.

(** ** The requests about proposals *)

Lemma advances_check {A B} c (m : BM A) (k : A -> BM B) b :
  readonly m -> (forall a, m b = (b, Ok a) -> advances c b (k a b).1) -> advances c b (m_bind m k b).1.
Proof.
  intros Hm Hk. specialize (Hm b). unfold m_bind. destruct (m b) as [b' [a|e]]; simpl in Hm; subst; [by apply Hk|].
  simpl. reflexivity.
Qed.

(** A record is replaced by one a move leads to. *)
Lemma advances_save c i p p' b b1 :
  proposal b i = Some p -> pr_id p' = i -> proposal_move c i (Some p) (Some p') ->
  br_proposals b1 = jm_set (pr_id p') p' (br_proposals b) -> br_uuids b <= br_uuids b1 -> advances c b b1.
Proof.
  intros Hp Hid Hm Hb1 Hu [Hk Hn]. subst i. unfold proposal in *. split_and!; [split|done|].
  - rewrite Hb1. by apply keyed_set.
  - intros n Hle. unfold proposal. rewrite Hb1, jm_get_set.
    destruct (String.eqb_spec (host_uuid n) (pr_id p')) as [He|]; [|apply Hn; lia].
    specialize (Hn n ltac:(lia)). unfold proposal in Hn. congruence.
  - intros i. unfold proposal. rewrite Hb1, jm_get_set. destruct (String.eqb_spec i (pr_id p')) as [->|]; [|reflexivity].
    rewrite Hp. by apply rtc_once.
Qed.

Lemma requireProposal_run id b p : requireProposal id b = (b, Ok p) -> proposal b id = Some p.
Proof.
  unfold requireProposal, require, getProposal, gets_map, proposal, m_bind, m_gets.
  destruct (jm_get id (br_proposals b)); [|done]. simpl. by intros [= ->].
Qed.

Lemma readonly_requireProposal id : readonly (requireProposal id).
Proof. unfold readonly, requireProposal, require, getProposal, gets_map, throw. preserves_auto. Qed.
Lemma readonly_lift_policy r : readonly (lift_policy r).
Proof. unfold readonly, lift_policy. preserves_auto. Qed.
Lemma readonly_assertTransition s l a : readonly (assertTransition s l a).
Proof. unfold readonly, assertTransition, throw_if. preserves_auto. Qed.

Lemma lift_policy_passed r b : lift_policy r b = (b, Ok tt) -> r = Ok tt.
Proof. by destruct r as [[]|]. Qed.

Lemma assertTransition_passed s l a b : assertTransition s l a b = (b, Ok tt) -> s ∈ l.
Proof.
  unfold assertTransition, throw_if, m_throw_if. by case_bool_decide.
Qed.

Ltac proposal_check H :=
  apply advances_check;
    [first [ apply readonly_requireProposal | apply readonly_lift_policy | apply readonly_assertTransition
           | apply readonly_throw_if ]|];
    intros ? H.

(** The stored proposal is under its own id. *)
Lemma advances_stored c b id p :
  proposal b id = Some p -> forall b', (pr_id p = id -> advances c b b') -> advances c b b'.
Proof. intros Hp b' Ha Hb. apply Ha; [|done]. by apply (po_keyed b Hb). Qed.

Lemma advances_decide c id p st a r b :
  proposal b id = Some p -> pr_id p = id ->
  (forall now, proposal_move c id (Some p) (Some (p <| pr_status := st |> <| pr_updatedAt := now |>))) ->
  advances c b (decide_proposal id p st a r b).1.
Proof.
  intros Hp Hid Hm. unfold decide_proposal. rewrite (bind_ok _ _ _ _ _ (isoNow_run b)). cbv zeta.
  unfold setProposalRecord. rewrite bind_modify.
  match goal with |- advances c b (?m ?b1).1 =>
    transitivity b1; [|assert (preserves (advances c) m) as Hrest by advances_auto; apply Hrest] end.
  refine (advances_save _ _ _ _ _ _ Hp _ (Hm _) _ _); [exact Hid|reflexivity|done].
Qed.

Lemma same_decided p st now : same_proposal p (p <| pr_status := st |> <| pr_updatedAt := now |>).
Proof. split; [by destruct p|done]. Qed.

Lemma advances_approve id r b :
  advances (CallApproveProposal id r) b (approveProposal id r b).1.
Proof.
  unfold approveProposal. proposal_check Hp. apply requireProposal_run in Hp.
  apply (advances_stored _ b id a Hp). intros Hid.
  proposal_check Hs. destruct a0. apply assertTransition_passed in Hs.
  proposal_check Ha. destruct a0. apply lift_policy_passed, review_allowed_actor in Ha.
  apply advances_decide; [done..|]. intros now.
  by eapply ProposalApproved; [reflexivity|apply same_decided|..].
Qed.

Lemma advances_reject id r b :
  advances (CallRejectProposal id r) b (rejectProposal id r b).1.
Proof.
  unfold rejectProposal. proposal_check Hp. apply requireProposal_run in Hp.
  apply (advances_stored _ b id a Hp). intros Hid.
  proposal_check Hs. destruct a0. apply assertTransition_passed in Hs.
  proposal_check Ha. destruct a0. apply lift_policy_passed, review_allowed_actor in Ha.
  apply advances_decide; [done..|]. intros now.
  by eapply ProposalRejected; [reflexivity|apply same_decided|..].
Qed.

Lemma advances_apply c id r w b :
  c = CallApplyProposal id r w \/ (exists t res, c = CallCompleteTask t (actor_id (pa_actor r)) res) ->
  advances c b (applyProposalLocally id r w b).1.
Proof.
  intros Hc. unfold applyProposalLocally. proposal_check Hp. apply requireProposal_run in Hp.
  apply (advances_stored _ b id a Hp). intros Hid.
  proposal_check Hs. destruct a0. apply assertTransition_passed, list_elem_of_singleton in Hs.
  proposal_check Hw. destruct a0. apply throw_if_passed, negb_false_iff, String.eqb_eq in Hw.
  proposal_check Ha. destruct a0. apply lift_policy_passed, apply_allowed_actor in Ha.
  apply advances_decide; [done..|]. intros now.
  by eapply ProposalApplied; [exact Hc|apply same_decided|..].
Qed.

(** A step that leaves the proposals map as it is. *)
Definition spares (b b' : Broker) : Prop :=
  br_proposals b' = br_proposals b /\ br_uuids b <= br_uuids b'.
#[local] Instance spares_refl : Reflexive spares.
Proof. by intros b. Qed.
#[local] Instance spares_trans : Transitive spares.
Proof. intros b1 b2 b3 [E12 L12] [E23 L23]. split; [congruence|lia]. Qed.

Lemma spares_advances c b b' : spares b b' -> advances c b b'.
Proof.
  intros [Hp Hu] [Hk Hn]. split_and!; [split|done|].
  - by rewrite Hp.
  - intros n Hle. unfold proposal. rewrite Hp. apply Hn. lia.
  - intros i. unfold proposal. rewrite Hp. reflexivity.
Qed.

(** Silent steps, then the save of the record, then the rest. *)
Lemma advances_then {A B} c (m : BM A) (k : A -> BM B) b b1 :
  spares b b1 -> preserves spares m -> (forall a b2, spares b b2 -> advances c b (k a b2).1) ->
  advances c b (m_bind m k b1).1.
Proof.
  intros Hs Hm Hk. specialize (Hm b1). unfold m_bind. destruct (m b1) as [b2 [x|e]]; simpl in Hm.
  - apply Hk. by transitivity b1.
  - simpl. apply spares_advances. by transitivity b1.
Qed.

Lemma advances_saving {A} c id p p' (k : unit -> BM A) b b1 :
  proposal b id = Some p -> pr_id p' = id -> proposal_move c id (Some p) (Some p') -> spares b b1 ->
  preserves (advances c) (k tt) -> advances c b (m_bind (setProposalRecord p') k b1).1.
Proof.
  intros Hp Hid Hm [Hs Hu] Hk. unfold setProposalRecord. rewrite bind_modify.
  match goal with |- advances c b (?m ?b2).1 => transitivity b2; [|apply Hk] end.
  eapply advances_save; [done..| |done]. simpl. by rewrite Hs.
Qed.

Lemma spares_uuid : preserves spares randomUUID.
Proof. intros b. split; [done|simpl; lia]. Qed.
Lemma spares_isoNow : preserves spares isoNow.
Proof. by intros b. Qed.
Lemma spares_artifact a : preserves spares (setArtifactRecord a).
Proof. by intros b. Qed.
Lemma spares_validation v : preserves spares (setValidationRecord v).
Proof. by intros b. Qed.

Ltac silent_step :=
  eapply advances_then; [eassumption|
    first [ apply spares_uuid | apply spares_isoNow | apply spares_artifact | apply spares_validation ]|];
  intros ? ? ?; cbv beta zeta.
Ltac silent_steps b := assert (spares b b) as Hstart by reflexivity; repeat silent_step; clear Hstart.

Lemma same_extended p l now : same_proposal p (p <| pr_artifactIds ::= fun k => js_unique (k ++ l) |> <| pr_updatedAt := now |>).
Proof. split; [by destruct p|]. simpl. intros x Hx. apply elem_of_js_unique. set_solver. Qed.

Lemma advances_attach id r b : advances (CallAttachArtifact id r) b (attachArtifact id r b).1.
Proof.
  unfold attachArtifact. proposal_check Hp. apply requireProposal_run in Hp.
  apply (advances_stored _ b id a Hp). intros Hid. proposal_check Hx.
  silent_steps b.
  eapply (advances_saving _ id a); [done|done| |eassumption|advances_auto].
  apply ProposalExtended; [left; eauto|apply same_extended|done].
Qed.

Lemma same_validated p l now :
  same_proposal p (p <| pr_status := StatusValidated |> <| pr_updatedAt := now |>
    <| pr_artifactIds ::= fun k => js_unique (k ++ l) |>).
Proof. split; [by destruct p|]. simpl. intros x Hx. apply elem_of_js_unique. set_solver. Qed.

Lemma advances_validate c id r b :
  c = CallSubmitValidation id r \/ (exists t w res, c = CallCompleteTask t w res) ->
  advances c b (submitValidationResult id r b).1.
Proof.
  intros Hc. unfold submitValidationResult. proposal_check Hp. apply requireProposal_run in Hp.
  apply (advances_stored _ b id a Hp). intros Hid. proposal_check Hx.
  proposal_check Ha. destruct a1. apply lift_policy_passed, validation_allowed_node in Ha.
  silent_steps b.
  eapply (advances_saving _ id a); [done|done| |eassumption|advances_auto].
  by eapply ProposalValidated; [exact Hc|apply same_validated|..].
Qed.

(** ** Creation *)

Context (uuid_inj : forall m n, host_uuid m = host_uuid n -> m = n).

Lemma readonly_assertProposalPayload r : readonly (assertProposalPayload r).
Proof. unfold readonly, assertProposalPayload, throw_if. preserves_auto. Qed.

Lemma advances_create r b : advances (CallCreateProposal r) b (createProposal r b).1.
Proof.
  unfold createProposal. apply advances_check; [apply readonly_assertProposalPayload|]. intros [] _.
  apply advances_check; [apply readonly_lift_policy|]. intros [] _.
  rewrite (bind_ok _ _ _ _ _ (isoNow_run b)). unfold randomUUID at 1, m_bind at 1. cbv zeta beta iota.
  unfold setProposalRecord. rewrite bind_modify. simpl.
  match goal with |- advances ?c b (?m ?b2).1 =>
    transitivity b2; [|assert (preserves (advances c) m) as Hrest by advances_auto; apply Hrest] end.
  intros [Hk Hn]. split_and!; [split| |].
  - by apply keyed_set.
  - intros n Hle. unfold proposal. simpl. rewrite jm_get_set. simpl in Hle.
    destruct (String.eqb_spec (host_uuid n) (host_uuid (br_uuids b))) as [He|]; [apply uuid_inj in He; lia|].
    apply Hn. lia.
  - simpl. lia.
  - intros i. unfold proposal. simpl. rewrite jm_get_set.
    destruct (String.eqb_spec i (host_uuid (br_uuids b))) as [->|]; [|reflexivity].
    pose proof (Hn (br_uuids b) (le_n _)) as Hf. unfold proposal in Hf. rewrite Hf.
    by apply rtc_once, (ProposalCreated _ _ r).
Qed.

(** ** Completion of a task that carries a proposal *)

(** While the task [t] is active, retention keeps the proposal it carries. *)
Definition holds (t : TaskRecord) (i : string) (b b' : Broker) : Prop :=
  keyed task_id (br_tasks b) -> jm_get (task_id t) (br_tasks b) = Some t ->
  keyed task_id (br_tasks b') /\ jm_get (task_id t) (br_tasks b') = Some t
    /\ (forall p, proposal b i = Some p -> proposal b' i = Some p).
#[local] Instance holds_refl t i : Reflexive (holds t i).
Proof. by intros b ? ?. Qed.
#[local] Instance holds_trans t i : Transitive (holds t i).
Proof.
  intros b1 b2 b3 S12 S23 K1 T1. destruct (S12 K1 T1) as (K2 & T2 & P12).
  destruct (S23 K2 T2) as (K3 & T3 & P23). split_and!; [done..|]. auto.
Qed.

Lemma holds_same t i f :
  (forall b, br_tasks (f b) = br_tasks b /\ br_proposals (f b) = br_proposals b) ->
  preserves (E:=BrokerError) (holds t i) (m_modify f).
Proof.
  intros Hf. apply preserves_modify. intros b Hk Ht. destruct (Hf b) as [Et Ep].
  unfold proposal. by rewrite Et, Ep.
Qed.

Section Holds.
Context (t : TaskRecord) (i : string)
  (Hactive : isTerminalTaskStatus (task_status t) = false) (Hlink : truthy_opt (task_proposalId t) = Some i).

Lemma holds_prune nowMs : preserves (E:=BrokerError) (holds t i)
  (m_modify (fun b => prune (retainedIds cfg_retention nowMs (retention_view b)) b)).
Proof.
  apply preserves_modify. intros b Hk Ht.
  pose proof (retained_active_task cfg_retention nowMs (retention_view b) t) as Hact.
  pose proof (retained_task_proposal cfg_retention nowMs (retention_view b) (task_id t) t i) as Hprop.
  revert Hact Hprop. generalize (retainedIds cfg_retention nowMs (retention_view b)). intros r Hact Hprop.
  assert (task_id t ∈ ret_tasks r) as Hin by (apply Hact; [by apply (keyed_value task_id)|done]).
  split_and!; [by apply keyed_filter| |].
  - simpl. unfold pruneMapEntries. rewrite jm_get_filter, (proj2 (in_set_true _ _) Hin). done.
  - intros p Hp. rewrite proposal_prune. assert (i ∈ ret_proposals r) as Hi by by apply Hprop.
    by rewrite (proj2 (in_set_true _ _) Hi).
Qed.
Hint Resolve holds_prune : preserves_db.

Ltac holds_auto := preserves_auto; try (apply holds_same; intros b; repeat case_match; done).

Lemma holds_now : preserves (holds t i) now_ms.
Proof. intros b. apply (holds_same t i (fun b => b <| br_ticks ::= S |>)). by intros. Qed.
Lemma holds_uuid : preserves (holds t i) randomUUID.
Proof. intros b. apply (holds_same t i (fun b => b <| br_uuids ::= S |>)). by intros. Qed.
Hint Resolve holds_now holds_uuid : preserves_db.
Lemma holds_persist : preserves (holds t i) persistState.
Proof.
  unfold persistState, persist_full, applyRetentionPolicy, consumeStateSaveHints,
    consumeStateSaveHintsWithoutSnapshot, clearPendingStateSaveHints, store_call, emitStateChange.
  holds_auto.
Qed.
Lemma holds_audit_proposal a k ty x p n : preserves (holds t i) (audit_proposal a k ty x p n).
Proof. unfold audit_proposal. reveal appendAuditEvent. unfold isoNow, push_to_sink. holds_auto. Qed.
End Holds.

Lemma check_inv_ok {A B} (m : BM A) (k : A -> BM B) b b' x :
  readonly m -> m_bind m k b = (b', Ok x) -> exists a, m b = (b, Ok a) /\ k a b = (b', Ok x).
Proof.
  intros Hm (b1 & a & Ha & Hk)%bind_inv_ok. specialize (Hm b). rewrite Ha in Hm. simpl in Hm. subst. eauto.
Qed.

(** What an application leaves in the store. *)
Lemma applied_stored t id r w b b' p :
  isTerminalTaskStatus (task_status t) = false -> truthy_opt (task_proposalId t) = Some id ->
  keyed task_id (br_tasks b) -> jm_get (task_id t) (br_tasks b) = Some t -> proposals_ok b ->
  applyProposalLocally id r w b = (b', Ok p) -> proposal b' id = Some p /\ pr_id p = id.
Proof.
  intros Hact Hlink Hkt Ht Hok Hrun. unfold applyProposalLocally in Hrun.
  apply check_inv_ok in Hrun as (p0 & Hp & Hrun); [|apply readonly_requireProposal].
  apply requireProposal_run in Hp. assert (pr_id p0 = id) as Hid by by apply (po_keyed b Hok).
  apply check_inv_ok in Hrun as (_ & _ & Hrun); [|apply readonly_assertTransition].
  apply check_inv_ok in Hrun as (_ & _ & Hrun); [|apply readonly_throw_if].
  apply check_inv_ok in Hrun as (_ & _ & Hrun); [|apply readonly_lift_policy].
  unfold decide_proposal in Hrun. rewrite (bind_ok _ _ _ _ _ (isoNow_run b)) in Hrun. cbv zeta in Hrun.
  unfold setProposalRecord in Hrun. rewrite bind_modify in Hrun.
  match type of Hrun with m_bind ?m ?k ?b1 = _ =>
    assert (preserves (holds t id) (m_bind m k)) as Hrest; [|specialize (Hrest b1); rewrite Hrun in Hrest] end.
  { preserves_auto; eauto using holds_audit_proposal, holds_persist. }
  apply bind_inv_ok in Hrun as (b2 & [] & _ & Hrun). apply bind_inv_ok in Hrun as (b3 & [] & _ & Hrun).
  injection Hrun as <- <-. simpl in Hrest. split; [|done].
  destruct (Hrest Hkt Ht) as (_ & _ & Hkeep). apply Hkeep. unfold proposal. simpl.
  rewrite Hid, jm_get_set, String.eqb_refl. done.
Qed.

Lemma advances_given c b b' : (proposals_ok b -> advances c b b') -> advances c b b'.
Proof. intros Ha Hb. exact (Ha Hb Hb). Qed.

Lemma advances_extend c i p l b :
  (exists t w r, c = CallCompleteTask t w r) -> proposal b i = Some p -> pr_id p = i ->
  advances c b ((now <-- isoNow;
    setProposalRecord (p <| pr_artifactIds ::= fun k => js_unique (k ++ l) |> <| pr_updatedAt := now |>)) b).1.
Proof.
  intros Hc Hp Hid. rewrite (bind_ok _ _ _ _ _ (isoNow_run b)).
  refine (advances_save _ _ _ _ _ _ Hp _ (ProposalExtended _ _ _ _ _ (same_extended p l _) _) _ _);
    [exact Hid|by right|done..].
Qed.

Lemma advances_completion t w res id result b :
  isTerminalTaskStatus (task_status t) = false -> keyed task_id (br_tasks b) ->
  jm_get (task_id t) (br_tasks b) = Some t ->
  advances (CallCompleteTask id w res) b (applyTaskCompletion t w result b).1.
Proof.
  intros Hact Hkt Ht. unfold applyTaskCompletion. destruct (truthy_opt (task_proposalId t)) as [pid|] eqn:Hlink;
    [|simpl; reflexivity].
  destruct (task_intent t); try (simpl; reflexivity).
  - destruct (res_validation result); [|simpl; reflexivity].
    match goal with |- context [m_bind ?m _] => change (m_bind m (fun _ => m_ret tt)) with (ignore m) end.
    rewrite ignore_fst. apply advances_validate. eauto.
  - destruct (_ ??o _) as [ws|]; [|simpl; reflexivity].
    match goal with |- context [applyProposalLocally pid ?r ws] => set (actor := r) end.
    assert (advances (CallCompleteTask id w res) b (applyProposalLocally pid actor ws b).1) as Ha
      by (apply advances_apply; right; eauto).
    apply advances_given. intros Hok. pose proof (applied_stored t pid actor ws b) as Hst. unfold m_bind at 1.
    destruct (applyProposalLocally pid actor ws b) as [b1 [p|e]]; [|exact Ha].
    destruct (Hst b1 p) as [Hp Hid]; [done..|]. transitivity b1; [exact Ha|]. cbv zeta.
    destruct (js_unique _) as [|x l]; [simpl; reflexivity|]. apply (advances_extend _ pid); eauto.
Qed.

Lemma advances_tail {A B} c (m : BM A) (k : A -> BM B) b :
  advances c b (m b).1 -> (forall a, preserves (advances c) (k a)) -> advances c b (m_bind m k b).1.
Proof.
  intros Hm Hk. unfold m_bind. destruct (m b) as [b1 [a|e]]; [|done]. etransitivity; [exact Hm|apply Hk].
Qed.

Lemma advances_complete id w r b :
  wf_broker b -> advances (CallCompleteTask id w r) b (completeTask id w r b).1.
Proof.
  intros Hwf. reveal completeTask. apply advances_check; [apply readonly_requireTask|]. intros t Ht%requireTask_stored.
  assert (task_id t = id) as <- by by apply (wf_tasks b Hwf).
  apply advances_check; [apply readonly_assertTaskWorker|]. intros _ _.
  destruct (isTerminalTaskStatus (task_status t)) eqn:Hact; [simpl; reflexivity|].
  apply advances_check; [apply readonly_throw_if|]. intros _ _. cbv zeta.
  apply advances_check; [unfold readonly, throw; preserves_auto|]. intros _ _.
  apply advances_tail; [apply advances_completion; [done|apply (wf_tasks b Hwf)|done]|].
  intros _. apply preserves_bind; [apply _|unfold isoNow; advances_auto|]. intros now.
  apply walk_commit; try apply _; intros; advances_primitive.
Qed.

(** ** Every request *)

Lemma call_advances c b : wf_broker b -> advances c b (run_call c b).1.
Proof.
  intros Hwf. destruct (about_proposals c) eqn:Hc; [|by apply advances_other].
  destruct c; try discriminate Hc; cbn [run_call]; rewrite ignore_fst.
  - apply advances_create.
  - apply advances_attach.
  - apply advances_validate. by left.
  - apply advances_approve.
  - apply advances_reject.
  - apply advances_apply. by left.
  - by apply advances_complete.
Qed.

Lemma reachable_proposals_ok b : reachable b -> proposals_ok b.
Proof.
  intros (s & ms & Hr). assert (wf_broker (new_broker s ms) /\ proposals_ok (new_broker s ms)) as Hg.
  { split; [apply wf_new_broker|]. split; [apply keyed_nil|done]. }
  induction Hr as [|b1 b2 b3 (c & Hc & <-) _ IH]; [apply Hg|]. destruct Hg as [Hwf Hok]. apply IH.
  split; [by apply (run_call_evolves uuid_inj c b1 Hc)|by apply (call_advances c b1 Hwf)].
Qed.
End Machine.
