(* ===== verification/Restart.v ===== *)
(** * Restarting from a snapshot

    The constructor of the broker with the snapshot a store kept ([loadSnapshot]
    and the record normalisers, src/core/broker.ts), for snapshots of the current
    version: the fields older versions lacked are present. *)

From Stdlib Require Import ZArith Lia String.
From stdpp Require Import base gmap strings list pretty relations.
From S2P Require Import Prelude JsRuntime Types Policy Retention BrokerCore CoreFacts Workers Proposals Github.
From S2P Require Import TerminalBrief Tasks System TaskMachine TaskFacts Exchanges Walk ProposalMachine.

Definition normalizeTaskWakeState (wake : option TaskWakeState) : option TaskWakeState :=
  (fun w => w <| wk_replayCount ::= fun n => Some (n ?? 0%Z) |>) <$> wake.

(** [normalizeOwnershipString(x) ? { field: normalizeOwnershipString(x) } : {}]
    over the field as it was. *)
Definition normalized_owner (o : option string) : option string := normalizeOwnershipString o ??o o.

(** [{ ...task, targetNodeId, assignedWorkerId, ... }]. *)
Definition normalizeTaskRecord (t : TaskRecord) : TaskRecord := {|
  task_id := task_id t;
  task_exchangeId := task_exchangeId t;
  task_parentTaskId := task_parentTaskId t;
  task_referenceTaskIds := task_referenceTaskIds t;
  task_intent := task_intent t;
  task_requester := task_requester t;
  task_target := task_target t;
  task_workspace := task_workspace t;
  task_message := task_message t;
  task_proposalId := task_proposalId t;
  task_artifactIds := js_unique (task_artifactIds t);
  task_assignedWorkerId := Some (task_assignedWorkerId t ?? task_targetNodeId t);
  task_via := task_via t;
  task_policyContext := task_policyContext t;
  task_createdAt := task_createdAt t;
  task_status := task_status t;
  task_targetNodeId := task_targetNodeId t;
  task_payload := normalizeTaskPayload (Some (task_payload t));
  task_updatedAt := task_updatedAt t;
  task_claimedAt := task_claimedAt t;
  task_completedAt := task_completedAt t;
  task_claimedBy := task_claimedBy t;
  task_result := (fun r => normalizeTaskResult (Some r)) <$> task_result t;
  task_error := (fun e => normalizeTaskError (Some e)) <$> task_error t;
  task_cancellation := task_cancellation t;
  task_approval := task_approval t;
  task_approvalOutcome := task_approvalOutcome t;
  task_requeueCount := task_requeueCount t;
  task_lastHeartbeatAt := task_lastHeartbeatAt t;
  task_attemptId := task_attemptId t;
  task_wake := normalizeTaskWakeState (task_wake t);
  task_taskOrigin := Some (task_taskOrigin t ?? OriginUnknown);
  task_brokerOfRecord := normalized_owner (task_brokerOfRecord t);
  task_teamId := normalized_owner (task_teamId t) |}.

Definition createLegacyRootExchangeMessage (ex : A2AExchangeState) : A2AExchangeMessageRecord := {|
  msg_id := ("legacy-root:" ++ ex_id ex)%string;
  msg_exchangeId := ex_id ex;
  msg_kind := MessageRoot;
  msg_message := ex_message ex;
  msg_requester := Some (ex_requester ex);
  msg_actor := None;
  msg_via := None;
  msg_decision := None;
  msg_targetNodeId := Some (ex_targetNodeId ex);
  msg_assignedWorkerId := None;
  msg_parentMessageId := None;
  msg_createdAt := ex_createdAt ex;
  msg_updatedAt := ex_updatedAt ex |}.

Section Restart.
Context `{JsHost} `{TaskEventSink} `{BrokerConfig}.

Definition load_exchange (ex : A2AExchangeState) : BM unit :=
  r <-- alloc_exchange ex;
  m_modify (fun b => b <| br_exchanges ::= jm_set (ex_id ex) r |>).

(** The body of the loop over the exchanges that have no root message. *)
Definition load_legacy_root (r : nat) : BM unit :=
  ex <-- deref_exchange r;
  if str_truthy (ex_rootMessageId ex) then m_ret tt
  else
    let syntheticRoot := createLegacyRootExchangeMessage ex in
    m_modify (fun b => b <| br_exchangeMessages ::= jm_set (msg_id syntheticRoot) syntheticRoot |>);;;
    mutate_exchange r (fun ex => ex
      <| ex_rootMessageId := msg_id syntheticRoot |>
      <| ex_messageCount ::= Z.max 1 |>);;;
    m_modify (fun b => b <| br_exchanges ::= jm_set (ex_id ex) r |>).

Definition set_all {V} (id : V -> string) (l : list V) (m : jsmap V) : jsmap V :=
  foldl (fun m v => jm_set (id v) v m) m l.

(** The rest of the loops. *)
Definition load_records (s : BrokerSnapshot) (b : Broker) : Broker := b
  <| br_proposals ::= set_all pr_id (sn_proposals s) |>
  <| br_artifacts ::= set_all art_id (sn_artifacts s) |>
  <| br_validations ::= set_all val_id (sn_validations s) |>
  <| br_auditEvents ::= set_all aud_id (sn_auditEvents s) |>
  <| br_workers ::= set_all wr_nodeId (map normalizeWorkerRecord (sn_workers s)) |>
  <| br_tasks ::= set_all task_id (map normalizeTaskRecord (sn_tasks s)) |>
  <| br_tombstones ::= set_all tb_taskId (sn_tombstones s) |>
  <| br_sink ::= sink_restore (sn_terminalOutbox s) |>.

Definition load_tables (s : BrokerSnapshot) : BM unit :=
  m_for (sn_exchanges s) load_exchange;;;
  m_modify (fun b => b <| br_exchangeMessages ::= set_all msg_id (sn_exchangeMessages s) |>);;;
  refs <-- m_gets (fun b => jm_values (br_exchanges b));
  m_for refs load_legacy_root;;;
  m_modify (load_records s).

Definition loadSnapshot (s : BrokerSnapshot) : BM unit := load_tables s;;; applyRetentionPolicy.

(** [new InMemoryA2ABroker(store, snapshot, options)]. *)
Definition restarted (sink : sink_state) (startedAtMs : Z) (s : BrokerSnapshot) : Broker :=
  ((loadSnapshot s;;; applyRetentionPolicy) (new_broker sink startedAtMs)).1.
End Restart.

(** ** What a restart brings back

    Loading the snapshot a broker exported rebuilds its tables; the records of
    tasks are rewritten in their normal form, which a second restart leaves
    alone. *)

(** ** Tables *)

Lemma jm_set_fresh {V} k (v : V) m : k ∉ jm_keys m -> jm_set k v m = m ++ [(k, v)].
Proof.
  induction m as [|[k' v'] m IH]; simpl; [done|]. intros Hk.
  destruct (String.eqb_spec k k') as [->|]; [set_solver|]. rewrite IH; [done|set_solver].
Qed.

Lemma set_all_fresh {V} (id : V -> string) l m :
  NoDup (jm_keys m ++ map id l) -> set_all id l m = m ++ map (fun v => (id v, v)) l.
Proof.
  unfold set_all. revert m. induction l as [|v l IH]; intros m Hnd; simpl; [by rewrite app_nil_r|].
  assert (id v ∉ jm_keys m) as Hv.
  { apply NoDup_app in Hnd as (_ & Hd & _). intros Hin. apply (Hd _ Hin). simpl. set_solver. }
  rewrite jm_set_fresh, IH by (try done; unfold jm_keys in *; rewrite map_app; simpl; by rewrite <- app_assoc).
  by rewrite <- app_assoc.
Qed.

Lemma keyed_entries {V} (id : V -> string) m : keyed id m -> m = map (fun v => (id v, v)) (jm_values m).
Proof.
  intros [Hwf Hk]. unfold jm_values. rewrite map_map.
  transitivity (map (fun kv : string * V => kv) m); [symmetry; apply map_id|].
  apply map_ext_in. intros [k v] Hin%list_elem_of_In. simpl.
  by rewrite (Hk k v (jm_elem_get k v m Hwf Hin)).
Qed.

Lemma keyed_ids {V} (id : V -> string) m : keyed id m -> map id (jm_values m) = jm_keys m.
Proof.
  intros Hk. unfold jm_keys. pose proof (f_equal (map fst) (keyed_entries id m Hk)) as He.
  rewrite He. symmetry. apply (map_map (fun v => (id v, v)) fst).
Qed.

(** Loading what was listed. *)
Lemma set_all_values {V} (id : V -> string) (f : V -> V) m :
  keyed id m -> (forall v, id (f v) = id v) ->
  set_all id (map f (jm_values m)) [] = map (fun kv => (kv.1, f kv.2)) m.
Proof.
  intros Hk Hf. rewrite set_all_fresh.
  - simpl. rewrite map_map.
    pose proof (f_equal (map (fun kv : string * V => (kv.1, f kv.2))) (keyed_entries id m Hk)) as He.
    rewrite He, map_map. apply map_ext. intros v. simpl. by rewrite Hf.
  - simpl. rewrite map_map, (map_ext _ id) by done. rewrite (keyed_ids id m Hk). apply Hk.
Qed.

Lemma set_all_same {V} (id : V -> string) m : keyed id m -> set_all id (jm_values m) [] = m.
Proof.
  intros Hk. rewrite <- (map_id (jm_values m)) at 1. rewrite (set_all_values id (fun v => v)) by done.
  transitivity (map (fun kv : string * V => kv) m); [apply map_ext; by intros []|apply map_id].
Qed.

(** ** Normal forms *)

Lemma unique_strings l : NoDup l -> Forall (fun s => str_truthy s = true) l ->
  uniqueStringList (JArr (map JStr l)) = l.
Proof.
  intros Hnd Hl. unfold uniqueStringList. simpl. rewrite map_map. simpl. rewrite map_id.
  assert (List.filter str_truthy l = l) as ->; [|by apply js_unique_id].
  clear Hnd. induction Hl as [|s l Hs _ IH]; simpl; [done|]. by rewrite Hs, IH.
Qed.

Lemma uniqueStringList_normal v :
  NoDup (uniqueStringList v) /\ Forall (fun s => str_truthy s = true) (uniqueStringList v).
Proof.
  unfold uniqueStringList. destruct (js_array v) as [l|]; [|split; [apply NoDup_nil_2|constructor]].
  split; [apply NoDup_js_unique|]. apply Forall_forall. intros s Hs. rewrite elem_of_js_unique, list_elem_of_In, filter_In in Hs.
  by destruct Hs.
Qed.

Definition normal_capabilities (c : WorkerCapabilities) : Prop :=
  normalizeCapabilities (capabilities_value c) = c.

Lemma environment_of_text e : environment_of (A2AWorkerEnvironment_text e) = Some e.
Proof. by destruct e. Qed.
Lemma environment_of_inj s e : environment_of s = Some e -> s = A2AWorkerEnvironment_text e.
Proof.
  unfold environment_of. destruct (String.eqb_spec s "research"); [by intros [= <-]|].
  destruct (String.eqb_spec s "staging"); [by intros [= <-]|].
  destruct (String.eqb_spec s "live"); [by intros [= <-]|done].
Qed.

#[local] Instance environment_text_inj : Inj (=) (=) A2AWorkerEnvironment_text.
Proof. by intros [] []. Qed.

Lemma environments_normal l :
  NoDup l -> omap environment_of (uniqueStringList (JArr (map (fun e => JStr (A2AWorkerEnvironment_text e)) l))) = l.
Proof.
  intros Hnd. rewrite <- (map_map A2AWorkerEnvironment_text JStr). rewrite unique_strings.
  - clear Hnd. induction l as [|e l IH]; [done|].
    change (omap environment_of (map A2AWorkerEnvironment_text (e :: l)))
      with (match environment_of (A2AWorkerEnvironment_text e) with
            | Some y => y :: omap environment_of (map A2AWorkerEnvironment_text l)
            | None => omap environment_of (map A2AWorkerEnvironment_text l) end).
    by rewrite environment_of_text, IH.
  - apply (NoDup_fmap_2 _). done.
  - apply Forall_forall. intros s Hs. apply list_elem_of_fmap in Hs as ([] & -> & _); done.
Qed.

Lemma NoDup_environments v : NoDup (uniqueEnvironmentList v).
Proof.
  unfold uniqueEnvironmentList. destruct (uniqueStringList_normal v) as [Hnd _].
  induction (uniqueStringList v) as [|s l IH]; simpl; [apply NoDup_nil_2|].
  apply NoDup_cons in Hnd as [Hs Hnd]. destruct (environment_of s) as [e|] eqn:He; [|by apply IH].
  apply NoDup_cons. split; [|by apply IH]. intros Hin.
  apply list_elem_of_omap in Hin as (s' & Hs' & He').
  apply environment_of_inj in He, He'. by subst.
Qed.

Lemma normalizeCapabilities_normal v : normal_capabilities (normalizeCapabilities v).
Proof.
  unfold normal_capabilities.
  assert (forall b : bool, (if b then true else false) = b) as Hb by by intros [].
  unfold normalizeCapabilities at 1, capabilities_value. simpl js_array. cbv iota.
  unfold js_prop. simpl. rewrite !Hb.
  destruct (js_array v) as [l|] eqn:Ha; unfold normalizeCapabilities; rewrite Ha; simpl; [done|].
  destruct (uniqueStringList_normal (js_prop "workspaceIds" (js_record v ?? []))) as [Hnd Hall].
  rewrite unique_strings by done.
  unfold uniqueEnvironmentList at 1. rewrite environments_normal by apply NoDup_environments. done.
Qed.

Lemma normalizeTaskResult_idemp r :
  normalizeTaskResult (Some (normalizeTaskResult (Some r))) = normalizeTaskResult (Some r).
Proof.
  destruct r as [s n a o v ap]. unfold normalizeTaskResult.
  destruct v as [[]|], ap as [[]|]; unfold update; cbn -[js_unique]; by rewrite ?js_unique_idemp.
Qed.

Lemma normalizeTaskError_idemp e :
  normalizeTaskError (Some (normalizeTaskError (Some e))) = normalizeTaskError (Some e).
Proof.
  destruct e as [c m d]. unfold normalizeTaskError, update. cbn -[str_truthy].
  destruct (str_truthy m) eqn:Hm; cbn -[str_truthy]; by rewrite ?Hm.
Qed.

Lemma normalized_owner_idemp o : normalized_owner (normalized_owner o) = normalized_owner o.
Proof.
  unfold normalized_owner, normalizeOwnershipString. destruct o as [s|]; [|done]. simpl.
  destruct (trimmed s) as [t|] eqn:Ht; simpl; [by rewrite (trimmed_idemp s t Ht)|by rewrite Ht].
Qed.

(** Loading a record twice is loading it once. *)
Lemma normalizeTaskRecord_idemp t : normalizeTaskRecord (normalizeTaskRecord t) = normalizeTaskRecord t.
Proof.
  unfold normalizeTaskRecord.
  cbn -[js_unique normalizeTaskResult normalizeTaskError normalized_owner normalizeTaskWakeState]. f_equal.
  - apply js_unique_idemp.
  - destruct (task_result t) as [r|]; [|done]. cbn -[normalizeTaskResult]. by rewrite normalizeTaskResult_idemp.
  - destruct (task_error t) as [e|]; [|done]. cbn -[normalizeTaskError]. by rewrite normalizeTaskError_idemp.
  - by destruct (task_wake t).
  - by rewrite normalized_owner_idemp.
  - by rewrite normalized_owner_idemp.
Qed.

(** ** Workers are stored in their normal form *)

Section Live.
Context `{JsHost} `{TaskEventSink} `{BrokerConfig}.

Definition workers_normal (b : Broker) : Prop :=
  forall k w, jm_get k (br_workers b) = Some w -> normalizeWorkerRecord w = w.

Definition workers_kept (b b' : Broker) : Prop := workers_normal b -> workers_normal b'.
#[local] Instance workers_kept_refl : Reflexive workers_kept.
Proof. intros b Hb. exact Hb. Qed.
#[local] Instance workers_kept_trans : Transitive workers_kept.
Proof. unfold workers_kept. intros b1 b2 b3. auto. Qed.

Definition workers_pruned (b b' : Broker) : Prop :=
  forall k w, jm_get k (br_workers b') = Some w -> jm_get k (br_workers b) = Some w.
#[local] Instance workers_pruned_refl : Reflexive workers_pruned.
Proof. intros b k w. done. Qed.
#[local] Instance workers_pruned_trans : Transitive workers_pruned.
Proof. unfold workers_pruned. intros b1 b2 b3. auto. Qed.

Lemma pruned_kept {A} (m : BM A) : preserves workers_pruned m -> preserves workers_kept m.
Proof. apply preserves_mono. intros b b' Hp Hb k w Hw. eapply Hb, Hp, Hw. Qed.

Lemma pruned_other f :
  (forall b, br_workers (f b) = br_workers b) -> preserves (E:=BrokerError) workers_pruned (m_modify f).
Proof. intros Hf. apply preserves_modify. intros b k w. by rewrite Hf. Qed.

Ltac pruned_auto := preserves_auto; try (apply pruned_other; by intros); try (by intros b k w).

Lemma pruned_persist : preserves workers_pruned persistState.
Proof.
  unfold persistState, persist_full, applyRetentionPolicy, consumeStateSaveHints,
    consumeStateSaveHintsWithoutSnapshot, clearPendingStateSaveHints, store_call, emitStateChange.
  pruned_auto; apply preserves_modify; intros b k w; simpl; unfold pruneMapEntries;
    rewrite jm_get_filter; by destruct (in_set _ _).
Qed.

Lemma pruned_append i : preserves workers_pruned (appendAuditEvent i).
Proof.
  reveal appendAuditEvent. unfold isoNow, randomUUID, push_to_sink. pruned_auto.
  all: apply preserves_modify; intros b k w; repeat case_match; done.
Qed.
Hint Resolve pruned_append : preserves_db.

Lemma workers_normal_call c : preserves workers_kept (run_call c).
Proof.
  apply walk_call; try apply _; intros.
  all: try (apply pruned_kept; first [apply pruned_persist | apply pruned_append | apply pruned_other; by intros
    | by intros b k w']).
  - apply pruned_kept. intros b k w. unfold setExchangeRecord, deref_exchange, m_bind. by destruct (_ !! r).
  - apply preserves_modify. intros b Hb k w'. simpl. rewrite jm_get_set.
    destruct (String.eqb k _); [|apply Hb]. intros [= <-].
    unfold normalizeWorkerRecord, update. simpl. by rewrite normalizeCapabilities_normal.
  - apply pruned_kept. reveal writeTombstone. unfold audit_task, isoNow. pruned_auto.
  - apply pruned_kept. intros b k w. unfold emitTaskUpdate, m_bind at 1, m_get. cbv zeta. by destruct (_ && _).
Qed.

Lemma reachable_workers_normal b : reachable b -> workers_normal b.
Proof.
  apply reachable_invariant; [by intros s ms k w|]. intros c b1. apply workers_normal_call.
Qed.

(** ** Loading the exchanges *)

Definition entry_view (objs : list A2AExchangeState) (kr : string * nat) : option (string * A2AExchangeState) :=
  match objs !! kr.2 with Some ex => Some (kr.1, ex) | None => None end.

(** The live entries of a well-formed store, all of them. *)
Lemma exchange_view_entries b : wf_broker b ->
  keyed ex_id (exchange_view b) /\ jm_keys (exchange_view b) = jm_keys (br_exchanges b).
Proof.
  intros Hwf. assert (forall k r, (k, r) ∈ br_exchanges b -> exists ex, br_exchangeObjs b !! r = Some ex /\ ex_id ex = k) as Hlive.
  { intros k r Hin. apply (wf_exchange_refs b Hwf k r). by apply jm_elem_get; [apply Hwf|]. }
  assert (jm_keys (exchange_view b) = jm_keys (br_exchanges b)) as Hkeys.
  { unfold exchange_view. revert Hlive. generalize (br_exchanges b). intros m Hlive.
    induction m as [|[k r] m IH]; [done|]. simpl.
    destruct (Hlive k r) as (ex & Hex & _); [set_solver|]. rewrite Hex. simpl. f_equal. apply IH. set_solver. }
  split; [|done]. split; [unfold jm_wf; rewrite Hkeys; apply Hwf|].
  intros k ex Hg%jm_get_elem. unfold exchange_view in Hg.
  apply list_elem_of_omap in Hg as ([k' r] & Hin & Heq). simpl in Heq.
  destruct (Hlive k' r Hin) as (ex' & Hex' & <-). rewrite Hex' in Heq. by injection Heq as <- <-.
Qed.

Lemma load_exchanges_run l b :
  NoDup (jm_keys (br_exchanges b) ++ map ex_id l) ->
  m_for l load_exchange b = (b
    <| br_exchangeObjs ::= fun o => o ++ l |>
    <| br_exchanges ::= fun m => m ++ zip (map ex_id l) (seq (length (br_exchangeObjs b)) (length l)) |>, Ok tt).
Proof.
  revert b. induction l as [|ex l IH]; intros b Hnd.
  - simpl. unfold m_ret. f_equal. destruct b; unfold update; simpl. by rewrite !app_nil_r.
  - assert (ex_id ex ∉ jm_keys (br_exchanges b)) as Hex.
    { apply NoDup_app in Hnd as (_ & Hd & _). intros Hin. apply (Hd _ Hin). simpl. set_solver. }
    simpl. unfold load_exchange at 1, alloc_exchange, m_bind, m_modify. rewrite IH.
    + f_equal. destruct b; unfold update; cbn -[jm_set] in *.
      rewrite (jm_set_fresh _ _ _ Hex), length_app, Nat.add_1_r. by rewrite <- !app_assoc.
    + simpl. rewrite (jm_set_fresh _ _ _ Hex). unfold jm_keys in *. rewrite map_app, <- app_assoc. exact Hnd.
Qed.

Lemma loaded_view pre l :
  omap (entry_view (pre ++ l)) (zip (map ex_id l) (seq (length pre) (length l)))
  = map (fun ex => (ex_id ex, ex)) l.
Proof.
  revert pre. induction l as [|ex l IH]; intros pre; [done|]. simpl. unfold entry_view at 1. simpl.
  rewrite lookup_app_r, Nat.sub_diag by lia. simpl. f_equal.
  specialize (IH (pre ++ [ex])). rewrite <- app_assoc, length_app, Nat.add_1_r in IH. exact IH.
Qed.

Lemma load_legacy_roots_run refs b :
  (forall r, r ∈ refs -> exists ex, br_exchangeObjs b !! r = Some ex /\ str_truthy (ex_rootMessageId ex) = true) ->
  m_for refs load_legacy_root b = (b, Ok tt).
Proof.
  induction refs as [|r refs IH]; intros Hr; [done|]. simpl.
  destruct (Hr r) as (ex & Hex & Hroot); [set_solver|].
  unfold load_legacy_root at 1, deref_exchange, m_bind. rewrite Hex, Hroot. apply IH. set_solver.
Qed.

(** What is back after the snapshot of [b] was loaded. *)
Record restored (sink : sink_state) (b b' : Broker) : Prop := {
  rs_exchanges : exchange_view b' = exchange_view b;
  rs_messages : br_exchangeMessages b' = br_exchangeMessages b;
  rs_proposals : br_proposals b' = br_proposals b;
  rs_artifacts : br_artifacts b' = br_artifacts b;
  rs_validations : br_validations b' = br_validations b;
  rs_auditEvents : br_auditEvents b' = br_auditEvents b;
  rs_workers : br_workers b' = br_workers b;
  rs_tasks : br_tasks b' = map (fun kt => (kt.1, normalizeTaskRecord kt.2)) (br_tasks b);
  rs_tombstones : br_tombstones b' = br_tombstones b;
  rs_sink : br_sink b' = sink_restore (sink_snapshot (br_sink b)) sink;
}.

(** Every exchange has a root message; older snapshots may lack it. *)
Definition rooted (b : Broker) : Prop :=
  forall ex, ex ∈ jm_values (exchange_view b) -> ex_rootMessageId ex <> "".

Lemma jm_values_zip ks (rs : list nat) : length ks = length rs -> jm_values (zip ks rs) = rs.
Proof. revert rs. induction ks as [|k ks IH]; intros [|r rs]; simpl; intros Hl; try done. f_equal. apply IH. lia. Qed.

(** The state after the loops over exchanges and messages. *)
Definition exchanges_loaded (sink : sink_state) (ms : Z) (b : Broker) : Broker :=
  (new_broker sink ms)
    <| br_exchangeObjs := jm_values (exchange_view b) |>
    <| br_exchanges := zip (map ex_id (jm_values (exchange_view b)))
                         (seq 0 (length (jm_values (exchange_view b)))) |>
    <| br_exchangeMessages := set_all msg_id (jm_values (br_exchangeMessages b)) [] |>.

Lemma exchanges_loaded_view sink ms b :
  wf_broker b -> exchange_view (exchanges_loaded sink ms b) = exchange_view b.
Proof.
  intros Hwf. destruct (exchange_view_entries b Hwf) as [Hkv _].
  transitivity (map (fun ex => (ex_id ex, ex)) (jm_values (exchange_view b)));
    [apply (loaded_view [])|symmetry; by apply keyed_entries].
Qed.

Lemma load_tables_run sink ms b :
  wf_broker b -> workers_normal b -> rooted b ->
  exists b', load_tables (exportSnapshot b) (new_broker sink ms) = (b', Ok tt) /\ restored sink b b'.
Proof.
  intros Hwf Hwn Hroot. destruct (exchange_view_entries b Hwf) as [Hkv _].
  set (b2 := exchanges_loaded sink ms b).
  exists (load_records (exportSnapshot b) b2). split.
  - unfold load_tables.
    rewrite (bind_ok _ _ _ _ _ (load_exchanges_run (jm_values (exchange_view b)) (new_broker sink ms)
      ltac:(simpl; rewrite (keyed_ids ex_id _ Hkv); apply (proj1 Hkv)))).
    rewrite bind_modify.
    match goal with |- m_bind _ _ ?b1 = _ => change b1 with b2 end.
    unfold m_bind at 1, m_gets. eapply bind_ok_eq; [reflexivity|]. apply load_legacy_roots_run.
    intros r Hr. change (br_exchangeObjs b2) with (jm_values (exchange_view b)).
    change (jm_values (br_exchanges b2)) with (jm_values (zip (map ex_id (jm_values (exchange_view b)))
      (seq 0 (length (jm_values (exchange_view b)))))) in Hr.
    rewrite jm_values_zip in Hr by (by rewrite length_map, length_seq).
    apply elem_of_seq in Hr as [_ Hlt]. destruct (lookup_lt_is_Some_2 _ _ Hlt) as [ex Hex].
    exists ex. split; [exact Hex|]. apply str_truthy_spec, Hroot. by eapply list_elem_of_lookup_2.
  - split; simpl.
    + exact (exchanges_loaded_view sink ms b Hwf).
    + by apply set_all_same, wf_messages.
    + by apply set_all_same, wf_proposals.
    + by apply set_all_same, wf_artifacts.
    + by apply set_all_same, wf_validations.
    + by apply set_all_same, wf_auditEvents.
    + rewrite (set_all_values wr_nodeId normalizeWorkerRecord) by (done || by apply wf_workers).
      transitivity (map (fun kw : string * WorkerRecord => kw) (br_workers b)); [|apply map_id].
      apply map_ext_in. intros [k w] Hin%list_elem_of_In. simpl. f_equal.
      eapply Hwn. apply jm_elem_get; [apply (wf_workers b Hwf)|exact Hin].
    + apply (set_all_values task_id normalizeTaskRecord); [by apply wf_tasks|done].
    + by apply set_all_same, wf_tombstones.
    + done.
Qed.

(** ** Active tasks survive *)

Lemma retention_keeps_active b id t :
  keyed task_id (br_tasks b) -> stored b id = Some t -> active t ->
  exists b', applyRetentionPolicy b = (b', Ok tt) /\ keyed task_id (br_tasks b') /\ stored b' id = Some t.
Proof.
  intros Hk Ht Ha.
  pose proof (retained_active_task cfg_retention (host_clock (br_ticks b)) (retention_view (tick b)) t) as Hret.
  exists (prune (retainedIds cfg_retention (host_clock (br_ticks b)) (retention_view (tick b))) (tick b)).
  split; [reflexivity|]. revert Hret. generalize (retainedIds cfg_retention (host_clock (br_ticks b))
    (retention_view (tick b))). intros r Hret. unfold stored, prune, pruneMapEntries. simpl.
  split; [by apply keyed_filter|]. rewrite jm_get_filter.
  assert (task_id t = id) as <- by by apply Hk.
  assert (in_set (ret_tasks r) (task_id t) = true) as ->; [|exact Ht].
  apply in_set_true, Hret; [|exact Ha]. by apply (keyed_value task_id).
Qed.

Lemma get_map_values {V} (f : V -> V) k (m : jsmap V) :
  jm_get k (map (fun kv => (kv.1, f kv.2)) m) = f <$> jm_get k m.
Proof. induction m as [|[k' v] m IH]; simpl; [done|]. by destruct (String.eqb k k'). Qed.

Lemma restart_keeps_active sink ms b id t :
  wf_broker b -> workers_normal b -> rooted b -> stored b id = Some t -> active t ->
  stored (restarted sink ms (exportSnapshot b)) id = Some (normalizeTaskRecord t).
Proof.
  intros Hwf Hwn Hroot Ht Ha. destruct (load_tables_run sink ms b Hwf Hwn Hroot) as (b1 & Hrun & Hr).
  assert (stored b1 id = Some (normalizeTaskRecord t)) as Ht1.
  { unfold stored in *. by rewrite (rs_tasks _ _ _ Hr), get_map_values, Ht. }
  assert (keyed task_id (br_tasks b1)) as Hk1.
  { rewrite (rs_tasks _ _ _ Hr). split.
    - unfold jm_wf, jm_keys. rewrite map_map. simpl. apply (wf_tasks b Hwf).
    - intros k v. rewrite get_map_values. destruct (jm_get k (br_tasks b)) as [t0|] eqn:Hg; [|done].
      intros [= <-]. exact (proj2 (wf_tasks b Hwf) k t0 Hg). }
  destruct (retention_keeps_active b1 id _ Hk1 Ht1 Ha) as (b2 & Hr2 & Hk2 & Ht2).
  destruct (retention_keeps_active b2 id _ Hk2 Ht2 Ha) as (b3 & Hr3 & _ & Ht3).
  unfold restarted, loadSnapshot.
  rewrite (bind_ok _ _ _ b2 tt) by (by rewrite (bind_ok _ _ _ _ _ Hrun)). by rewrite Hr3.
Qed.

(** ** Links survive retention *)

Lemma pruned_at {V} (m : jsmap V) s k : k ∈ s -> jm_get k (pruneMapEntries m s) = jm_get k m.
Proof. intros Hk. unfold pruneMapEntries. by rewrite jm_get_filter, (proj2 (in_set_true s k) Hk). Qed.

Lemma retention_links b :
  wf_broker b ->
  let b' := (applyRetentionPolicy b).1 in
  (forall id t, stored b' id = Some t ->
     stored b id = Some t
     /\ (forall e, truthy_opt (task_exchangeId t) = Some e -> jm_get e (br_exchanges b') = jm_get e (br_exchanges b))
     /\ (forall p, truthy_opt (task_proposalId t) = Some p -> proposal b' p = proposal b p)
     /\ (forall a, a ∈ task_artifact_ids t -> jm_get a (br_artifacts b') = jm_get a (br_artifacts b))
     /\ (forall w, w ∈ task_worker_ids t -> jm_get w (br_workers b') = jm_get w (br_workers b)))
  /\ (forall id t, stored b id = Some t -> active t -> stored b' id = Some t)
  /\ (forall i p, proposal b i = Some p -> isTerminalProposalStatus (pr_status p) = false -> proposal b' i = Some p).
Proof.
  intros Hwf b'.
  pose proof (retained_task_exchange cfg_retention (host_clock (br_ticks b)) (retention_view (tick b))) as Hex.
  pose proof (retained_task_proposal cfg_retention (host_clock (br_ticks b)) (retention_view (tick b))) as Hpr.
  pose proof (retained_task_artifact cfg_retention (host_clock (br_ticks b)) (retention_view (tick b))) as Har.
  pose proof (retained_task_worker cfg_retention (host_clock (br_ticks b)) (retention_view (tick b))) as Hwo.
  pose proof (retained_active_task cfg_retention (host_clock (br_ticks b)) (retention_view (tick b))) as Hact.
  pose proof (retained_active_proposal cfg_retention (host_clock (br_ticks b)) (retention_view (tick b))) as Hpa.
  change b' with (prune (retainedIds cfg_retention (host_clock (br_ticks b)) (retention_view (tick b))) (tick b)).
  clear b'. revert Hex Hpr Har Hwo Hact Hpa. generalize (retainedIds cfg_retention (host_clock (br_ticks b))
    (retention_view (tick b))). intros r Hex Hpr Har Hwo Hact Hpa. split_and!.
  - intros id t Ht.
    assert (id ∈ ret_tasks r /\ stored b id = Some t) as [Hin Hst].
    { unfold stored in Ht. simpl in Ht. unfold pruneMapEntries in Ht. rewrite jm_get_filter in Ht.
      destruct (in_set (ret_tasks r) id) eqn:Hin; [|done]. split; [by apply in_set_true|done]. }
    split_and!; [done| | | |].
    + intros e He. apply pruned_at. by eapply Hex.
    + intros p Hp. apply pruned_at. by eapply Hpr.
    + intros a Ha. apply pruned_at. by eapply Har.
    + intros w Hw. apply pruned_at. by eapply Hwo.
  - intros id t Ht Ha. assert (task_id t = id) as <- by by apply (wf_tasks b Hwf).
    unfold stored. simpl. rewrite pruned_at; [done|]. apply Hact; [|done].
    apply (keyed_value task_id); [apply (wf_tasks b Hwf)|done].
  - intros i p Hp Ha. assert (pr_id p = i) as <- by by apply (wf_proposals b Hwf).
    unfold proposal. simpl. rewrite pruned_at; [done|]. apply Hpa; [|done].
    apply (keyed_value pr_id); [apply (wf_proposals b Hwf)|done].
Qed.

Lemma retained_task_stored b t :
  wf_broker b -> t ∈ jm_values (br_tasks b) ->
  jm_has (task_id t) (br_tasks (applyRetentionPolicy b).1) = true
  <-> task_id t ∈ ret_tasks (retainedIds cfg_retention (host_clock (br_ticks b)) (retention_view (tick b))).
Proof.
  intros Hwf Ht. apply (keyed_value task_id _ _ (wf_tasks b Hwf)) in Ht.
  change (applyRetentionPolicy b).1 with
    (prune (retainedIds cfg_retention (host_clock (br_ticks b)) (retention_view (tick b))) (tick b)).
  generalize (retainedIds cfg_retention (host_clock (br_ticks b)) (retention_view (tick b))). intros r.
  unfold jm_has. simpl. unfold pruneMapEntries. rewrite jm_get_filter, <- in_set_true.
  destruct (in_set _ _); [by rewrite Ht|done].
Qed.

Lemma stored_value b id t : wf_broker b -> stored b id = Some t -> t ∈ jm_values (br_tasks b).
Proof.
  intros Hwf Ht. apply (keyed_value task_id _ _ (wf_tasks b Hwf)).
  by rewrite (proj2 (wf_tasks b Hwf) id t Ht).
Qed.
End Live.
