(* ===== verification/Feeds.v ===== *)
(** * The event feeds

    The task status stream, the terminal outbox and the per-task buffers of
    updates, in every state the broker reaches: the sequence numbers of a buffer
    are consecutive up to the last one given out, so a subscriber that reconnects
    within the retained window misses nothing. *)

From Stdlib Require Import ZArith Lia String Sorted.
From stdpp Require Import base gmap strings list numbers pretty relations.
From S2P Require Import Prelude JsRuntime Types Policy Retention BrokerCore CoreFacts EventBuffer.
From S2P Require Import TaskEventStream Outbox Workers Proposals Github TerminalBrief Tasks TaskFacts.
From S2P Require Import Exchanges System Walk.

(** ** Consecutive numbering *)

Section Runs.
Context {A : Type} (f : A -> Z).

(** The numbers of [l] are consecutive and end at [last]. *)
Definition run_of (last : Z) (l : list A) : Prop :=
  map f l = seqZ (last - Z.of_nat (length l) + 1) (Z.of_nat (length l)).

Lemma run_of_nil last : run_of last [].
Proof. done. Qed.

Lemma run_of_snoc last l x : run_of last l -> f x = (last + 1)%Z -> run_of (last + 1) (l ++ [x]).
Proof.
  unfold run_of. intros Hl Hx. rewrite map_app, length_app, Hl. simpl.
  replace (Z.of_nat (length l + 1)) with (Z.of_nat (length l) + 1)%Z by lia.
  rewrite (seqZ_app _ (Z.of_nat (length l)) 1) by lia. f_equal; [f_equal; lia|].
  rewrite Hx. unfold seqZ. simpl. f_equal. lia.
Qed.

Lemma drop_seqZ k m n : drop k (seqZ m (Z.of_nat n)) = seqZ (m + Z.of_nat k) (Z.of_nat (n - k)).
Proof.
  apply list_eq. intros i. rewrite lookup_drop. apply option_eq. intros x.
  rewrite !lookup_seqZ. lia.
Qed.

Lemma run_of_drop last l k : run_of last l -> run_of last (drop k l).
Proof.
  unfold run_of. intros Hl. change (map f (drop k l)) with (f <$> drop k l). rewrite fmap_drop.
  change (f <$> l) with (map f l). rewrite Hl, drop_seqZ, length_drop.
  destruct (decide (k <= length l)); [f_equal; lia|].
  by replace (length l - k) with 0 by lia.
Qed.

Lemma run_of_bounds last l x :
  run_of last l -> x ∈ l -> (last - Z.of_nat (length l) < f x <= last)%Z.
Proof.
  intros Hl Hx. assert (f x ∈ map f l) as Hin by (apply list_elem_of_fmap; eauto).
  rewrite Hl in Hin. apply elem_of_seqZ in Hin. lia.
Qed.

(** What a subscriber at [after] is sent: every number after its cursor. *)
Lemma run_of_replay last l after :
  run_of last l -> (last - Z.of_nat (length l) <= after)%Z ->
  map f (List.filter (fun x => (after <? f x)%Z) l) = seqZ (after + 1) (last - after).
Proof.
  unfold run_of. intros Hl Ha.
  revert Hl Ha. generalize last. clear last. induction l as [|x l IH]; intros last Hl Ha; simpl in *.
  - symmetry. apply length_zero_iff_nil. rewrite length_seqZ. lia.
  - rewrite Nat2Z.inj_succ in *. rewrite seqZ_cons in Hl by lia. injection Hl as Hx Hl.
    assert (run_of last l) as Hl'.
    { unfold run_of. rewrite Hl. f_equal; lia. }
    unfold run_of in Hl'. destruct (Z.ltb_spec after (f x)) as [Hlt|Hge]; simpl.
    + assert (after = last - Z.of_nat (length l) - 1)%Z as -> by lia.
      replace (last - (last - Z.of_nat (length l) - 1))%Z with (Z.succ (Z.of_nat (length l))) by lia.
      rewrite seqZ_cons by lia. f_equal; [lia|].
      assert (List.filter (fun x => (last - Z.of_nat (length l) - 1 <? f x)%Z) l = l) as ->.
      { clear IH Hl Hlt Ha Hx. rewrite <- (List.filter_true l) at 2. apply filter_ext_in.
        intros y Hy%list_elem_of_In. apply Z.ltb_lt. pose proof (run_of_bounds last l y Hl' Hy). lia. }
      rewrite Hl'. f_equal; lia.
    + apply IH; [done|lia].
Qed.
End Runs.

(** ** The invariant *)

Section Feeds.
Context `{JsHost} `{OutboxText} `{BrokerConfig}.

Definition seq_of (b : Broker) (id : string) : Z := jm_get id (br_taskEventSeqs b) ?? 0%Z.

Record feeds_ok (b : Broker) : Prop := {
  fd_stream : run_of se_id (cb_nextId (br_sink b).1) (cb_events (br_sink b).1);
  fd_stream_bound : (Z.of_nat (length (cb_events (br_sink b).1)) <= cb_maxEvents (br_sink b).1)%Z;
  fd_outbox : outbox_ok (br_sink b).2;
  fd_buffer id l : jm_get id (br_taskEventBuffers b) = Some l ->
    run_of bt_seq (seq_of b id) l
    /\ (Z.of_nat (length l) <= Z.max 0 cfg_maxBufferedEventsPerTask)%Z;
}.

(** Most steps do not touch the feeds. *)
Definition same_feeds (b b' : Broker) : Prop :=
  br_sink b' = br_sink b /\ br_taskEventBuffers b' = br_taskEventBuffers b
  /\ br_taskEventSeqs b' = br_taskEventSeqs b.

Definition feeds_kept (b b' : Broker) : Prop := feeds_ok b -> feeds_ok b'.

#[export] Instance same_feeds_refl : Reflexive same_feeds.
Proof. by intros b. Qed.
#[export] Instance same_feeds_trans : Transitive same_feeds.
Proof. intros b1 b2 b3 (? & ? & ?) (? & ? & ?). split_and!; congruence. Qed.
#[export] Instance feeds_kept_refl : Reflexive feeds_kept.
Proof. intros b Hb; exact Hb. Qed.
#[export] Instance feeds_kept_trans : Transitive feeds_kept.
Proof. unfold feeds_kept. intros b1 b2 b3. auto. Qed.

Lemma same_feeds_kept b b' : same_feeds b b' -> feeds_kept b b'.
Proof.
  intros (Hs & Hb & Hq) [? ? ? Hl]. split; unfold seq_of; rewrite ?Hs; try done.
  rewrite Hb, Hq. exact Hl.
Qed.

Lemma untouched {A} (m : BM A) : preserves same_feeds m -> preserves feeds_kept m.
Proof. apply preserves_mono, same_feeds_kept. Qed.

Lemma same_feeds_modify f :
  (forall b, same_feeds b (f b)) -> preserves (E:=BrokerError) same_feeds (m_modify f).
Proof. apply preserves_modify. Qed.

Lemma same_feeds_now : preserves same_feeds now_ms.
Proof. by intros b. Qed.
Lemma same_feeds_uuid : preserves same_feeds randomUUID.
Proof. by intros b. Qed.
Lemma same_feeds_alloc ex : preserves same_feeds (alloc_exchange ex).
Proof. by intros b. Qed.
Lemma same_feeds_deref r : preserves same_feeds (deref_exchange r).
Proof. intros b. unfold deref_exchange. by destruct (_ !! r). Qed.
Hint Resolve same_feeds_now same_feeds_uuid same_feeds_alloc same_feeds_deref : preserves_db.

Lemma same_feeds_setExchange r : preserves same_feeds (setExchangeRecord r).
Proof. unfold setExchangeRecord. preserves_auto. Qed.

Lemma same_feeds_persist : preserves same_feeds persistState.
Proof.
  unfold persistState, persist_full, applyRetentionPolicy, consumeStateSaveHints,
    consumeStateSaveHintsWithoutSnapshot, clearPendingStateSaveHints, store_call, emitStateChange.
  preserves_auto; by intros b.
Qed.

(** *** The stream and the outbox *)

Lemma run_trim {A} (f : A -> Z) last max l : run_of f last l -> run_of f last (trim_oldest max l).
Proof. rewrite trim_oldest_drop. apply run_of_drop. Qed.

Lemma stream_push_run audit task s :
  (0 <= cb_maxEvents s)%Z -> run_of se_id (cb_nextId s) (cb_events s) ->
  (Z.of_nat (length (cb_events s)) <= cb_maxEvents s)%Z ->
  run_of se_id (cb_nextId (stream_push audit task s).1) (cb_events (stream_push audit task s).1)
  /\ (Z.of_nat (length (cb_events (stream_push audit task s).1))
      <= cb_maxEvents (stream_push audit task s).1)%Z.
Proof.
  intros Hm Hr Hb. unfold stream_push.
  destruct (negb (bool_decide _)); [done|]. destruct (negb (String.eqb _ _)); [done|].
  destruct (ACTION_TO_KIND (aud_action audit)) as [kind|]; [|done]. simpl. split.
  - apply run_trim. rewrite (Z.add_comm 1). apply run_of_snoc; [done|]. simpl. lia.
  - by apply trim_oldest_length.
Qed.

Lemma feeds_push_to_sink e : preserves feeds_kept (push_to_sink e).
Proof.
  unfold push_to_sink. apply preserves_modify. intros b [Hs Hsb Ho Hl].
  destruct (aud_targetType e); try by split.
  destruct (jm_get (aud_targetId e) (br_tasks b)) as [task|]; [|by split].
  pose proof (stream_push_run e task (br_sink b).1) as Hp. simpl.
  destruct (stream_push e task (br_sink b).1) as [st [te|]] eqn:Hst; simpl in *.
  - destruct (enqueue te task (br_sink b).2) as [ob oe] eqn:He. simpl.
    assert (outbox_ok ob) as Hob by (pose proof (enqueue_ok te task (br_sink b).2 Ho) as Hok; by rewrite He in Hok).
    destruct oe; (split; simpl; [apply Hp; [lia|done|done]|apply Hp; [lia|done|done]|done|exact Hl]).
  - split; simpl; [apply Hp; [lia|done|done]|apply Hp; [lia|done|done]|done|exact Hl].
Qed.
Hint Resolve feeds_push_to_sink : preserves_db.

Lemma feeds_isoNow : preserves feeds_kept isoNow.
Proof. apply untouched. unfold isoNow. preserves_auto. Qed.
Lemma feeds_uuid : preserves feeds_kept randomUUID.
Proof. apply untouched, same_feeds_uuid. Qed.
Hint Resolve feeds_isoNow feeds_uuid : preserves_db.

Lemma feeds_append i : preserves feeds_kept (appendAuditEvent i).
Proof.
  reveal appendAuditEvent. preserves_auto.
  apply untouched, same_feeds_modify. by intros b.
Qed.
Hint Resolve feeds_append : preserves_db.

Lemma feeds_tombstone t r c : preserves feeds_kept (writeTombstone t r c).
Proof.
  reveal writeTombstone. unfold audit_task.
  preserves_auto; apply untouched; first [solve [eauto with preserves_db] | by intros b].
Qed.

Lemma feeds_update_sink u now : preserves feeds_kept (update_sink u now).
Proof.
  unfold update_sink. intros b [Hs Hsb Ho Hl]. unfold m_bind, m_gets, m_modify, m_ret. simpl.
  pose proof (apply_update_ok u now (br_sink b).2 Ho) as Hok.
  destruct (apply_update u now (br_sink b).2) as [ob r]. split; simpl in *; done.
Qed.

(** *** The task buffers *)

Lemma keep_newest_length {A} max (l : list A) :
  (Z.of_nat (length (keep_newest max l)) <= Z.max 0 max)%Z.
Proof. unfold keep_newest. rewrite length_drop. lia. Qed.

Lemma feeds_emit t reason : preserves feeds_kept (emitTaskUpdate t reason).
Proof.
  unfold emitTaskUpdate. intros b Hok. unfold m_bind at 1, m_get. cbv zeta.
  destruct (_ && _) eqn:Hc; [done|]. clear Hc.
  unfold advanceTaskEventSeq, gets_map, bufferTaskEvent, m_modify, m_gets, m_bind, m_ret. simpl.
  destruct Hok as [Hs Hsb Ho Hl]. split; simpl; [done..|]. intros id l. unfold seq_of. simpl.
  rewrite !jm_get_set. destruct (String.eqb_spec id (task_id t)) as [->|]; [|apply Hl].
  intros [= <-]. simpl. split; [|apply keep_newest_length]. unfold keep_newest. apply run_of_drop, run_of_snoc; [|done].
  destruct (jm_get (task_id t) (br_taskEventBuffers b)) as [l|] eqn:Hb; [|apply run_of_nil].
  by apply Hl.
Qed.

(** ** Every request keeps the feeds in order *)

Lemma feeds_call c : preserves feeds_kept (run_call c).
Proof.
  apply walk_call; try apply _; intros; eauto using feeds_emit, feeds_tombstone, feeds_update_sink with preserves_db;
    apply untouched; eauto using same_feeds_setExchange, same_feeds_persist with preserves_db; by intros b.
Qed.

(** The initial state, for given caps of the stream and the outbox. *)
Definition started (maxStatus maxOutbox : option Z) (ms : Z) : Broker :=
  new_broker (new_stream maxStatus, new_outbox maxOutbox) ms.

Lemma feeds_started m1 m2 ms : feeds_ok (started m1 m2 ms).
Proof.
  split; simpl; [apply run_of_nil| |apply new_outbox_ok|done].
  unfold DEFAULT_TASK_EVENT_RETENTION. destruct m1 as [n|]; [|lia].
  destruct (Z.ltb_spec 0 n); simpl; lia.
Qed.

Lemma feeds_steps b b' : rtc broker_step b b' -> feeds_ok b -> feeds_ok b'.
Proof. induction 1 as [|b1 b2 b3 (c & _ & <-) _ IH]; [done|]. intros Hb. by apply IH, feeds_call. Qed.
End Feeds.
