(* ===== verification/OutboxMachine.v ===== *)
(** * The record of a terminal event

    What the operations of the outbox (src/core/terminal-event-outbox.ts) do to
    the record under one id: it appears unacknowledged, its receipt is updated, a
    send-only acknowledgement is turned down, evidence confirms it, and retention
    drops it.  [outbox_step] is the choice of an operation; [record_move] the
    machine that each refines. *)

From Stdlib Require Import ZArith Lia String.
From stdpp Require Import base gmap strings list relations.
From S2P Require Import Prelude JsRuntime Types Policy Retention BrokerCore EventBuffer.
From S2P Require Import TaskEventStream Outbox CoreFacts Workers Proposals Github TerminalBrief Tasks.
From S2P Require Import TaskFacts Exchanges System Walk Feeds.

Section Machine.
Context `{OutboxText}.

Inductive outbox_step (o : TerminalTaskEventOutbox) : TerminalTaskEventOutbox -> Prop :=
| StepEnqueue te task : outbox_step o (enqueue te task o).1
| StepAcknowledge id r now : outbox_step o (acknowledge id r now o).1
| StepReceipt id status updatedAt note now :
    outbox_step o (recordReceiptStatus id status updatedAt note now o).1.

Inductive record_move : option TerminalTaskOutboxEvent -> option TerminalTaskOutboxEvent -> Prop :=
| MoveKeep r : record_move r r
| MoveDrop e : record_move (Some e) None
| MoveAppear e : ob_ack e = None -> ob_attempts e = 0%Z -> rc_status (ob_receipt e) = RsAccepted ->
    record_move None (Some e)
| MoveTurnDown e now : record_move (Some e) (Some (rejected_ack now e))
| MoveReceipt e s updatedAt note : record_move (Some e) (Some (with_receipt s updatedAt note e))
| MoveConfirm e r ev now : ob_ack e = None -> parse_evidence (ki_evidence r) = Some ev ->
    record_move (Some e) (Some (confirmed_ack (buildAckState r ev now) e)).

Definition record_of (o : TerminalTaskEventOutbox) (id : string) : option TerminalTaskOutboxEvent :=
  find_event id (ox_events o).

Lemma record_of_elem o id e : record_of o id = Some e -> e ∈ ox_events o.
Proof. apply find_event_elem. Qed.

Lemma find_event_notin id l : id ∉ map ob_id l -> find_event id l = None.
Proof.
  intros Hn. destruct (find_event id l) as [e|] eqn:He; [|done]. destruct Hn.
  rewrite <- (find_event_id _ _ _ He). apply list_elem_of_fmap. exists e. split; [done|].
  by apply find_event_elem in He.
Qed.

Lemma find_event_suffix id k l :
  NoDup (map ob_id (k ++ l)) -> find_event id l = find_event id (k ++ l) \/ find_event id l = None.
Proof.
  intros Hnd. rewrite find_event_app. destruct (find_event id k) as [e|] eqn:He; [|by left].
  right. apply find_event_notin. rewrite map_app in Hnd. apply NoDup_app in Hnd as (_ & Hd & _).
  apply Hd. rewrite <- (find_event_id _ _ _ He). apply list_elem_of_fmap. exists e. split; [done|].
  by apply find_event_elem in He.
Qed.

(** A fresh record that comes last is found after the oldest were dropped. *)
Lemma find_event_trimmed max l e :
  (0 < max)%Z -> find_event (ob_id e) l = None ->
  forall id, id = ob_id e -> find_event id (trim_oldest max (l ++ [e])) = Some e.
Proof.
  intros Hm Hn id ->. destruct (find_event (ob_id e) (trim_oldest max (l ++ [e]))) as [e'|] eqn:He.
  - pose proof (find_event_id _ _ _ He) as Hid. apply find_event_elem, trim_oldest_elem, elem_of_app in He.
    destruct He as [He|He]; [|by apply list_elem_of_singleton in He as ->].
    apply find_event_None in Hn. destruct Hn. rewrite <- Hid. apply list_elem_of_fmap. eauto.
  - apply find_event_None in He. destruct He. apply list_elem_of_fmap. exists e. split; [done|].
    by apply trim_oldest_last.
Qed.

(** Either nothing changes, or a fresh record comes last and the oldest may go. *)
Lemma enqueue_events te task o :
  (enqueue te task o).1 = o
  \/ exists e, find_event (ob_id e) (ox_events o) = None /\ ob_ack e = None /\ ob_attempts e = 0%Z
       /\ rc_status (ob_receipt e) = RsAccepted /\ ob_id e ∉ ox_seenOrder o
       /\ ox_events (enqueue te task o).1 = trim_oldest (ox_maxEvents o) (ox_events o ++ [e]).
Proof.
  unfold enqueue.
  destruct (negb (terminal_kind _)); [by left|]. destruct (negb (isTerminalStatus _)); [by left|].
  destruct (negb (bool_decide _)); [by left|]. destruct (negb (String.eqb _ _)); [by left|].
  destruct (find_event _ _) eqn:Hf; [by left|]. case_bool_decide; [by left|].
  destruct (applyRoundProgressMetadata _ _) as [p children] eqn:Hp. right. simpl.
  match goal with |- context [new_event ?i te ?p] => exists (new_event i te p) end.
  split_and!; done.
Qed.

Lemma record_update id id' f o :
  (forall e, ob_id (f e) = ob_id e) ->
  find_event id (update_event id' f (ox_events o))
  = if String.eqb id id' then f <$> find_event id (ox_events o) else find_event id (ox_events o).
Proof.
  intros Hf. destruct (String.eqb_spec id id') as [->|Hne]; [by apply find_event_update|].
  unfold find_event. induction (ox_events o) as [|e l IH]; [done|]. simpl.
  destruct (String.eqb_spec (ob_id e) id') as [He|He]; simpl.
  - rewrite Hf. destruct (String.eqb_spec (ob_id e) id); [congruence|done].
  - by rewrite IH.
Qed.

Lemma outbox_step_ok o o' : outbox_step o o' -> outbox_ok o -> outbox_ok o'.
Proof.
  intros [te task|id r now|id status u note now] Hok; [by apply enqueue_ok|..].
  - by apply acknowledge_ok.
  - by apply recordReceiptStatus_ok.
Qed.

Lemma step_moves o o' id :
  outbox_ok o -> outbox_step o o' -> record_move (record_of o id) (record_of o' id).
Proof.
  intros Hok [te task|id' r now|id' status u note now]; unfold record_of.
  - destruct (enqueue_events te task o) as [->|(e & Hn & Ha & Hat & Hr & _ & ->)]; [by apply MoveKeep|].
    destruct (trim_oldest_suffix (ox_maxEvents o) (ox_events o ++ [e])) as [k Hk].
    assert (NoDup (map ob_id (ox_events o ++ [e]))) as Hnd.
    { rewrite map_app. apply NoDup_app. split_and!; [apply Hok| |by apply NoDup_singleton].
      intros x Hx Hx1. apply list_elem_of_singleton in Hx1 as ->. by apply find_event_None in Hn. }
    rewrite Hk in Hnd. destruct (find_event_suffix id k _ Hnd) as [Hs|Hs]; rewrite Hs; clear Hs.
    + rewrite <- Hk, find_event_app. destruct (find_event id (ox_events o)) as [e0|]; [apply MoveKeep|].
      unfold find_event. simpl. destruct (String.eqb _ _); [by apply MoveAppear|apply MoveKeep].
    + destruct (find_event id (ox_events o)); [apply MoveDrop|apply MoveKeep].
  - unfold acknowledge. destruct (parse_evidence _) as [ev|] eqn:Hev; simpl.
    + destruct (find_event id' (ox_events o)) as [e|] eqn:He; [|apply MoveKeep].
      destruct (ob_ack e) eqn:Ha; [apply MoveKeep|]. simpl. rewrite record_update by done.
      destruct (String.eqb_spec id id') as [->|]; [|apply MoveKeep]. rewrite He. by apply MoveConfirm.
    + rewrite record_update by done. destruct (String.eqb _ _); [|apply MoveKeep].
      destruct (find_event id (ox_events o)); [apply MoveTurnDown|apply MoveKeep].
  - unfold recordReceiptStatus. destruct (parse_receipt_status _) as [s|]; simpl; [|apply MoveKeep].
    destruct (find_event id' (ox_events o)) as [e|] eqn:He; simpl; [|apply MoveKeep].
    rewrite record_update by done. destruct (String.eqb _ _); [|apply MoveKeep].
    destruct (find_event id (ox_events o)); [apply MoveReceipt|apply MoveKeep].
Qed.

(** ** A confirmed record stays confirmed *)

Definition confirmed_as (a : OutboxAckState) (p : TerminalTaskEventPayload)
    (r : option TerminalTaskOutboxEvent) : Prop :=
  forall e, r = Some e -> ob_ack e = Some a /\ ob_payload e = p.

Lemma confirmed_move a p e r :
  ob_ack e = Some a -> ob_payload e = p -> record_move (Some e) r -> confirmed_as a p r.
Proof. intros Ha Hp Hm. inversion Hm; subst; intros x [= <-]; simpl; try done. congruence. Qed.

(** ** Seen ids are not recorded again *)

Lemma seen_not_recorded te task o id :
  id ∈ ox_seenOrder o -> record_of o id = None -> record_of (enqueue te task o).1 id = None.
Proof.
  intros Hs Hn. unfold record_of in *. destruct (enqueue_events te task o) as [->|(e & _ & _ & _ & _ & Hns & ->)]; [done|].
  apply find_event_notin. intros (e' & -> & He')%list_elem_of_fmap.
  apply trim_oldest_elem, elem_of_app in He' as [He'|He']; [|apply list_elem_of_singleton in He'; by subst].
  apply find_event_None in Hn. apply Hn, list_elem_of_fmap. eauto.
Qed.

Lemma enqueue_ignored te task o o' : enqueue te task o = (o', None) -> o' = o.
Proof.
  unfold enqueue.
  destruct (negb (terminal_kind _)); [congruence|]. destruct (negb (isTerminalStatus _)); [congruence|].
  destruct (negb (bool_decide _)); [congruence|]. destruct (negb (String.eqb _ _)); [congruence|].
  destruct (find_event _ _); [congruence|]. case_bool_decide; [congruence|].
  by destruct (applyRoundProgressMetadata _ _).
Qed.

(** The newest record is retained, and found again. *)
Lemma enqueue_twice te task o o' e :
  outbox_ok o -> enqueue te task o = (o', Some e) -> enqueue te task o' = (o', Some e).
Proof.
  intros Hok. unfold enqueue at 1 2.
  destruct (negb (terminal_kind _)); [congruence|]. destruct (negb (isTerminalStatus _)); [congruence|].
  destruct (negb (bool_decide _)); [congruence|]. destruct (negb (String.eqb _ _)); [congruence|].
  destruct (find_event _ _) eqn:Hf; [intros [= <- <-]; by rewrite Hf|].
  case_bool_decide as Hs; [congruence|].
  destruct (applyRoundProgressMetadata _ _) as [p children]. intros [= <- <-]. simpl.
  rewrite find_event_trimmed; [done|apply Hok|done|done].
Qed.

(** ** Redelivery *)

Lemma index_of_lookup id l i :
  index_of id l = Some i -> exists e, l !! i = Some e /\ ob_id e = id.
Proof.
  revert i. induction l as [|e l IH]; intros i; simpl; [done|].
  destruct (String.eqb_spec (ob_id e) id) as [He|]; [intros [= <-]; simpl; eauto|].
  destruct (index_of id l) as [j|]; [|done]. intros [= <-]. by apply IH.
Qed.

Lemma lookup_index_of l i e :
  NoDup (map ob_id l) -> l !! i = Some e -> index_of (ob_id e) l = Some i.
Proof.
  revert i. induction l as [|e0 l IH]; intros i Hnd Hi; [done|]. simpl in *.
  apply NoDup_cons in Hnd as [Hn Hnd]. destruct i as [|i]; simpl in Hi.
  - injection Hi as ->. by rewrite String.eqb_refl.
  - destruct (String.eqb_spec (ob_id e0) (ob_id e)) as [He|]; [|by rewrite (IH i)].
    destruct Hn. rewrite He. apply list_elem_of_fmap. exists e. split; [done|].
    by eapply list_elem_of_lookup_2.
Qed.

(** What a subscriber at [afterId] is sent when it sets no limit. *)
Lemma redelivered afterId o e :
  e ∈ sr_events (subscribeWithCursor afterId None o)
  <-> e ∈ ox_events o
      /\ (isReceiptConfirmed e = false
          \/ match indexOfId afterId o with Some i => e ∈ drop (S i) (ox_events o) | None => True end).
Proof.
  unfold subscribeWithCursor. simpl. destruct (indexOfId afterId o) as [i|]; simpl; [|tauto].
  rewrite elem_of_app. rewrite <- (take_drop (S i) (ox_events o)) at 3. rewrite elem_of_app.
  rewrite list_elem_of_In, List.filter_In, <- list_elem_of_In, negb_true_iff.
  split; [intros [[? ?]|?]; tauto|]. intros [[?|?] [?|?]]; tauto.
Qed.
End Machine.

(** ** Every request of the broker *)

(** A request changes the outbox by its operations alone: what they preserve,
    the request does. *)
Section Requests.
Context `{JsHost} `{OutboxText} `{BrokerConfig}.
Context (Q : relation TerminalTaskEventOutbox) `{!Reflexive Q} `{!Transitive Q}.
Context (Q_step : forall o o', outbox_step o o' -> Q o o').

Definition outboxes (b b' : Broker) : Prop := Q (br_sink b).2 (br_sink b').2.

#[export] Instance outboxes_refl : Reflexive outboxes.
Proof. intros b. unfold outboxes. reflexivity. Qed.
#[export] Instance outboxes_trans : Transitive outboxes.
Proof. intros b1 b2 b3 H12 H23. unfold outboxes in *. by transitivity (br_sink b2).2. Qed.

Lemma same_sink_outboxes b b' : br_sink b' = br_sink b -> outboxes b b'.
Proof. intros Hs. unfold outboxes. rewrite Hs. reflexivity. Qed.

Lemma unmoved {A} (m : BM A) : preserves same_feeds m -> preserves outboxes m.
Proof. apply preserves_mono. intros b b' (Hs & _). by apply same_sink_outboxes. Qed.

Lemma outboxes_push_to_sink e : preserves outboxes (push_to_sink e).
Proof.
  unfold push_to_sink. apply preserves_modify. intros b.
  destruct (aud_targetType e); try reflexivity.
  destruct (jm_get (aud_targetId e) (br_tasks b)) as [task|]; [|reflexivity].
  simpl. destruct (stream_push e task (br_sink b).1) as [st [te|]]; [|unfold outboxes; simpl; reflexivity].
  pose proof (StepEnqueue (br_sink b).2 te task) as Hs.
  destruct (enqueue te task (br_sink b).2) as [ob oe] eqn:He.
  destruct oe; apply Q_step; exact Hs.
Qed.

Lemma outboxes_update_sink u now : preserves outboxes (update_sink u now).
Proof.
  intros b. unfold update_sink, m_bind, m_gets, m_modify, m_ret. cbn [fst].
  apply Q_step. simpl.
  destruct u as [id r|id st up note]; simpl.
  - pose proof (StepAcknowledge (br_sink b).2 id r now) as Hs.
    by destruct (acknowledge id r now (br_sink b).2) as [ob res].
  - pose proof (StepReceipt (br_sink b).2 id st up note now) as Hs.
    by destruct (recordReceiptStatus id st up note now (br_sink b).2) as [ob res].
Qed.
Hint Resolve outboxes_push_to_sink : preserves_db.

Lemma outboxes_append i : preserves outboxes (appendAuditEvent i).
Proof.
  reveal appendAuditEvent. unfold isoNow. preserves_auto; try (apply unmoved; by intros b).
Qed.
Hint Resolve outboxes_append : preserves_db.

Lemma outboxes_tombstone t r c : preserves outboxes (writeTombstone t r c).
Proof.
  reveal writeTombstone. unfold audit_task, isoNow. preserves_auto; apply unmoved; by intros b.
Qed.

Lemma outboxes_emit t r : preserves outboxes (emitTaskUpdate t r).
Proof.
  intros b. apply same_sink_outboxes. unfold emitTaskUpdate, m_bind at 1, m_get. cbv zeta.
  by destruct (_ && _).
Qed.

Lemma outboxes_call c : preserves outboxes (run_call c).
Proof.
  apply walk_call; try apply _; intros; eauto using outboxes_emit, outboxes_tombstone, outboxes_update_sink
    with preserves_db; apply unmoved;
    eauto using same_feeds_setExchange, same_feeds_persist with preserves_db; by intros b.
Qed.
End Requests.

Section Records.
Context `{JsHost} `{OutboxText} `{BrokerConfig}.

Definition records_move (o o' : TerminalTaskEventOutbox) : Prop :=
  outbox_ok o -> outbox_ok o' /\ forall id, rtc record_move (record_of o id) (record_of o' id).

#[export] Instance records_move_refl : Reflexive records_move.
Proof. intros o Ho. split; [done|reflexivity]. Qed.
#[export] Instance records_move_trans : Transitive records_move.
Proof.
  intros o1 o2 o3 H12 H23 Ho. destruct (H12 Ho) as [Ho2 Hm12]. destruct (H23 Ho2) as [Ho3 Hm23].
  split; [done|]. intros id. by transitivity (record_of o2 id).
Qed.

Lemma stepped o o' : outbox_step o o' -> records_move o o'.
Proof.
  intros Hs Ho. split; [by apply (outbox_step_ok _ _ Hs)|]. intros id. apply rtc_once. by apply step_moves.
Qed.

Lemma records_call c : preserves (outboxes records_move) (run_call c).
Proof. apply outboxes_call; [apply _..|exact stepped]. Qed.
End Records.
