(* ===== verification/OutboxRedaction.v ===== *)
(** * What operators are shown (src/core/terminal-event-outbox.ts)

    The texts of an outbox record that come from a task's payload and output or
    from an acknowledgement, and that no access token is in them.  Repository,
    task description and URLs are not among them: the code passes them on as they
    are. *)

From Stdlib Require Import ZArith Lia String Ascii.
From stdpp Require Import base gmap strings list pretty relations.
From S2P Require Import Prelude JsRuntime TextRedaction Types Policy Retention BrokerCore EventBuffer.
From S2P Require Import TaskEventStream Outbox CoreFacts Workers Proposals Github TerminalBrief OutboxPayload Tasks.
From S2P Require Import TaskFacts Exchanges System Walk Feeds OutboxMachine.

(** ** The texts of a record *)

Definition payload_texts (p : TerminalTaskEventPayload) : list (option string) :=
  [tp_parentRoundId p; tp_run p; tp_traceId p; tp_worker p; tp_taskBrief p; tp_terminalBriefTitle p; tp_title p].

Definition ack_texts (a : OutboxAckState) : list (option string) := [ak_receiptId a; ak_note a].
Definition receipt_texts (r : OutboxReceiptState) : list (option string) := [rc_receiptId r; rc_note r].
Definition audit_texts (a : OutboxAckAudit) : list (option string) :=
  [au_worker a; au_taskBrief a; au_run a; au_traceId a; au_receiptId a].

Definition event_texts (e : TerminalTaskOutboxEvent) : list (option string) :=
  payload_texts (ob_payload e) ++ ((ack_texts <$> ob_ack e) ?? []) ++ receipt_texts (ob_receipt e)
  ++ ((audit_texts <$> ob_ackAudit e) ?? []).

(** The property [name] of the payload, where it is a text. *)
Definition other_text (name : string) (p : TerminalTaskEventPayload) : option string :=
  js_string (js_prop name (tp_other p)).

Definition SANITISED_KEYS : list string := ["brokerOfRecordId"; "originBrokerId"; "testSummary"].

Definition hidden (o : option string) : Prop := forall s, o = Some s -> hides_tokens s.
Definition record_hidden (e : TerminalTaskOutboxEvent) : Prop :=
  Forall hidden (event_texts e) /\ Forall (fun k => hidden (other_text k (ob_payload e))) SANITISED_KEYS.
Definition outbox_hidden (o : TerminalTaskEventOutbox) : Prop := Forall record_hidden (ox_events o).

(** ** Sanitised text *)

Lemma first_of_some {A} (read : JsValue -> option A) values x :
  first_of read values = Some x -> exists v, read v = Some x.
Proof.
  unfold first_of. induction values as [|v values IH]; simpl; [done|].
  destruct (read v) as [y|] eqn:Hv; [|done]. simpl. intros [= ->]. eauto.
Qed.

Lemma truthy_opt_some o s : truthy_opt o = Some s -> o = Some s.
Proof. destruct o as [t|]; simpl; [|done]. by destruct (str_truthy t). Qed.

Lemma hides_slice n s : hides_tokens s -> hides_tokens (str_slice n s).
Proof. unfold hides_tokens, str_slice. rewrite chars_unchars. apply free_take. Qed.

Lemma hidden_None : hidden None.
Proof. by intros s. Qed.
Lemma hidden_truthy o : hidden o -> hidden (truthy_opt o).
Proof. intros Ho s Hs%truthy_opt_some. by apply Ho. Qed.
Lemma hidden_sliced n o : hidden o -> hidden (str_slice n <$> o).
Proof. intros Ho s (t & -> & ->)%fmap_Some. by apply hides_slice, Ho. Qed.
Lemma hidden_orelse o o' : hidden o -> hidden o' -> hidden (o ??o o').
Proof. by destruct o. Qed.
Lemma hidden_summary v : hidden (sanitizeSummary v ≫= fun s => truthy_opt (Some s)).
Proof.
  intros s (t & Ht & Hs%truthy_opt_some)%bind_Some. injection Hs as ->. by eapply summary_hides.
Qed.
Lemma hidden_first read values : (forall v, hidden (read v)) -> hidden (first_of read values).
Proof. intros Hr s (v & Hv)%first_of_some. by eapply Hr. Qed.
Lemma hidden_if (c : bool) o : hidden o -> hidden (if c then o else None).
Proof. by destruct c. Qed.

Create HintDb hidden_db.
#[export] Hint Resolve hidden_None hidden_truthy hidden_sliced hidden_orelse hidden_summary hidden_if : hidden_db.

Lemma firstSafeText_hidden values : hidden (firstSafeText values).
Proof. apply hidden_first. auto with hidden_db. Qed.

Lemma sanitizeTaskBrief_hidden v : hidden (sanitizeTaskBrief v).
Proof. destruct v; simpl; auto with hidden_db. Qed.

Lemma buildTaskBrief_hidden task output : hidden (buildTaskBrief task output).
Proof.
  unfold buildTaskBrief. apply hidden_orelse.
  - apply hidden_first. intros v s (t & Ht & Hs%truthy_opt_some)%bind_Some. injection Hs as ->.
    by eapply sanitizeTaskBrief_hidden.
  - unfold sanitizeTaskMessageBrief. destruct (opt_value _); auto using sanitizeTaskBrief_hidden with hidden_db.
Qed.

Lemma sanitizeAckText_hidden v n : hidden (sanitizeAckText v n).
Proof. unfold sanitizeAckText. auto with hidden_db. Qed.
#[export] Hint Resolve firstSafeText_hidden buildTaskBrief_hidden sanitizeAckText_hidden : hidden_db.

(** ** The title *)

Lemma pretty_plain (n : Z) : Forall (fun c => c ∉ chars "gsx") (chars (pretty n)).
Proof.
  apply pretty_chars; [|intros _; apply (bool_decide_unpack _); vm_compute; exact I].
  intros c. destruct c as [[] [] [] [] [] [] [] []]; vm_compute; try done; intros _ Hc;
    repeat (apply elem_of_cons in Hc as [Hc|Hc]; [done|]); by apply elem_of_nil in Hc.
Qed.

Lemma title_hidden p : hidden (tp_worker p) -> hidden (buildTerminalBriefTitle p).
Proof.
  intros Hw s. unfold buildTerminalBriefTitle. destruct (truthy_opt (tp_worker p)) as [w|] eqn:Hwk; [|done].
  apply truthy_opt_some, Hw in Hwk. unfold hides_tokens in *.
  assert (forall o, stops o -> (forall b, free b o) ->
    free None (chars ("A2A Terminal Brief " ++ status_label (tp_status p) ++ ": " ++ w)%string ++ o)) as Ht.
  { intros o Ho Hf. rewrite !chars_app, <- !app_assoc, app_assoc, app_assoc.
    apply (free_plain _ _ " "%char).
    - destruct (tp_status p); apply (bool_decide_unpack _); vm_compute; exact I.
    - by destruct (tp_status p).
    - by apply free_stopped; [destruct w as [|c w]| |]. }
  destruct (tp_parentRoundProgress p) as [n|].
  - destruct (tp_parentRoundTotal p) as [t|]; intros [= <-].
    + rewrite (chars_app _ ("(" ++ _)). apply Ht; [done|]. intros b. apply free_plain_all.
      rewrite !chars_app, !Forall_app. split_and!; try apply pretty_plain;
        apply (bool_decide_unpack _); vm_compute; exact I.
    + rewrite <- (app_nil_r (chars _)). by apply Ht.
  - intros [= <-]. rewrite <- (app_nil_r (chars _)). by apply Ht.
Qed.

(** ** Records *)

(** Of an object built by parts: the first part that has the property. *)
Lemma other_app k l l' :
  hidden (js_string (js_prop k l)) -> hidden (js_string (js_prop k l')) ->
  hidden (js_string (js_prop k (l ++ l'))).
Proof.
  unfold js_prop. intros H1 H2. induction l as [|[k1 v] l IH]; [done|]. simpl in *.
  destruct (String.eqb k k1) eqn:Hk; simpl in *; rewrite ?Hk in *; auto.
Qed.

Lemma other_field k name o :
  (k = name -> hidden o) -> hidden (js_string (js_prop k (field name o))).
Proof.
  intros Ho s. destruct o as [t|]; [|done]. unfold js_prop. simpl.
  destruct (String.eqb_spec k name); [|done]. simpl. intros [= ->]. by apply Ho.
Qed.

Section Payload.
Context `{JsUrl}.

Lemma payload_hidden task :
  Forall hidden (payload_texts (buildTerminalTaskPayload task))
  /\ Forall (fun k => hidden (other_text k (buildTerminalTaskPayload task))) SANITISED_KEYS.
Proof.
  split; [repeat constructor; cbn -[firstSafeText]; auto with hidden_db|].
  apply Forall_forall. intros k Hk. unfold other_text. cbn [tp_other buildTerminalTaskPayload].
  assert (k <> "createdAt" /\ k <> "updatedAt" /\ k <> "taskDescription" /\ k <> "prUrl" /\ k <> "doneUrl"
    /\ k <> "blockUrl" /\ k <> "completedAt") as Hne.
  { unfold SANITISED_KEYS in Hk. repeat (apply elem_of_cons in Hk as [->|Hk]; [by split_and!|]).
    by apply elem_of_nil in Hk. }
  destruct Hne as (? & ? & ? & ? & ? & ? & ?).
  repeat first [apply other_app | apply other_field; [intros; simplify_eq; auto with hidden_db]].
  - apply (other_app _ (field "createdAt" (Some _)) (field "updatedAt" (Some _)));
      apply other_field; intros; simplify_eq.
  - destruct (firstSafePositiveInt _); [|done]. unfold js_prop. simpl. by destruct (String.eqb k _).
  - destruct (buildCrossBrokerHandoff _); [|done]. unfold js_prop. simpl. by destruct (String.eqb k _).
Qed.

(** Progress, title and aliases keep the other texts. *)
Definition shown_payload (p : TerminalTaskEventPayload) : Prop :=
  Forall hidden (payload_texts p) /\ Forall (fun k => hidden (other_text k p)) SANITISED_KEYS.

Lemma progress_shown p m : shown_payload p -> shown_payload (applyRoundProgressMetadata p m).1.
Proof.
  intros Hp. unfold applyRoundProgressMetadata. destruct (truthy_opt (tp_run p)); [|done].
  destruct (tp_parentRoundTotal p) as [t|]; [|done]. simpl. by destruct (t =? 0)%Z.
Qed.

Lemma title_shown p : shown_payload p -> shown_payload (applyTerminalBriefTitle p).
Proof.
  intros [Hp Ho]. unfold applyTerminalBriefTitle.
  destruct (truthy_opt (buildTerminalBriefTitle p)) as [t|] eqn:Ht; [|done]. split; [|done].
  unfold payload_texts in *. rewrite !Forall_cons in *. destruct Hp as (? & ? & ? & Hw & ? & _ & ? & ?).
  split_and!; try done. intros s [= <-]. apply truthy_opt_some in Ht. by apply (title_hidden p Hw).
Qed.

Lemma aliases_shown p : shown_payload p -> shown_payload (applyTerminalBriefCompatibilityAliases p).
Proof.
  intros [Hp Ho]. unfold payload_texts in Hp. rewrite !Forall_cons in Hp.
  destruct Hp as (? & Hrun & ? & ? & ? & Hb & ? & ?).
  pose proof (hidden_truthy _ Hrun). pose proof (hidden_truthy _ Hb).
  unfold applyTerminalBriefCompatibilityAliases.
  destruct (truthy_opt (tp_run p)); destruct (truthy_opt (tp_parentRoundId p)); simpl;
    destruct (truthy_opt (tp_terminalBriefTitle p)); destruct (truthy_opt (tp_title p));
    (split; [unfold payload_texts; rewrite !Forall_cons; by split_and!|done]).
Qed.

Lemma audit_shown p d reason u st ev rid :
  shown_payload p -> hidden rid -> Forall hidden (audit_texts (buildAckAudit p d reason u st ev rid)).
Proof.
  intros [Hp _] Hr. unfold payload_texts in Hp. rewrite !Forall_cons in Hp.
  destruct Hp as (? & ? & ? & ? & ? & ? & ? & _). unfold audit_texts. simpl.
  repeat constructor; auto with hidden_db.
Qed.

Lemma receipt_audit_shown p r :
  shown_payload p -> hidden (rc_receiptId r) -> Forall hidden (audit_texts (ackAuditFromReceipt p r)).
Proof. intros Hp Hr. unfold ackAuditFromReceipt. destruct (rc_status r); by apply audit_shown. Qed.

(** A record, by its parts. *)
Lemma record_hidden_parts e :
  record_hidden e
  <-> shown_payload (ob_payload e) /\ (forall a, ob_ack e = Some a -> Forall hidden (ack_texts a))
      /\ Forall hidden (receipt_texts (ob_receipt e))
      /\ (forall a, ob_ackAudit e = Some a -> Forall hidden (audit_texts a)).
Proof.
  unfold record_hidden, event_texts, shown_payload. rewrite !Forall_app.
  split.
  - intros ((? & Ha & ? & Hu) & ?). split_and!; [done..| |done|].
    + intros a Heq. by rewrite Heq in Ha.
    + intros a Heq. by rewrite Heq in Hu.
  - intros ((? & ?) & Ha & ? & Hu). split_and!; [done| |done| |done].
    + destruct (ob_ack e); [by apply Ha|constructor].
    + destruct (ob_ackAudit e); [by apply Hu|constructor].
Qed.

Lemma new_event_hidden id te p : shown_payload p -> record_hidden (new_event id te p).
Proof.
  intros Hp. apply record_hidden_parts. split_and!; [done|done|by repeat constructor|].
  intros a [= <-]. by apply audit_shown.
Qed.

Lemma rejected_hidden now e : record_hidden e -> record_hidden (rejected_ack now e).
Proof.
  rewrite !record_hidden_parts. intros (? & ? & ? & ?). split_and!; [done..|].
  intros a [= <-]. by apply audit_shown.
Qed.

Lemma ack_state_hidden r ev now : Forall hidden (ack_texts (buildAckState r ev now)).
Proof. unfold ack_texts, buildAckState. simpl. repeat constructor; auto with hidden_db. Qed.

Lemma confirmed_hidden a e :
  Forall hidden (ack_texts a) -> record_hidden e -> record_hidden (confirmed_ack a e).
Proof.
  unfold ack_texts. rewrite !record_hidden_parts, !Forall_cons. intros (? & ? & _) (? & ? & ? & ?).
  split_and!; [done| | |].
  - intros a' [= <-]. by repeat constructor.
  - repeat constructor; simpl; auto with hidden_db.
  - intros a' [= <-]. by apply audit_shown.
Qed.

Lemma receipt_hidden s u note e : record_hidden e -> record_hidden (with_receipt s u note e).
Proof.
  rewrite !record_hidden_parts. intros (? & ? & ? & ?). split_and!; [done..| |].
  - repeat constructor; simpl; auto with hidden_db.
  - intros a [= <-]. by apply receipt_audit_shown.
Qed.

(** ** The outbox *)

Lemma update_hidden id f l :
  (forall e, record_hidden e -> record_hidden (f e)) -> Forall record_hidden l ->
  Forall record_hidden (update_event id f l).
Proof.
  intros Hf. induction 1 as [|e l He Hl IH]; simpl; [constructor|].
  destruct (String.eqb _ _); constructor; auto.
Qed.

Lemma step_hidden o o' : outbox_step o o' -> outbox_hidden o -> outbox_hidden o'.
Proof.
  unfold outbox_hidden. intros [te task|id r now|id status u note now] Ho.
  - unfold enqueue.
    destruct (negb (terminal_kind _)); [done|]. destruct (negb (isTerminalStatus _)); [done|].
    destruct (negb (bool_decide _)); [done|]. destruct (negb (String.eqb _ _)); [done|].
    destruct (find_event _ _); [done|]. case_bool_decide; [done|].
    pose proof (progress_shown _ (ox_succeededChildIds o) (payload_hidden task)) as Hp. simpl.
    destruct (applyRoundProgressMetadata _ _) as [p m]. simpl in *.
    apply Forall_forall. intros e [He|He]%trim_oldest_elem%elem_of_app.
    + revert e He. by apply Forall_forall.
    + apply list_elem_of_singleton in He as ->. by apply new_event_hidden, aliases_shown, title_shown.
  - unfold acknowledge. destruct (parse_evidence _) as [ev|]; simpl.
    + destruct (find_event id (ox_events o)) as [e|]; [|done]. destruct (ob_ack e); [done|]. simpl.
      apply update_hidden; [|done]. intros e'. apply confirmed_hidden, ack_state_hidden.
    + apply update_hidden; [|done]. intros e'. apply rejected_hidden.
  - unfold recordReceiptStatus. destruct (parse_receipt_status _); simpl; [|done].
    destruct (find_event id (ox_events o)) as [e|]; [|done]. simpl.
    apply update_hidden; [|done]. intros e'. apply receipt_hidden.
Qed.
End Payload.

Section Calls.
Context `{JsHost} `{JsUrl} `{BrokerConfig}.

(** Every request keeps the texts free of tokens. *)
Lemma call_hidden c b : outbox_hidden (br_sink b).2 -> outbox_hidden (br_sink (run_call c b).1).2.
Proof.
  pose (Q := fun o o' => outbox_hidden o -> outbox_hidden o').
  assert (Reflexive Q) by (intros o; unfold Q; auto). assert (Transitive Q) by (intros o1 o2 o3; unfold Q; auto).
  exact (outboxes_call Q step_hidden c b).
Qed.

Lemma steps_hidden b b' :
  rtc broker_step b b' -> outbox_hidden (br_sink b).2 -> outbox_hidden (br_sink b').2.
Proof. induction 1 as [|b1 b2 b3 (c & _ & <-) _ IH]; [done|]. intros Hb. by apply IH, call_hidden. Qed.
End Calls.
