(* ===== verification/OutboxFacts.v ===== *)
(** * Ids and restarts of the outbox

    The id of a terminal transition determines the transition, and a subscriber
    does not notice that the outbox was rebuilt from its snapshot. *)

From Stdlib Require Import ZArith Lia String Ascii.
From stdpp Require Import base gmap strings list pretty.
From S2P Require Import Prelude JsRuntime Types Policy Retention BrokerCore EventBuffer TaskEventStream Outbox.

(** ** Ids *)

Definition encoded_char (c : ascii) : list ascii :=
  if uri_unreserved c then [c]
  else let n := ascii_code c in ["%"%char; hex_digit (n / 16); hex_digit (n mod 16)].

Definition hex_value (c : ascii) : nat := let n := ascii_code c in if n <? 65 then n - 48 else n - 55.

(** The first character of an encoded text, and the rest. *)
Definition decoded (l : list ascii) : option (ascii * list ascii) :=
  match l with
  | "%"%char :: h :: k :: r => Some (Ascii.ascii_of_nat (16 * hex_value h + hex_value k), r)
  | c :: r => Some (c, r)
  | [] => None
  end.

Lemma decoded_encoded c l : decoded (encoded_char c ++ l) = Some (c, l).
Proof. destruct c as [[] [] [] [] [] [] [] []]; reflexivity. Qed.

Lemma encoded_char_no_colon c : ":"%char ∉ encoded_char c.
Proof. apply (bool_decide_unpack _). destruct c as [[] [] [] [] [] [] [] []]; vm_compute; exact I. Qed.

Lemma chars_encode s : chars (encodeURIComponent s) = flat_map encoded_char (chars s).
Proof. unfold encodeURIComponent. apply chars_unchars. Qed.

Lemma encode_no_colon s : ":"%char ∉ chars (encodeURIComponent s).
Proof.
  rewrite chars_encode. intros (c & _ & Hc)%list_elem_of_In%in_flat_map.
  by apply (encoded_char_no_colon c), list_elem_of_In.
Qed.

Lemma flat_encoded_inj l l' : flat_map encoded_char l = flat_map encoded_char l' -> l = l'.
Proof.
  revert l'. induction l as [|c l IH]; intros [|c' l']; simpl; intros Heq; [done| | |].
  - apply (f_equal decoded) in Heq. by rewrite decoded_encoded in Heq.
  - apply (f_equal decoded) in Heq. by rewrite decoded_encoded in Heq.
  - apply (f_equal decoded) in Heq. rewrite !decoded_encoded in Heq. injection Heq as -> Heq.
    f_equal. by apply IH.
Qed.

Lemma encode_inj s s' : encodeURIComponent s = encodeURIComponent s' -> s = s'.
Proof.
  intros Heq%(f_equal chars). rewrite !chars_encode in Heq. by apply chars_inj, flat_encoded_inj.
Qed.

Lemma status_no_colon st : ":"%char ∉ chars (TaskStatus_text st).
Proof. apply (bool_decide_unpack _). by destruct st. Qed.

Lemma status_text_inj st st' : TaskStatus_text st = TaskStatus_text st' -> st = st'.
Proof. by destruct st, st'. Qed.

Lemma chars_event_id id st at_ :
  chars (formatTerminalTaskEventId id st at_) =
  chars "terminal" ++ ":"%char :: chars (encodeURIComponent id) ++ ":"%char :: chars (TaskStatus_text st)
    ++ ":"%char :: chars (encodeURIComponent at_).
Proof. unfold formatTerminalTaskEventId. by rewrite !chars_app. Qed.

Lemma event_id_inj id st at_ id' st' at' :
  formatTerminalTaskEventId id st at_ = formatTerminalTaskEventId id' st' at' ->
  id = id' /\ st = st' /\ at_ = at'.
Proof.
  intros Heq%(f_equal chars). rewrite !chars_event_id in Heq.
  apply app_inv_head in Heq. injection Heq as Heq.
  apply split_at_sep in Heq as [Hid Heq]; [|apply encode_no_colon..].
  apply split_at_sep in Heq as [Hst Hat]; [|apply status_no_colon..].
  split_and!; [by apply encode_inj, chars_inj|by apply status_text_inj, chars_inj|by apply encode_inj, chars_inj].
Qed.

(** ** Restarts *)

Section Restarts.
Context `{OutboxText}.

Lemma restored_id e : ob_id (restored_event e) = ob_id e.
Proof. done. Qed.

Lemma restored_confirmed e : isReceiptConfirmed (restored_event e) = isReceiptConfirmed e.
Proof.
  unfold isReceiptConfirmed, restored_event, migrated_ack. simpl.
  destruct (ob_ack e) as [a|]; [done|]. unfold ostr_truthy, truthy_opt.
  destruct (ob_deliveredAt e) as [d|]; [|done]. simpl. by destruct (str_truthy d).
Qed.

Lemma trim_oldest_short {A} max (l : list A) : (Z.of_nat (length l) <= max)%Z -> trim_oldest max l = l.
Proof. intros Hl. unfold trim_oldest. destruct (Z.ltb_spec max (Z.of_nat (length l))); [lia|done]. Qed.

Lemma restore_fold l o :
  NoDup (ox_seenOrder o ++ map ob_id l) ->
  (Z.of_nat (length (ox_seenOrder o) + length l) <= 2 * ox_maxEvents o)%Z ->
  foldl restore o l = o <| ox_events ::= fun k => k ++ map restored_event l |>
                        <| ox_seenOrder ::= fun k => k ++ map ob_id l |>.
Proof.
  revert o. induction l as [|e l IH]; intros o Hnd Hlen.
  - simpl. destruct o; unfold update; simpl. by rewrite !app_nil_r.
  - assert (restore o e = o <| ox_events ::= fun k => k ++ [restored_event e] |>
      <| ox_seenOrder ::= fun k => k ++ [ob_id e] |>) as Hstep.
    { unfold restore. rewrite bool_decide_false.
      - unfold markSeen, update. simpl in *. rewrite trim_oldest_short; [by destruct o|].
        rewrite length_app. simpl. lia.
      - apply NoDup_app in Hnd as (_ & Hd & _). intros Hin. apply (Hd _ Hin). simpl. set_solver. }
    cbn [foldl]. rewrite Hstep, IH.
    + destruct o; unfold update; simpl. by rewrite <- !app_assoc.
    + simpl. rewrite <- app_assoc. exact Hnd.
    + simpl. rewrite length_app. simpl in *. lia.
Qed.

(** The outbox of a restarted broker. *)
Definition restarted_outbox (o : TerminalTaskEventOutbox) : TerminalTaskEventOutbox :=
  restoreSnapshot (ox_events o) (new_outbox (Some (ox_maxEvents o))).

Lemma restart_events o : outbox_ok o -> ox_events (restarted_outbox o) = map restored_event (ox_events o).
Proof.
  intros Hok. unfold restarted_outbox, restoreSnapshot.
  assert (ox_maxEvents (new_outbox (Some (ox_maxEvents o))) = ox_maxEvents o) as Hmax.
  { unfold new_outbox. simpl. pose proof (oo_max o Hok). destruct (Z.ltb_spec 0 (ox_maxEvents o)); [done|lia]. }
  pose proof (oo_bound o Hok). pose proof (oo_max o Hok).
  rewrite restore_fold; [|apply (oo_ids o Hok)|rewrite Hmax; simpl; lia].
  unfold enforceRetention, rebuildSucceededChildren, update.
  cbn [ox_events ox_maxEvents]. rewrite trim_oldest_short; [done|].
  rewrite length_app, length_map, Hmax. simpl. lia.
Qed.

Lemma index_of_map f id l :
  (forall e, ob_id (f e) = ob_id e) -> index_of id (map f l) = index_of id l.
Proof.
  intros Hf. induction l as [|e l IH]; simpl; [done|]. rewrite Hf. destruct (String.eqb _ _); [done|]. by rewrite IH.
Qed.

Lemma applyLimit_map f l limit : applyLimit (map f l) limit = map f (applyLimit l limit).
Proof.
  unfold applyLimit. destruct limit as [n|]; [|done]. destruct (0 <=? n)%Z; [|done].
  apply firstn_map.
Qed.

Lemma filter_map_same {A} (f : A -> A) p q l :
  (forall e, p (f e) = q e) -> List.filter p (map f l) = map f (List.filter q l).
Proof.
  intros Hf. induction l as [|e l IH]; [done|]. cbn [map List.filter]. rewrite Hf.
  destruct (q e); simpl; by rewrite IH.
Qed.

Lemma nextCursor_map f afterId i l o o' :
  (forall e, ob_id (f e) = ob_id e) -> ox_events o' = map f (ox_events o) ->
  nextCursor afterId i (map f l) o' = nextCursor afterId i l o.
Proof.
  intros Hf Ho. unfold nextCursor. rewrite Ho.
  assert (ob_id <$> last (map f l) = ob_id <$> last l) as ->.
  { rewrite fmap_last. destruct (last l) as [e|]; simpl; [by rewrite Hf|done]. }
  assert (omap (fun e => index_of (ob_id e) (map f (ox_events o))) (map f l)
    = omap (fun e => index_of (ob_id e) (ox_events o)) l) as ->.
  { induction l as [|e l IH]; [done|]. cbn [map omap list_omap]. rewrite Hf, (index_of_map f) by done.
    by destruct (index_of _ _); rewrite IH. }
  destruct (truthy_opt afterId), i; try done. destruct (last _) as [j|]; [|done].
  rewrite list_lookup_fmap. destruct (ox_events o !! j); simpl; [by rewrite Hf|done].
Qed.

Lemma restart_subscribe afterId limit o :
  outbox_ok o ->
  subscribeWithCursor afterId limit (restarted_outbox o) =
  let s := subscribeWithCursor afterId limit o in
  mkSubscribeResult (map restored_event (sr_events s)) (sr_cursor s) (sr_reconciledUnacked s).
Proof.
  intros Hok%restart_events. unfold subscribeWithCursor.
  assert (indexOfId afterId (restarted_outbox o) = indexOfId afterId o) as ->.
  { unfold indexOfId. destruct (truthy_opt afterId); [|done]. rewrite Hok. by apply index_of_map. }
  set (i := indexOfId afterId o). cbv zeta. cbn [sr_events sr_cursor sr_reconciledUnacked].
  match goal with |- mkSubscribeResult ?new _ _ = mkSubscribeResult (map _ ?old) _ _ =>
    assert (new = map restored_event old) as -> end.
  { rewrite <- applyLimit_map, map_app. f_equal. destruct i as [n|]; rewrite Hok; [|done].
    rewrite firstn_map, skipn_map. f_equal. apply filter_map_same. intros e. by rewrite restored_confirmed. }
  f_equal; [by apply nextCursor_map|].
  match goal with |- length ?l = length (List.filter ?q ?k) =>
    rewrite (filter_map_same restored_event _ q); [apply length_map|] end.
  intros e. cbv beta. rewrite Hok, (index_of_map restored_event) by done. by rewrite restored_confirmed.
Qed.
End Restarts.
