(* ===== verification/Durability.v ===== *)
(** * What reaches the store

    [persistState] hands the store either the whole snapshot or the records
    changed since the last save.  The content of the store is [saved], the fold of
    the calls it received; shown here, for eight tables of records: a live record
    is either pending or saved as it is, so that after [persistState] the store
    holds every live record.  (Exchanges are mutated in place before they are
    marked as pending, and are left out.) *)

From Stdlib Require Import ZArith Lia String.
From stdpp Require Import base gmap strings list pretty relations.
From S2P Require Import Prelude JsRuntime Types Policy Retention BrokerCore CoreFacts Workers.
From S2P Require Import Proposals Github TerminalBrief Tasks TaskFacts Exchanges System Walk.

(** ** Tables *)

Inductive table : Type :=
| TabMessages | TabProposals | TabArtifacts | TabValidations
| TabAuditEvents | TabWorkers | TabTasks | TabTombstones.

Definition row (k : table) : Type :=
  match k with
  | TabMessages => A2AExchangeMessageRecord
  | TabProposals => ChangeProposal
  | TabArtifacts => ArtifactRecord
  | TabValidations => ValidationResult
  | TabAuditEvents => AuditEvent
  | TabWorkers => WorkerRecord
  | TabTasks => TaskRecord
  | TabTombstones => TaskTombstone
  end.

Definition row_id (k : table) : row k -> string :=
  match k with
  | TabMessages => msg_id
  | TabProposals => pr_id
  | TabArtifacts => art_id
  | TabValidations => val_id
  | TabAuditEvents => aud_id
  | TabWorkers => wr_nodeId
  | TabTasks => task_id
  | TabTombstones => tb_taskId
  end.

Section Durability.
Context `{JsHost} `{TaskEventSink} `{BrokerConfig}.

Definition live (k : table) (b : Broker) : jsmap (row k) :=
  match k with
  | TabMessages => br_exchangeMessages b
  | TabProposals => br_proposals b
  | TabArtifacts => br_artifacts b
  | TabValidations => br_validations b
  | TabAuditEvents => br_auditEvents b
  | TabWorkers => br_workers b
  | TabTasks => br_tasks b
  | TabTombstones => br_tombstones b
  end.

Definition pending (k : table) (p : PendingHot) : jsmap (row k) :=
  match k with
  | TabMessages => ph_exchangeMessages p
  | TabProposals => ph_proposals p
  | TabArtifacts => ph_artifacts p
  | TabValidations => ph_validations p
  | TabAuditEvents => ph_auditEvents p
  | TabWorkers => ph_workers p
  | TabTasks => ph_tasks p
  | TabTombstones => ph_tombstones p
  end.

Definition snapshot_rows (k : table) (s : BrokerSnapshot) : list (row k) :=
  match k with
  | TabMessages => sn_exchangeMessages s
  | TabProposals => sn_proposals s
  | TabArtifacts => sn_artifacts s
  | TabValidations => sn_validations s
  | TabAuditEvents => sn_auditEvents s
  | TabWorkers => sn_workers s
  | TabTasks => sn_tasks s
  | TabTombstones => sn_tombstones s
  end.

(** The row a store holds under an id: a snapshot replaces the table, a hot save
    writes its rows over it. *)
Definition save_row (k : table) (id : string) (old : option (row k)) (c : StoreCall) : option (row k) :=
  match c with
  | SaveFull s _ => List.find (fun r => String.eqb (row_id k r) id) (snapshot_rows k s)
  | SaveHot p => jm_get id (pending k p) ??o old
  end.
Definition saved (k : table) (calls : list StoreCall) (id : string) : option (row k) :=
  fold_left (save_row k id) calls None.

Lemma saved_snoc k calls c id : saved k (calls ++ [c]) id = save_row k id (saved k calls id) c.
Proof. unfold saved. by rewrite fold_left_app. Qed.

(** What a store may rely on: the rows of a snapshot have distinct ids; hints are
    keyed by the rows' ids, and a row of the snapshot without hint was saved before
    as it is. *)
Definition call_hinted (pre : list StoreCall) (c : StoreCall) : Prop :=
  match c with
  | SaveHot p => forall k, keyed (row_id k) (pending k p)
  | SaveFull s hints => forall k,
      NoDup (map (row_id k) (snapshot_rows k s))
      /\ match hints with
         | None => True
         | Some p =>
             keyed (row_id k) (pending k p)
             /\ forall id r, List.find (fun r => String.eqb (row_id k r) id) (snapshot_rows k s) = Some r ->
                  jm_get id (pending k p) = Some r
                  \/ (jm_get id (pending k p) = None /\ saved k pre id = Some r)
         end
  end.

Fixpoint hinted_from (pre calls : list StoreCall) : Prop :=
  match calls with
  | [] => True
  | c :: calls => call_hinted pre c /\ hinted_from (pre ++ [c]) calls
  end.

Lemma hinted_from_snoc calls c : forall pre,
  hinted_from pre calls -> call_hinted (pre ++ calls) c -> hinted_from pre (calls ++ [c]).
Proof.
  induction calls as [|c' calls IH]; intros pre; simpl.
  - by rewrite app_nil_r.
  - intros [Hc Hs] Hlast. split; [done|]. apply IH; [done|]. by rewrite <- app_assoc.
Qed.

(** The live row is pending, or saved as it is; and the calls were hinted. *)
Definition durable (b : Broker) : Prop :=
  (forall k,
     keyed (row_id k) (live k b)
     /\ keyed (row_id k) (pending k (br_pending b))
     /\ forall id r, jm_get id (live k b) = Some r ->
          jm_get id (pending k (br_pending b)) = Some r
          \/ (jm_get id (pending k (br_pending b)) = None /\ saved k (br_storeCalls b) id = Some r))
  /\ hinted_from [] (br_storeCalls b).

Definition durable_kept (b b' : Broker) : Prop := durable b -> durable b'.
#[export] Instance durable_kept_refl : Reflexive durable_kept.
Proof. intros b Hb. exact Hb. Qed.
#[export] Instance durable_kept_trans : Transitive durable_kept.
Proof. unfold durable_kept. intros b1 b2 b3. auto. Qed.

(** ** Steps that do not touch the tables *)

Definition same_tables (b b' : Broker) : Prop := forall k,
  live k b' = live k b /\ pending k (br_pending b') = pending k (br_pending b)
  /\ br_storeCalls b' = br_storeCalls b.

Lemma same_tables_kept b b' : same_tables b b' -> durable_kept b b'.
Proof.
  intros Hs [Hd Hc]. split; [|by destruct (Hs TabTasks) as (_ & _ & ->)].
  intros k. destruct (Hs k) as (-> & -> & ->). apply Hd.
Qed.

Lemma untabled {A} (m : BM A) : preserves same_tables m -> preserves durable_kept m.
Proof. apply preserves_mono, same_tables_kept. Qed.

(** ** Writing a row *)

(** [b'] is [b] with the row [r] written to the table [k] and its pending map. *)
Definition wrote (k : table) (r : row k) (b b' : Broker) : Prop :=
  live k b' = jm_set (row_id k r) r (live k b)
  /\ pending k (br_pending b') = jm_set (row_id k r) r (pending k (br_pending b))
  /\ br_storeCalls b' = br_storeCalls b
  /\ forall k', k' <> k -> live k' b' = live k' b
       /\ pending k' (br_pending b') = pending k' (br_pending b).

#[export] Instance table_eq_dec : EqDecision table.
Proof. solve_decision. Defined.

Lemma wrote_kept k r b b' : wrote k r b b' -> durable_kept b b'.
Proof.
  intros (Hl & Hp & Hc & Ho) [Hd Hcalls]. split; [|by rewrite Hc].
  intros k'. destruct (decide (k' = k)) as [->|Hne].
  - rewrite Hl, Hp, Hc. destruct (Hd k) as (Hk & Hkp & Hrows). split_and!; [by apply keyed_set..|].
    intros id r'. rewrite !jm_get_set. destruct (String.eqb_spec id (row_id k r)) as [->|].
    + intros [= <-]. by left.
    + apply Hrows.
  - destruct (Ho k' Hne) as [-> ->]. rewrite Hc. apply Hd.
Qed.

Lemma wrote_modify k r f :
  (forall b, wrote k r b (f b)) -> preserves (E:=BrokerError) durable_kept (m_modify f).
Proof. intros Hf. apply preserves_modify. intros b. apply (wrote_kept k r), Hf. Qed.

(** ** Saving *)

Lemma pending_hint k p : hasPendingStateSaveHints p = false -> pending k p = [].
Proof.
  unfold hasPendingStateSaveHints, nonempty. rewrite !orb_false_iff, !negb_false_iff, !Nat.eqb_eq.
  intros Hp. destruct_and? Hp. destruct k; simpl; by apply length_zero_iff_nil.
Qed.

Lemma pending_none k : pending k no_pending = [].
Proof. by destruct k. Qed.

Lemma snapshot_rows_live k b : snapshot_rows k (exportSnapshot b) = jm_values (live k b).
Proof. by destruct k. Qed.

Lemma prune_live k r b : exists p, live k (prune r b) = jm_filter p (live k b).
Proof.
  assert (forall V (m : jsmap V), m = jm_filter (fun _ => true) m) as Htrue.
  { intros V m. unfold jm_filter. symmetry. by induction m as [|[? ?] m IH]; simpl; [|f_equal]. }
  destruct k; simpl; unfold pruneMapEntries; eauto.
Qed.

Lemma durable_prune r b : durable b -> durable (prune r b).
Proof.
  intros [Hd Hcalls]. split; [|done]. intros k. destruct (prune_live k r b) as [p ->].
  destruct (Hd k) as (Hk & Hkp & Hrows). split_and!; [by apply keyed_filter|done|]. intros id x. rewrite jm_get_filter.
  destruct (p id); [|done]. apply Hrows.
Qed.

(** Nothing is pending and every live row is saved. *)
Definition flushed (b : Broker) : Prop := forall k,
  pending k (br_pending b) = []
  /\ forall id r, jm_get id (live k b) = Some r -> saved k (br_storeCalls b) id = Some r.

Context (Hstore : has_store = true).

Lemma durable_tick b : durable b -> durable (tick b).
Proof. apply same_tables_kept. intros k. by destruct k. Qed.

Lemma same_tables_stamp ms b : same_tables b (b <| br_lastFullRetentionPersistAtMs := ms |>).
Proof. intros k. by destruct k. Qed.

(** Keep the conversion checker out of the retention policy. *)
#[local] Opaque retainedIds prune.

(** A keyed pending map keeps the entries whose id is among the rows. *)
Lemma still_in_keyed {V} (id : V -> string) l m :
  keyed id m -> still_in id l m = jm_filter (in_set (ids_of (map id l))) m.
Proof.
  intros Hk. unfold still_in, jm_filter. apply filter_ext_in. intros [k v] Hin. simpl.
  by rewrite (proj2 Hk k v (jm_elem_get k v m (proj1 Hk) (proj2 (list_elem_of_In _ _) Hin))).
Qed.

(** What a save is called with, and the state it leaves. *)
Lemma save_run b : exists hints b2,
  (snapshot <-- m_gets exportSnapshot; hints <-- consumeStateSaveHints snapshot;
   m_when has_store (store_call (SaveFull snapshot hints));;; emitStateChange;;; now_ms;;; m_ret tt) b
    = (b2, Ok tt)
  /\ (forall k, live k b2 = live k b) /\ (forall k, pending k (br_pending b2) = [])
  /\ br_storeCalls b2 = br_storeCalls b ++ [SaveFull (exportSnapshot b) hints]
  /\ (durable b -> forall p, hints = Some p -> forall k,
       pending k p = jm_filter (in_set (ids_of (map (row_id k) (jm_values (live k b))))) (pending k (br_pending b))).
Proof.
  unfold consumeStateSaveHints, clearPendingStateSaveHints, store_call, emitStateChange, m_when.
  rewrite Hstore. unfold m_bind, m_modify, m_gets, m_ret, now_ms.
  destruct (hasPendingStateSaveHints (br_pending b)) eqn:Hh; simpl; eexists _, _; (split; [reflexivity|]);
    (split_and!; [by intros []| |reflexivity|]).
  - by intros [].
  - intros [Hd _] p [= <-] k.
    destruct (Hd k) as (_ & Hk & _). rewrite <- still_in_keyed by done. by destruct k.
  - intros k. pose proof (pending_hint k _ Hh) as Hk. by destruct k.
  - done.
Qed.

(** The call is hinted. *)
Lemma save_hinted b hints :
  durable b ->
  (forall p, hints = Some p -> forall k,
    pending k p = jm_filter (in_set (ids_of (map (row_id k) (jm_values (live k b))))) (pending k (br_pending b))) ->
  call_hinted (br_storeCalls b) (SaveFull (exportSnapshot b) hints).
Proof.
  intros [Hd _] Hp k. destruct (Hd k) as (Hk & Hkp & Hrows).
  rewrite snapshot_rows_live. split; [by apply keyed_ids_NoDup|].
  destruct hints as [p|]; [|done]. rewrite (Hp p eq_refl k). split; [by apply keyed_filter|]. intros id r.
  rewrite keyed_find by done. intros Hr. rewrite jm_get_filter.
  assert (in_set (ids_of (map (row_id k) (jm_values (live k b)))) id = true) as ->; [|by apply Hrows].
  apply in_set_true, elem_of_ids_of. rewrite <- (proj2 Hk id r Hr). apply list_elem_of_fmap. exists r.
  split; [done|]. apply (keyed_value (row_id k)); [done|]. by rewrite (proj2 Hk id r Hr).
Qed.

Lemma applyRetentionPolicy_run b : exists r, applyRetentionPolicy b = (prune r (tick b), Ok tt).
Proof.
  exists (retainedIds cfg_retention (host_clock (br_ticks b)) (retention_view (tick b))). reflexivity.
Qed.

Lemma persist_full_flushes ms b :
  durable b -> durable (persist_full ms b).1 /\ flushed (persist_full ms b).1.
Proof.
  intros Hd. destruct (applyRetentionPolicy_run b) as [r Hr]. unfold persist_full.
  rewrite (bind_ok _ _ _ _ _ Hr).
  assert (durable (prune r (tick b))) as Hd0 by by apply durable_prune, durable_tick.
  clear Hd Hr. revert Hd0. generalize (prune r (tick b)). clear b r. intros b Hd.
  assert (durable (b <| br_lastFullRetentionPersistAtMs := ms |>)) as Hd1
    by (revert Hd; apply same_tables_kept, same_tables_stamp).
  rewrite bind_modify. revert Hd1. generalize (b <| br_lastFullRetentionPersistAtMs := ms |>). clear b Hd. intros b Hd1.
  destruct (save_run b) as (hints & b2 & Hrun & Hl & Hp & Hc & Hhints). rewrite Hrun. simpl.
  assert (flushed b2) as Hf.
  { intros k. split; [apply Hp|]. intros id x. rewrite Hl, Hc, saved_snoc. simpl.
    rewrite snapshot_rows_live, keyed_find by apply Hd1. done. }
  split; [|done]. split.
  - intros k. destruct (Hf k) as [Hpk Hrows]. split_and!; [rewrite Hl; apply Hd1|rewrite Hpk; apply keyed_nil|].
    intros id x Hx. right. rewrite Hpk. split; [done|by apply Hrows].
  - rewrite Hc. apply hinted_from_snoc; [apply Hd1|]. apply save_hinted; [done|]. by apply Hhints.
Qed.

#[local] Opaque persist_full.

(** A hot save. *)
Definition hot_saved (b : Broker) : Broker := tick ((tick b)
  <| br_pending := no_pending |>
  <| br_storeCalls ::= fun l => l ++ [SaveHot (br_pending b)] |>
  <| br_stateNotifications ::= S |>).

Lemma persistState_run b :
  persistState b
  = if has_hot_store && hasPendingStateSaveHints (br_pending b)
       && (host_clock (br_ticks b) - br_lastFullRetentionPersistAtMs b
           <? HOT_PERSIST_FULL_RETENTION_INTERVAL_MS)%Z
    then (hot_saved b, Ok tt) else persist_full (host_clock (br_ticks b)) (tick b).
Proof.
  unfold persistState, m_bind at 1, now_ms. fold (tick b). unfold m_bind at 1, m_get.
  change (br_pending (tick b)) with (br_pending b).
  change (br_lastFullRetentionPersistAtMs (tick b)) with (br_lastFullRetentionPersistAtMs b).
  destruct has_hot_store; [|done].
  destruct (hasPendingStateSaveHints (br_pending b)) eqn:Hh; [|done]. simpl.
  destruct (_ <? _)%Z; [|done].
  unfold consumeStateSaveHintsWithoutSnapshot, m_bind, m_gets.
  change (br_pending (tick b)) with (br_pending b). by rewrite Hh.
Qed.

Lemma hot_saved_flushes b : durable b -> durable (hot_saved b) /\ flushed (hot_saved b).
Proof.
  intros Hd. assert (forall k, live k (hot_saved b) = live k b) as Hl by by intros [].
  assert (br_storeCalls (hot_saved b) = br_storeCalls b ++ [SaveHot (br_pending b)]) as Hc by done.
  assert (br_pending (hot_saved b) = no_pending) as Hp by done.
  assert (flushed (hot_saved b)) as Hf.
  { intros k. rewrite Hp, pending_none. split; [done|]. intros id r. rewrite Hl, Hc, saved_snoc. simpl.
    intros Hr. destruct (proj1 Hd k) as (_ & _ & Hrows). destruct (Hrows id r Hr) as [->|[-> ->]]; done. }
  split; [|done]. split.
  - intros k. destruct (Hf k) as [Hpk Hrows].
    split_and!; [rewrite Hl; apply Hd|rewrite Hpk; apply keyed_nil|].
    intros id r Hr. right. rewrite Hpk. split; [done|by apply Hrows].
  - rewrite Hc. apply hinted_from_snoc; [apply Hd|]. intros k. apply Hd.
Qed.

Lemma persistState_flushes b :
  durable b -> durable (persistState b).1 /\ flushed (persistState b).1.
Proof.
  intros Hd. rewrite persistState_run. destruct (_ && _); [by apply hot_saved_flushes|].
  by apply persist_full_flushes, durable_tick.
Qed.

(** ** Every request *)

Lemma durable_append i : preserves durable_kept (appendAuditEvent i).
Proof.
  reveal appendAuditEvent. unfold isoNow.
  preserves_auto; try (apply untabled; intros b k; by destruct k).
  - apply (wrote_modify TabAuditEvents (mkAuditEvent a (ai_actorId i) (ai_action i) (ai_targetType i)
      (ai_targetId i) (ai_proposalId i) (ai_note i) a0)).
    intros b. split_and!; try done. by intros [].
  - apply untabled. unfold push_to_sink. apply preserves_modify. intros b k.
    destruct k; repeat case_match; done.
Qed.

Lemma durable_emit t r : preserves durable_kept (emitTaskUpdate t r).
Proof.
  apply untabled. unfold emitTaskUpdate, m_bind at 1, m_get. intros b k. cbv zeta.
  destruct (_ && _); [by destruct k|]. by destruct k.
Qed.
Hint Resolve durable_append : preserves_db.

Lemma durable_tombstone t r c : preserves durable_kept (writeTombstone t r c).
Proof.
  reveal writeTombstone. unfold audit_task, isoNow.
  preserves_auto; try (apply untabled; intros b k; by destruct k).
  match goal with |- context [mkTaskTombstone ?a1 ?a2 ?a3 ?a4 ?a5 ?a6 ?a7 ?a8 ?a9] =>
    apply (wrote_modify TabTombstones (mkTaskTombstone a1 a2 a3 a4 a5 a6 a7 a8 a9)) end.
  intros b. split_and!; try done. by intros [].
Qed.

Lemma durable_setExchange r : preserves durable_kept (setExchangeRecord r).
Proof.
  apply untabled. intros b k. unfold setExchangeRecord, deref_exchange, m_bind.
  destruct (_ !! r); by destruct k.
Qed.

Lemma durable_update_sink u now : preserves durable_kept (update_sink u now).
Proof. apply untabled. intros b k. by destruct k. Qed.
Lemma durable_pend_sink e : preserves durable_kept (pend_sink_event e).
Proof. apply untabled. intros b k. by destruct k. Qed.

Lemma durable_persist : preserves durable_kept persistState.
Proof. intros b Hd. by apply persistState_flushes. Qed.

Lemma durable_call c : preserves durable_kept (run_call c).
Proof.
  apply walk_call; try apply _; intros;
    first [apply durable_persist | apply durable_append | apply durable_tombstone | apply durable_emit
          | apply durable_setExchange | apply durable_update_sink | apply durable_pend_sink
          | apply untabled; intros b k; by destruct k
          | idtac].
  - apply (wrote_modify TabMessages m). intros b. split_and!; try done. by intros [].
  - apply (wrote_modify TabProposals p). intros b. split_and!; try done. by intros [].
  - apply (wrote_modify TabArtifacts a). intros b. split_and!; try done. by intros [].
  - apply (wrote_modify TabValidations v). intros b. split_and!; try done. by intros [].
  - apply (wrote_modify TabWorkers (normalizeWorkerRecord w)). intros b. split_and!; try done. by intros [].
  - apply (wrote_modify TabTasks t). intros b. split_and!; try done. by intros [].
Qed.

Lemma durable_new s ms : durable (new_broker s ms).
Proof. split; [|done]. intros k. split_and!; [destruct k; apply keyed_nil..|by destruct k]. Qed.

Lemma reachable_durable b : reachable b -> durable b.
Proof.
  apply reachable_invariant; [apply durable_new|]. intros c b1. apply durable_call.
Qed.
End Durability.
