(* ===== verification/HotTables.v ===== *)
(** * The hot tables of the SQLite store (src/core/store.ts)

    The database of [SqliteBrokerStateStore]: ten tables with a row per record,
    the metadata table and the row of the canonical snapshot.  A row has the
    columns the code writes and the JSON text of its record; the statements the
    code uses (upsert, select with order and limit, delete by key, count) are
    operations on the rows.  Text compares byte by byte, as SQLite does.

    JSON text with the schema that reads it back is the class [RecordJson]: the
    store never looks into a text, and the schemas are a library's. *)

From Stdlib Require Import ZArith Lia String.
From stdpp Require Import base gmap strings list.
From S2P Require Import Prelude JsRuntime Types Retention BrokerCore EventBuffer TaskEventStream Outbox.

(** ** Tables and their records *)

Inductive SqliteHotEntityTable : Type :=
| BrokerExchanges | BrokerExchangeMessages | BrokerProposals | BrokerArtifacts
| BrokerValidations | BrokerTasks | BrokerTombstones | BrokerWorkers
| BrokerAuditEvents | BrokerTerminalOutbox.
#[export] Instance SqliteHotEntityTable_eq_dec : EqDecision SqliteHotEntityTable.
Proof. solve_decision. Defined.

Definition SQLITE_HOT_ENTITY_TABLES : list SqliteHotEntityTable :=
  [BrokerExchanges; BrokerExchangeMessages; BrokerProposals; BrokerArtifacts; BrokerValidations;
   BrokerTasks; BrokerTombstones; BrokerWorkers; BrokerAuditEvents; BrokerTerminalOutbox].

Definition SQLITE_HOT_ENTITY_HINT_TABLES : list SqliteHotEntityTable := SQLITE_HOT_ENTITY_TABLES.

Definition hot_record (k : SqliteHotEntityTable) : Type :=
  match k with
  | BrokerExchanges => A2AExchangeState
  | BrokerExchangeMessages => A2AExchangeMessageRecord
  | BrokerProposals => ChangeProposal
  | BrokerArtifacts => ArtifactRecord
  | BrokerValidations => ValidationResult
  | BrokerTasks => TaskRecord
  | BrokerTombstones => TaskTombstone
  | BrokerWorkers => WorkerRecord
  | BrokerAuditEvents => AuditEvent
  | BrokerTerminalOutbox => TerminalTaskOutboxEvent
  end.

(** The value of the primary key. *)
Definition hot_id (k : SqliteHotEntityTable) : hot_record k -> string :=
  match k with
  | BrokerExchanges => ex_id
  | BrokerExchangeMessages => msg_id
  | BrokerProposals => pr_id
  | BrokerArtifacts => art_id
  | BrokerValidations => val_id
  | BrokerTasks => task_id
  | BrokerTombstones => tb_taskId
  | BrokerWorkers => wr_nodeId
  | BrokerAuditEvents => aud_id
  | BrokerTerminalOutbox => ob_id
  end.

Definition hotRetentionPrimaryKeyColumn (k : SqliteHotEntityTable) : string :=
  match k with
  | BrokerWorkers => "node_id"
  | BrokerTombstones => "task_id"
  | _ => "id"
  end.

Definition table_name (k : SqliteHotEntityTable) : string :=
  match k with
  | BrokerExchanges => "broker_exchanges"
  | BrokerExchangeMessages => "broker_exchange_messages"
  | BrokerProposals => "broker_proposals"
  | BrokerArtifacts => "broker_artifacts"
  | BrokerValidations => "broker_validations"
  | BrokerTasks => "broker_tasks"
  | BrokerTombstones => "broker_tombstones"
  | BrokerWorkers => "broker_workers"
  | BrokerAuditEvents => "broker_audit_events"
  | BrokerTerminalOutbox => "broker_terminal_outbox"
  end.

(** ** Rows *)

Inductive SqlValue : Type := SqlNull | SqlInteger (z : Z) | SqlText (s : string).
#[export] Instance SqlValue_eq_dec : EqDecision SqlValue.
Proof. solve_decision. Defined.

Definition sql_nullable (o : option string) : SqlValue :=
  match o with Some s => SqlText s | None => SqlNull end.

(** The columns each upsert writes, in the order of its column list; the payload
    column is kept apart. *)
Definition task_columns (task : TaskRecord) : jsmap SqlValue :=
  [("id", SqlText (task_id task)); ("status", SqlText (TaskStatus_text (task_status task)));
   ("intent", SqlText (A2AExchangeIntent_text (task_intent task)));
   ("target_node_id", SqlText (task_targetNodeId task));
   ("assigned_worker_id", sql_nullable (task_assignedWorkerId task));
   ("task_origin", SqlText (TaskOrigin_text (task_taskOrigin task ?? OriginUnknown)));
   ("updated_at", SqlText (task_updatedAt task))].

Definition exchange_columns (exchange : A2AExchangeState) : jsmap SqlValue :=
  [("id", SqlText (ex_id exchange)); ("status", SqlText (A2AExchangeStatus_text (ex_status exchange)));
   ("intent", SqlText (A2AExchangeIntent_text (ex_intent exchange)));
   ("target_node_id", SqlText (ex_targetNodeId exchange));
   ("assigned_worker_id", sql_nullable (ex_assignedWorkerId exchange));
   ("created_at", SqlText (ex_createdAt exchange)); ("updated_at", SqlText (ex_updatedAt exchange))].

Definition message_columns (message : A2AExchangeMessageRecord) : jsmap SqlValue :=
  [("id", SqlText (msg_id message)); ("exchange_id", SqlText (msg_exchangeId message));
   ("kind", SqlText (A2AExchangeMessageKind_text (msg_kind message)));
   ("parent_message_id", sql_nullable (msg_parentMessageId message));
   ("created_at", SqlText (msg_createdAt message)); ("updated_at", SqlText (msg_updatedAt message))].

Definition proposal_columns (proposal : ChangeProposal) : jsmap SqlValue :=
  [("id", SqlText (pr_id proposal)); ("status", SqlText (ProposalStatus_text (pr_status proposal)));
   ("kind", SqlText (ProposalKind_text (pr_kind proposal)));
   ("source_node_id", SqlText (pr_sourceNodeId proposal));
   ("target_node_id", SqlText (pr_targetNodeId proposal));
   ("created_at", SqlText (pr_createdAt proposal)); ("updated_at", SqlText (pr_updatedAt proposal))].

Definition artifact_columns (artifact : ArtifactRecord) : jsmap SqlValue :=
  [("id", SqlText (art_id artifact)); ("proposal_id", SqlText (art_proposalId artifact));
   ("kind", SqlText (art_kind artifact)); ("created_at", SqlText (art_createdAt artifact))].

Definition validation_columns (validation : ValidationResult) : jsmap SqlValue :=
  [("id", SqlText (val_id validation)); ("proposal_id", SqlText (val_proposalId validation));
   ("node_id", SqlText (val_nodeId validation)); ("kind", SqlText (ValidationKind_text (val_kind validation)));
   ("verdict", SqlText (ValidationVerdict_text (val_verdict validation)));
   ("created_at", SqlText (val_createdAt validation))].

Definition audit_columns (audit : AuditEvent) : jsmap SqlValue :=
  [("id", SqlText (aud_id audit)); ("action", SqlText (AuditAction_text (aud_action audit)));
   ("target_type", SqlText (AuditTargetType_text (aud_targetType audit)));
   ("target_id", SqlText (aud_targetId audit)); ("created_at", SqlText (aud_createdAt audit))].

Definition worker_columns (worker : WorkerRecord) : jsmap SqlValue :=
  [("node_id", SqlText (wr_nodeId worker)); ("role", SqlText (A2APartyRole_text (wr_role worker)));
   ("last_seen_at", SqlText (wr_lastSeenAt worker)); ("updated_at", SqlText (wr_updatedAt worker))].

Definition outbox_columns (event : TerminalTaskOutboxEvent) : jsmap SqlValue :=
  [("id", SqlText (ob_id event)); ("task_event_id", SqlInteger (ob_taskEventId event));
   ("acknowledged_at", sql_nullable ((ak_acknowledgedAt <$> ob_ack event) ??o ob_deliveredAt event));
   ("created_at", SqlText (ob_createdAt event))].

Definition tombstone_columns (tombstone : TaskTombstone) : jsmap SqlValue :=
  [("task_id", SqlText (tb_taskId tombstone));
   ("terminal_status", SqlText (TaskStatus_text (tb_terminalStatus tombstone)));
   ("tombstone_reason", SqlText (TombstoneReason_text (tb_tombstoneReason tombstone)));
   ("tombstoned_at", SqlText (tb_tombstonedAt tombstone))].

Definition hot_columns (k : SqliteHotEntityTable) : hot_record k -> jsmap SqlValue :=
  match k with
  | BrokerExchanges => exchange_columns
  | BrokerExchangeMessages => message_columns
  | BrokerProposals => proposal_columns
  | BrokerArtifacts => artifact_columns
  | BrokerValidations => validation_columns
  | BrokerTasks => task_columns
  | BrokerTombstones => tombstone_columns
  | BrokerWorkers => worker_columns
  | BrokerAuditEvents => audit_columns
  | BrokerTerminalOutbox => outbox_columns
  end.

(** ** The database *)

(** [JSON.stringify] of a record, and [JSON.parse] followed by the schema of its
    table, which may refuse the text; likewise for the snapshot. *)
Class RecordJson `{OutboxText} : Type := {
  json_text : Type;
  json_length : json_text -> Z;
  stringify : forall k, hot_record k -> json_text;
  parse_record : forall k, json_text -> result string (hot_record k);
  snapshot_text : Type;
  snapshot_bytes : snapshot_text -> Z;
  stringify_snapshot : BrokerSnapshot -> snapshot_text;
  parse_snapshot : snapshot_text -> result string BrokerSnapshot;
}.

(** Entries of one kind of hint. *)
Record BrokerHotHintCounts : Type := mkBrokerHotHintCounts {
  hc_counts : list (SqliteHotEntityTable * Z);
}.

(** A metadata value; the JSON text of the hint counts is kept as the counts. *)
Inductive MetadataValue : Type :=
| MetaText (s : string)
| MetaCounts (c : BrokerHotHintCounts).

Section Database.
Context `{RecordJson}.

Record HotRow : Type := mkHotRow {
  row_columns : jsmap SqlValue;
  row_payload : json_text;
}.

Record SnapshotRow : Type := mkSnapshotRow {
  sr_version : Z;
  sr_payload : snapshot_text;
  sr_updatedAt : string;
}.

Record SqliteDb : Type := mkSqliteDb {
  db_metadata : jsmap MetadataValue;
  db_snapshot : option SnapshotRow;
  db_tables : SqliteHotEntityTable -> jsmap HotRow;
}.
#[export] Instance eta_SqliteDb : Eta SqliteDb := fun d =>
  mkSqliteDb (db_metadata d) (db_snapshot d) (db_tables d).

Definition set_table (k : SqliteHotEntityTable) (f : jsmap HotRow -> jsmap HotRow) (db : SqliteDb) : SqliteDb :=
  db <| db_tables ::= fun t k' => if decide (k' = k) then f (t k') else t k' |>.

(** *** Statements *)

(** [INSERT ... ON CONFLICT DO UPDATE SET] every other column. *)
Definition sql_upsert (k : SqliteHotEntityTable) (key : string) (row : HotRow) : SqliteDb -> SqliteDb :=
  set_table k (jm_set key row).

(** [DELETE ... WHERE <primary key> IN (...)]. *)
Definition sql_delete (k : SqliteHotEntityTable) (keys : list string) : SqliteDb -> SqliteDb :=
  set_table k (jm_filter (fun key => negb (bool_decide (key ∈ keys)))).

Definition column (row : HotRow) (c : string) : SqlValue := jm_get c (row_columns row) ?? SqlNull.

Definition string_cmp (a b : string) : Z :=
  match String.compare a b with Lt => -1 | Eq => 0 | Gt => 1 end.

(** NULL, then numbers, then texts. *)
Definition value_cmp (a b : SqlValue) : Z :=
  match a, b with
  | SqlNull, SqlNull => 0
  | SqlNull, _ => -1
  | _, SqlNull => 1
  | SqlInteger x, SqlInteger y => x - y
  | SqlInteger _, SqlText _ => -1
  | SqlText _, SqlInteger _ => 1
  | SqlText x, SqlText y => string_cmp x y
  end.

(** A term of ORDER BY; [RootFirst] is
    [CASE WHEN kind = 'root' THEN 0 ELSE 1 END ASC]. *)
Inductive OrderTerm : Type := Asc (c : string) | Desc (c : string) | RootFirst.

Definition term_cmp (t : OrderTerm) (a b : HotRow) : Z :=
  match t with
  | Asc c => value_cmp (column a c) (column b c)
  | Desc c => value_cmp (column b c) (column a c)
  | RootFirst =>
      let rank r := if decide (column r "kind" = SqlText "root") then 0%Z else 1%Z in rank a - rank b
  end.

Definition order_cmp (order : list OrderTerm) (a b : HotRow) : Z :=
  foldr (fun t rest => let d := term_cmp t a b in if (d =? 0)%Z then rest else d) 0%Z order.

Definition sql_rows (k : SqliteHotEntityTable) (db : SqliteDb) : list HotRow := jm_values (db_tables db k).

Definition sql_select (k : SqliteHotEntityTable) (where_ : HotRow -> bool) (order : list OrderTerm)
    (limit : option Z) (db : SqliteDb) : list HotRow :=
  let rows := js_sort (order_cmp order) (List.filter where_ (sql_rows k db)) in
  match limit with Some n => take (Z.to_nat n) rows | None => rows end.

(** The rows [buildHotTableSelect] selects: a filter counts if its value is not
    empty, a limit if it is positive. *)
Definition filter_clauses (filters : list (string * option string)) : list (string * string) :=
  omap (fun cv => (fun v => (cv.1, v)) <$> truthy_opt cv.2) filters.

Definition matches_clauses (clauses : list (string * string)) (row : HotRow) : bool :=
  forallb (fun cv => bool_decide (column row cv.1 = SqlText cv.2)) clauses.

Definition buildHotTableSelect (k : SqliteHotEntityTable) (filters : list (string * option string))
    (order : list OrderTerm) (limit : option Z) (db : SqliteDb) : list HotRow :=
  sql_select k (matches_clauses (filter_clauses filters)) order
    (match limit with Some n => if (0 <? n)%Z then Some n else None | None => None end) db.

Definition readTableCount (k : SqliteHotEntityTable) (db : SqliteDb) : Z := Z.of_nat (length (db_tables db k)).

Definition readTableIds (k : SqliteHotEntityTable) (db : SqliteDb) : list string :=
  js_sort string_cmp (jm_keys (db_tables db k)).

(** *** Reading records *)

Definition parseHotEntityPayload (k : SqliteHotEntityTable) (row : HotRow) : result string (hot_record k) :=
  match parse_record k (row_payload row) with
  | Ok r => Ok r
  | Err e => Err ("invalid hot entity payload in " ++ table_name k ++ ": " ++ e)%string
  end.

Fixpoint parse_rows (k : SqliteHotEntityTable) (rows : list HotRow) : result string (list (hot_record k)) :=
  match rows with
  | [] => Ok []
  | row :: rows =>
      match parseHotEntityPayload k row with
      | Err e => Err e
      | Ok r => match parse_rows k rows with Ok l => Ok (r :: l) | Err e => Err e end
      end
  end.

(** [parseHotEntityPayloadSafe]: a row that cannot be read is left out. *)
Definition parse_rows_safe (k : SqliteHotEntityTable) (rows : list HotRow) : list (hot_record k) :=
  omap (fun row => match parse_record k (row_payload row) with Ok r => Some r | Err _ => None end) rows.

(** *** Writing records *)

Definition upsert_record (k : SqliteHotEntityTable) (r : hot_record k) : SqliteDb -> SqliteDb :=
  sql_upsert k (hot_id k r) (mkHotRow (hot_columns k r) (stringify k r)).

Definition upsert_records (k : SqliteHotEntityTable) (l : list (hot_record k)) (db : SqliteDb) : SqliteDb :=
  foldl (fun db r => upsert_record k r db) db l.
End Database.
