(* ===== verification/SqlStore.v ===== *)
(** * The state stores (src/core/store.ts)

    [SqliteBrokerStateStore] over the database of [HotTables]: what a save writes,
    what the two load sources read, retention of the hot tables and their
    diagnostics; the runtime repositories; and the JSON file store.  Statements do
    not fail; what the code throws itself is an [Err] value, and the transaction
    around a write is rolled back by it. *)

From Stdlib Require Import ZArith Lia String.
From stdpp Require Import base gmap strings list pretty.
From S2P Require Import Prelude JsRuntime Types Retention BrokerCore EventBuffer TaskEventStream Outbox.
From S2P Require Import Workers Proposals Github TerminalBrief Tasks HotTables.

Definition CURRENT_BROKER_STATE_VERSION : Z := 8.
Definition DEFAULT_BROKER_STATE_MAX_BYTES : Z := 50 * 1024 * 1024.
Definition SQLITE_SCHEMA_VERSION : Z := 10.
Definition DEFAULT_HOT_RUNTIME_MAX_NON_TERMINAL_TASKS : Z := 500.
Definition DEFAULT_HOT_RUNTIME_MAX_TERMINAL_TASKS : Z := 2000.
Definition DEFAULT_HOT_RUNTIME_MAX_AUDIT_EVENTS : Z := 5000.
Definition DEFAULT_HOT_RUNTIME_MAX_HEARTBEAT_AUDIT_EVENTS : Z := 500.
Definition DEFAULT_HOT_RUNTIME_MAX_TERMINAL_OUTBOX_EVENTS : Z := DEFAULT_TERMINAL_TASK_OUTBOX_RETENTION.

(** ** Options *)

Inductive SqliteBrokerLoadSource : Type := LoadSnapshot | LoadHotTables.
#[export] Instance SqliteBrokerLoadSource_eq_dec : EqDecision SqliteBrokerLoadSource.
Proof. solve_decision. Defined.

Record SqliteBrokerStateStoreOptions : Type := mkSqliteOptions {
  so_maxBytes : option Z;
  so_importJsonFile : option string;
  so_loadSource : option SqliteBrokerLoadSource;
  so_maxHotRuntimeNonTerminalTasks : option Z;
  so_maxHotRuntimeTerminalTasks : option Z;
  so_maxHotRuntimeAuditEvents : option Z;
  so_maxHotRuntimeHeartbeatAuditEvents : option Z;
  so_maxHotRuntimeTerminalOutboxEvents : option Z;
}.

(** The fields of a store. *)
Record SqliteBrokerStateStore : Type := mkSqliteStore {
  ss_dbFile : string;
  ss_maxBytes : Z;
  ss_importJsonFile : option string;
  ss_loadSource : SqliteBrokerLoadSource;
  ss_maxNonTerminalTasks : Z;
  ss_maxTerminalTasks : Z;
  ss_maxAuditEvents : Z;
  ss_maxHeartbeatAuditEvents : Z;
  ss_maxTerminalOutboxEvents : Z;
}.

Definition normalizeNonNegativeSqliteLimit (value : option Z) (fallback : Z) : Z := Z.max 0 (value ?? fallback).

Definition normalizeOptionalSqliteLimit (value : option Z) : option Z :=
  (fun v => normalizeNonNegativeSqliteLimit (Some v) 0) <$> value.

Definition new_sqlite_store (dbFile : string) (o : SqliteBrokerStateStoreOptions) : SqliteBrokerStateStore :=
  let audit := normalizeNonNegativeSqliteLimit (so_maxHotRuntimeAuditEvents o)
    DEFAULT_HOT_RUNTIME_MAX_AUDIT_EVENTS in
  {| ss_dbFile := dbFile;
     ss_maxBytes := Z.max 1 (so_maxBytes o ?? DEFAULT_BROKER_STATE_MAX_BYTES);
     ss_importJsonFile := so_importJsonFile o;
     ss_loadSource := so_loadSource o ?? LoadSnapshot;
     ss_maxNonTerminalTasks := normalizeNonNegativeSqliteLimit (so_maxHotRuntimeNonTerminalTasks o)
       DEFAULT_HOT_RUNTIME_MAX_NON_TERMINAL_TASKS;
     ss_maxTerminalTasks := normalizeNonNegativeSqliteLimit (so_maxHotRuntimeTerminalTasks o)
       DEFAULT_HOT_RUNTIME_MAX_TERMINAL_TASKS;
     ss_maxAuditEvents := audit;
     ss_maxHeartbeatAuditEvents := normalizeNonNegativeSqliteLimit (so_maxHotRuntimeHeartbeatAuditEvents o)
       (Z.min audit DEFAULT_HOT_RUNTIME_MAX_HEARTBEAT_AUDIT_EVENTS);
     ss_maxTerminalOutboxEvents := normalizeNonNegativeSqliteLimit (so_maxHotRuntimeTerminalOutboxEvents o)
       DEFAULT_HOT_RUNTIME_MAX_TERMINAL_OUTBOX_EVENTS |}.

(** ** Filters *)

Record TaskHotFilters : Type := mkTaskHotFilters {
  htf_id : option string;
  htf_status : option TaskStatus;
  htf_targetNodeId : option string;
  htf_intent : option A2AExchangeIntent;
  htf_assignedWorkerId : option string;
  htf_taskOrigin : option TaskOrigin;
  htf_maxRows : option Z;
  htf_limit : option Z;
}.
Definition no_task_filters : TaskHotFilters := mkTaskHotFilters None None None None None None None None.

Record ProposalHotFilters : Type := mkProposalHotFilters {
  hpf_id : option string;
  hpf_status : option ProposalStatus;
  hpf_sourceNodeId : option string;
  hpf_targetNodeId : option string;
  hpf_kind : option ProposalKind;
}.

Record AuditHotFilters : Type := mkAuditHotFilters {
  haf_proposalId : option string;
  haf_actorId : option string;
  haf_action : option AuditAction;
  haf_targetType : option AuditTargetType;
  haf_targetId : option string;
  haf_maxRows : option Z;
}.

Record TombstoneHotFilters : Type := mkTombstoneHotFilters {
  hbf_taskId : option string;
  hbf_tombstoneReason : option TombstoneReason;
  hbf_terminalStatus : option TaskStatus;
  hbf_since : option string;
  hbf_maxRows : option Z;
}.

(** The files of the JSON store by path. *)
Abbreviation FileSystem := (jsmap snapshot_text).

Section Reads.
Context `{RecordJson}.

(** ** Reading the tables *)

Definition readHotTasks (f : TaskHotFilters) (db : SqliteDb) : result string (list TaskRecord) :=
  parse_rows BrokerTasks (buildHotTableSelect BrokerTasks
    [("id", htf_id f); ("status", TaskStatus_text <$> htf_status f);
     ("target_node_id", htf_targetNodeId f); ("intent", A2AExchangeIntent_text <$> htf_intent f);
     ("assigned_worker_id", htf_assignedWorkerId f); ("task_origin", TaskOrigin_text <$> htf_taskOrigin f)]
    [Desc "updated_at"; Asc "id"]
    (htf_limit f ??o
       match htf_maxRows f with
       | Some n => if (0 <? n)%Z then normalizeOptionalSqliteLimit (Some n) else None
       | None => None
       end) db).

Definition readHotExchanges (id : option string) (db : SqliteDb) : result string (list A2AExchangeState) :=
  parse_rows BrokerExchanges
    (buildHotTableSelect BrokerExchanges [("id", id)] [Desc "created_at"; Asc "id"] None db).

Definition readHotExchangeMessages (id exchangeId : option string) (db : SqliteDb)
    : result string (list A2AExchangeMessageRecord) :=
  parse_rows BrokerExchangeMessages (buildHotTableSelect BrokerExchangeMessages
    [("id", id); ("exchange_id", exchangeId)] [Asc "created_at"; RootFirst; Asc "id"] None db).

Definition readHotProposals (f : ProposalHotFilters) (db : SqliteDb) : result string (list ChangeProposal) :=
  parse_rows BrokerProposals (buildHotTableSelect BrokerProposals
    [("id", hpf_id f); ("status", ProposalStatus_text <$> hpf_status f);
     ("source_node_id", hpf_sourceNodeId f); ("target_node_id", hpf_targetNodeId f);
     ("kind", ProposalKind_text <$> hpf_kind f)]
    [Desc "created_at"; Asc "id"] None db).

Definition readHotArtifacts (id proposalId : option string) (db : SqliteDb) : result string (list ArtifactRecord) :=
  parse_rows BrokerArtifacts (buildHotTableSelect BrokerArtifacts
    [("id", id); ("proposal_id", proposalId)] [Desc "created_at"; Asc "id"] None db).

Definition readHotValidations (id proposalId : option string) (db : SqliteDb)
    : result string (list ValidationResult) :=
  parse_rows BrokerValidations (buildHotTableSelect BrokerValidations
    [("id", id); ("proposal_id", proposalId)] [Desc "created_at"; Asc "id"] None db).

Definition readHotWorkers (nodeId : option string) (role : option A2APartyRole) (maxRows : option Z)
    (db : SqliteDb) : list WorkerRecord :=
  parse_rows_safe BrokerWorkers (buildHotTableSelect BrokerWorkers
    [("node_id", nodeId); ("role", A2APartyRole_text <$> role)] [Desc "last_seen_at"; Asc "node_id"] maxRows db).

Definition readHotTombstones (f : TombstoneHotFilters) (db : SqliteDb) : result string (list TaskTombstone) :=
  match parse_rows BrokerTombstones (buildHotTableSelect BrokerTombstones
    [("task_id", hbf_taskId f); ("tombstone_reason", TombstoneReason_text <$> hbf_tombstoneReason f);
     ("terminal_status", TaskStatus_text <$> hbf_terminalStatus f)]
    [Desc "tombstoned_at"; Asc "task_id"] (hbf_maxRows f) db) with
  | Err e => Err e
  | Ok tombstones =>
      Ok (match truthy_opt (hbf_since f) with
          | Some since => List.filter (fun t => (0 <=? string_cmp (tb_tombstonedAt t) since)%Z) tombstones
          | None => tombstones
          end)
  end.

(** With a limit, the newest rows in ascending order. *)
Definition readHotTerminalOutbox (limit : option Z) (db : SqliteDb)
    : result string (list TerminalTaskOutboxEvent) :=
  parse_rows BrokerTerminalOutbox
    (match normalizeOptionalSqliteLimit limit with
     | None => sql_select BrokerTerminalOutbox (fun _ => true) [Asc "created_at"; Asc "id"] None db
     | Some n => js_sort (order_cmp [Asc "created_at"; Asc "id"])
         (sql_select BrokerTerminalOutbox (fun _ => true) [Desc "created_at"; Desc "id"] (Some n) db)
     end).

Definition readHotAuditEvents (f : AuditHotFilters) (db : SqliteDb) : result string (list AuditEvent) :=
  match parse_rows BrokerAuditEvents (buildHotTableSelect BrokerAuditEvents
    [("action", AuditAction_text <$> haf_action f); ("target_type", AuditTargetType_text <$> haf_targetType f);
     ("target_id", haf_targetId f)]
    [Desc "created_at"; Asc "id"] (haf_maxRows f) db) with
  | Err e => Err e
  | Ok events => Ok (List.filter (fun event =>
      str_filter (haf_proposalId f) (aud_proposalId event)
      && str_filter (haf_actorId f) (Some (aud_actorId event))) events)
  end.

Definition terminal_texts : list string := ["succeeded"; "failed"; "canceled"].

(** [status IN ('succeeded', 'failed', 'canceled')]. *)
Definition terminal_row (row : HotRow) : bool :=
  existsb (fun s => bool_decide (column row "status" = SqlText s)) terminal_texts.

(** The active tasks and the ended ones, each newest first and up to its limit. *)
Definition readHotTasksForRuntime (st : SqliteBrokerStateStore) (db : SqliteDb)
    : result string (list TaskRecord) :=
  parse_rows BrokerTasks
    (sql_select BrokerTasks (fun r => negb (terminal_row r)) [Desc "updated_at"; Asc "id"]
       (Some (ss_maxNonTerminalTasks st)) db
     ++ sql_select BrokerTasks terminal_row [Desc "updated_at"; Asc "id"] (Some (ss_maxTerminalTasks st)) db).

Definition readHotAuditEventsForRuntime (st : SqliteBrokerStateStore) (db : SqliteDb)
    : result string (list AuditEvent) :=
  parse_rows BrokerAuditEvents (js_sort (order_cmp [Desc "created_at"; Asc "id"])
    (sql_select BrokerAuditEvents (fun _ => true) [Desc "created_at"; Asc "id"]
       (Some (ss_maxAuditEvents st)) db)).

Definition r_bind {A B} (r : result string A) (k : A -> result string B) : result string B :=
  match r with Ok a => k a | Err e => Err e end.

Definition readHotRuntimeSnapshot (st : SqliteBrokerStateStore) (db : SqliteDb) : result string BrokerSnapshot :=
  r_bind (readHotExchanges None db) (fun exchanges =>
  r_bind (readHotExchangeMessages None None db) (fun exchangeMessages =>
  r_bind (readHotProposals (mkProposalHotFilters None None None None None) db) (fun proposals =>
  r_bind (readHotArtifacts None None db) (fun artifacts =>
  r_bind (readHotValidations None None db) (fun validations =>
  r_bind (readHotAuditEventsForRuntime st db) (fun auditEvents =>
  let workers := readHotWorkers None None None db in
  r_bind (readHotTasksForRuntime st db) (fun tasks =>
  r_bind (readHotTombstones (mkTombstoneHotFilters None None None None None) db) (fun tombstones =>
  r_bind (readHotTerminalOutbox (Some (ss_maxTerminalOutboxEvents st)) db) (fun terminalOutbox =>
  Ok (mkBrokerSnapshot exchanges exchangeMessages proposals artifacts validations auditEvents
        workers tasks tombstones terminalOutbox)))))))))).

(** ** Snapshots *)

Definition emptySnapshot : BrokerSnapshot := mkBrokerSnapshot [] [] [] [] [] [] [] [] [] [].

(** The records of a snapshot, by table. *)
Definition snapshot_records (s : BrokerSnapshot) (k : SqliteHotEntityTable) : list (hot_record k) :=
  match k with
  | BrokerExchanges => sn_exchanges s
  | BrokerExchangeMessages => sn_exchangeMessages s
  | BrokerProposals => sn_proposals s
  | BrokerArtifacts => sn_artifacts s
  | BrokerValidations => sn_validations s
  | BrokerTasks => sn_tasks s
  | BrokerTombstones => sn_tombstones s
  | BrokerWorkers => sn_workers s
  | BrokerAuditEvents => sn_auditEvents s
  | BrokerTerminalOutbox => sn_terminalOutbox s
  end.

Definition hasSnapshotRuntimeRows (s : BrokerSnapshot) : bool :=
  existsb (fun k => negb (length (snapshot_records s k) =? 0)) SQLITE_HOT_ENTITY_TABLES.

Definition countSnapshotEntities (s : BrokerSnapshot) (k : SqliteHotEntityTable) : Z :=
  Z.of_nat (length (snapshot_records s k)).

Definition serializeBrokerSnapshot (s : BrokerSnapshot) (maxBytes : Z) : result string snapshot_text :=
  let payload := stringify_snapshot s in
  let bytes := snapshot_bytes payload in
  if (maxBytes <? bytes)%Z
  then Err ("broker snapshot exceeds max size (" ++ pretty bytes ++ " > " ++ pretty maxBytes ++ " bytes)")%string
  else Ok payload.

Definition parseSnapshotPayload (payload : snapshot_text) (source : string) (maxBytes : Z)
    : result string BrokerSnapshot :=
  let bytes := snapshot_bytes payload in
  if (maxBytes <? bytes)%Z
  then Err ("broker snapshot exceeds max size (" ++ pretty bytes ++ " > " ++ pretty maxBytes ++ " bytes): "
              ++ source)%string
  else match parse_snapshot payload with
       | Ok s => Ok s
       | Err e => Err ("invalid broker snapshot at " ++ source ++ ": " ++ e)%string
       end.

(** ** The JSON file store *)

Definition json_load (filePath : string) (maxBytes : Z) (fs : FileSystem) : result string BrokerSnapshot :=
  match jm_get filePath fs with
  | None => Ok emptySnapshot
  | Some raw =>
      if (maxBytes <? snapshot_bytes raw)%Z
      then Err ("broker snapshot exceeds max size (" ++ pretty (snapshot_bytes raw) ++ " > "
                  ++ pretty maxBytes ++ " bytes): " ++ filePath)%string
      else match parse_snapshot raw with
           | Ok s => Ok s
           | Err e => Err ("invalid broker snapshot at " ++ filePath ++ ": " ++ e)%string
           end
  end.

Definition temp_path (filePath : string) : string := (filePath ++ ".tmp")%string.

(** [renameSync] replaces the target. *)
Definition rename_file (from to : string) (fs : FileSystem) : FileSystem :=
  match jm_get from fs with
  | Some content => jm_set to content (jm_delete from fs)
  | None => fs
  end.

Definition writeBrokerSnapshotFile (filePath : string) (s : BrokerSnapshot) (maxBytes : Z)
    : stM FileSystem string unit := fun fs =>
  match serializeBrokerSnapshot s maxBytes with
  | Err e => (fs, Err e)
  | Ok payload =>
      let written := jm_set (temp_path filePath) payload fs in
      (rename_file (temp_path filePath) filePath written, Ok tt)
  end.
End Reads.
