(* ===== verification/SqlSave.v ===== *)
(** * Saving to and loading from the SQLite store (src/core/store.ts)

    A save takes the snapshot and the hints of the broker: with hints it brings
    the hinted tables up to date and leaves the row of the canonical snapshot as
    it is; without, it writes both anew.  A load reads the row of the canonical
    snapshot or the tables. *)

From Stdlib Require Import ZArith Lia String.
From stdpp Require Import base gmap strings list pretty.
From S2P Require Import Prelude JsRuntime Types Retention BrokerCore EventBuffer TaskEventStream Outbox.
From S2P Require Import HotTables SqlStore.

(** ** Results of pruning *)

Record SqliteHotRetentionPlan : Type := mkRetentionPlan {
  rp_table : SqliteHotEntityTable;
  rp_cutoffMs : Z;
  rp_retainedIds : list string;
  rp_pruneIds : list string;
}.

Record SqliteHotRetentionApplyResult : Type := mkApplyResult {
  ra_table : SqliteHotEntityTable;
  ra_retainedCount : Z;
  ra_requestedPruneCount : Z;
  ra_prunedCount : Z;
  ra_remainingCount : Z;
}.

(** Database operations that may throw. *)
Abbreviation SqlM := (stM SqliteDb string).

Section Save.
Context `{RecordJson}.

(** ** Hints *)

(** [BrokerStateSaveHints]: the rows of a table, or absent. *)
Definition SaveHints : Type := forall k, option (list (hot_record k)).

Definition hint_rows {V} (m : jsmap V) : option (list V) :=
  if nonempty m then Some (jm_values m) else None.

(** The broker leaves out the kinds that have no row. *)
Definition hints_of (p : PendingHot) : SaveHints := fun k =>
  match k return option (list (hot_record k)) with
  | BrokerExchanges => hint_rows (ph_exchanges p)
  | BrokerExchangeMessages => hint_rows (ph_exchangeMessages p)
  | BrokerProposals => hint_rows (ph_proposals p)
  | BrokerArtifacts => hint_rows (ph_artifacts p)
  | BrokerValidations => hint_rows (ph_validations p)
  | BrokerTasks => hint_rows (ph_tasks p)
  | BrokerTombstones => hint_rows (ph_tombstones p)
  | BrokerWorkers => hint_rows (ph_workers p)
  | BrokerAuditEvents => hint_rows (ph_auditEvents p)
  | BrokerTerminalOutbox => hint_rows (ph_terminalOutbox p)
  end.

Definition hint_count (hints : SaveHints) (k : SqliteHotEntityTable) : Z :=
  match hints k with Some l => Z.of_nat (length l) | None => 0 end.

Definition hintsHasAnyEntries (hints : option SaveHints) : bool :=
  match hints with
  | None => false
  | Some h => existsb (fun k => (0 <? hint_count h k)%Z) SQLITE_HOT_ENTITY_TABLES
  end.

Definition countHotHintEntries (hints : SaveHints) : BrokerHotHintCounts :=
  mkBrokerHotHintCounts (map (fun k => (k, hint_count hints k)) SQLITE_HOT_ENTITY_TABLES).

(** ** Deleting rows *)

Definition applyHotRetentionPlanUnsafe (plan : SqliteHotRetentionPlan) (db : SqliteDb)
    : SqliteDb * SqliteHotRetentionApplyResult :=
  let beforeIds := readTableIds (rp_table plan) db in
  let pruneIds := List.filter (fun id => bool_decide (id ∈ beforeIds)) (rp_pruneIds plan) in
  let db := if (0 <? length pruneIds) then sql_delete (rp_table plan) pruneIds db else db in
  (db, {| ra_table := rp_table plan;
          ra_retainedCount := Z.of_nat (length (rp_retainedIds plan));
          ra_requestedPruneCount := Z.of_nat (length (rp_pruneIds plan));
          ra_prunedCount := Z.of_nat (length pruneIds);
          ra_remainingCount := readTableCount (rp_table plan) db |}).

Definition applyCanonicalHotRetentionPlan (k : SqliteHotEntityTable) (retainedIds : list string)
    (db : SqliteDb) : SqliteDb :=
  let existingIds := readTableIds k db in
  (applyHotRetentionPlanUnsafe
     {| rp_table := k; rp_cutoffMs := 0; rp_retainedIds := retainedIds;
        rp_pruneIds := List.filter (fun id => negb (in_set (ids_of retainedIds) id)) existingIds |} db).1.

(** The texts of a column. *)
Definition column_texts (c : string) (rows : list HotRow) : list string :=
  omap (fun row => match column row c with SqlText s => Some s | _ => None end) rows.

Definition heartbeat_row (row : HotRow) : bool :=
  bool_decide (column row "action" = SqlText "worker.heartbeat")
  || bool_decide (column row "action" = SqlText "task.heartbeat").

(** The statement both pruning methods run: of the rows the condition selects,
    all but the newest [max] are deleted. *)
Definition prune_newest (where_ : HotRow -> bool) (max : Z) (db : SqliteDb) : SqliteDb :=
  sql_delete BrokerAuditEvents
    (column_texts "id" (drop (Z.to_nat max)
       (sql_select BrokerAuditEvents where_ [Desc "created_at"; Desc "id"] None db))) db.

Definition count_rows (k : SqliteHotEntityTable) (where_ : HotRow -> bool) (db : SqliteDb) : Z :=
  Z.of_nat (length (List.filter where_ (sql_rows k db))).

Definition readHotHeartbeatAuditCount (db : SqliteDb) : Z := count_rows BrokerAuditEvents heartbeat_row db.

Definition prune_to_max (count : SqliteDb -> Z) (where_ : HotRow -> bool) (maxRecords : Z) (db : SqliteDb)
    : SqliteDb * SqliteHotRetentionApplyResult :=
  let max := Z.max 0 maxRecords in
  let before := count db in
  if (before <=? max)%Z
  then (db, mkApplyResult BrokerAuditEvents before 0 0 before)
  else let db' := prune_newest where_ max db in
       (db', mkApplyResult BrokerAuditEvents max (before - max)
               (readTableCount BrokerAuditEvents db - readTableCount BrokerAuditEvents db') (count db')).

Definition pruneHotAuditEventsToMaxUnsafe : Z -> SqliteDb -> SqliteDb * SqliteHotRetentionApplyResult :=
  prune_to_max (readTableCount BrokerAuditEvents) (fun _ => true).

Definition pruneHotHeartbeatAuditEventsToMaxUnsafe : Z -> SqliteDb -> SqliteDb * SqliteHotRetentionApplyResult :=
  prune_to_max readHotHeartbeatAuditCount heartbeat_row.

(** ** Writing the tables *)

Definition heartbeat_event (e : AuditEvent) : bool := isHeartbeatAuditEvent (aud_action e) (aud_targetType e).

(** Of an incremental write: the hinted rows of a table other than the audit log,
    after the rows that left the snapshot were deleted. *)
Definition write_hinted (s : BrokerSnapshot) (hints : SaveHints) (k : SqliteHotEntityTable)
    (db : SqliteDb) : SqliteDb :=
  match hints k with
  | None => db
  | Some rows => upsert_records k rows
      (applyCanonicalHotRetentionPlan k (map (hot_id k) (snapshot_records s k)) db)
  end.

(** Of the audit log: heartbeats alone are pruned by the caps of the table. *)
Definition write_hinted_audit (st : SqliteBrokerStateStore) (s : BrokerSnapshot) (hints : SaveHints)
    (db : SqliteDb) : SqliteDb :=
  match hints BrokerAuditEvents with
  | None => db
  | Some events =>
      let onlyHeartbeatAuditHints := (0 <? length events) && forallb heartbeat_event events in
      let db := if onlyHeartbeatAuditHints then db
                else applyCanonicalHotRetentionPlan BrokerAuditEvents (map aud_id (sn_auditEvents s)) db in
      let db := upsert_records BrokerAuditEvents events db in
      if onlyHeartbeatAuditHints
      then (pruneHotAuditEventsToMaxUnsafe (ss_maxAuditEvents st)
              (pruneHotHeartbeatAuditEventsToMaxUnsafe (ss_maxHeartbeatAuditEvents st) db).1).1
      else db
  end.

(** The tables an incremental write goes through before and after the audit log. *)
Definition tables_before_audit : list SqliteHotEntityTable :=
  [BrokerExchanges; BrokerExchangeMessages; BrokerProposals; BrokerArtifacts; BrokerValidations;
   BrokerTasks; BrokerTombstones].
Definition tables_after_audit : list SqliteHotEntityTable := [BrokerWorkers; BrokerTerminalOutbox].

Definition incremental_write (st : SqliteBrokerStateStore) (s : BrokerSnapshot) (hints : SaveHints)
    (db : SqliteDb) : SqliteDb :=
  let db := foldl (fun db k => write_hinted s hints k db) db tables_before_audit in
  let db := write_hinted_audit st s hints db in
  foldl (fun db k => write_hinted s hints k db) db tables_after_audit.

(** Of a full write: an empty hint keeps the rows that are in the snapshot, no
    hint deletes all; the outbox always keeps them. *)
Definition clear_table (s : BrokerSnapshot) (hints : option SaveHints) (k : SqliteHotEntityTable)
    (db : SqliteDb) : SqliteDb :=
  if is_some (hints ?> fun h => h k) || bool_decide (k = BrokerTerminalOutbox)
  then applyCanonicalHotRetentionPlan k (map (hot_id k) (snapshot_records s k)) db
  else set_table k (fun _ => []) db.

Definition fill_table (s : BrokerSnapshot) (hints : option SaveHints) (k : SqliteHotEntityTable)
    (db : SqliteDb) : SqliteDb :=
  upsert_records k ((hints ?> fun h => h k) ?? snapshot_records s k) db.

Definition tables_cleared : list SqliteHotEntityTable :=
  tables_before_audit ++ [BrokerAuditEvents; BrokerWorkers; BrokerTerminalOutbox].
Definition tables_filled : list SqliteHotEntityTable :=
  tables_before_audit ++ [BrokerWorkers; BrokerAuditEvents; BrokerTerminalOutbox].

Definition full_write (s : BrokerSnapshot) (hints : option SaveHints) (db : SqliteDb) : SqliteDb :=
  foldl (fun db k => fill_table s hints k db)
    (foldl (fun db k => clear_table s hints k db) db tables_cleared) tables_filled.

Definition writeHotEntityTables (st : SqliteBrokerStateStore) (s : BrokerSnapshot) (hints : option SaveHints)
    (db : SqliteDb) : SqliteDb :=
  match hints with
  | Some h => if hintsHasAnyEntries hints then incremental_write st s h db else full_write s hints db
  | None => full_write s hints db
  end.

(** The hinted rows alone. *)
Definition write_hint_rows (hints : SaveHints) (k : SqliteHotEntityTable)
    (db : SqliteDb) : SqliteDb :=
  match hints k with None => db | Some rows => upsert_records k rows db end.

Definition write_audit_hint_rows (st : SqliteBrokerStateStore) (hints : SaveHints) (db : SqliteDb) : SqliteDb :=
  match hints BrokerAuditEvents with
  | None => db
  | Some events =>
      let db := upsert_records BrokerAuditEvents events db in
      let db := if existsb heartbeat_event events
                then (pruneHotHeartbeatAuditEventsToMaxUnsafe (ss_maxHeartbeatAuditEvents st) db).1 else db in
      (pruneHotAuditEventsToMaxUnsafe (ss_maxAuditEvents st) db).1
  end.

Definition writeHotEntityHintRows (st : SqliteBrokerStateStore) (hints : SaveHints) (db : SqliteDb) : SqliteDb :=
  let db := foldl (fun db k => write_hint_rows hints k db) db tables_before_audit in
  let db := write_audit_hint_rows st hints db in
  foldl (fun db k => write_hint_rows hints k db) db tables_after_audit.

(** ** Metadata *)

Definition writeMetadata (key : string) (value : MetadataValue) (db : SqliteDb) : SqliteDb :=
  db <| db_metadata ::= jm_set key value |>.
Definition deleteMetadata (key : string) (db : SqliteDb) : SqliteDb := db <| db_metadata ::= jm_delete key |>.
Definition readMetadata (key : string) (db : SqliteDb) : option MetadataValue := jm_get key (db_metadata db).

Definition state_version_text : MetadataValue := MetaText (pretty CURRENT_BROKER_STATE_VERSION).

Definition initializeDatabase (db : SqliteDb) : SqliteDb :=
  writeMetadata "state_version" state_version_text
    (writeMetadata "schema_version" (MetaText (pretty SQLITE_SCHEMA_VERSION)) db).

(** A new database. *)
Definition empty_db : SqliteDb := initializeDatabase (mkSqliteDb [] None (fun _ => [])).

Definition writePersistDiagnostics (updatedAt : string) (hints : option SaveHints) (skipFullSnapshot : bool)
    (db : SqliteDb) : SqliteDb :=
  let db := writeMetadata "last_persist_at" (MetaText updatedAt) db in
  let db := writeMetadata "last_persist_skipped_full_snapshot"
              (MetaText (if skipFullSnapshot then "true" else "false")) db in
  match hints with
  | Some h => if hintsHasAnyEntries hints
              then writeMetadata "last_hot_hint_counts" (MetaCounts (countHotHintEntries h)) db
              else deleteMetadata "last_hot_hint_counts" db
  | None => deleteMetadata "last_hot_hint_counts" db
  end.

Record PersistDiagnostics : Type := mkPersistDiagnostics {
  pd_lastPersistAt : option string;
  pd_lastPersistSkippedFullSnapshot : bool;
  pd_lastHotHintCounts : option BrokerHotHintCounts;
}.

Definition meta_text (v : option MetadataValue) : option string :=
  match v with Some (MetaText s) => Some s | _ => None end.

Definition readLastPersistDiagnostics (db : SqliteDb) : PersistDiagnostics := {|
  pd_lastPersistAt := meta_text (readMetadata "last_persist_at" db);
  pd_lastPersistSkippedFullSnapshot :=
    bool_decide (meta_text (readMetadata "last_persist_skipped_full_snapshot" db) = Some "true");
  pd_lastHotHintCounts :=
    match readMetadata "last_hot_hint_counts" db with Some (MetaCounts c) => Some c | _ => None end |}.

(** ** Saves *)

(** BEGIN IMMEDIATE, COMMIT, and ROLLBACK when the body throws. *)
Definition runImmediateTransaction (fn : SqlM unit) : SqlM unit := fun db =>
  match fn db with
  | (db', Ok tt) => (db', Ok tt)
  | (_, Err e) => (db, Err e)
  end.

Definition writeSnapshotRow (st : SqliteBrokerStateStore) (s : BrokerSnapshot) (updatedAt : string)
    (hints : option SaveHints) (skipFullSnapshot : bool) : SqlM unit :=
  (if skipFullSnapshot then m_ret tt
   else fun db => match serializeBrokerSnapshot s (ss_maxBytes st) with
        | Err e => (db, Err e)
        | Ok payload =>
            (db <| db_snapshot := Some (mkSnapshotRow CURRENT_BROKER_STATE_VERSION payload updatedAt) |>, Ok tt)
        end);;;
  m_modify (writeHotEntityTables st s hints).

(** [save]; [updatedAt] is the time. *)
Definition saveSnapshot (st : SqliteBrokerStateStore) (updatedAt : string) (s : BrokerSnapshot)
    (hints : option SaveHints) : SqlM unit :=
  runImmediateTransaction (
    let hasHotHints := hintsHasAnyEntries hints in
    writeSnapshotRow st s updatedAt hints hasHotHints;;;
    m_modify (writeMetadata "state_version" state_version_text);;;
    m_modify (writePersistDiagnostics updatedAt hints hasHotHints)).

(** [saveHotEntities]. *)
Definition saveHotEntityHints (st : SqliteBrokerStateStore) (updatedAt : string) (hints : SaveHints) : SqlM unit :=
  runImmediateTransaction (
    m_modify (writeHotEntityHintRows st hints);;;
    m_modify (writeMetadata "state_version" state_version_text);;;
    m_modify (writePersistDiagnostics updatedAt (Some hints) true)).

Definition saveImportedJsonSnapshot (st : SqliteBrokerStateStore) (importedAt : string) (s : BrokerSnapshot)
    (jsonFile : string) : SqlM unit :=
  runImmediateTransaction (
    writeSnapshotRow st s importedAt None false;;;
    m_modify (writeMetadata "imported_from_json_file" (MetaText jsonFile));;;
    m_modify (writeMetadata "last_import_at" (MetaText importedAt))).

(** ** Loads *)

Definition m_lift {S A} (r : result string A) : stM S string A :=
  match r with Ok a => m_ret a | Err e => m_throw e end.

(** The JSON file to import, if it is there, loaded and saved. *)
Definition import_json (st : SqliteBrokerStateStore) (fs : FileSystem) (importedAt : string)
    (file : string) : SqlM BrokerSnapshot :=
  imported <-- m_lift (json_load file (ss_maxBytes st) fs);
  saveImportedJsonSnapshot st importedAt imported file;;;
  m_ret imported.

Definition importable (st : SqliteBrokerStateStore) (fs : FileSystem) : option string :=
  match truthy_opt (ss_importJsonFile st) with
  | Some file => if jm_has file fs then Some file else None
  | None => None
  end.

Definition loadCanonicalSnapshot (st : SqliteBrokerStateStore) (fs : FileSystem) (now : string)
    : SqlM BrokerSnapshot :=
  db <-- m_get;
  match db_snapshot db with
  | Some row => m_lift (parseSnapshotPayload (sr_payload row)
                  ("SQLite broker snapshot at " ++ ss_dbFile st)%string (ss_maxBytes st))
  | None => match importable st fs with
            | Some file => import_json st fs now file
            | None => m_ret emptySnapshot
            end
  end.

Definition hasCanonicalSnapshot (db : SqliteDb) : bool := is_some (db_snapshot db).

Definition loadHotRuntimeSnapshot (st : SqliteBrokerStateStore) (fs : FileSystem) (now : string)
    : SqlM BrokerSnapshot :=
  db <-- m_get;
  hotSnapshot <-- m_lift (readHotRuntimeSnapshot st db);
  if hasSnapshotRuntimeRows hotSnapshot || hasCanonicalSnapshot db then m_ret hotSnapshot
  else match importable st fs with
       | None => m_ret hotSnapshot
       | Some file =>
           import_json st fs now file;;;
           db <-- m_get;
           m_lift (readHotRuntimeSnapshot st db)
       end.

Definition sqlite_load (st : SqliteBrokerStateStore) (fs : FileSystem) (now : string) : SqlM BrokerSnapshot :=
  match ss_loadSource st with
  | LoadHotTables => loadHotRuntimeSnapshot st fs now
  | LoadSnapshot => loadCanonicalSnapshot st fs now
  end.

(** ** The calls of a broker *)

(** A store call of the broker, at the time [now]. *)
Definition run_store_call (st : SqliteBrokerStateStore) (now : string) (c : StoreCall) : SqlM unit :=
  match c with
  | SaveFull s hints => saveSnapshot st now s (hints_of <$> hints)
  | SaveHot p => saveHotEntityHints st now (hints_of p)
  end.

(** The database after calls of which none throws, at the times [times]. *)
Definition replay_calls (st : SqliteBrokerStateStore) (times : nat -> string) (calls : list StoreCall)
    : SqlM unit :=
  m_for (imap (fun i c => (times i, c)) calls) (fun tc => run_store_call st tc.1 tc.2).
End Save.
