(* ===== verification/HotRetention.v ===== *)
(** * Retention plans, diagnostics and repositories of the SQLite store
    (src/core/store.ts)

    A plan lists, for one hot table, the rows to keep and the rows to delete; the
    loops are those of the broker's own retention ([Retention]).  Diagnostics
    compare the tables with the canonical snapshot.  The runtime repositories are
    thin views of the store. *)

From Stdlib Require Import ZArith Lia String.
From stdpp Require Import base gmap strings list pretty.
From S2P Require Import Prelude JsRuntime Types Retention BrokerCore EventBuffer TaskEventStream Outbox.
From S2P Require Import Workers Proposals Github TerminalBrief Tasks HotTables SqlStore SqlSave.

(** ** Plans *)

Record TaskRetentionOptions : Type := mkTaskRetentionOptions {
  tro_nowMs : Z;
  tro_retentionMs : Z;
  tro_maxTerminalRecords : Z;
  tro_protectedTaskIds : option (list string);
}.

(** The protection of audit events: ids of the seven kinds of targets. *)
Record AuditRetentionProtection : Type := mkAuditProtection {
  arp_proposalIds : option (list string);
  arp_taskIds : option (list string);
  arp_exchangeIds : option (list string);
  arp_exchangeMessageIds : option (list string);
  arp_artifactIds : option (list string);
  arp_validationIds : option (list string);
  arp_workerIds : option (list string);
}.

Record AuditRetentionOptions : Type := mkAuditRetentionOptions {
  aro_nowMs : Z;
  aro_retentionMs : Z;
  aro_maxRecords : Z;
  aro_protectedIds : option AuditRetentionProtection;
}.

Record WorkerRetentionOptions : Type := mkWorkerRetentionOptions {
  wro_nowMs : Z;
  wro_retentionMs : Z;
  wro_maxInactiveWorkers : Z;
  wro_protectedWorkerIds : option (list string);
}.

Record OutboxRetentionOptions : Type := mkOutboxRetentionOptions {
  oro_nowMs : Z;
  oro_retentionMs : Z;
  oro_maxAcknowledgedRecords : Z;
}.

Definition buildRetentionPlan (table : SqliteHotEntityTable) (cutoffMs : Z) (allIds : list string)
    (retainedIds : gset string) : SqliteHotRetentionPlan := {|
  rp_table := table;
  rp_cutoffMs := cutoffMs;
  rp_retainedIds := js_sort string_cmp (List.filter (in_set retainedIds) allIds);
  rp_pruneIds := js_sort string_cmp (List.filter (fun id => negb (in_set retainedIds id)) allIds) |}.

Section Plans.
Context `{JsHost}.

Definition planTaskRetentionFromRecords (records : list TaskRecord) (o : TaskRetentionOptions)
    : SqliteHotRetentionPlan :=
  buildRetentionPlan BrokerTasks (tro_nowMs o - tro_retentionMs o) (map task_id records)
    (selectRetainedTerminalRecordIds records (fun t => isTerminalTaskStatus (task_status t)) task_id
       (fun t => Some (task_completedAt t ?? task_updatedAt t)) (tro_nowMs o) (tro_retentionMs o)
       (tro_maxTerminalRecords o) (ids_of (tro_protectedTaskIds o ?? []))).

Definition protected_set (o : option AuditRetentionProtection)
    (f : AuditRetentionProtection -> option (list string)) : gset string := ids_of ((o ?> f) ?? []).

Definition isAuditEventProtected (event : AuditEvent) (o : option AuditRetentionProtection) : bool :=
  if isHeartbeatAuditEvent (aud_action event) (aud_targetType event) then false
  else if match truthy_opt (aud_proposalId event) with
          | Some p => in_set (protected_set o arp_proposalIds) p | None => false end then true
  else match aud_targetType event with
       | TargetProposal => in_set (protected_set o arp_proposalIds) (aud_targetId event)
       | TargetArtifact => in_set (protected_set o arp_artifactIds) (aud_targetId event)
       | TargetValidation => in_set (protected_set o arp_validationIds) (aud_targetId event)
       | TargetWorker => in_set (protected_set o arp_workerIds) (aud_targetId event)
       | TargetTask => in_set (protected_set o arp_taskIds) (aud_targetId event)
       | TargetExchange => in_set (protected_set o arp_exchangeIds) (aud_targetId event)
       | TargetExchangeMessage => in_set (protected_set o arp_exchangeMessageIds) (aud_targetId event)
       | TargetBroker => false
       end.

(** The loop: what is protected or has no time is kept, the rest competes. *)
Definition audit_plan_step (o : AuditRetentionOptions) (acc : gset string * list (string * Z))
    (event : AuditEvent) : gset string * list (string * Z) :=
  let '(retained, candidates) := acc in
  match isAuditEventProtected event (aro_protectedIds o), parseRetentionTimestamp (Some (aud_createdAt event)) with
  | false, Some t => (retained, candidates ++ [(aud_id event, t)])
  | _, _ => ({[aud_id event]} ∪ retained, candidates)
  end.

Definition planAuditRetentionFromRecords (records : list AuditEvent) (o : AuditRetentionOptions)
    : SqliteHotRetentionPlan :=
  let cutoffMs := (aro_nowMs o - aro_retentionMs o)%Z in
  let '(retained, candidates) := foldl (audit_plan_step o) (∅, []) records in
  buildRetentionPlan BrokerAuditEvents cutoffMs (map aud_id records)
    (retainRecentCandidates cutoffMs (aro_maxRecords o) candidates ∪ retained).

Definition planWorkerRetentionFromRecords (records : list WorkerRecord) (o : WorkerRetentionOptions)
    : SqliteHotRetentionPlan :=
  buildRetentionPlan BrokerWorkers (wro_nowMs o - wro_retentionMs o) (map wr_nodeId records)
    (selectRetainedWorkerIds records (wro_nowMs o) (wro_retentionMs o) (wro_maxInactiveWorkers o)
       (ids_of (wro_protectedWorkerIds o ?? []))).

Definition outbox_acknowledgedAt (event : TerminalTaskOutboxEvent) : option string :=
  (ak_acknowledgedAt <$> ob_ack event) ??o ob_deliveredAt event.

(** The loop over the records of the outbox: what is not acknowledged, or lately,
    is kept. *)
Definition outbox_plan_step (cutoffMs : Z) (acc : gset string * list (string * Z))
    (event : TerminalTaskOutboxEvent) : gset string * list (string * Z) :=
  let '(retained, candidates) := acc in
  match parseRetentionTimestamp (outbox_acknowledgedAt event) with
  | None => ({[ob_id event]} ∪ retained, candidates)
  | Some t => if (cutoffMs <=? t)%Z then ({[ob_id event]} ∪ retained, candidates)
              else (retained, candidates ++ [(ob_id event, t)])
  end.

Definition planTerminalOutboxRetentionFromRecords (records : list TerminalTaskOutboxEvent)
    (o : OutboxRetentionOptions) : SqliteHotRetentionPlan :=
  let cutoffMs := (oro_nowMs o - oro_retentionMs o)%Z in
  let '(retained, candidates) := foldl (outbox_plan_step cutoffMs) (∅, []) records in
  buildRetentionPlan BrokerTerminalOutbox cutoffMs (map ob_id records)
    (take_newest (oro_maxAcknowledgedRecords o) candidates ∪ retained).
End Plans.

Section Store.
Context `{JsHost} `{RecordJson}.

(** [SELECT payload FROM] a table, in the order of its rows. *)
Definition all_records (k : SqliteHotEntityTable) (db : SqliteDb) : result string (list (hot_record k)) :=
  parse_rows k (sql_rows k db).

Definition planHotTaskRetention (o : TaskRetentionOptions) (db : SqliteDb) : result string SqliteHotRetentionPlan :=
  r_bind (all_records BrokerTasks db) (fun records => Ok (planTaskRetentionFromRecords records o)).
Definition planHotAuditRetention (o : AuditRetentionOptions) (db : SqliteDb) : result string SqliteHotRetentionPlan :=
  r_bind (all_records BrokerAuditEvents db) (fun records => Ok (planAuditRetentionFromRecords records o)).
Definition planHotWorkerRetention (o : WorkerRetentionOptions) (db : SqliteDb) : result string SqliteHotRetentionPlan :=
  r_bind (all_records BrokerWorkers db) (fun records => Ok (planWorkerRetentionFromRecords records o)).
Definition planHotTerminalOutboxRetention (o : OutboxRetentionOptions) (db : SqliteDb)
    : result string SqliteHotRetentionPlan :=
  r_bind (all_records BrokerTerminalOutbox db) (fun records => Ok (planTerminalOutboxRetentionFromRecords records o)).

(** The results in the order of the plans. *)
Definition applyHotRetentionPlan (plan : SqliteHotRetentionPlan) (db : SqliteDb)
    : SqliteDb * SqliteHotRetentionApplyResult := applyHotRetentionPlanUnsafe plan db.

Definition applyHotRetentionPlans (plans : list SqliteHotRetentionPlan) (db : SqliteDb)
    : SqliteDb * list SqliteHotRetentionApplyResult :=
  foldl (fun acc plan => let '(db, r) := applyHotRetentionPlanUnsafe plan acc.1 in (db, acc.2 ++ [r]))
    (db, []) plans.

(** ** Diagnostics *)

Record HintCoverage : Type := mkHintCoverage {
  hcv_ok : bool;
  hcv_supportedTables : list SqliteHotEntityTable;
  hcv_missingTables : list SqliteHotEntityTable;
  hcv_supportedCount : Z;
  hcv_totalCount : Z;
}.

Definition buildHotEntityHintCoverage (hotEntityTables hintedWriteTables : list SqliteHotEntityTable) : HintCoverage :=
  let missing := List.filter (fun t => negb (bool_decide (t ∈ hintedWriteTables))) hotEntityTables in
  {| hcv_ok := length missing =? 0;
     hcv_supportedTables := hintedWriteTables;
     hcv_missingTables := missing;
     hcv_supportedCount := Z.of_nat (length hintedWriteTables);
     hcv_totalCount := Z.of_nat (length hotEntityTables) |}.

Inductive MirrorReason : Type := AuditHotRetention | IdDrift | CountDrift.

Record MirrorEntry : Type := mkMirrorEntry {
  me_table : SqliteHotEntityTable;
  me_tableCount : Z;
  me_snapshotCount : Z;
  me_reason : option MirrorReason;
}.

Record MirrorStatus : Type := mkMirrorStatus {
  ms_ok : bool;
  ms_tableCounts : list (SqliteHotEntityTable * Z);
  ms_mismatches : list MirrorEntry;
  ms_retentionWindows : list MirrorEntry;
}.

Definition readHotEntityTableCounts (db : SqliteDb) : list (SqliteHotEntityTable * Z) :=
  map (fun k => (k, readTableCount k db)) SQLITE_HOT_ENTITY_TABLES.

(** What the comparison of one table yields: a retention window, a mismatch, or
    nothing. *)
Definition mirror_entry (snapshot : BrokerSnapshot) (db : SqliteDb) (k : SqliteHotEntityTable)
    : option (MirrorEntry + MirrorEntry) :=
  let tableCount := readTableCount k db in
  let snapshotCount := countSnapshotEntities snapshot k in
  if bool_decide (k = BrokerAuditEvents) then
    let hotAuditIdsAreSnapshotRows :=
      forallb (in_set (ids_of (map aud_id (sn_auditEvents snapshot)))) (readTableIds BrokerAuditEvents db) in
    if (tableCount <? snapshotCount)%Z && hotAuditIdsAreSnapshotRows
    then Some (inl (mkMirrorEntry k tableCount snapshotCount (Some AuditHotRetention)))
    else if (tableCount =? snapshotCount)%Z && hotAuditIdsAreSnapshotRows then None
    else Some (inr (mkMirrorEntry k tableCount snapshotCount
           (Some (if (tableCount =? snapshotCount)%Z then IdDrift else CountDrift))))
  else if (tableCount =? snapshotCount)%Z then None
  else Some (inr (mkMirrorEntry k tableCount snapshotCount None)).

Definition readHotEntityMirrorStatus (st : SqliteBrokerStateStore) (db : SqliteDb) : result string MirrorStatus :=
  let tableCounts := readHotEntityTableCounts db in
  match db_snapshot db with
  | None =>
      Ok {| ms_ok := forallb (fun kc => (kc.2 =? 0)%Z) tableCounts;
            ms_tableCounts := tableCounts;
            ms_mismatches := map (fun kc => mkMirrorEntry kc.1 kc.2 0 None)
              (List.filter (fun kc => negb (kc.2 =? 0)%Z) tableCounts);
            ms_retentionWindows := [] |}
  | Some row =>
      r_bind (parseSnapshotPayload (sr_payload row) ("SQLite broker snapshot at " ++ ss_dbFile st)%string
                (ss_maxBytes st)) (fun snapshot =>
        if pd_lastPersistSkippedFullSnapshot (readLastPersistDiagnostics db)
        then Ok (mkMirrorStatus true tableCounts [] [])
        else
          let entries := omap (mirror_entry snapshot db) SQLITE_HOT_ENTITY_TABLES in
          let mismatches := omap (fun e => match e with inr m => Some m | inl _ => None end) entries in
          Ok {| ms_ok := length mismatches =? 0;
                ms_tableCounts := tableCounts;
                ms_mismatches := mismatches;
                ms_retentionWindows := omap (fun e => match e with inl w => Some w | inr _ => None end) entries |})
  end.

Definition readTerminalTaskCount (db : SqliteDb) : Z := count_rows BrokerTasks terminal_row db.

Definition readMaxPayloadBytes (k : SqliteHotEntityTable) (db : SqliteDb) : Z :=
  foldr (fun row m => Z.max (json_length (row_payload row)) m) 0%Z (sql_rows k db).

Record RuntimeLoad : Type := mkRuntimeLoad {
  rl_limit : Z;
  rl_loadedCount : Z;
  rl_skippedCount : Z;
  rl_active_terminal : option (Z * Z);
}.

Record LoadMetricEntry : Type := mkLoadMetric {
  lm_count : Z;
  lm_maxPayloadBytes : Z;
  lm_unackedCount : option Z;
  lm_runtimeLoad : option RuntimeLoad;
}.

(** The entry of one table. *)
Definition load_metric (st : SqliteBrokerStateStore) (db : SqliteDb) (k : SqliteHotEntityTable) : LoadMetricEntry :=
  let count := readTableCount k db in
  let maxPayloadBytes := if (count =? 0)%Z then 0%Z else readMaxPayloadBytes k db in
  let capped limit := mkRuntimeLoad limit (Z.min count limit) (Z.max 0 (count - Z.min count limit)) None in
  match k with
  | BrokerTasks =>
      let terminalCount := readTerminalTaskCount db in
      let activeCount := (count - terminalCount)%Z in
      let terminalLoadedCount := Z.min terminalCount (ss_maxTerminalTasks st) in
      mkLoadMetric count maxPayloadBytes None
        (Some (mkRuntimeLoad (ss_maxTerminalTasks st) (activeCount + terminalLoadedCount)
                 (Z.max 0 (terminalCount - terminalLoadedCount)) (Some (activeCount, terminalCount))))
  | BrokerAuditEvents => mkLoadMetric count maxPayloadBytes None (Some (capped (ss_maxAuditEvents st)))
  | BrokerTerminalOutbox =>
      mkLoadMetric count maxPayloadBytes
        (Some (count_rows k (fun row => bool_decide (column row "acknowledged_at" = SqlNull)) db))
        (Some (capped (ss_maxTerminalOutboxEvents st)))
  | _ => mkLoadMetric count maxPayloadBytes None None
  end.

Definition readHotTableLoadMetrics (st : SqliteBrokerStateStore) (db : SqliteDb)
    : list (SqliteHotEntityTable * LoadMetricEntry) :=
  map (fun k => (k, load_metric st db k)) SQLITE_HOT_ENTITY_TABLES.

(** ** Runtime repositories *)

(** [read(...)[0] ?? null]. *)
Definition first_read {A} (r : result string (list A)) : result string (option A) :=
  r_bind r (fun l => Ok (head l)).

Definition repo_getTask (id : string) (db : SqliteDb) : result string (option TaskRecord) :=
  first_read (readHotTasks (mkTaskHotFilters (Some id) None None None None None None None) db).

Definition normalizeRuntimeTaskListLimit (limit : option Z) : option Z :=
  match limit with Some n => if (0 <=? n)%Z then Some n else None | None => None end.

Definition taskMatchesRuntimeFilters (task : TaskRecord) (f : TaskListFilters) : bool :=
  str_filter (tf_exchangeId f) (task_exchangeId task)
  && match tf_status f with Some s => bool_decide (task_status task = s) | None => true end
  && str_filter (tf_targetNodeId f) (Some (task_targetNodeId task))
  && str_filter (tf_proposalId f) (task_proposalId task)
  && match tf_intent f with Some i => bool_decide (task_intent task = i) | None => true end
  && str_filter (tf_claimedBy f) (task_claimedBy task)
  && str_filter (tf_assignedWorkerId f) (task_assignedWorkerId task)
  && match tf_taskOrigin f with
     | Some o => bool_decide ((task_taskOrigin task ?? OriginUnknown) = o) | None => true end.

(** SQL applies the limit when it applies every filter. *)
Definition sqliteCanApplyLimit (f : TaskListFilters) : bool :=
  negb (ostr_truthy (tf_exchangeId f)) && negb (ostr_truthy (tf_proposalId f))
  && negb (ostr_truthy (tf_claimedBy f)).

Definition repo_listTasks (f : TaskListFilters) (db : SqliteDb) : result string (list TaskRecord) :=
  r_bind (readHotTasks {|
      htf_id := None;
      htf_status := tf_status f;
      htf_targetNodeId := tf_targetNodeId f;
      htf_intent := tf_intent f;
      htf_assignedWorkerId := tf_assignedWorkerId f;
      htf_taskOrigin := tf_taskOrigin f;
      htf_maxRows := None;
      htf_limit := if sqliteCanApplyLimit f then tf_limit f else None |} db)
    (fun tasks =>
       let matching := List.filter (fun t => taskMatchesRuntimeFilters t f) tasks in
       Ok (match normalizeRuntimeTaskListLimit (tf_limit f) with
           | Some n => take (Z.to_nat n) matching
           | None => matching
           end)).

Definition repo_upsertTask (task : TaskRecord) (db : SqliteDb) : SqliteDb := upsert_records BrokerTasks [task] db.

Definition repo_getExchange (id : string) (db : SqliteDb) := first_read (readHotExchanges (Some id) db).
Definition repo_upsertExchange (exchange : A2AExchangeState) (db : SqliteDb) : SqliteDb :=
  upsert_records BrokerExchanges [exchange] db.
Definition repo_getExchangeMessage (id : string) (db : SqliteDb) :=
  first_read (readHotExchangeMessages (Some id) None db).
Definition repo_listExchangeMessages (exchangeId : string) (db : SqliteDb) :=
  readHotExchangeMessages None (Some exchangeId) db.
Definition repo_upsertExchangeMessage (message : A2AExchangeMessageRecord) (db : SqliteDb) : SqliteDb :=
  upsert_records BrokerExchangeMessages [message] db.
Definition repo_getProposal (id : string) (db : SqliteDb) :=
  first_read (readHotProposals (mkProposalHotFilters (Some id) None None None None) db).
Definition repo_upsertProposal (proposal : ChangeProposal) (db : SqliteDb) : SqliteDb :=
  upsert_records BrokerProposals [proposal] db.
Definition repo_getArtifact (id : string) (db : SqliteDb) := first_read (readHotArtifacts (Some id) None db).
Definition repo_listArtifactsForProposal (proposalId : string) (db : SqliteDb) :=
  readHotArtifacts None (Some proposalId) db.
Definition repo_upsertArtifact (artifact : ArtifactRecord) (db : SqliteDb) : SqliteDb :=
  upsert_records BrokerArtifacts [artifact] db.
Definition repo_getValidation (id : string) (db : SqliteDb) := first_read (readHotValidations (Some id) None db).
Definition repo_listValidationsForProposal (proposalId : string) (db : SqliteDb) :=
  readHotValidations None (Some proposalId) db.
Definition repo_upsertValidation (validation : ValidationResult) (db : SqliteDb) : SqliteDb :=
  upsert_records BrokerValidations [validation] db.

Definition repo_getWorker (nodeId : string) (db : SqliteDb) : option WorkerRecord :=
  head (readHotWorkers (Some nodeId) None None db).
Definition workerMatchesRuntimeFilters (worker : WorkerRecord) (f : WorkerListFilters) : bool :=
  match wf_role f with Some r => bool_decide (wr_role worker = r) | None => true end
  && match wf_environment f with
     | Some e => bool_decide (e ∈ environments (wr_capabilities worker)) | None => true end
  && match truthy_opt (wf_workspaceId f) with
     | Some i => bool_decide (i ∈ workspaceIds (wr_capabilities worker)) | None => true end.
Definition repo_listWorkers (f : WorkerListFilters) (db : SqliteDb) : list WorkerRecord :=
  List.filter (fun w => workerMatchesRuntimeFilters w f) (readHotWorkers None (wf_role f) None db).
Definition repo_upsertWorker (worker : WorkerRecord) (db : SqliteDb) : SqliteDb :=
  upsert_records BrokerWorkers [worker] db.

Definition getHeartbeatAuditEventId (event : AuditEvent) : option string :=
  match aud_action event, aud_targetType event with
  | AuditWorkerHeartbeat, TargetWorker => Some ("worker-heartbeat:" ++ aud_targetId event)%string
  | AuditTaskHeartbeat, TargetTask => Some ("task-heartbeat:" ++ aud_targetId event)%string
  | _, _ => None
  end.

(** The heartbeats of a target share one row. *)
Definition repo_appendAuditEvent (maxHotAuditEvents maxHotHeartbeatAuditEvents : Z) (event : AuditEvent)
    (db : SqliteDb) : SqliteDb :=
  let hotEvent := event <| aud_id := getHeartbeatAuditEventId event ?? aud_id event |> in
  let db := upsert_records BrokerAuditEvents [hotEvent] db in
  let db := if heartbeat_event hotEvent
            then (pruneHotHeartbeatAuditEventsToMaxUnsafe maxHotHeartbeatAuditEvents db).1 else db in
  (pruneHotAuditEventsToMaxUnsafe maxHotAuditEvents db).1.

Definition repo_getTombstone (taskId : string) (db : SqliteDb) : result string (option TaskTombstone) :=
  first_read (readHotTombstones (mkTombstoneHotFilters (Some taskId) None None None None) db).
Definition repo_upsertTombstone (tombstone : TaskTombstone) (db : SqliteDb) : SqliteDb :=
  upsert_records BrokerTombstones [tombstone] db.
End Store.
