(* ===== verification/Cleanup.v ===== *)
(** * Cleanup of the broker's tables (src/core/broker-cleanup.ts)

    An operator asks for a plan of the rows that retention would delete, and executes
    it with the plan's id as a token of approval, a confirmation and evidence of a
    backup; server.ts computes the plan again before it executes it. *)

From Stdlib Require Import ZArith Lia String Ascii.
From stdpp Require Import base gmap strings list pretty.
From S2P Require Import Prelude JsRuntime JsonText Types Retention BrokerCore EventBuffer TaskEventStream Outbox.
From S2P Require Import Workers Proposals Github TerminalBrief Tasks HotTables SqlStore SqlSave HotRetention.

Inductive BrokerCleanupRiskClass : Type := RiskLow | RiskMedium | RiskHigh.
#[export] Instance BrokerCleanupRiskClass_eq_dec : EqDecision BrokerCleanupRiskClass.
Proof. solve_decision. Defined.
Definition BrokerCleanupRiskClass_text (r : BrokerCleanupRiskClass) : string :=
  match r with RiskLow => "low" | RiskMedium => "medium" | RiskHigh => "high" end.
(** [RISK_ORDER.indexOf]. *)
Definition RISK_ORDER (r : BrokerCleanupRiskClass) : Z := match r with RiskLow => 0 | RiskMedium => 1 | RiskHigh => 2 end.

(** The numbers of the options are integers. *)
Record BrokerCleanupPlanOptions : Type := mkCleanupOptions {
  co_nowMs : option Z;
  co_taskRetentionMs : option Z;
  co_maxTerminalTasks : option Z;
  co_auditRetentionMs : option Z;
  co_maxAuditEvents : option Z;
  co_workerRetentionMs : option Z;
  co_maxInactiveWorkers : option Z;
  co_terminalOutboxRetentionMs : option Z;
  co_maxAcknowledgedTerminalOutboxEvents : option Z;
  co_protectedTaskIds : option (list string);
  co_protectedWorkerIds : option (list string);
}.

(** [Required<BrokerCleanupPlanOptions>]. *)
Record NormalizedCleanupOptions : Type := mkNormalizedCleanup {
  nc_nowMs : Z;
  nc_taskRetentionMs : Z;
  nc_maxTerminalTasks : Z;
  nc_auditRetentionMs : Z;
  nc_maxAuditEvents : Z;
  nc_workerRetentionMs : Z;
  nc_maxInactiveWorkers : Z;
  nc_terminalOutboxRetentionMs : Z;
  nc_maxAcknowledgedTerminalOutboxEvents : Z;
  nc_protectedTaskIds : list string;
  nc_protectedWorkerIds : list string;
}.

Record BrokerCleanupTablePlan : Type := mkTablePlan {
  bp_plan : SqliteHotRetentionPlan;
  bp_stableId : string;
  bp_pruneCount : Z;
  bp_retainedCount : Z;
  bp_reason : string;
  bp_riskClass : BrokerCleanupRiskClass;
  bp_executionBlockedByDefault : option bool;
}.

Record CleanupSummary : Type := mkCleanupSummary {
  cs_candidateTables : Z;
  cs_totalPruneCandidates : Z;
  cs_highestRisk : BrokerCleanupRiskClass;
  cs_executionRequires : list string;
}.

Record BrokerCleanupPlan : Type := mkCleanupPlan {
  cl_planId : string;
  cl_generatedAt : string;
  cl_options : NormalizedCleanupOptions;
  cl_tableCounts : list (SqliteHotEntityTable * Z);
  cl_summary : CleanupSummary;
  cl_tables : list BrokerCleanupTablePlan;
}.

Record BrokerCleanupExecutionOptions : Type := mkCleanupExecution {
  ce_approvalToken : option string;
  ce_confirmation : option string;
  ce_backupProof : option string;
  ce_allowWorkerPrune : option bool;
  ce_actorId : option string;
}.

Record BrokerCleanupExecutionResult : Type := mkCleanupResult {
  cr_planId : string;
  cr_appliedAt : string;
  cr_results : list SqliteHotRetentionApplyResult;
  cr_auditEvent : AuditEvent;
}.

Definition BROKER_CLEANUP_CONFIRMATION : string := "APPLY_BROKER_CLEANUP_PLAN".

Definition DEFAULT_CLEANUP_OPTIONS : NormalizedCleanupOptions := {|
  nc_nowMs := 0;
  nc_taskRetentionMs := terminalRetentionMs DEFAULT_BROKER_RETENTION_POLICY;
  nc_maxTerminalTasks := maxTerminalTasks DEFAULT_BROKER_RETENTION_POLICY;
  nc_auditRetentionMs := auditRetentionMs DEFAULT_BROKER_RETENTION_POLICY;
  nc_maxAuditEvents := maxAuditEvents DEFAULT_BROKER_RETENTION_POLICY;
  nc_workerRetentionMs := inactiveWorkerRetentionMs DEFAULT_BROKER_RETENTION_POLICY;
  nc_maxInactiveWorkers := maxInactiveWorkers DEFAULT_BROKER_RETENTION_POLICY;
  nc_terminalOutboxRetentionMs := terminalRetentionMs DEFAULT_BROKER_RETENTION_POLICY;
  nc_maxAcknowledgedTerminalOutboxEvents := DEFAULT_TERMINAL_TASK_OUTBOX_RETENTION;
  nc_protectedTaskIds := [];
  nc_protectedWorkerIds := [] |}.

Definition normalizeNonNegativeInteger (value : option Z) (fallback : Z) : Z :=
  match value with Some n => Z.max 0 n | None => fallback end.

Definition normalizeStringArray (value : option (list string)) : list string :=
  js_sort string_cmp (js_unique (map js_trim (List.filter (fun s => str_truthy (js_trim s)) (value ?? [])))).

Definition normalizeCleanupOptions (input : BrokerCleanupPlanOptions) (nowMs : Z) : NormalizedCleanupOptions :=
  let d := DEFAULT_CLEANUP_OPTIONS in {|
  nc_nowMs := nowMs;
  nc_taskRetentionMs := normalizeNonNegativeInteger (co_taskRetentionMs input) (nc_taskRetentionMs d);
  nc_maxTerminalTasks := normalizeNonNegativeInteger (co_maxTerminalTasks input) (nc_maxTerminalTasks d);
  nc_auditRetentionMs := normalizeNonNegativeInteger (co_auditRetentionMs input) (nc_auditRetentionMs d);
  nc_maxAuditEvents := normalizeNonNegativeInteger (co_maxAuditEvents input) (nc_maxAuditEvents d);
  nc_workerRetentionMs := normalizeNonNegativeInteger (co_workerRetentionMs input) (nc_workerRetentionMs d);
  nc_maxInactiveWorkers := normalizeNonNegativeInteger (co_maxInactiveWorkers input) (nc_maxInactiveWorkers d);
  nc_terminalOutboxRetentionMs :=
    normalizeNonNegativeInteger (co_terminalOutboxRetentionMs input) (nc_terminalOutboxRetentionMs d);
  nc_maxAcknowledgedTerminalOutboxEvents :=
    normalizeNonNegativeInteger (co_maxAcknowledgedTerminalOutboxEvents input) (nc_maxAcknowledgedTerminalOutboxEvents d);
  nc_protectedTaskIds := normalizeStringArray (co_protectedTaskIds input);
  nc_protectedWorkerIds := normalizeStringArray (co_protectedWorkerIds input) |}.

(** ** Digests *)

Definition json_int (z : Z) : JsValue := JNum (NInt z).
Definition json_strings (l : list string) : JsValue := JArr (map JStr l).

Definition options_json (o : NormalizedCleanupOptions) : JsValue := JObj [
  ("nowMs", json_int (nc_nowMs o));
  ("taskRetentionMs", json_int (nc_taskRetentionMs o));
  ("maxTerminalTasks", json_int (nc_maxTerminalTasks o));
  ("auditRetentionMs", json_int (nc_auditRetentionMs o));
  ("maxAuditEvents", json_int (nc_maxAuditEvents o));
  ("workerRetentionMs", json_int (nc_workerRetentionMs o));
  ("maxInactiveWorkers", json_int (nc_maxInactiveWorkers o));
  ("terminalOutboxRetentionMs", json_int (nc_terminalOutboxRetentionMs o));
  ("maxAcknowledgedTerminalOutboxEvents", json_int (nc_maxAcknowledgedTerminalOutboxEvents o));
  ("protectedTaskIds", json_strings (nc_protectedTaskIds o));
  ("protectedWorkerIds", json_strings (nc_protectedWorkerIds o))].

Definition table_json (t : BrokerCleanupTablePlan) : JsValue := JObj [
  ("table", JStr (table_name (rp_table (bp_plan t))));
  ("cutoffMs", json_int (rp_cutoffMs (bp_plan t)));
  ("retainedIds", json_strings (rp_retainedIds (bp_plan t)));
  ("pruneIds", json_strings (rp_pruneIds (bp_plan t)));
  ("riskClass", JStr (BrokerCleanupRiskClass_text (bp_riskClass t)))].

Definition plan_json (generatedAt : string) (options : NormalizedCleanupOptions) (tables : list BrokerCleanupTablePlan)
    : JsValue := JObj [
  ("generatedAt", JStr generatedAt); ("options", options_json options); ("tables", JArr (map table_json tables))].

Definition result_json (r : SqliteHotRetentionApplyResult) : JsValue := JObj [
  ("table", JStr (table_name (ra_table r))); ("retainedCount", json_int (ra_retainedCount r));
  ("requestedPruneCount", json_int (ra_requestedPruneCount r)); ("prunedCount", json_int (ra_prunedCount r));
  ("remainingCount", json_int (ra_remainingCount r))].

Definition stableHash `{JsCrypto} (value : JsValue) : string := str_slice 16 (sha256 (JSON_stringify value)).

(** ** The plan *)

Definition decoratePlan `{JsCrypto} (plan : SqliteHotRetentionPlan) (reason : string) (riskClass : BrokerCleanupRiskClass)
    (executionBlockedByDefault : bool) : BrokerCleanupTablePlan := {|
  bp_plan := plan;
  bp_stableId := stableHash (JObj [("table", JStr (table_name (rp_table plan))); ("cutoffMs", json_int (rp_cutoffMs plan));
    ("pruneIds", json_strings (rp_pruneIds plan))]);
  bp_pruneCount := Z.of_nat (length (rp_pruneIds plan));
  bp_retainedCount := Z.of_nat (length (rp_retainedIds plan));
  bp_reason := reason;
  bp_riskClass := riskClass;
  bp_executionBlockedByDefault := if executionBlockedByDefault then Some true else None |}.

(** The workers that the tasks that have not ended name. *)
Definition active_worker_ids (tasks : list TaskRecord) : list string :=
  js_unique (flat_map (fun t => option_list (truthy_opt (task_assignedWorkerId t)) ++ option_list (truthy_opt (task_claimedBy t)))
    (List.filter (fun t => negb (isTerminalTaskStatus (task_status t))) tasks)).

Definition higher_risk (highest : BrokerCleanupRiskClass) (t : BrokerCleanupTablePlan) : BrokerCleanupRiskClass :=
  if (0 <? bp_pruneCount t)%Z && (RISK_ORDER highest <? RISK_ORDER (bp_riskClass t))%Z then bp_riskClass t else highest.

Section Cleanup.
Context `{JsHost} `{RecordJson} `{JsCrypto}.

(** The four plans, in the order in which they are listed and applied. *)
Definition cleanup_tables (o : NormalizedCleanupOptions) (db : SqliteDb) : result string (list BrokerCleanupTablePlan) :=
  r_bind (readHotTasks (mkTaskHotFilters None None None None None None (Some 2000%Z) None) db) (fun tasks =>
  let protectedWorkerIds := js_sort string_cmp (js_unique (nc_protectedWorkerIds o ++ active_worker_ids tasks)) in
  r_bind (planHotTaskRetention (mkTaskRetentionOptions (nc_nowMs o) (nc_taskRetentionMs o) (nc_maxTerminalTasks o)
    (Some (nc_protectedTaskIds o))) db) (fun taskPlan =>
  r_bind (planHotWorkerRetention (mkWorkerRetentionOptions (nc_nowMs o) (nc_workerRetentionMs o) (nc_maxInactiveWorkers o)
    (Some protectedWorkerIds)) db) (fun workerPlan =>
  r_bind (planHotAuditRetention (mkAuditRetentionOptions (nc_nowMs o) (nc_auditRetentionMs o) (nc_maxAuditEvents o)
    (Some (mkAuditProtection None (Some (rp_retainedIds taskPlan)) None None None None (Some (rp_retainedIds workerPlan)))))
    db) (fun auditPlan =>
  r_bind (planHotTerminalOutboxRetention (mkOutboxRetentionOptions (nc_nowMs o) (nc_terminalOutboxRetentionMs o)
    (nc_maxAcknowledgedTerminalOutboxEvents o)) db) (fun terminalOutboxPlan =>
  Ok [decoratePlan taskPlan "terminal task rows older than retention/cap window" RiskMedium false;
      decoratePlan auditPlan "audit rows outside retention/cap window after protected target coverage" RiskLow false;
      decoratePlan workerPlan "inactive worker rows outside retention/cap window" RiskHigh true;
      decoratePlan terminalOutboxPlan
        "acknowledged terminal outbox rows older than retention/cap window; unacked rows are always retained" RiskHigh true]))))).

Definition execution_requires : list string := [
  "matching approvalToken equal to planId";
  "confirmation string APPLY_BROKER_CLEANUP_PLAN";
  "non-empty backupProof/checkpoint evidence";
  "separate allowWorkerPrune=true when worker rows are candidates"].

(** [clock] is what [Date.now()] reads. *)
Definition buildBrokerCleanupPlan (input : BrokerCleanupPlanOptions) (clock : Z) (db : SqliteDb)
    : result string BrokerCleanupPlan :=
  let nowMs := co_nowMs input ?? clock in
  let normalized := normalizeCleanupOptions input nowMs in
  r_bind (cleanup_tables normalized db) (fun tables =>
  let totalPruneCandidates := foldl (fun sum t => sum + bp_pruneCount t)%Z 0%Z tables in
  let generatedAt := toISOString nowMs in
  Ok {| cl_planId := stableHash (plan_json generatedAt normalized tables);
        cl_generatedAt := generatedAt;
        cl_options := normalized;
        cl_tableCounts := readHotEntityTableCounts db;
        cl_summary := {|
          cs_candidateTables := Z.of_nat (length (List.filter (fun t => (0 <? bp_pruneCount t)%Z) tables));
          cs_totalPruneCandidates := totalPruneCandidates;
          cs_highestRisk := if (totalPruneCandidates =? 0)%Z then RiskLow else foldl higher_risk RiskLow tables;
          cs_executionRequires := execution_requires |};
        cl_tables := tables |}).

(** ** Execution *)

(** [plan.tables.find(...)?.pruneCount ?? 0]. *)
Definition prune_count_of (k : SqliteHotEntityTable) (plan : BrokerCleanupPlan) : Z :=
  match List.find (fun t => bool_decide (rp_table (bp_plan t) = k)) (cl_tables plan) with
  | Some t => bp_pruneCount t | None => 0%Z end.

Definition validateCleanupExecution (plan : BrokerCleanupPlan) (options : BrokerCleanupExecutionOptions) : list string :=
  (if bool_decide (ce_approvalToken options = Some (cl_planId plan)) then []
   else ["approvalToken does not match planId"%string])
  ++ (if bool_decide (ce_confirmation options = Some BROKER_CLEANUP_CONFIRMATION) then []
      else ["confirmation must equal APPLY_BROKER_CLEANUP_PLAN"%string])
  ++ (if match ce_backupProof options with Some p => str_truthy (js_trim p) | None => false end then []
      else ["backupProof is required before cleanup execution"%string])
  ++ (if (0 <? prune_count_of BrokerWorkers plan)%Z && negb (bool_decide (ce_allowWorkerPrune options = Some true))
      then ["worker prune candidates require allowWorkerPrune=true because stale workers may still be valid home-broker records"%string]
      else [])
  ++ (if (0 <? prune_count_of BrokerTerminalOutbox plan)%Z
      then ["terminal outbox prune candidates are dry-run-only; require separate operator ACK/prune approval path"%string]
      else []).

Definition cleanup_audit_event (plan : BrokerCleanupPlan) (options : BrokerCleanupExecutionOptions) (clock : Z)
    (results : list SqliteHotRetentionApplyResult) : AuditEvent := {|
  aud_id := "broker-cleanup-" ++ cl_planId plan ++ "-" ++ pretty clock;
  aud_actorId := (ce_actorId options ≫= trimmed) ?? "operator.cleanup";
  aud_action := AuditBrokerCleanupApplied;
  aud_targetType := TargetBroker;
  aud_targetId := cl_planId plan;
  aud_proposalId := None;
  aud_note := Some (JSON_stringify (JObj [
    ("backupProof", match ce_backupProof options with Some p => JStr p | None => JUndef end);
    ("rollback", JStr "restore the broker SQLite file from the referenced backup/checkpoint, then restart/reload under operator control");
    ("results", JArr (map result_json results))]));
  aud_createdAt := toISOString clock |}%string.

(** [clock] is the time of [new Date()], which [Date.parse] reads back. *)
Definition executeBrokerCleanupPlan (plan : BrokerCleanupPlan) (options : BrokerCleanupExecutionOptions) (clock : Z)
    (db : SqliteDb) : SqliteDb * result string BrokerCleanupExecutionResult :=
  let blockers := validateCleanupExecution plan options in
  if 0 <? length blockers then
    (db, Err ("broker cleanup execution blocked: " ++ String.concat "; " blockers)%string)
  else
    let '(db, results) := applyHotRetentionPlans (map bp_plan (cl_tables plan)) db in
    let auditEvent := cleanup_audit_event plan options clock results in
    (upsert_records BrokerAuditEvents [auditEvent] db,
     Ok (mkCleanupResult (cl_planId plan) (toISOString clock) results auditEvent)).

(** POST /operator/cleanup/execute: the plan is computed again from the options of the
    request; [inl] is the answer 409 with what blocks it. *)
Definition post_cleanup_execute (input : BrokerCleanupPlanOptions) (options : BrokerCleanupExecutionOptions)
    (planned executed : Z) (db : SqliteDb)
    : SqliteDb * result string (list string + BrokerCleanupPlan * BrokerCleanupExecutionResult) :=
  match buildBrokerCleanupPlan input planned db with
  | Err e => (db, Err e)
  | Ok plan =>
      let blockers := validateCleanupExecution plan options in
      if 0 <? length blockers then (db, Ok (inl blockers))
      else match executeBrokerCleanupPlan plan options executed db with
           | (db, Ok r) => (db, Ok (inr (plan, r)))
           | (db, Err e) => (db, Err e)
           end
  end.
End Cleanup.
