(* ===== verification/StoreFacts.v ===== *)
(** * What the hot tables hold

    The effect of every save on the rows of a table, and the simulation with
    [Durability]: whatever save the broker's calls run, the row of a live record
    is the record's. *)

From Stdlib Require Import ZArith Lia String.
From stdpp Require Import base gmap strings list pretty relations.
From S2P Require Import Prelude JsRuntime Types Policy Retention BrokerCore CoreFacts.
From S2P Require Import EventBuffer TaskEventStream Outbox Workers Proposals Github TerminalBrief Tasks.
From S2P Require Import TaskFacts Exchanges System Walk Durability HotTables SqlStore SqlSave.

Section Tables.
Context `{RecordJson}.

Definition row_of (k : SqliteHotEntityTable) (r : hot_record k) : HotRow :=
  mkHotRow (hot_columns k r) (stringify k r).

Definition row_at (k : SqliteHotEntityTable) (id : string) (db : SqliteDb) : option HotRow :=
  jm_get id (db_tables db k).

(** ** Statements *)

Lemma table_set_eq k f db : db_tables (set_table k f db) k = f (db_tables db k).
Proof. unfold set_table. simpl. by rewrite decide_True. Qed.

Lemma table_set_ne k k' f db : k' <> k -> db_tables (set_table k f db) k' = db_tables db k'.
Proof. intros Hne. unfold set_table. simpl. by rewrite decide_False. Qed.

Lemma row_at_delete k keys id db :
  row_at k id (sql_delete k keys db) = if bool_decide (id ∈ keys) then None else row_at k id db.
Proof.
  unfold row_at, sql_delete. rewrite table_set_eq, jm_get_filter. by destruct (bool_decide _).
Qed.

(** The row the last of the records with this id leaves. *)
Definition last_row (k : SqliteHotEntityTable) (l : list (hot_record k)) (id : string) : option HotRow :=
  foldl (fun acc r => if String.eqb id (hot_id k r) then Some (row_of k r) else acc) None l.

Lemma row_at_upserts k l db id :
  row_at k id (upsert_records k l db) = last_row k l id ??o row_at k id db.
Proof.
  unfold last_row, upsert_records. induction l as [|r l IH] using rev_ind; [done|].
  rewrite !foldl_app. cbn [foldl]. unfold upsert_record, sql_upsert, row_at at 1.
  rewrite table_set_eq, jm_get_set. destruct (String.eqb id (hot_id k r)); [done|]. apply IH.
Qed.

Lemma upserts_other k k' l db : k' <> k -> db_tables (upsert_records k l db) k' = db_tables db k'.
Proof.
  intros Hne. unfold upsert_records. revert db. induction l as [|r l IH]; intros db; simpl; [done|].
  rewrite IH. by apply table_set_ne.
Qed.

Lemma last_row_find k l id :
  NoDup (map (hot_id k) l) ->
  last_row k l id = row_of k <$> List.find (fun r => String.eqb (hot_id k r) id) l.
Proof.
  intros Hnd. unfold last_row.
  assert (forall acc, foldl (fun acc r => if String.eqb id (hot_id k r) then Some (row_of k r) else acc) acc l
    = (row_of k <$> List.find (fun r => String.eqb (hot_id k r) id) l) ??o acc) as Hgen.
  { induction l as [|r l IH]; intros acc; simpl; [done|]. apply NoDup_cons in Hnd as [Hn Hnd].
    rewrite IH by done. rewrite (String.eqb_sym (hot_id k r) id).
    destruct (String.eqb_spec id (hot_id k r)) as [->|]; [|done].
    destruct (List.find _ l) as [r'|] eqn:Hf; [|done].
    apply find_some in Hf as [Hin Heq%String.eqb_eq]. destruct Hn. rewrite <- Heq.
    apply list_elem_of_fmap. exists r'. split; [done|]. by apply list_elem_of_In. }
  rewrite Hgen. by destruct (row_of k <$> _).
Qed.

Lemma last_row_keyed k (m : jsmap (hot_record k)) id :
  keyed (hot_id k) m -> last_row k (jm_values m) id = row_of k <$> jm_get id m.
Proof. intros Hm. rewrite last_row_find by (by apply keyed_ids_NoDup). by rewrite keyed_find. Qed.

Lemma readTableIds_elem k db id : id ∈ readTableIds k db <-> is_Some (row_at k id db).
Proof.
  unfold readTableIds, row_at. by rewrite elem_of_js_sort, jm_get_is_Some.
Qed.

Lemma applyPlan_row plan k id db :
  row_at k id (applyHotRetentionPlanUnsafe plan db).1
  = if bool_decide (k = rp_table plan /\ id ∈ rp_pruneIds plan) then None else row_at k id db.
Proof.
  unfold applyHotRetentionPlanUnsafe. simpl.
  set (ids := List.filter _ (rp_pruneIds plan)).
  assert (id ∈ ids <-> id ∈ rp_pruneIds plan /\ is_Some (row_at (rp_table plan) id db)) as Hids.
  { unfold ids. rewrite list_elem_of_In, filter_In, <- list_elem_of_In, bool_decide_eq_true.
    by rewrite readTableIds_elem. }
  assert (row_at k id (if 0 <? length ids then sql_delete (rp_table plan) ids db else db)
    = if bool_decide (k = rp_table plan /\ id ∈ ids) then None else row_at k id db) as ->.
  { destruct (Nat.ltb_spec 0 (length ids)) as [Hlt|Hge].
    - destruct (decide (k = rp_table plan)) as [->|Hne].
      + rewrite row_at_delete. apply (f_equal (fun c : bool => if c then _ else _)).
        apply bool_decide_ext. tauto.
      + rewrite bool_decide_eq_false_2 by tauto. unfold row_at, sql_delete. by rewrite table_set_ne.
    - assert (ids = []) as -> by (by apply length_zero_iff_nil; lia).
      rewrite bool_decide_eq_false_2; [done|]. set_solver. }
  destruct (decide (k = rp_table plan)) as [->|Hne].
  - destruct (row_at (rp_table plan) id db) as [r|] eqn:Hr; [|by repeat case_bool_decide].
    apply (f_equal (fun c : bool => if c then _ else _)). apply bool_decide_ext.
    rewrite Hids. split; [tauto|]. intros [? ?]. split_and!; [done..|]. by eexists.
  - by rewrite !bool_decide_eq_false_2 by tauto.
Qed.

Lemma canonical_row k ids k' id db :
  row_at k' id (applyCanonicalHotRetentionPlan k ids db)
  = if bool_decide (k' = k /\ id ∉ ids) then None else row_at k' id db.
Proof.
  unfold applyCanonicalHotRetentionPlan. rewrite applyPlan_row. simpl.
  destruct (decide (k' = k)) as [->|Hne]; [|by rewrite !bool_decide_eq_false_2 by tauto].
  destruct (row_at k id db) as [r|] eqn:Hr; [|by repeat case_bool_decide].
  apply (f_equal (fun c : bool => if c then _ else _)). apply bool_decide_ext.
  rewrite list_elem_of_In, filter_In, <- list_elem_of_In, readTableIds_elem, negb_true_iff.
  rewrite in_set_false, elem_of_ids_of. split; [tauto|]. intros [? ?]. split_and!; [done|by eexists|done].
Qed.

(** The tables an operation leaves alone. *)
Definition same_table (k : SqliteHotEntityTable) (db db' : SqliteDb) : Prop := db_tables db' k = db_tables db k.

Lemma canonical_other k ids k' db : k' <> k -> same_table k' db (applyCanonicalHotRetentionPlan k ids db).
Proof.
  intros Hne. unfold applyCanonicalHotRetentionPlan, applyHotRetentionPlanUnsafe, same_table. simpl.
  destruct (0 <? _); [|done]. by apply table_set_ne.
Qed.

Lemma prune_other count where_ max k db :
  k <> BrokerAuditEvents -> same_table k db (prune_to_max count where_ max db).1.
Proof.
  intros Hne. unfold prune_to_max, same_table. destruct (_ <=? _)%Z; [done|]. by apply table_set_ne.
Qed.

(** ** Folds over the tables *)

Lemma fold_row (f : SqliteHotEntityTable -> SqliteDb -> SqliteDb) (g : option HotRow -> option HotRow) k id l db :
  (forall db, row_at k id (f k db) = g (row_at k id db)) ->
  (forall k' db, k' <> k -> row_at k id (f k' db) = row_at k id db) ->
  NoDup l ->
  row_at k id (foldl (fun db k => f k db) db l)
  = if bool_decide (k ∈ l) then g (row_at k id db) else row_at k id db.
Proof.
  intros Hk Ho. revert db. induction l as [|k' l IH]; intros db Hnd; simpl; [done|].
  apply NoDup_cons in Hnd as [Hn Hnd]. rewrite IH by done.
  destruct (decide (k' = k)) as [->|Hne].
  - rewrite bool_decide_eq_false_2 by done. rewrite bool_decide_eq_true_2 by set_solver. apply Hk.
  - rewrite Ho by done. apply (f_equal (fun c : bool => if c then _ else _)). apply bool_decide_ext. set_solver.
Qed.

Lemma same_row k id db db' : same_table k db db' -> row_at k id db' = row_at k id db.
Proof. unfold same_table, row_at. by intros ->. Qed.

(** The row a write leaves, from the hints, the ids of the snapshot and the old
    row. *)
Definition hinted_row (k : SqliteHotEntityTable) (s : BrokerSnapshot) (rows : option (list (hot_record k)))
    (id : string) (old : option HotRow) : option HotRow :=
  match rows with
  | None => old
  | Some rows => last_row k rows id
      ??o if bool_decide (id ∉ map (hot_id k) (snapshot_records s k)) then None else old
  end.

Lemma write_hinted_row s hints k id db :
  row_at k id (write_hinted s hints k db) = hinted_row k s (hints k) id (row_at k id db).
Proof.
  unfold write_hinted, hinted_row. destruct (hints k) as [rows|]; [|done].
  rewrite row_at_upserts, canonical_row. f_equal. apply (f_equal (fun c : bool => if c then _ else _)).
  apply bool_decide_ext. tauto.
Qed.

Lemma write_hinted_other s hints k k' db : k <> k' -> same_table k db (write_hinted s hints k' db).
Proof.
  intros Hne. unfold write_hinted, same_table. destruct (hints k') as [rows|]; [|done].
  rewrite upserts_other by done. by apply canonical_other.
Qed.

Lemma write_audit_other st s hints k db :
  k <> BrokerAuditEvents -> same_table k db (write_hinted_audit st s hints db).
Proof.
  intros Hne. unfold write_hinted_audit, same_table. destruct (hints BrokerAuditEvents) as [events|]; [|done].
  cbv zeta. unfold pruneHotAuditEventsToMaxUnsafe, pruneHotHeartbeatAuditEventsToMaxUnsafe. destruct (_ && _).
  - rewrite !(prune_other _ _ _ k _ Hne). by rewrite upserts_other.
  - rewrite upserts_other by done. by apply canonical_other.
Qed.

Lemma table_cases k : k <> BrokerAuditEvents -> k ∈ tables_before_audit \/ k ∈ tables_after_audit.
Proof. intros Hne. destruct k; try done; unfold tables_before_audit, tables_after_audit; set_solver. Qed.

Lemma tables_apart k : k ∈ tables_before_audit -> k ∈ tables_after_audit -> False.
Proof. unfold tables_before_audit, tables_after_audit. set_solver. Qed.

Lemma NoDup_tables :
  NoDup tables_before_audit /\ NoDup tables_after_audit /\ NoDup tables_cleared /\ NoDup tables_filled.
Proof. split_and!; apply (bool_decide_unpack _); reflexivity. Qed.

Lemma incremental_row st s hints k id db :
  k <> BrokerAuditEvents ->
  row_at k id (incremental_write st s hints db) = hinted_row k s (hints k) id (row_at k id db).
Proof.
  intros Hne. destruct NoDup_tables as (Hb & Ha & _). unfold incremental_write. cbv zeta.
  set (g := hinted_row k s (hints k) id).
  assert (forall db, row_at k id (write_hinted s hints k db) = g (row_at k id db)) as Hk
    by (intros; apply write_hinted_row).
  assert (forall k' db, k' <> k -> row_at k id (write_hinted s hints k' db) = row_at k id db) as Ho
    by (intros; apply same_row, write_hinted_other; congruence).
  rewrite (fold_row (write_hinted s hints) g k id) by done.
  rewrite (same_row k id _ _ (write_audit_other st s hints k _ Hne)).
  rewrite (fold_row (write_hinted s hints) g k id) by done.
  destruct (table_cases k Hne) as [Hin|Hin].
  - rewrite (bool_decide_eq_true_2 _ Hin), bool_decide_eq_false_2; [done|]. intros Hin'. by eapply tables_apart.
  - rewrite (bool_decide_eq_true_2 _ Hin), bool_decide_eq_false_2; [done|]. intros Hin'. by eapply tables_apart.
Qed.

Lemma hint_rows_row hints k id db :
  row_at k id (write_hint_rows hints k db)
  = match hints k with Some rows => last_row k rows id ??o row_at k id db | None => row_at k id db end.
Proof. unfold write_hint_rows. destruct (hints k); [apply row_at_upserts|done]. Qed.

Lemma write_audit_hints_other st hints k db :
  k <> BrokerAuditEvents -> same_table k db (write_audit_hint_rows st hints db).
Proof.
  intros Hne. unfold write_audit_hint_rows, same_table. destruct (hints BrokerAuditEvents) as [events|]; [|done].
  cbv zeta. unfold pruneHotAuditEventsToMaxUnsafe, pruneHotHeartbeatAuditEventsToMaxUnsafe.
  rewrite (prune_other _ _ _ k _ Hne). destruct (existsb _ _).
  - rewrite (prune_other _ _ _ k _ Hne). by rewrite upserts_other.
  - by rewrite upserts_other.
Qed.

Lemma hot_write_row st hints k id db :
  k <> BrokerAuditEvents ->
  row_at k id (writeHotEntityHintRows st hints db)
  = match hints k with Some rows => last_row k rows id ??o row_at k id db | None => row_at k id db end.
Proof.
  intros Hne. destruct NoDup_tables as (Hb & Ha & _). unfold writeHotEntityHintRows. cbv zeta.
  set (g := fun old => match hints k with Some rows => last_row k rows id ??o old | None => old end).
  assert (forall db, row_at k id (write_hint_rows hints k db) = g (row_at k id db)) as Hk
    by (intros; apply hint_rows_row).
  assert (forall k' db, k' <> k -> row_at k id (write_hint_rows hints k' db) = row_at k id db) as Ho.
  { intros k' db' Hk'. unfold write_hint_rows, row_at. destruct (hints k'); [|done].
    rewrite upserts_other by congruence. done. }
  change (match hints k with Some rows => last_row k rows id ??o row_at k id db | None => row_at k id db end)
    with (g (row_at k id db)).
  rewrite (fold_row (write_hint_rows hints) g k id) by done.
  rewrite (same_row k id _ _ (write_audit_hints_other st hints k _ Hne)).
  rewrite (fold_row (write_hint_rows hints) g k id) by done.
  destruct (table_cases k Hne) as [Hin|Hin].
  - rewrite (bool_decide_eq_true_2 _ Hin), bool_decide_eq_false_2; [done|]. intros Hin'. by eapply tables_apart.
  - rewrite (bool_decide_eq_true_2 _ Hin), bool_decide_eq_false_2; [done|]. intros Hin'. by eapply tables_apart.
Qed.

(** A full write without hints. *)
Lemma full_row s hints k id db :
  (hints ?> fun h => h k) = None -> NoDup (map (hot_id k) (snapshot_records s k)) ->
  row_at k id (full_write s hints db) = last_row k (snapshot_records s k) id.
Proof.
  intros Hh Hnd. destruct NoDup_tables as (_ & _ & Hc & Hf). unfold full_write.
  rewrite (fold_row (fill_table s hints) (fun old => last_row k (snapshot_records s k) id ??o old) k id);
    [|intros; unfold fill_table; rewrite row_at_upserts, Hh; done
     |intros k' db' Hk'; unfold fill_table, row_at; rewrite upserts_other by congruence; done|done].
  rewrite bool_decide_eq_true_2 by (destruct k; unfold tables_filled, tables_before_audit; set_solver).
  rewrite (fold_row (clear_table s hints)
    (fun old => if bool_decide (k = BrokerTerminalOutbox /\ id ∈ map (hot_id k) (snapshot_records s k))
                then old else None) k id).
  - rewrite bool_decide_eq_true_2 by (destruct k; unfold tables_cleared, tables_before_audit; set_solver).
    case_bool_decide as Hb; [|by destruct (last_row k _ id)].
    rewrite last_row_find by done. destruct Hb as [_ Hin].
    apply list_elem_of_fmap in Hin as (r & -> & Hin).
    destruct (List.find _ _) as [r'|] eqn:Hf'; [done|].
    apply list_elem_of_In in Hin. apply (find_none _ _ Hf') in Hin. by rewrite String.eqb_refl in Hin.
  - intros db'. unfold clear_table. rewrite Hh. simpl. case_bool_decide as Hk.
    + rewrite canonical_row. repeat case_bool_decide; try done; tauto.
    + rewrite bool_decide_eq_false_2 by tauto. unfold row_at. by rewrite table_set_eq.
  - intros k' db' Hk'. apply same_row. unfold clear_table. destruct (_ || _).
    + apply canonical_other. congruence.
    + unfold same_table. apply table_set_ne. congruence.
  - done.
Qed.
End Tables.

(** ** Saves *)

Section Simulation.
Context `{RecordJson}.

(** The table of [Durability] as a hot table, and the row of its records. *)
Definition hot_table (k : table) : SqliteHotEntityTable :=
  match k with
  | TabMessages => BrokerExchangeMessages
  | TabProposals => BrokerProposals
  | TabArtifacts => BrokerArtifacts
  | TabValidations => BrokerValidations
  | TabAuditEvents => BrokerAuditEvents
  | TabWorkers => BrokerWorkers
  | TabTasks => BrokerTasks
  | TabTombstones => BrokerTombstones
  end.

Definition hot_row (k : table) : row k -> HotRow :=
  match k with
  | TabMessages => row_of BrokerExchangeMessages
  | TabProposals => row_of BrokerProposals
  | TabArtifacts => row_of BrokerArtifacts
  | TabValidations => row_of BrokerValidations
  | TabAuditEvents => row_of BrokerAuditEvents
  | TabWorkers => row_of BrokerWorkers
  | TabTasks => row_of BrokerTasks
  | TabTombstones => row_of BrokerTombstones
  end.

(** The rows some records leave, by table. *)
Lemma rows_of_pending k p id (old : option HotRow) :
  keyed (row_id k) (pending k p) ->
  match hints_of p (hot_table k) with
  | Some rows => last_row (hot_table k) rows id ??o old | None => old end
  = (hot_row k <$> jm_get id (pending k p)) ??o old.
Proof.
  intros Hk.
  assert (forall k' (m : jsmap (hot_record k')), keyed (hot_id k') m ->
    match hint_rows m with Some rows => last_row k' rows id ??o old | None => old end
    = (row_of k' <$> jm_get id m) ??o old) as Hgen.
  { intros k' m Hm. unfold hint_rows, nonempty. destruct (Nat.eqb_spec (length m) 0) as [Hz|].
    - apply length_zero_iff_nil in Hz as ->. done.
    - simpl. by rewrite last_row_keyed. }
  destruct k; by apply Hgen.
Qed.

Lemma rows_of_snapshot k s id :
  NoDup (map (row_id k) (snapshot_rows k s)) ->
  last_row (hot_table k) (snapshot_records s (hot_table k)) id
  = hot_row k <$> List.find (fun r => String.eqb (row_id k r) id) (snapshot_rows k s)
  /\ NoDup (map (hot_id (hot_table k)) (snapshot_records s (hot_table k)))
  /\ (forall r, List.find (fun r => String.eqb (row_id k r) id) (snapshot_rows k s) = Some r ->
        id ∈ map (hot_id (hot_table k)) (snapshot_records s (hot_table k))).
Proof.
  intros Hnd.
  assert (forall k' (l : list (hot_record k')) r,
    List.find (fun r => String.eqb (hot_id k' r) id) l = Some r -> id ∈ map (hot_id k') l) as Hin.
  { intros k' l r [Hin <-%String.eqb_eq]%find_some. apply list_elem_of_fmap. exists r.
    split; [done|by apply list_elem_of_In]. }
  specialize (Hin (hot_table k) (snapshot_records s (hot_table k))).
  destruct k; (split_and!; [by apply last_row_find|done|exact Hin]).
Qed.

Lemma pending_entries p k :
  hintsHasAnyEntries (Some (hints_of p)) = false -> pending k p = [] /\ hints_of p (hot_table k) = None.
Proof.
  assert (forall V (m : jsmap V),
    match hint_rows m with Some l => Z.of_nat (length l) | None => 0%Z end = Z.of_nat (length m)) as Hlen.
  { intros V m. unfold hint_rows, nonempty, jm_values. destruct (Nat.eqb_spec (length m) 0) as [->|]; [done|].
    simpl. by rewrite length_map. }
  assert (forall V (m : jsmap V), (0 <? Z.of_nat (length m))%Z = false -> m = [] /\ hint_rows m = None) as Hnil.
  { intros V m Hm%Z.ltb_ge. assert (length m = 0) as Hz by lia. apply length_zero_iff_nil in Hz as ->. done. }
  unfold hintsHasAnyEntries, hint_count. simpl. rewrite !Hlen, !orb_false_iff.
  intros Hall. destruct_and! Hall. destruct k; by apply Hnil.
Qed.

(** [sim calls db]: what the calls saved is in the tables, the audit log apart. *)
Definition sim (calls : list StoreCall) (db : SqliteDb) : Prop :=
  forall k id r, k <> TabAuditEvents -> saved k calls id = Some r ->
    row_at (hot_table k) id db = Some (hot_row k r).

Lemma hot_table_audit k : k <> TabAuditEvents -> hot_table k <> BrokerAuditEvents.
Proof. by destruct k. Qed.

(** The tables after a save that does not throw. *)
Lemma transaction_ok (fn : SqlM unit) db db' : runImmediateTransaction fn db = (db', Ok tt) -> fn db = (db', Ok tt).
Proof. unfold runImmediateTransaction. by destruct (fn db) as [? [[]|]]. Qed.

Lemma diagnostics_tables updatedAt hints skip db :
  db_tables (writePersistDiagnostics updatedAt hints skip db) = db_tables db
  /\ db_snapshot (writePersistDiagnostics updatedAt hints skip db) = db_snapshot db.
Proof.
  unfold writePersistDiagnostics. cbv zeta. destruct hints as [h|]; [destruct (hintsHasAnyEntries (Some h))|]; split; reflexivity.
Qed.

Lemma save_tables st now s hints db db' :
  saveSnapshot st now s hints db = (db', Ok tt) ->
  exists db0, db_tables db0 = db_tables db /\ db_tables db' = db_tables (writeHotEntityTables st s hints db0).
Proof.
  intros Hr%transaction_ok. revert Hr. unfold writeSnapshotRow.
  destruct (hintsHasAnyEntries hints) eqn:He; unfold m_bind, m_ret, m_modify.
  - intros [= <-]. exists db. split; [done|]. by rewrite (proj1 (diagnostics_tables _ _ _ _)).
  - destruct (serializeBrokerSnapshot s (ss_maxBytes st)) as [payload|]; [|discriminate].
    intros [= <-]. rewrite (proj1 (diagnostics_tables _ _ _ _)).
    exists (db <| db_snapshot := Some (mkSnapshotRow CURRENT_BROKER_STATE_VERSION payload now) |>).
    split; reflexivity.
Qed.

Lemma save_hot_tables st now hints db db' :
  saveHotEntityHints st now hints db = (db', Ok tt) -> db_tables db' = db_tables (writeHotEntityHintRows st hints db).
Proof.
  intros Hr%transaction_ok. revert Hr. unfold m_bind, m_modify. intros Hr.
  assert (db' = writePersistDiagnostics now (Some hints) true
    (writeMetadata "state_version" state_version_text (writeHotEntityHintRows st hints db))) as -> by congruence.
  by rewrite (proj1 (diagnostics_tables _ _ _ _)).
Qed.

Lemma row_at_tables k id db db' : db_tables db' = db_tables db -> row_at k id db' = row_at k id db.
Proof. unfold row_at. by intros ->. Qed.

Lemma sim_step st now pre c db db' :
  call_hinted pre c -> sim pre db -> run_store_call st now c db = (db', Ok tt) -> sim (pre ++ [c]) db'.
Proof.
  intros Hc Hsim Hrun k id r Hk. rewrite saved_snoc. pose proof (hot_table_audit k Hk) as Hka.
  destruct c as [s hints|p]; cbn [run_store_call call_hinted save_row] in *.
  - intros Hr. apply save_tables in Hrun as (db0 & Hdb0 & Hdb').
    rewrite (row_at_tables _ _ _ _ Hdb'). destruct (Hc k) as [Hnd Hh].
    destruct (rows_of_snapshot k s id Hnd) as (Hlast & Hnd' & Hid).
    unfold writeHotEntityTables. destruct hints as [p|].
    2: { change (hints_of <$> None) with (@None SaveHints). cbv beta iota.
         rewrite full_row by done. by rewrite Hlast, Hr. }
    change (hints_of <$> Some p) with (Some (hints_of p)). cbv beta iota.
    destruct (hintsHasAnyEntries (Some (hints_of p))) eqn:He.
    + rewrite incremental_row by done. unfold hinted_row.
      rewrite bool_decide_eq_false_2 by (intros Hn; apply Hn; by eapply Hid).
      rewrite rows_of_pending by apply Hh. rewrite (row_at_tables _ _ _ _ Hdb0).
      destruct (proj2 Hh id r Hr) as [->|[-> Hs]]; [done|]. simpl. by apply Hsim.
    + destruct (pending_entries p k He) as [_ Hnone]. rewrite full_row by done. by rewrite Hlast, Hr.
  - apply save_hot_tables in Hrun. rewrite (row_at_tables _ _ _ _ Hrun). rewrite hot_write_row by done.
    rewrite rows_of_pending by apply Hc. destruct (jm_get id (pending k p)) as [r'|]; simpl; [by intros [= ->]|].
    by apply Hsim.
Qed.

Lemma sim_run st times calls : forall pre i db db',
  hinted_from pre calls -> sim pre db ->
  m_for (imap (fun j c => (times (i + j), c)) calls) (fun tc => run_store_call st tc.1 tc.2) db = (db', Ok tt) ->
  sim (pre ++ calls) db'.
Proof.
  induction calls as [|c calls IH]; intros pre i db db' Hh Hsim Hrun; simpl in *.
  - injection Hrun as <-. by rewrite app_nil_r.
  - destruct Hh as [Hc Hh]. apply bind_inv in Hrun as [(db1 & [] & H1 & Hrun)|(e & _ & ?)]; [|done].
    replace (pre ++ c :: calls) with ((pre ++ [c]) ++ calls) by (by rewrite <- app_assoc). apply (IH (pre ++ [c]) (S i) db1 db'); [done|by eapply sim_step|].
    rewrite <- Hrun. f_equal. apply imap_ext. intros j x _. simpl. do 2 f_equal. lia.
Qed.

Lemma replay_sim st times calls db :
  hinted_from [] calls -> replay_calls st times calls empty_db = (db, Ok tt) -> sim calls db.
Proof.
  intros Hh Hrun. apply (sim_run st times calls [] 0 empty_db db Hh); [|exact Hrun]. by intros k id r _ Hs.
Qed.
End Simulation.
