(* ===== verification/StoreReads.v ===== *)
(** * What is read back from the hot tables

    Every write keeps the rows of a table the rows of records with distinct keys
    ([sound_db]); so a selection is the image of a selection of records, and the
    runtime snapshot holds every active task while these fit its limit. *)

From Stdlib Require Import ZArith Lia String.
From stdpp Require Import base gmap strings list pretty relations.
From S2P Require Import Prelude JsRuntime Types Policy Retention BrokerCore CoreFacts.
From S2P Require Import EventBuffer TaskEventStream Outbox Workers Proposals Github TerminalBrief Tasks.
From S2P Require Import TaskFacts Exchanges System Walk Durability HotTables SqlStore SqlSave StoreFacts.

Create HintDb sound_db.

Section Sound.
Context `{RecordJson}.

Definition table_of (k : SqliteHotEntityTable) (rs : list (hot_record k)) : jsmap HotRow :=
  map (fun r => (hot_id k r, row_of k r)) rs.

Definition sound_table (k : SqliteHotEntityTable) (m : jsmap HotRow) : Prop :=
  exists rs, m = table_of k rs /\ NoDup (map (hot_id k) rs).

Definition sound_db (db : SqliteDb) : Prop := forall k, sound_table k (db_tables db k).

Lemma table_keys k rs : jm_keys (table_of k rs) = map (hot_id k) rs.
Proof. unfold jm_keys, table_of. apply map_map. Qed.

Lemma table_values k rs : jm_values (table_of k rs) = map (row_of k) rs.
Proof. unfold jm_values, table_of. apply map_map. Qed.

Lemma sound_set k r m : sound_table k m -> sound_table k (jm_set (hot_id k r) (row_of k r) m).
Proof.
  intros (rs & -> & Hnd).
  assert (exists rs', jm_set (hot_id k r) (row_of k r) (table_of k rs) = table_of k rs') as [rs' Hrs'].
  { clear Hnd. induction rs as [|x rs [rs' IH]]; simpl; [by exists [r]|].
    destruct (String.eqb_spec (hot_id k r) (hot_id k x)) as [Heq|].
    - by exists (r :: rs).
    - exists (x :: rs'). by rewrite IH. }
  exists rs'. split; [done|]. rewrite <- table_keys, <- Hrs'. apply jm_wf_set.
  unfold jm_wf. by rewrite table_keys.
Qed.

Lemma sound_filter k p m : sound_table k m -> sound_table k (jm_filter p m).
Proof.
  intros (rs & -> & Hnd). exists (List.filter (fun r => p (hot_id k r)) rs).
  assert (jm_filter p (table_of k rs) = table_of k (List.filter (fun r => p (hot_id k r)) rs)) as Hf.
  { clear Hnd. induction rs as [|x rs IH]; simpl; [done|]. rewrite IH. by destruct (p (hot_id k x)). }
  split; [done|]. rewrite <- table_keys, <- Hf. apply jm_wf_filter. unfold jm_wf. by rewrite table_keys.
Qed.

Lemma sound_set_table k f db : (forall m, sound_table k m -> sound_table k (f m)) -> sound_db db -> sound_db (set_table k f db).
Proof.
  intros Hf Hdb k'. destruct (decide (k' = k)) as [->|Hne].
  - rewrite table_set_eq. by apply Hf.
  - rewrite table_set_ne by done. apply Hdb.
Qed.

Lemma sound_upserts k l db : sound_db db -> sound_db (upsert_records k l db).
Proof.
  unfold upsert_records. revert db. induction l as [|r l IH]; intros db Hdb; simpl; [done|].
  apply IH. apply sound_set_table; [intros m; apply sound_set|done].
Qed.

Lemma sound_delete k keys db : sound_db db -> sound_db (sql_delete k keys db).
Proof. apply sound_set_table. intros m. apply sound_filter. Qed.

Lemma sound_canonical k ids db : sound_db db -> sound_db (applyCanonicalHotRetentionPlan k ids db).
Proof.
  intros Hdb. unfold applyCanonicalHotRetentionPlan, applyHotRetentionPlanUnsafe. simpl.
  destruct (0 <? _); [by apply sound_delete|done].
Qed.

Lemma sound_db_prune count where_ max db : sound_db db -> sound_db (prune_to_max count where_ max db).1.
Proof. intros Hdb. unfold prune_to_max. destruct (_ <=? _)%Z; [done|]. by apply sound_delete. Qed.

Lemma sound_clear k db : sound_db db -> sound_db (set_table k (fun _ => []) db).
Proof. apply sound_set_table. intros m _. exists []. split; [done|constructor]. Qed.

Lemma sound_fold {A} (f : A -> SqliteDb -> SqliteDb) l db :
  (forall a db, sound_db db -> sound_db (f a db)) -> sound_db db -> sound_db (foldl (fun db a => f a db) db l).
Proof. intros Hf. revert db. induction l as [|a l IH]; intros db Hdb; simpl; [done|]. by apply IH, Hf. Qed.

Hint Resolve sound_upserts sound_delete sound_canonical sound_db_prune sound_clear : sound_db.

Lemma sound_incremental st s hints db : sound_db db -> sound_db (incremental_write st s hints db).
Proof.
  intros Hdb. unfold incremental_write. cbv zeta.
  assert (forall k db, sound_db db -> sound_db (write_hinted s hints k db)) as Hw.
  { intros k db' Hdb'. unfold write_hinted. destruct (hints k); auto with sound_db. }
  apply sound_fold; [done|]. unfold write_hinted_audit.
  destruct (hints BrokerAuditEvents) as [events|]; [|by apply sound_fold]. cbv zeta.
  unfold pruneHotAuditEventsToMaxUnsafe, pruneHotHeartbeatAuditEventsToMaxUnsafe.
  destruct (_ && _); auto 6 using sound_fold with sound_db.
Qed.

Lemma sound_full s hints db : sound_db db -> sound_db (full_write s hints db).
Proof.
  intros Hdb. unfold full_write. apply sound_fold.
  - intros k db' Hdb'. by apply sound_upserts.
  - apply sound_fold; [|done]. intros k db' Hdb'. unfold clear_table. destruct (_ || _); auto with sound_db.
Qed.

Lemma sound_hot st hints db : sound_db db -> sound_db (writeHotEntityHintRows st hints db).
Proof.
  intros Hdb. unfold writeHotEntityHintRows. cbv zeta.
  assert (forall k db, sound_db db -> sound_db (write_hint_rows hints k db)) as Hw.
  { intros k db' Hdb'. unfold write_hint_rows. destruct (hints k); auto with sound_db. }
  apply sound_fold; [done|]. unfold write_audit_hint_rows.
  destruct (hints BrokerAuditEvents) as [events|]; [|by apply sound_fold]. cbv zeta.
  unfold pruneHotAuditEventsToMaxUnsafe, pruneHotHeartbeatAuditEventsToMaxUnsafe.
  destruct (existsb _ _); auto 6 using sound_fold with sound_db.
Qed.

Lemma sound_tables db db' : db_tables db' = db_tables db -> sound_db db -> sound_db db'.
Proof. unfold sound_db. by intros ->. Qed.

Lemma sound_call st now c db db' : sound_db db -> run_store_call st now c db = (db', Ok tt) -> sound_db db'.
Proof.
  intros Hdb Hrun. destruct c as [s hints|p]; cbn [run_store_call] in Hrun.
  - apply save_tables in Hrun as (db0 & H0' & H1). apply (sound_tables _ _ H1).
    pose proof (sound_tables _ _ H0' Hdb) as Hdb0. unfold writeHotEntityTables.
    destruct (hints_of <$> hints) as [h|]; [|by apply sound_full].
    destruct (hintsHasAnyEntries (Some h)); [by apply sound_incremental|by apply sound_full].
  - apply save_hot_tables in Hrun. apply (sound_tables _ _ Hrun). by apply sound_hot.
Qed.

Lemma sound_replay st times calls db : replay_calls st times calls empty_db = (db, Ok tt) -> sound_db db.
Proof.
  unfold replay_calls. assert (sound_db empty_db) as Hs by (intros k; exists []; split; [done|constructor]).
  revert Hs. generalize empty_db. generalize (imap (fun i c => (times i, c)) calls). intros l.
  induction l as [|tc l IH]; intros db0 Hs Hrun; simpl in Hrun; [by injection Hrun as <-|].
  apply bind_inv in Hrun as [(db1 & [] & H1 & Hrun)|(e & _ & ?)]; [|done].
  apply (IH db1); [|done]. by eapply sound_call.
Qed.

(** ** Selections *)

(** The records of a table whose text can be read back. *)
Definition readable (db : SqliteDb) : Prop := forall k id r,
  row_at k id db = Some (row_of k r) -> parse_record k (stringify k r) = Ok r.

Lemma parse_rows_of k rs :
  (forall r, r ∈ rs -> parse_record k (stringify k r) = Ok r) -> parse_rows k (map (row_of k) rs) = Ok rs.
Proof.
  intros Hr. induction rs as [|r rs IH]; simpl; [done|]. unfold parseHotEntityPayload. simpl.
  rewrite Hr by set_solver. rewrite IH by set_solver. done.
Qed.

Lemma map_submseteq_inv {A B} (f : A -> B) l rs : l ⊆+ map f rs -> exists rs', l = map f rs' /\ rs' ⊆+ rs.
Proof.
  intros (l2 & Hp)%submseteq_Permutation. symmetry in Hp. apply Permutation_map_inv in Hp as (rs2 & Heq & Hp).
  symmetry in Heq. apply map_eq_app in Heq as (r1 & r2 & -> & <- & <-).
  exists r1. split; [done|]. rewrite Hp. by apply submseteq_inserts_r.
Qed.

Lemma filter_submseteq {A} (p : A -> bool) l : List.filter p l ⊆+ l.
Proof. induction l as [|x l IH]; simpl; [done|]. destruct (p x); [by apply submseteq_skip|by apply submseteq_cons]. Qed.

Lemma select_submseteq k where_ order limit db :
  sql_select k where_ order limit db ⊆+ List.filter where_ (sql_rows k db).
Proof.
  unfold sql_select. assert (js_sort (order_cmp order) (List.filter where_ (sql_rows k db))
    ⊆+ List.filter where_ (sql_rows k db)) as Hs by (by rewrite js_sort_perm).
  destruct limit as [n|]; [|done]. etransitivity; [|exact Hs]. apply sublist_submseteq, sublist_take.
Qed.

(** The records a list of rows of the table stands for. *)
Lemma read_back k db l :
  sound_db db -> readable db -> l ⊆+ sql_rows k db ->
  exists rs, parse_rows k l = Ok rs /\ l = map (row_of k) rs /\ NoDup (map (hot_id k) rs)
    /\ forall r, r ∈ rs -> parse_record k (stringify k r) = Ok r.
Proof.
  intros Hdb Hr Hl. destruct (Hdb k) as (all & Hall & Hnd). unfold sql_rows in Hl.
  rewrite Hall, table_values in Hl. apply map_submseteq_inv in Hl as (rs & -> & Hsub).
  assert (forall r, r ∈ rs -> parse_record k (stringify k r) = Ok r) as Hread.
  2: { exists rs. split_and!; [by apply parse_rows_of|done| |done].
       apply submseteq_Permutation in Hsub as (rest & Hp). rewrite Hp, map_app in Hnd.
       by apply NoDup_app in Hnd as [? _]. }
  intros r Hin. apply (Hr k (hot_id k r) r). unfold row_at. rewrite Hall.
  apply jm_elem_get; [unfold jm_wf; by rewrite table_keys|]. unfold table_of.
  apply list_elem_of_fmap. exists r. split; [done|]. by eapply elem_of_submseteq.
Qed.

Lemma read_select k where_ order limit db :
  sound_db db -> readable db -> exists rs, parse_rows k (sql_select k where_ order limit db) = Ok rs.
Proof.
  intros Hdb Hr. destruct (read_back k db (sql_select k where_ order limit db) Hdb Hr) as (rs & ? & _); [|eauto].
  etransitivity; [apply select_submseteq|apply filter_submseteq].
Qed.

(** The rows of the runtime tasks are distinct rows of the table. *)
Lemma runtime_rows st db :
  sql_select BrokerTasks (fun r => negb (terminal_row r)) [Desc "updated_at"; Asc "id"]
    (Some (ss_maxNonTerminalTasks st)) db
  ++ sql_select BrokerTasks terminal_row [Desc "updated_at"; Asc "id"] (Some (ss_maxTerminalTasks st)) db
  ⊆+ sql_rows BrokerTasks db.
Proof.
  etransitivity; [apply submseteq_app; apply select_submseteq|].
  generalize (sql_rows BrokerTasks db). intros l. induction l as [|x l IH]; simpl; [done|].
  destruct (terminal_row x); simpl; [rewrite <- Permutation_middle|]; by apply submseteq_skip.
Qed.

Lemma terminal_row_of t : terminal_row (row_of BrokerTasks t) = isTerminalTaskStatus (task_status t).
Proof. unfold terminal_row, column. simpl. by destruct (task_status t). Qed.

(** An active task is among the runtime tasks, when these fit the limit. *)
Lemma runtime_has_active st db t :
  sound_db db -> readable db ->
  row_at BrokerTasks (task_id t) db = Some (row_of BrokerTasks t) ->
  isTerminalTaskStatus (task_status t) = false ->
  (count_rows BrokerTasks (fun r => negb (terminal_row r)) db <= ss_maxNonTerminalTasks st)%Z ->
  exists ts, readHotTasksForRuntime st db = Ok ts /\ NoDup (map task_id ts)
    /\ t ∈ ts.
Proof.
  intros Hdb Hr Hat Hact Hcount.
  destruct (read_back BrokerTasks db _ Hdb Hr (runtime_rows st db)) as (ts & Hp & Heq & Hnd & Hread).
  exists ts. split_and!; [exact Hp|exact Hnd|].
  assert (row_of BrokerTasks t ∈ map (row_of BrokerTasks) ts) as Hin.
  { rewrite <- Heq. apply elem_of_app. left. unfold sql_select. rewrite take_ge.
    - apply elem_of_js_sort, list_elem_of_In, filter_In. split.
      + apply list_elem_of_In. unfold sql_rows, jm_values. apply jm_get_elem in Hat.
        apply list_elem_of_fmap. by exists (task_id t, row_of BrokerTasks t).
      + by rewrite terminal_row_of, Hact.
    - rewrite js_sort_perm. unfold count_rows in Hcount. lia. }
  apply list_elem_of_fmap in Hin as (t' & Ht & Hin).
  pose proof (Hr BrokerTasks (task_id t) t Hat) as Ht1. pose proof (Hread t' Hin) as Ht2.
  apply (f_equal row_payload) in Ht. cbn [row_payload row_of] in Ht. rewrite Ht, Ht2 in Ht1.
  by injection Ht1 as <-.
Qed.

(** The runtime snapshot can be read. *)
Lemma runtime_snapshot_reads st db ts :
  sound_db db -> readable db -> readHotTasksForRuntime st db = Ok ts ->
  exists s, readHotRuntimeSnapshot st db = Ok s /\ sn_tasks s = ts.
Proof.
  intros Hdb Hr Hts. unfold readHotRuntimeSnapshot, readHotExchanges, readHotExchangeMessages, readHotProposals,
    readHotArtifacts, readHotValidations, readHotTombstones, readHotTerminalOutbox, readHotAuditEventsForRuntime,
    buildHotTableSelect, r_bind.
  assert (forall k order l, l ⊆+ sql_rows k db -> exists rs, parse_rows k (js_sort (order_cmp order) l) = Ok rs) as Hsort.
  { intros k order l Hl. destruct (read_back k db (js_sort (order_cmp order) l) Hdb Hr) as (rs & ? & _); [|eauto].
    by rewrite js_sort_perm. }
  repeat match goal with |- context [parse_rows ?k (sql_select ?k ?w ?o ?l db)] =>
    let rs := fresh "rs" in let Hrs := fresh "Hrs" in
    destruct (read_select k w o l db Hdb Hr) as [rs Hrs]; rewrite Hrs; clear Hrs end.
  destruct (Hsort BrokerAuditEvents [Desc "created_at"; Asc "id"] (sql_select BrokerAuditEvents (fun _ => true)
    [Desc "created_at"; Asc "id"] (Some (ss_maxAuditEvents st)) db)) as [audits ->].
  { etransitivity; [apply select_submseteq|apply filter_submseteq]. }
  rewrite Hts. cbn [normalizeOptionalSqliteLimit fmap option_fmap option_map].
  destruct (Hsort BrokerTerminalOutbox [Asc "created_at"; Asc "id"] (sql_select BrokerTerminalOutbox (fun _ => true)
    [Desc "created_at"; Desc "id"] (Some (normalizeNonNegativeSqliteLimit (Some (ss_maxTerminalOutboxEvents st)) 0)) db))
    as [outbox Ho].
  { etransitivity; [apply select_submseteq|apply filter_submseteq]. }
  unfold normalizeOptionalSqliteLimit. cbn [fmap option_fmap option_map]. rewrite Ho. by eexists.
Qed.
End Sound.
