(* ===== verification/SqlOrder.v ===== *)
(** * The order of SQL results

    ORDER BY compares by consistent comparators, so that sorting commutes with
    filtering: a condition and a limit may be pushed into the statement.  The
    repository of tasks does so. *)

From Stdlib Require Import ZArith Lia String Sorted Orders OrdersEx.
From stdpp Require Import base gmap strings list pretty.
From S2P Require Import Prelude JsRuntime Types Retention BrokerCore EventBuffer TaskEventStream Outbox.
From S2P Require Import Workers Proposals Github TerminalBrief Tasks HotTables SqlStore SqlSave HotRetention.
From S2P Require Import CoreFacts Durability StoreFacts StoreReads.

(** ** Consistent comparators *)

(** The signs of a total preorder. *)
Record consistent {A} (cmp : A -> A -> Z) : Prop := {
  cmp_flip : forall x y, Z.sgn (cmp y x) = (- Z.sgn (cmp x y))%Z;
  cmp_trans : forall x y z, (cmp x y <= 0)%Z -> (cmp y z <= 0)%Z -> (cmp x z <= 0)%Z;
}.

Section Consistent.
Context {A : Type} (cmp : A -> A -> Z) (Hc : consistent cmp).

Lemma cmp_le_flip x y : (cmp x y <= 0)%Z <-> (0 <= cmp y x)%Z.
Proof. pose proof (cmp_flip _ Hc x y). lia. Qed.

Lemma cmp_lt_trans x y z : (cmp x y < 0)%Z -> (cmp y z <= 0)%Z -> (cmp x z < 0)%Z.
Proof.
  intros Hxy Hyz. destruct (Z.ltb_spec (cmp x z) 0) as [|Hge]; [done|]. exfalso.
  assert (cmp z x <= 0)%Z as Hzx by (pose proof (cmp_flip _ Hc x z); lia).
  pose proof (cmp_trans _ Hc y z x Hyz Hzx). pose proof (cmp_flip _ Hc x y). lia.
Qed.

Lemma cmp_sorted l : StronglySorted (fun x y => (cmp x y <= 0)%Z) (js_sort cmp l).
Proof.
  apply js_sort_sorted; [intros x y z; apply (cmp_trans _ Hc)|].
  intros x y. pose proof (cmp_flip _ Hc x y). lia.
Qed.

Lemma filter_insert (p : A -> bool) x l :
  StronglySorted (fun x y => (cmp x y <= 0)%Z) l ->
  List.filter p (js_insert cmp x l) = if p x then js_insert cmp x (List.filter p l) else List.filter p l.
Proof.
  induction 1 as [|y l Hs IH Hall]; simpl; [by destruct (p x)|].
  destruct (Z.ltb_spec (cmp x y) 0) as [Hlt|Hge]; simpl.
  - destruct (p x); [|done]. destruct (p y); simpl.
    + destruct (Z.ltb_spec (cmp x y) 0); [done|lia].
    + assert (Forall (fun z => (cmp x z < 0)%Z) l) as Hall'.
      { eapply Forall_impl; [exact Hall|]. intros z Hz. by apply (cmp_lt_trans x y z). }
      clear -Hall'. induction Hall' as [|z l Hz _ IH]; simpl; [done|].
      destruct (p z); simpl; [|exact IH]. destruct (Z.ltb_spec (cmp x z) 0); [done|lia].
  - rewrite IH. destruct (p y), (p x); simpl; try done. destruct (Z.ltb_spec (cmp x y) 0); [lia|done].
Qed.

Lemma filter_sort (p : A -> bool) l : List.filter p (js_sort cmp l) = js_sort cmp (List.filter p l).
Proof.
  unfold js_sort. induction l as [|x l IH] using rev_ind; [done|].
  rewrite foldl_app. simpl. rewrite filter_insert by apply cmp_sorted.
  fold (js_sort cmp l) in *. rewrite IH, List.filter_app. simpl.
  destruct (p x); [by rewrite foldl_app|by rewrite app_nil_r].
Qed.
End Consistent.

(** ** The comparators of ORDER BY *)

Lemma string_cmp_flip x y : Z.sgn (string_cmp y x) = (- Z.sgn (string_cmp x y))%Z.
Proof. unfold string_cmp. rewrite (String.compare_antisym x y). by destruct (String.compare y x). Qed.

Lemma string_cmp_trans x y z : (string_cmp x y <= 0)%Z -> (string_cmp y z <= 0)%Z -> (string_cmp x z <= 0)%Z.
Proof.
  unfold string_cmp.
  assert (forall a b, CompareSpec (a = b) (String_as_OT.lt a b) (String_as_OT.lt b a) (String.compare a b)) as Hspec
    by exact String_as_OT.compare_spec.
  pose proof (Hspec x y) as Hxy. pose proof (Hspec y z) as Hyz. pose proof (Hspec x z) as Hxz. clear Hspec.
  assert (forall a, ~ String_as_OT.lt a a) as Hirr by exact (StrictOrder_Irreflexive (R:=String_as_OT.lt)).
  assert (forall a b c, String_as_OT.lt a b -> String_as_OT.lt b c -> String_as_OT.lt a c) as Htr
    by exact (StrictOrder_Transitive (R:=String_as_OT.lt)).
  destruct Hxy as [->|Hxy|Hxy], Hyz as [->|Hyz|Hyz], Hxz as [|Hxz|Hxz]; intros; try lia; exfalso; subst;
    first [exact (Hirr _ Hxz) | exact (Hirr _ (Htr _ _ _ Hxy Hxz)) | exact (Hirr _ (Htr _ _ _ Hyz Hxz))
          | exact (Hirr _ (Htr _ _ _ Hxy (Htr _ _ _ Hyz Hxz)))].
Qed.

Lemma value_cmp_consistent : consistent value_cmp.
Proof.
  split.
  - intros [|x|x] [|y|y]; simpl; try done; [lia|apply string_cmp_flip].
  - intros [|x|x] [|y|y] [|z|z]; simpl; try lia. apply string_cmp_trans.
Qed.

Lemma consistent_on {A B} (f : A -> B) cmp : consistent cmp -> consistent (fun x y => cmp (f x) (f y)).
Proof. intros [Hf Ht]. split; intros *; [apply Hf|apply Ht]. Qed.

Lemma consistent_swap {A} (cmp : A -> A -> Z) : consistent cmp -> consistent (fun x y => cmp y x).
Proof.
  intros Hc. split; intros *; [apply (cmp_flip _ Hc)|]. intros Hxy Hyz. by eapply (cmp_trans _ Hc).
Qed.

(** First by one comparator, then by another. *)
Lemma consistent_then {A} (c1 c2 : A -> A -> Z) :
  consistent c1 -> consistent c2 -> consistent (fun x y => let d := c1 x y in if (d =? 0)%Z then c2 x y else d).
Proof.
  intros H1 H2. split.
  - intros x y. cbv zeta. pose proof (cmp_flip _ H1 x y). pose proof (cmp_flip _ H2 x y).
    destruct (Z.eqb_spec (c1 x y) 0), (Z.eqb_spec (c1 y x) 0); lia.
  - intros x y z. cbv zeta. pose proof (cmp_trans _ H2 x y z).
    pose proof (cmp_flip _ H1 x y). pose proof (cmp_flip _ H1 y z). pose proof (cmp_flip _ H1 x z).
    pose proof (cmp_trans _ H1 x y z). pose proof (cmp_trans _ H1 z x y). pose proof (cmp_trans _ H1 y z x).
    destruct (Z.eqb_spec (c1 x y) 0), (Z.eqb_spec (c1 y z) 0), (Z.eqb_spec (c1 x z) 0); lia.
Qed.

Section Order.
Context `{RecordJson}.

Lemma term_cmp_consistent t : consistent (term_cmp t).
Proof.
  destruct t as [c|c|]; simpl.
  - apply (consistent_on (fun r => column r c)), value_cmp_consistent.
  - apply (consistent_on (fun r => column r c) (fun x y => value_cmp y x)), consistent_swap, value_cmp_consistent.
  - apply (consistent_on (fun r => if decide (column r "kind" = SqlText "root") then 0%Z else 1%Z) Z.sub).
    split; intros *; lia.
Qed.

Lemma order_cmp_consistent order : consistent (order_cmp order).
Proof.
  induction order as [|t order IH]; [split; intros *; simpl; lia|].
  apply (consistent_then (term_cmp t) (order_cmp order)); [apply term_cmp_consistent|exact IH].
Qed.

Lemma select_filter k where_ order db :
  sql_select k where_ order None db = List.filter where_ (sql_select k (fun _ => true) order None db).
Proof.
  unfold sql_select. rewrite (filter_sort _ (order_cmp_consistent order)). do 2 f_equal.
  induction (sql_rows k db) as [|r l IH]; simpl; [done|by f_equal].
Qed.
End Order.

(** ** Listing tasks through the repository *)

Section Listing.
Context `{RecordJson}.

(** The filters that are columns of the table. *)
Definition column_filters (f : TaskListFilters) (t : TaskRecord) : bool :=
  match tf_status f with Some s => bool_decide (task_status t = s) | None => true end
  && str_filter (tf_targetNodeId f) (Some (task_targetNodeId t))
  && match tf_intent f with Some i => bool_decide (task_intent t = i) | None => true end
  && str_filter (tf_assignedWorkerId f) (task_assignedWorkerId t)
  && match tf_taskOrigin f with
     | Some o => bool_decide ((task_taskOrigin t ?? OriginUnknown) = o) | None => true end.

Definition other_filters (f : TaskListFilters) (t : TaskRecord) : bool :=
  str_filter (tf_exchangeId f) (task_exchangeId t) && str_filter (tf_proposalId f) (task_proposalId t)
  && str_filter (tf_claimedBy f) (task_claimedBy t).

Lemma runtime_filters f t : taskMatchesRuntimeFilters t f = column_filters f t && other_filters f t.
Proof.
  unfold taskMatchesRuntimeFilters, column_filters, other_filters.
  repeat match goal with |- context [str_filter ?a ?b] => generalize (str_filter a b); intros [] end;
    repeat (rewrite ?andb_true_r, ?andb_false_r, ?andb_true_l, ?andb_false_l; simpl);
    repeat match goal with |- context [match ?o with Some _ => _ | None => true end] => destruct o end;
    repeat match goal with |- context [bool_decide ?P] => destruct (bool_decide P) end; reflexivity.
Qed.

Definition task_clauses (f : TaskListFilters) : list (string * option string) :=
  [("id", None); ("status", TaskStatus_text <$> tf_status f); ("target_node_id", tf_targetNodeId f);
   ("intent", A2AExchangeIntent_text <$> tf_intent f); ("assigned_worker_id", tf_assignedWorkerId f);
   ("task_origin", TaskOrigin_text <$> tf_taskOrigin f)].

Lemma clause_cons c o l row :
  matches_clauses (filter_clauses ((c, o) :: l)) row
  = match truthy_opt o with Some v => bool_decide (column row c = SqlText v) | None => true end
    && matches_clauses (filter_clauses l) row.
Proof. unfold filter_clauses, matches_clauses. simpl. by destruct (truthy_opt o). Qed.

Lemma status_clause a b : bool_decide (SqlText (TaskStatus_text a) = SqlText (TaskStatus_text b)) = bool_decide (a = b).
Proof. by destruct a, b. Qed.
Lemma intent_clause a b :
  bool_decide (SqlText (A2AExchangeIntent_text a) = SqlText (A2AExchangeIntent_text b)) = bool_decide (a = b).
Proof. by destruct a, b. Qed.
Lemma origin_clause a b : bool_decide (SqlText (TaskOrigin_text a) = SqlText (TaskOrigin_text b)) = bool_decide (a = b).
Proof. by destruct a, b. Qed.

Lemma text_clause o v :
  match truthy_opt o with Some s => bool_decide (sql_nullable v = SqlText s) | None => true end = str_filter o v.
Proof.
  unfold str_filter. destruct (truthy_opt o) as [s|]; [|done]. apply bool_decide_ext.
  destruct v as [v|]; simpl; split; by intros [= ->].
Qed.

Lemma clauses_match f t : matches_clauses (filter_clauses (task_clauses f)) (row_of BrokerTasks t) = column_filters f t.
Proof.
  unfold task_clauses, column_filters. rewrite !clause_cons.
  change (matches_clauses (filter_clauses []) _) with true. rewrite andb_true_r.
  change (column (row_of BrokerTasks t) "status") with (SqlText (TaskStatus_text (task_status t))).
  change (column (row_of BrokerTasks t) "target_node_id") with (sql_nullable (Some (task_targetNodeId t))).
  change (column (row_of BrokerTasks t) "intent") with (SqlText (A2AExchangeIntent_text (task_intent t))).
  change (column (row_of BrokerTasks t) "assigned_worker_id") with (sql_nullable (task_assignedWorkerId t)).
  change (column (row_of BrokerTasks t) "task_origin")
    with (SqlText (TaskOrigin_text (task_taskOrigin t ?? OriginUnknown))).
  cbn [truthy_opt fmap option_fmap option_map andb].
  rewrite !text_clause, !andb_assoc. do 2 f_equal; [f_equal; [f_equal|]|].
  - destruct (tf_status f) as [s|]; [|done]. rewrite <- status_clause. by destruct s.
  - destruct (tf_intent f) as [i|]; [|done]. rewrite <- intent_clause. by destruct i.
  - destruct (tf_taskOrigin f) as [o|]; [|done]. rewrite <- origin_clause. by destruct o.
Qed.

Lemma filter_map {A B} (f : A -> B) p l : List.filter p (map f l) = map f (List.filter (fun a => p (f a)) l).
Proof. induction l as [|a l IH]; simpl; [done|]. rewrite IH. by destruct (p (f a)). Qed.

Lemma filter_filter {A} (p q : A -> bool) l : List.filter p (List.filter q l) = List.filter (fun a => q a && p a) l.
Proof. induction l as [|a l IH]; simpl; [done|]. destruct (q a); simpl; by rewrite IH. Qed.

Lemma filter_all {A} (p : A -> bool) l : (forall a, a ∈ l -> p a = true) -> List.filter p l = l.
Proof.
  induction l as [|a l IH]; intros Hp; simpl; [done|]. rewrite Hp by set_solver. f_equal. apply IH. set_solver.
Qed.

Definition by_update : list OrderTerm := [Desc "updated_at"; Asc "id"].

(** What the repository reads, from all tasks in the order of their updates. *)
Lemma read_tasks_run f limit db :
  sound_db db -> readable db ->
  exists all, readHotTasks no_task_filters db = Ok all
    /\ forall l, buildHotTableSelect BrokerTasks (task_clauses f) by_update limit db = l ->
         parse_rows BrokerTasks l = Ok
           (match limit with
            | Some n => if (0 <? n)%Z then take (Z.to_nat n) (List.filter (column_filters f) all)
                        else List.filter (column_filters f) all
            | None => List.filter (column_filters f) all
            end).
Proof.
  intros Hdb Hr.
  destruct (read_back BrokerTasks db (sql_select BrokerTasks (fun _ => true) by_update None db) Hdb Hr)
    as (all & Hall & Heq & _ & Hread).
  { etransitivity; [apply select_submseteq|apply filter_submseteq]. }
  assert (readHotTasks no_task_filters db = Ok all) as Hbase.
  { rewrite <- Hall. reflexivity. }
  exists all. split; [done|]. intros l <-. unfold buildHotTableSelect.
  assert (sql_select BrokerTasks (matches_clauses (filter_clauses (task_clauses f))) by_update None db
    = map (row_of BrokerTasks) (List.filter (column_filters f) all)) as Hsel.
  { rewrite select_filter, Heq, filter_map. f_equal. apply filter_ext. intros t. apply clauses_match. }
  assert (forall ts : list TaskRecord, (forall t, t ∈ ts -> t ∈ all) ->
    parse_rows BrokerTasks (map (row_of BrokerTasks) ts) = Ok ts) as Hparse.
  { intros ts Hts. apply parse_rows_of. intros t Ht. by apply Hread, Hts. }
  assert (forall t, t ∈ List.filter (column_filters f) all -> t ∈ all) as Hsub.
  { intros t Ht. eapply elem_of_submseteq; [exact Ht|apply filter_submseteq]. }
  destruct limit as [n|]; [destruct (0 <? n)%Z|]; [|rewrite Hsel; by apply Hparse..].
  unfold sql_select in *. rewrite Hsel, firstn_map. apply Hparse.
  intros t Ht. apply Hsub. eapply elem_of_submseteq; [exact Ht|apply sublist_submseteq, sublist_take].
Qed.

Lemma other_filters_pushed f t : sqliteCanApplyLimit f = true -> other_filters f t = true.
Proof.
  unfold sqliteCanApplyLimit, other_filters, str_filter. rewrite !andb_true_iff, !negb_true_iff.
  intros [[He Hp] Hc]. unfold ostr_truthy, truthy_opt in *.
  repeat match goal with H : match ?o with _ => _ end = false |- _ =>
    destruct o as [?|]; [rewrite H; clear H|clear H] end; done.
Qed.

Lemma repo_list_run f db :
  sound_db db -> readable db ->
  exists all, readHotTasks no_task_filters db = Ok all
    /\ repo_listTasks f db
       = Ok (applyTaskListLimit (List.filter (fun t => taskMatchesFilters t (Some f)) all) (tf_limit f)).
Proof.
  intros Hdb Hr. set (limit := if sqliteCanApplyLimit f then tf_limit f else None).
  destruct (read_tasks_run f limit db Hdb Hr) as (all & Hall & Hrun).
  exists all. split; [done|]. unfold repo_listTasks. fold limit.
  assert (readHotTasks (mkTaskHotFilters None (tf_status f) (tf_targetNodeId f) (tf_intent f)
    (tf_assignedWorkerId f) (tf_taskOrigin f) None limit) db
    = parse_rows BrokerTasks (buildHotTableSelect BrokerTasks (task_clauses f) by_update limit db)) as ->.
  { unfold readHotTasks. cbn [htf_limit htf_maxRows]. assert (limit ??o None = limit) as -> by (by destruct limit). done. }
  rewrite (Hrun _ eq_refl). clear Hrun Hall. unfold r_bind. f_equal.
  assert (List.filter (fun t => taskMatchesFilters t (Some f)) all
    = List.filter (fun t => taskMatchesRuntimeFilters t f) (List.filter (column_filters f) all)) as ->.
  { rewrite filter_filter. apply filter_ext. intros t.
    change (taskMatchesFilters t (Some f)) with (taskMatchesRuntimeFilters t f). rewrite runtime_filters.
    by destruct (column_filters f t). }
  assert (sqliteCanApplyLimit f = true -> forall t, t ∈ List.filter (column_filters f) all ->
    taskMatchesRuntimeFilters t f = true) as Hpushed.
  { intros Hcan t Ht%list_elem_of_In%filter_In. rewrite runtime_filters, other_filters_pushed by done.
    by rewrite (proj2 Ht). }
  revert Hpushed. generalize (List.filter (column_filters f) all). intros ts Hpushed.
  unfold limit, applyTaskListLimit, normalizeRuntimeTaskListLimit. clear limit.
  destruct (sqliteCanApplyLimit f), (tf_limit f) as [n|]; try done.
  - specialize (Hpushed eq_refl).
    assert (forall l, (forall t, t ∈ l -> t ∈ ts) ->
      List.filter (fun t => taskMatchesRuntimeFilters t f) l = l) as Hall
      by (intros l Hl; apply filter_all; auto).
    rewrite (Hall ts) by done.
    destruct (Z.ltb_spec 0 n).
    + rewrite Hall by (intros t Ht; eapply elem_of_submseteq; [exact Ht|apply sublist_submseteq, sublist_take]).
      destruct (Z.leb_spec 0 n); [|lia]. by rewrite take_idemp.
    + rewrite (Hall ts) by done. by destruct (0 <=? n)%Z.
  - by destruct (0 <=? n)%Z.
Qed.
End Listing.
