(* ===== verification/StoreSaves.v ===== *)
(** * What saves leave of the canonical snapshot, and retention of the tables

    Which calls write the row of the canonical snapshot; the crash states of the
    JSON file store; and what a retention plan deletes. *)

From Stdlib Require Import ZArith Lia String.
From stdpp Require Import base gmap strings list pretty relations.
From S2P Require Import Prelude JsRuntime Types Policy Retention BrokerCore CoreFacts.
From S2P Require Import EventBuffer TaskEventStream Outbox Workers Proposals Github TerminalBrief Tasks.
From S2P Require Import TaskFacts Exchanges System Walk Durability.
From S2P Require Import HotTables SqlStore SqlSave HotRetention StoreFacts StoreReads SqlOrder.

Section Canonical.
Context `{RecordJson}.

(** The snapshot a call writes to the canonical row: that of a full save without
    any hinted row. *)
Definition unhinted (c : StoreCall) : option BrokerSnapshot :=
  match c with
  | SaveFull s hints => if hintsHasAnyEntries (hints_of <$> hints) then None else Some s
  | SaveHot _ => None
  end.

Definition last_unhinted (calls : list StoreCall) : option BrokerSnapshot :=
  foldl (fun acc c => unhinted c ??o acc) None calls.

Definition canonical (db : SqliteDb) : option snapshot_text := sr_payload <$> db_snapshot db.

(** Writes to the tables leave the row. *)
Definition row_kept (f : SqliteDb -> SqliteDb) : Prop := forall db, db_snapshot (f db) = db_snapshot db.

Lemma kept_table k f : row_kept (set_table k f).
Proof. done. Qed.

Lemma kept_upserts k l : row_kept (upsert_records k l).
Proof. unfold upsert_records. intros db. revert db. induction l as [|r l IH]; intros db; simpl; [done|]. by rewrite IH. Qed.

Lemma kept_canonical k ids : row_kept (applyCanonicalHotRetentionPlan k ids).
Proof. intros db. unfold applyCanonicalHotRetentionPlan, applyHotRetentionPlanUnsafe. simpl. by destruct (0 <? _). Qed.

Lemma kept_prune count where_ max : row_kept (fun db => (prune_to_max count where_ max db).1).
Proof. intros db. unfold prune_to_max. by destruct (_ <=? _)%Z. Qed.

Lemma kept_fold {A} (f : A -> SqliteDb -> SqliteDb) l :
  (forall a, row_kept (f a)) -> row_kept (fun db => foldl (fun db a => f a db) db l).
Proof. intros Hf db. revert db. induction l as [|a l IH]; intros db; simpl; [done|]. rewrite IH. apply Hf. Qed.

Lemma kept_hinted s hints k : row_kept (write_hinted s hints k).
Proof. intros db. unfold write_hinted. destruct (hints k); [|done]. by rewrite kept_upserts, kept_canonical. Qed.

Lemma kept_hinted_audit st s hints : row_kept (write_hinted_audit st s hints).
Proof.
  intros db. unfold write_hinted_audit, pruneHotAuditEventsToMaxUnsafe, pruneHotHeartbeatAuditEventsToMaxUnsafe.
  destruct (hints BrokerAuditEvents); [|done]. cbv zeta.
  destruct (_ && _); [by rewrite !(kept_prune _ _ _ _), kept_upserts|by rewrite kept_upserts, kept_canonical].
Qed.

Lemma kept_incremental st s hints : row_kept (incremental_write st s hints).
Proof.
  intros db. unfold incremental_write. cbv zeta.
  by rewrite (kept_fold (write_hinted s hints) _ (kept_hinted s hints)), kept_hinted_audit,
    (kept_fold (write_hinted s hints) _ (kept_hinted s hints)).
Qed.

Lemma kept_full s hints : row_kept (full_write s hints).
Proof.
  assert (forall k, row_kept (fill_table s hints k)) as Hf by (intros k db; apply kept_upserts).
  assert (forall k, row_kept (clear_table s hints k)) as Hcl.
  { intros k db. unfold clear_table. destruct (_ || _); [apply kept_canonical|done]. }
  intros db. unfold full_write. by rewrite (kept_fold _ _ Hf), (kept_fold _ _ Hcl).
Qed.

Lemma kept_hint_rows hints k : row_kept (write_hint_rows hints k).
Proof. intros db. unfold write_hint_rows. destruct (hints k); [apply kept_upserts|done]. Qed.

Lemma kept_hot st hints : row_kept (writeHotEntityHintRows st hints).
Proof.
  intros db. unfold writeHotEntityHintRows. cbv zeta.
  rewrite (kept_fold (write_hint_rows hints) _ (kept_hint_rows hints)).
  unfold write_audit_hint_rows, pruneHotAuditEventsToMaxUnsafe, pruneHotHeartbeatAuditEventsToMaxUnsafe.
  destruct (hints BrokerAuditEvents); cbv zeta.
  - rewrite (kept_prune _ _ _ _). destruct (existsb _ _); [rewrite (kept_prune _ _ _ _)|];
      by rewrite kept_upserts, (kept_fold (write_hint_rows hints) _ (kept_hint_rows hints)).
  - by rewrite (kept_fold (write_hint_rows hints) _ (kept_hint_rows hints)).
Qed.

Lemma canonical_call st now c db db' :
  run_store_call st now c db = (db', Ok tt) ->
  canonical db' = (stringify_snapshot <$> unhinted c) ??o canonical db.
Proof.
  intros Hrun. destruct c as [s hints|p]; cbn [run_store_call unhinted] in *; apply transaction_ok in Hrun.
  - revert Hrun. unfold writeSnapshotRow, canonical, serializeBrokerSnapshot.
    destruct (hintsHasAnyEntries (hints_of <$> hints)) eqn:He; unfold m_bind, m_ret, m_modify; intros Hrun.
    + assert (db' = writePersistDiagnostics now (hints_of <$> hints) true
        (writeMetadata "state_version" state_version_text (writeHotEntityTables st s (hints_of <$> hints) db)))
        as -> by congruence.
      rewrite (proj2 (diagnostics_tables _ _ _ _)). unfold writeMetadata. cbn [db_snapshot].
      change (db_snapshot (_ <| db_metadata ::= _ |>)) with (db_snapshot (writeHotEntityTables st s (hints_of <$> hints) db)).
      unfold writeHotEntityTables. destruct (hints_of <$> hints); [rewrite He|]; [by rewrite kept_incremental|by rewrite kept_full].
    + destruct (ss_maxBytes st <? _)%Z; [discriminate|].
      set (db0 := db <| db_snapshot := Some (mkSnapshotRow CURRENT_BROKER_STATE_VERSION (stringify_snapshot s) now) |>) in Hrun.
      assert (db' = writePersistDiagnostics now (hints_of <$> hints) false
        (writeMetadata "state_version" state_version_text (writeHotEntityTables st s (hints_of <$> hints) db0)))
        as -> by congruence.
      rewrite (proj2 (diagnostics_tables _ _ _ _)).
      change (db_snapshot (writeMetadata _ _ ?d)) with (db_snapshot d).
      assert (db_snapshot (writeHotEntityTables st s (hints_of <$> hints) db0) = db_snapshot db0) as ->; [|done].
      unfold writeHotEntityTables. destruct (hints_of <$> hints); [rewrite He|]; by rewrite kept_full.
  - revert Hrun. unfold m_bind, m_modify. intros Hrun.
    assert (db' = writePersistDiagnostics now (Some (hints_of p)) true
      (writeMetadata "state_version" state_version_text (writeHotEntityHintRows st (hints_of p) db))) as -> by congruence.
    unfold canonical. rewrite (proj2 (diagnostics_tables _ _ _ _)).
    change (db_snapshot (writeMetadata _ _ ?d)) with (db_snapshot d). by rewrite kept_hot.
Qed.

Lemma canonical_replay st times calls db :
  replay_calls st times calls empty_db = (db, Ok tt) -> canonical db = stringify_snapshot <$> last_unhinted calls.
Proof.
  unfold replay_calls, last_unhinted.
  assert (forall i acc db0, canonical db0 = stringify_snapshot <$> acc ->
    m_for (imap (fun j c => (times (i + j), c)) calls) (fun tc => run_store_call st tc.1 tc.2) db0 = (db, Ok tt) ->
    canonical db = stringify_snapshot <$> foldl (fun acc c => unhinted c ??o acc) acc calls) as Hgen.
  { induction calls as [|c calls IH]; intros i acc db0 Hacc Hrun; simpl in *; [by injection Hrun as <-|].
    apply bind_inv in Hrun as [(db1 & [] & Hc & Hrun)|(e & _ & ?)]; [|done].
    apply (IH (S i) _ db1).
    - rewrite (canonical_call _ _ _ _ _ Hc), Hacc. by destruct (unhinted c).
    - rewrite <- Hrun. f_equal. apply imap_ext. intros j x _. simpl. do 2 f_equal. lia. }
  by apply (Hgen 0 None empty_db).
Qed.
End Canonical.

(** ** The crash states of the JSON file store *)

Section JsonFile.
Context `{RecordJson}.

(** The files a crash during [writeBrokerSnapshotFile] may leave: none written;
    the temporary file with any content, or complete; the file renamed. *)
Inductive write_crash (filePath : string) (s : BrokerSnapshot) (maxBytes : Z) (fs : FileSystem) : FileSystem -> Prop :=
| CrashBefore : write_crash filePath s maxBytes fs fs
| CrashWriting content : write_crash filePath s maxBytes fs (jm_set (temp_path filePath) content fs)
| CrashAfter : is_ok (writeBrokerSnapshotFile filePath s maxBytes fs).2 = true ->
    write_crash filePath s maxBytes fs (writeBrokerSnapshotFile filePath s maxBytes fs).1.

Lemma temp_path_ne filePath : temp_path filePath <> filePath.
Proof.
  unfold temp_path. intros Heq. apply (f_equal String.length) in Heq. revert Heq.
  induction filePath as [|c p IH]; simpl; [discriminate|]. intros [= Heq]. by apply IH.
Qed.

Lemma get_delete_ne {V} (m : jsmap V) k k' : k' <> k -> jm_get k' (jm_delete k m) = jm_get k' m.
Proof.
  intros Hne. induction m as [|[k2 v2] m IH]; simpl; [done|].
  destruct (String.eqb_spec k k2) as [->|]; simpl.
  - by destruct (String.eqb_spec k' k2).
  - destruct (String.eqb_spec k' k2); [done|apply IH].
Qed.

Lemma written_file filePath s maxBytes fs fs' :
  writeBrokerSnapshotFile filePath s maxBytes fs = (fs', Ok tt) ->
  jm_get filePath fs' = Some (stringify_snapshot s) /\ (snapshot_bytes (stringify_snapshot s) <= maxBytes)%Z.
Proof.
  unfold writeBrokerSnapshotFile, serializeBrokerSnapshot, rename_file.
  destruct (Z.ltb_spec maxBytes (snapshot_bytes (stringify_snapshot s))); [discriminate|].
  rewrite jm_get_set_eq. intros [= <-]. by rewrite jm_get_set_eq.
Qed.
End JsonFile.

(** ** Retention of the task table *)

Section Retention.
Context `{JsHost} `{RecordJson}.

(** A task the plan may delete, and when it ended. *)
Definition plan_expired (o : TaskRetentionOptions) (records : list TaskRecord) : TaskRecord -> Z -> Prop :=
  expired (fun t => isTerminalTaskStatus (task_status t)) task_id
    (fun t => Some (task_completedAt t ?? task_updatedAt t)) records (tro_nowMs o - tro_retentionMs o)
    (ids_of (tro_protectedTaskIds o ?? [])).

Lemma plan_members table cutoff ids retained id :
  let plan := buildRetentionPlan table cutoff ids retained in
  (id ∈ rp_pruneIds plan <-> id ∈ ids /\ id ∉ retained)
  /\ (id ∈ rp_retainedIds plan <-> id ∈ ids /\ id ∈ retained).
Proof.
  simpl. rewrite !elem_of_js_sort, !list_elem_of_In, !filter_In, <- !list_elem_of_In, negb_true_iff.
  rewrite in_set_true, in_set_false. tauto.
Qed.

(** The records of the task table, as the plan reads them. *)
Lemma task_records db :
  sound_db db -> readable db ->
  exists records, all_records BrokerTasks db = Ok records /\ NoDup (map task_id records)
    /\ db_tables db BrokerTasks = table_of BrokerTasks records.
Proof.
  intros Hdb Hr. destruct (Hdb BrokerTasks) as (records & Heq & Hnd). exists records. split_and!; [|done..].
  unfold all_records, sql_rows. rewrite Heq, table_values. apply parse_rows_of. intros t Ht.
  apply (Hr BrokerTasks (task_id t)). unfold row_at. rewrite Heq.
  apply jm_elem_get; [unfold jm_wf; by rewrite table_keys|]. apply list_elem_of_fmap. by exists t.
Qed.

Lemma task_row_at records db t :
  db_tables db BrokerTasks = table_of BrokerTasks records -> NoDup (map task_id records) -> t ∈ records ->
  row_at BrokerTasks (task_id t) db = Some (row_of BrokerTasks t).
Proof.
  intros Heq Hnd Ht. unfold row_at. rewrite Heq. apply jm_elem_get; [unfold jm_wf; by rewrite table_keys|].
  apply list_elem_of_fmap. by exists t.
Qed.

(** The ids the selection keeps. *)
Definition selected (o : TaskRetentionOptions) (records : list TaskRecord) : gset string :=
  selectRetainedTerminalRecordIds records (fun t => isTerminalTaskStatus (task_status t)) task_id
    (fun t => Some (task_completedAt t ?? task_updatedAt t)) (tro_nowMs o) (tro_retentionMs o)
    (tro_maxTerminalRecords o) (ids_of (tro_protectedTaskIds o ?? [])).

(** Applying the plan keeps the selected rows of the table and the other tables. *)
Lemma plan_kept o records db t :
  db_tables db BrokerTasks = table_of BrokerTasks records -> NoDup (map task_id records) -> t ∈ records ->
  row_at BrokerTasks (task_id t) (applyHotRetentionPlan (planTaskRetentionFromRecords records o) db).1
    = Some (row_of BrokerTasks t)
  <-> task_id t ∈ selected o records.
Proof.
  intros Htab Hnd Ht. unfold applyHotRetentionPlan. rewrite applyPlan_row, (task_row_at records) by done.
  pose proof (proj1 (plan_members BrokerTasks (tro_nowMs o - tro_retentionMs o) (map task_id records)
    (selected o records) (task_id t))) as Hp. cbv zeta in Hp. unfold planTaskRetentionFromRecords.
  fold (selected o records). rewrite (bool_decide_ext _ (task_id t ∉ selected o records)).
  - case_bool_decide; [split; [done|tauto]|]. split; [|done]. intros _.
    by destruct (decide (task_id t ∈ selected o records)).
  - cbn [rp_table buildRetentionPlan]. unfold buildRetentionPlan at 1. cbn [rp_table]. rewrite Hp.
    split; [tauto|]. intros Hn. split_and!; [done| |done]. apply list_elem_of_fmap. eauto.
Qed.

Lemma plan_other o records db k id :
  k <> BrokerTasks ->
  row_at k id (applyHotRetentionPlan (planTaskRetentionFromRecords records o) db).1 = row_at k id db.
Proof. intros Hne. unfold applyHotRetentionPlan. rewrite applyPlan_row, bool_decide_eq_false_2; [done|]. by intros [? _]. Qed.
End Retention.
