(* ===== verification/HotRestart.v ===== *)
(** * Restarting from the hot tables

    The constructor of the broker over any snapshot a store hands it: loading never
    throws, and an active task of the snapshot is stored afterwards, in its normal
    form.  With [StoreFacts] and [StoreReads]: what survives a crash. *)

From Stdlib Require Import ZArith Lia String.
From stdpp Require Import base gmap strings list pretty relations.
From S2P Require Import Prelude JsRuntime Types Policy Retention BrokerCore CoreFacts.
From S2P Require Import EventBuffer TaskEventStream Outbox Workers Proposals Github TerminalBrief Tasks.
From S2P Require Import TaskMachine TaskFacts Exchanges System Walk Restart Durability.
From S2P Require Import HotTables SqlStore SqlSave StoreFacts StoreReads.

Section Load.
Context `{JsHost} `{TaskEventSink} `{BrokerConfig}.

(** No task yet, and no dangling reference. *)
Definition loading (b : Broker) : Prop :=
  br_tasks b = [] /\ forall r, r ∈ jm_values (br_exchanges b) -> r < length (br_exchangeObjs b).

Lemma values_set {V} k (v : V) m x : x ∈ jm_values (jm_set k v m) -> x = v \/ x ∈ jm_values m.
Proof.
  unfold jm_values. induction m as [|[k2 v2] m IH]; simpl; [set_solver|].
  destruct (String.eqb k k2); simpl; set_solver.
Qed.

Lemma load_exchange_loading ex b : loading b -> exists b', load_exchange ex b = (b', Ok tt) /\ loading b'.
Proof.
  intros [Ht Hr]. eexists. split; [reflexivity|]. split; [done|]. simpl. rewrite length_app. simpl.
  intros r [->|Hin]%values_set; [lia|]. specialize (Hr r Hin). lia.
Qed.

Lemma load_legacy_loading r b :
  loading b -> r < length (br_exchangeObjs b) ->
  exists b', load_legacy_root r b = (b', Ok tt) /\ loading b'
    /\ length (br_exchangeObjs b') = length (br_exchangeObjs b).
Proof.
  intros [Ht Hr] Hlt. unfold load_legacy_root, deref_exchange, m_bind at 1.
  destruct (lookup_lt_is_Some_2 _ _ Hlt) as [ex ->].
  destruct (str_truthy (ex_rootMessageId ex)); [by exists b|]. cbv zeta. rewrite !bind_modify.
  eexists. split; [reflexivity|]. simpl. rewrite length_alter. split; [split; [done|]|done].
  simpl. rewrite length_alter. intros r' [->|Hin]%values_set; [done|]. by apply Hr.
Qed.

Lemma load_all_loading {A} (f : A -> BM unit) l b :
  (forall a b, a ∈ l -> loading b -> exists b', f a b = (b', Ok tt) /\ loading b') ->
  loading b -> exists b', m_for l f b = (b', Ok tt) /\ loading b'.
Proof.
  revert b. induction l as [|a l IH]; intros b Hf Hb; simpl; [by exists b|].
  destruct (Hf a b ltac:(set_solver) Hb) as (b1 & Hrun1 & Hb1). rewrite (bind_ok _ _ _ _ _ Hrun1).
  apply IH; [|done]. intros. apply Hf; [set_solver|done].
Qed.

Lemma load_legacy_all refs b :
  loading b -> (forall r, r ∈ refs -> r < length (br_exchangeObjs b)) ->
  exists b', m_for refs load_legacy_root b = (b', Ok tt) /\ loading b'.
Proof.
  revert b. induction refs as [|r refs IH]; intros b Hb Hr; simpl; [by exists b|].
  destruct (load_legacy_loading r b Hb) as (b1 & Hrun1 & Hb1 & Hlen); [apply Hr; set_solver|].
  rewrite (bind_ok _ _ _ _ _ Hrun1). apply IH; [done|]. intros r' Hin. rewrite Hlen. apply Hr. set_solver.
Qed.

Lemma load_any sink ms s :
  exists b, load_tables s (new_broker sink ms) = (b, Ok tt)
    /\ br_tasks b = set_all task_id (map normalizeTaskRecord (sn_tasks s)) [].
Proof.
  assert (loading (new_broker sink ms)) as Hb0 by (split; [done|intros r Hr; by apply elem_of_nil in Hr]).
  destruct (load_all_loading load_exchange (sn_exchanges s) _ (fun ex b _ => load_exchange_loading ex b) Hb0)
    as (b1 & Hrun1 & [Ht1 Hr1]).
  set (b2 := b1 <| br_exchangeMessages ::= set_all msg_id (sn_exchangeMessages s) |>).
  assert (loading b2) as Hb2 by done.
  destruct (load_legacy_all (jm_values (br_exchanges b2)) b2 Hb2 Hr1) as (b3 & Hrun3 & [Ht3 _]).
  exists (load_records s b3). unfold load_tables. rewrite (bind_ok _ _ _ _ _ Hrun1), bind_modify.
  fold b2. unfold m_bind at 1, m_gets. rewrite (bind_ok _ _ _ _ _ Hrun3). split; [done|]. simpl. by rewrite Ht3.
Qed.

Lemma restarted_active sink ms s t :
  NoDup (map task_id (sn_tasks s)) -> t ∈ sn_tasks s -> active t ->
  stored (restarted sink ms s) (task_id t) = Some (normalizeTaskRecord t).
Proof.
  intros Hnd Hin Ha. destruct (load_any sink ms s) as (b1 & Hrun & Htasks).
  set (l := map normalizeTaskRecord (sn_tasks s)) in Htasks.
  assert (map task_id l = map task_id (sn_tasks s)) as Hids by (unfold l; by rewrite map_map).
  rewrite (set_all_fresh task_id l []) in Htasks by (change (NoDup (map task_id l)); by rewrite Hids).
  assert (jm_wf (br_tasks b1)) as Hwf.
  { rewrite Htasks. unfold jm_wf, jm_keys. simpl. rewrite map_map. change (NoDup (map task_id l)). by rewrite Hids. }
  assert (keyed task_id (br_tasks b1)) as Hk1.
  { split; [done|]. intros k v Hg%jm_get_elem. rewrite Htasks in Hg. simpl in Hg.
    by apply list_elem_of_fmap in Hg as (v' & [= -> ->] & _). }
  assert (stored b1 (task_id t) = Some (normalizeTaskRecord t)) as Ht1.
  { apply jm_elem_get; [done|]. rewrite Htasks. simpl. apply list_elem_of_fmap. exists (normalizeTaskRecord t).
    split; [done|]. unfold l. apply list_elem_of_fmap. by exists t. }
  destruct (retention_keeps_active b1 _ _ Hk1 Ht1 Ha) as (b2 & Hr2 & Hk2 & Ht2).
  destruct (retention_keeps_active b2 _ _ Hk2 Ht2 Ha) as (b3 & Hr3 & _ & Ht3).
  unfold restarted, loadSnapshot.
  rewrite (bind_ok _ _ _ b2 tt) by (by rewrite (bind_ok _ _ _ _ _ Hrun)). by rewrite Hr3.
Qed.
End Load.
