(* ===== verification/Conference.v ===== *)
(** * Conference rooms (src/core/conference-room.ts, conference-types.ts)

    [ConferenceRoomManager]: rooms anchored to a parent task, the status of their
    participants, and one stream of events on the cursor buffer.  The index of
    events that makes transitions idempotent is kept apart from the buffer, which
    forgets. *)

From Stdlib Require Import ZArith Lia String Ascii.
From stdpp Require Import base strings list pretty.
From S2P Require Import Prelude JsRuntime EventBuffer.

Inductive ConferenceParticipantStatus : Type :=
| ConfInvited | ConfJoined | ConfSpeaking | ConfBlocked | ConfLeft | ConfDone.
#[export] Instance ConferenceParticipantStatus_eq_dec : EqDecision ConferenceParticipantStatus.
Proof. solve_decision. Defined.
Definition ConferenceParticipantStatus_text (x : ConferenceParticipantStatus) : string :=
  match x with
  | ConfInvited => "invited"
  | ConfJoined => "joined"
  | ConfSpeaking => "speaking"
  | ConfBlocked => "blocked"
  | ConfLeft => "left"
  | ConfDone => "done"
  end.

Inductive ConferenceBlockReasonCode : Type :=
| BlockAuthFailed | BlockRateLimited | BlockUnreachable | BlockPolicyDenied | BlockTimeout
| BlockWorkerFailed | BlockOther.
#[export] Instance ConferenceBlockReasonCode_eq_dec : EqDecision ConferenceBlockReasonCode.
Proof. solve_decision. Defined.
Definition ConferenceBlockReasonCode_text (x : ConferenceBlockReasonCode) : string :=
  match x with
  | BlockAuthFailed => "auth_failed"
  | BlockRateLimited => "rate_limited"
  | BlockUnreachable => "unreachable"
  | BlockPolicyDenied => "policy_denied"
  | BlockTimeout => "timeout"
  | BlockWorkerFailed => "worker_failed"
  | BlockOther => "other"
  end.

Definition CONFERENCE_BLOCK_REASON_CODES : list ConferenceBlockReasonCode :=
  [BlockAuthFailed; BlockRateLimited; BlockUnreachable; BlockPolicyDenied; BlockTimeout;
   BlockWorkerFailed; BlockOther].

Record ConferenceParticipant : Type := mkConferenceParticipant {
  cp_nodeId : string;
  cp_status : ConferenceParticipantStatus;
  cp_updatedAt : string;
}.
#[export] Instance eta_ConferenceParticipant : Eta ConferenceParticipant := fun r =>
  mkConferenceParticipant (cp_nodeId r) (cp_status r) (cp_updatedAt r).
#[export] Instance ConferenceParticipant_eq_dec : EqDecision ConferenceParticipant.
Proof. solve_decision. Defined.

Inductive RoomStatus : Type := RoomActive | RoomClosed.
#[export] Instance RoomStatus_eq_dec : EqDecision RoomStatus.
Proof. solve_decision. Defined.

Record ConferenceRoom : Type := mkConferenceRoom {
  rm_id : string;
  rm_parentTaskId : string;
  rm_createdAt : string;
  rm_status : RoomStatus;
  rm_participants : jsmap ConferenceParticipant;
}.
#[export] Instance eta_ConferenceRoom : Eta ConferenceRoom := fun r =>
  mkConferenceRoom (rm_id r) (rm_parentTaskId r) (rm_createdAt r) (rm_status r) (rm_participants r).

Inductive ConferenceEventKind : Type :=
| RoomCreatedEvent | ParticipantInvited | ParticipantJoined | ParticipantSpeaking
| ParticipantBlocked | ParticipantLeft | ParticipantDone | RoomClosedEvent.
#[export] Instance ConferenceEventKind_eq_dec : EqDecision ConferenceEventKind.
Proof. solve_decision. Defined.
Definition ConferenceEventKind_text (x : ConferenceEventKind) : string :=
  match x with
  | RoomCreatedEvent => "room_created"
  | ParticipantInvited => "participant_invited"
  | ParticipantJoined => "participant_joined"
  | ParticipantSpeaking => "participant_speaking"
  | ParticipantBlocked => "participant_blocked"
  | ParticipantLeft => "participant_left"
  | ParticipantDone => "participant_done"
  | RoomClosedEvent => "room_closed"
  end.

(** A reason code, or the function an object inherits under the name
    "constructor", which the lookup of an alias can return. *)
Inductive ReasonValue : Type :=
| ReasonCode (c : ConferenceBlockReasonCode)
| ReasonInherited.

Record ConferenceMetadata : Type := mkConferenceMetadata {
  cm_nodeId : option string;
  cm_reasonCode : option ReasonValue;
}.

Record ConferenceEvent : Type := mkConferenceEvent {
  ce_id : Z;
  ce_timestamp : string;
  ce_roomId : string;
  ce_parentTaskId : string;
  ce_kind : ConferenceEventKind;
  ce_metadata : ConferenceMetadata;
}.

Definition DEFAULT_CONFERENCE_EVENT_RETENTION : Z := 500.

Definition conf_terminal (s : ConferenceParticipantStatus) : bool :=
  bool_decide (s ∈ [ConfBlocked; ConfLeft; ConfDone]).

Definition ALLOWED_TRANSITIONS (s : ConferenceParticipantStatus) : list ConferenceParticipantStatus :=
  match s with
  | ConfInvited => [ConfJoined; ConfBlocked; ConfLeft]
  | ConfJoined => [ConfSpeaking; ConfBlocked; ConfLeft; ConfDone]
  | ConfSpeaking => [ConfBlocked; ConfLeft; ConfDone]
  | _ => []
  end.

(** ** Reason codes *)

Definition is_lower_alnum (c : ascii) : bool :=
  is_digit c || ((97 <=? ascii_code c) && (ascii_code c <=? 122)).

(** [replace(/[^a-z0-9]+/g, "_")]: [gap] says that the run was replaced already. *)
Fixpoint replace_runs (gap : bool) (l : list ascii) : list ascii :=
  match l with
  | [] => []
  | c :: l => if is_lower_alnum c then c :: replace_runs false l
              else if gap then replace_runs true l else "_"%char :: replace_runs true l
  end.

Definition is_underscore (c : ascii) : bool := Ascii.eqb c "_".

Definition normalized_reason (reason : string) : string :=
  let l := replace_runs false (map ascii_lower (trim_chars (chars reason))) in
  unchars (rev (drop_while is_underscore (rev (drop_while is_underscore l)))).

Definition BLOCK_REASON_ALIASES : jsmap ConferenceBlockReasonCode := [
  ("auth", BlockAuthFailed); ("auth_failed", BlockAuthFailed); ("auth_failure", BlockAuthFailed);
  ("rate_limit", BlockRateLimited); ("rate_limited", BlockRateLimited); ("ratelimited", BlockRateLimited);
  ("unreachable", BlockUnreachable); ("network_unreachable", BlockUnreachable);
  ("policy", BlockPolicyDenied); ("policy_denied", BlockPolicyDenied); ("denied", BlockPolicyDenied);
  ("timeout", BlockTimeout); ("timed_out", BlockTimeout);
  ("worker_failed", BlockWorkerFailed); ("worker_failure", BlockWorkerFailed); ("failed", BlockWorkerFailed);
  ("other", BlockOther)].

Definition normalizeBlockReasonCode (reason : option string) : ReasonValue :=
  match reason with
  | None => ReasonCode BlockOther
  | Some reason =>
      let normalized := normalized_reason reason in
      match List.find (fun c => String.eqb (ConferenceBlockReasonCode_text c) normalized)
              CONFERENCE_BLOCK_REASON_CODES with
      | Some c => ReasonCode c
      | None => match jm_get normalized BLOCK_REASON_ALIASES with
                | Some c => ReasonCode c
                | None => if String.eqb normalized "constructor" then ReasonInherited
                          else ReasonCode BlockOther
                end
      end
  end.

(** ** The manager *)

Record ConferenceRoomManager : Type := mkConferenceRoomManager {
  cm_rooms : jsmap ConferenceRoom;
  cm_roomEventIndex : jsmap (jsmap ConferenceEvent);
  cm_buffer : CursorEventBuffer ConferenceEvent;
  cm_ticks : nat;
  cm_ids : nat;
}.
#[export] Instance eta_ConferenceRoomManager : Eta ConferenceRoomManager := fun r =>
  mkConferenceRoomManager (cm_rooms r) (cm_roomEventIndex r) (cm_buffer r) (cm_ticks r) (cm_ids r).

Abbreviation CM := (stM ConferenceRoomManager string).

Section Manager.
Context `{JsHost}.

Definition new_manager (maxEvents : option Z) : ConferenceRoomManager :=
  mkConferenceRoomManager [] [] (new_buffer (match maxEvents with
    | Some n => if (0 <? n)%Z then n else DEFAULT_CONFERENCE_EVENT_RETENTION
    | None => DEFAULT_CONFERENCE_EVENT_RETENTION end)) 0 0.

(** [this.now().toISOString()] and [this.idFactory()]. *)
Definition conf_now : CM string := fun m =>
  (m <| cm_ticks ::= S |>, Ok (toISOString (host_clock (cm_ticks m)))).
Definition conf_id : CM string := fun m => (m <| cm_ids ::= S |>, Ok (host_uuid (cm_ids m))).

Definition eventKey (kind : ConferenceEventKind) (nodeId : option string) : string :=
  match truthy_opt nodeId with
  | Some n => (ConferenceEventKind_text kind ++ ":" ++ n)%string
  | None => ConferenceEventKind_text kind
  end.

Definition findIndexedEvent (roomId key : string) (m : ConferenceRoomManager) : option ConferenceEvent :=
  jm_get roomId (cm_roomEventIndex m) ≫= jm_get key.

Definition indexEvent (event : ConferenceEvent) (m : ConferenceRoomManager) : ConferenceRoomManager := m
  <| cm_roomEventIndex ::= fun index =>
       jm_set (ce_roomId event)
         (jm_set (eventKey (ce_kind event) (cm_nodeId (ce_metadata event))) event
            (jm_get (ce_roomId event) index ?? [])) index |>.

Definition conf_emit (room : ConferenceRoom) (kind : ConferenceEventKind) (metadata : ConferenceMetadata)
    : CM ConferenceEvent :=
  m <-- m_get;
  let '(buffer, id) := allocateId (cm_buffer m) in
  m_modify (fun m => m <| cm_buffer := buffer |>);;;
  timestamp <-- conf_now;
  let event := mkConferenceEvent id timestamp (rm_id room) (rm_parentTaskId room) kind metadata in
  m_modify (indexEvent event);;;
  m_modify (fun m => m <| cm_buffer ::= push event |>);;;
  m_ret event.

Definition no_metadata : ConferenceMetadata := mkConferenceMetadata None None.

(** A change of the room object, which the map of rooms holds. *)
Definition set_room (room : ConferenceRoom) : CM unit :=
  m_modify (fun m => m <| cm_rooms ::= jm_set (rm_id room) room |>).

Definition createRoom (parentTaskId : string) : CM ConferenceRoom :=
  if negb (str_truthy parentTaskId) then m_throw "parentTaskId is required"
  else
    id <-- conf_id;
    createdAt <-- conf_now;
    let room := mkConferenceRoom id parentTaskId createdAt RoomActive [] in
    set_room room;;;
    m_modify (fun m => m <| cm_roomEventIndex ::= jm_set id [] |>);;;
    conf_emit room RoomCreatedEvent no_metadata;;;
    m_ret room.

Definition requireRoom (roomId : string) : CM ConferenceRoom :=
  o <-- m_gets (fun m => jm_get roomId (cm_rooms m));
  match o with Some room => m_ret room | None => m_throw ("room " ++ roomId ++ " not found")%string end.

Definition requireActiveRoom (roomId : string) : CM ConferenceRoom :=
  room <-- requireRoom roomId;
  if bool_decide (rm_status room = RoomClosed) then m_throw ("room " ++ roomId ++ " is closed")%string
  else m_ret room.

(** The loop of [invite]; the room object is read again on every round. *)
Fixpoint invite_loop (roomId : string) (nodeIds : list string) (out : list ConferenceEvent)
    : CM (list ConferenceEvent) :=
  match nodeIds with
  | [] => m_ret out
  | nodeId :: nodeIds =>
      room <-- requireRoom roomId;
      match jm_get nodeId (rm_participants room) with
      | Some _ =>
          prior <-- m_gets (findIndexedEvent roomId (eventKey ParticipantInvited (Some nodeId)));
          match prior with
          | Some prior => invite_loop roomId nodeIds (out ++ [prior])
          | None => m_throw ("participant " ++ nodeId ++ " already exists in room " ++ roomId)%string
          end
      | None =>
          updatedAt <-- conf_now;
          let room := room <| rm_participants ::=
            jm_set nodeId (mkConferenceParticipant nodeId ConfInvited updatedAt) |> in
          set_room room;;;
          event <-- conf_emit room ParticipantInvited (mkConferenceMetadata (Some nodeId) None);
          invite_loop roomId nodeIds (out ++ [event])
      end
  end.

Definition invite (roomId : string) (nodeIds : list string) : CM (list ConferenceEvent) :=
  requireActiveRoom roomId;;; invite_loop roomId nodeIds [].

Definition transition (roomId nodeId : string) (target : ConferenceParticipantStatus)
    (kind : ConferenceEventKind) (reasonCode : option ReasonValue) : CM ConferenceEvent :=
  room <-- requireActiveRoom roomId;
  match jm_get nodeId (rm_participants room) with
  | None => m_throw ("participant " ++ nodeId ++ " is not a member of room " ++ roomId)%string
  | Some participant =>
      if bool_decide (cp_status participant = target) then
        prior <-- m_gets (findIndexedEvent roomId (eventKey kind (Some nodeId)));
        match prior with
        | Some prior => m_ret prior
        | None => m_throw ("missing idempotency record for participant " ++ nodeId ++ " "
                    ++ ConferenceParticipantStatus_text target ++ " in room " ++ roomId)%string
        end
      else if conf_terminal (cp_status participant) then
        m_throw ("participant " ++ nodeId ++ " is terminal ("
          ++ ConferenceParticipantStatus_text (cp_status participant) ++ ") in room " ++ roomId)%string
      else if negb (bool_decide (target ∈ ALLOWED_TRANSITIONS (cp_status participant))) then
        m_throw ("invalid participant transition " ++ ConferenceParticipantStatus_text (cp_status participant)
          ++ " -> " ++ ConferenceParticipantStatus_text target ++ " for " ++ nodeId ++ " in room " ++ roomId)%string
      else
        updatedAt <-- conf_now;
        let room := room <| rm_participants ::=
          jm_set nodeId (participant <| cp_status := target |> <| cp_updatedAt := updatedAt |>) |> in
        set_room room;;;
        conf_emit room kind (mkConferenceMetadata (Some nodeId) reasonCode)
  end.

Definition conf_join (roomId nodeId : string) : CM ConferenceEvent :=
  transition roomId nodeId ConfJoined ParticipantJoined None.
Definition conf_speak (roomId nodeId : string) : CM ConferenceEvent :=
  transition roomId nodeId ConfSpeaking ParticipantSpeaking None.
Definition conf_block (roomId nodeId : string) (reason : option string) : CM ConferenceEvent :=
  transition roomId nodeId ConfBlocked ParticipantBlocked (Some (normalizeBlockReasonCode reason)).
Definition conf_leave (roomId nodeId : string) : CM ConferenceEvent :=
  transition roomId nodeId ConfLeft ParticipantLeft None.
Definition conf_done (roomId nodeId : string) : CM ConferenceEvent :=
  transition roomId nodeId ConfDone ParticipantDone None.

Definition closeRoom (roomId : string) : CM ConferenceEvent :=
  room <-- requireRoom roomId;
  prior <-- (if bool_decide (rm_status room = RoomClosed)
             then m_gets (findIndexedEvent roomId (eventKey RoomClosedEvent None)) else m_ret None);
  match prior with
  | Some prior => m_ret prior
  | None =>
      let room := room <| rm_status := RoomClosed |> in
      set_room room;;;
      conf_emit room RoomClosedEvent no_metadata
  end.

Definition getRoom (roomId : string) (m : ConferenceRoomManager) : option ConferenceRoom :=
  jm_get roomId (cm_rooms m).

Definition getParticipants (roomId : string) : CM (list ConferenceParticipant) :=
  room <-- requireRoom roomId; m_ret (jm_values (rm_participants room)).

Definition conf_subscribe (afterId : option Z) (roomId parentTaskId : option string) (limit : option Z)
    (m : ConferenceRoomManager) : list ConferenceEvent :=
  subscribe ce_id afterId limit (fun e =>
    match truthy_opt roomId with Some r => String.eqb (ce_roomId e) r | None => true end
    && match truthy_opt parentTaskId with Some p => String.eqb (ce_parentTaskId e) p | None => true end)
    (cm_buffer m).

Definition conf_latestId (m : ConferenceRoomManager) : Z := latestId (cm_buffer m).
Definition conf_size (m : ConferenceRoomManager) : nat := buffer_size (cm_buffer m).
End Manager.
