(* ===== verification/ConferenceFacts.v ===== *)
(** * The life of a conference

    The invariant of the manager of conference rooms and the exact outcome of its
    operations: participants move along the table of transitions, a repeated
    request answers the event that recorded the first, and no event is lost from
    the index when the buffer forgets it. *)

From Stdlib Require Import ZArith Lia String Ascii.
From stdpp Require Import base strings list pretty relations.
From S2P Require Import Prelude JsRuntime EventBuffer Types Policy Retention BrokerCore CoreFacts Conference.

(** The kind of event that records a status. *)
Definition kind_of (s : ConferenceParticipantStatus) : ConferenceEventKind :=
  match s with
  | ConfInvited => ParticipantInvited
  | ConfJoined => ParticipantJoined
  | ConfSpeaking => ParticipantSpeaking
  | ConfBlocked => ParticipantBlocked
  | ConfLeft => ParticipantLeft
  | ConfDone => ParticipantDone
  end.

Section Conference.
Context `{JsHost}.
Implicit Types m : ConferenceRoomManager.

(** ** Keys *)

Lemma kind_no_colon k : ":"%char ∉ chars (ConferenceEventKind_text k).
Proof. apply (bool_decide_unpack _). by destruct k. Qed.

Lemma kind_text_inj k k' : ConferenceEventKind_text k = ConferenceEventKind_text k' -> k = k'.
Proof. by destruct k, k'. Qed.

Lemma eventKey_inj k n k' n' : eventKey k n = eventKey k' n' -> k = k' /\ truthy_opt n = truthy_opt n'.
Proof.
  unfold eventKey. destruct (truthy_opt n) as [a|], (truthy_opt n') as [a'|]; intros Heq%(f_equal chars).
  - rewrite !chars_app in Heq. simpl in Heq.
    apply split_at_sep in Heq as [Hk Hn]; [|apply kind_no_colon..].
    split; [by apply kind_text_inj, chars_inj|]. f_equal. by apply chars_inj.
  - exfalso. apply (kind_no_colon k'). rewrite <- Heq, !chars_app. simpl. set_solver.
  - exfalso. apply (kind_no_colon k). rewrite Heq, !chars_app. simpl. set_solver.
  - split; [by apply kind_text_inj, chars_inj|done].
Qed.

(** ** The invariant *)

Definition room_of m id : option ConferenceRoom := jm_get id (cm_rooms m).
Definition participant_of m id n : option ConferenceParticipant :=
  room_of m id ≫= fun room => jm_get n (rm_participants room).
Definition status_of m id n : option ConferenceParticipantStatus := cp_status <$> participant_of m id n.

Record conf_ok m : Prop := {
  co_rooms : keyed rm_id (cm_rooms m);
  co_fresh n : cm_ids m <= n -> room_of m (host_uuid n) = None;
  co_invited id n p : participant_of m id n = Some p ->
    is_Some (findIndexedEvent id (eventKey ParticipantInvited (Some n)) m);
  co_reached id n p : participant_of m id n = Some p ->
    is_Some (findIndexedEvent id (eventKey (kind_of (cp_status p)) (Some n)) m);
  co_closed id room : room_of m id = Some room -> rm_status room = RoomClosed ->
    is_Some (findIndexedEvent id (eventKey RoomClosedEvent None) m);
  co_events id key e : findIndexedEvent id key m = Some e ->
    ce_roomId e = id /\ key = eventKey (ce_kind e) (cm_nodeId (ce_metadata e));
  co_buffer : buffer_ok ce_id (cm_buffer m) /\ (0 <= cb_nextId (cm_buffer m))%Z;
}.

Lemma new_manager_ok max : conf_ok (new_manager max).
Proof. split; try done; [apply keyed_nil|]. split; [apply new_buffer_ok|done]. Qed.

(** ** Emitting an event *)

Definition conf_event m (room : ConferenceRoom) kind metadata : ConferenceEvent :=
  mkConferenceEvent (1 + cb_nextId (cm_buffer m)) (toISOString (host_clock (cm_ticks m)))
    (rm_id room) (rm_parentTaskId room) kind metadata.

Definition emitted (e : ConferenceEvent) m : ConferenceRoomManager :=
  indexEvent e m
    <| cm_buffer := push e (allocateId (cm_buffer m)).1 |>
    <| cm_ticks ::= S |>.

Lemma conf_emit_run room kind metadata m :
  conf_emit room kind metadata m
  = (emitted (conf_event m room kind metadata) m, Ok (conf_event m room kind metadata)).
Proof. by destruct m. Qed.

Lemma findIndexed_emitted id key e m :
  findIndexedEvent id key (emitted e m)
  = if String.eqb id (ce_roomId e) && String.eqb key (eventKey (ce_kind e) (cm_nodeId (ce_metadata e)))
    then Some e else findIndexedEvent id key m.
Proof.
  unfold findIndexedEvent, emitted, indexEvent. simpl. rewrite jm_get_set.
  destruct (String.eqb_spec id (ce_roomId e)) as [->|]; [|done]. simpl. rewrite jm_get_set.
  destruct (String.eqb _ _); [done|]. by destruct (jm_get (ce_roomId e) (cm_roomEventIndex m)).
Qed.

(** Nothing is ever removed from the index. *)
Lemma indexed_emitted id key e m :
  is_Some (findIndexedEvent id key m) -> is_Some (findIndexedEvent id key (emitted e m)).
Proof. intros Hi. rewrite findIndexed_emitted. by destruct (_ && _). Qed.

(** ** Steps that keep the invariant *)

Definition conf_tick m : ConferenceRoomManager := m <| cm_ticks ::= S |>.

Lemma conf_ok_tick m : conf_ok m -> conf_ok (conf_tick m).
Proof. by intros []. Qed.

Lemma emitted_buffer e m :
  buffer_ok ce_id (cm_buffer m) /\ (0 <= cb_nextId (cm_buffer m))%Z ->
  ce_id e = (1 + cb_nextId (cm_buffer m))%Z ->
  buffer_ok ce_id (cm_buffer (emitted e m)) /\ (0 <= cb_nextId (cm_buffer (emitted e m)))%Z.
Proof.
  intros [Hok Hn] He. split; [|simpl; lia].
  pose proof (push_allocated_ok ce_id (cm_buffer m) (fun i => mkConferenceEvent i (ce_timestamp e) (ce_roomId e)
    (ce_parentTaskId e) (ce_kind e) (ce_metadata e)) Hn (fun _ => eq_refl) Hok) as Hp.
  simpl in Hp. rewrite <- He in Hp. by destruct e.
Qed.

(** The room is saved, then the event that explains the change is emitted. *)
Definition saved_and_emitted m room kind metadata : ConferenceRoomManager :=
  let m := m <| cm_rooms ::= jm_set (rm_id room) room |> in
  emitted (conf_event m room kind metadata) m.

Lemma save_emit_run room kind metadata m :
  (set_room room;;; conf_emit room kind metadata) m
  = (saved_and_emitted m room kind metadata, Ok (conf_event m room kind metadata)).
Proof. unfold set_room. by rewrite bind_modify, conf_emit_run. Qed.

Lemma room_of_saved m room kind metadata id :
  room_of (saved_and_emitted m room kind metadata) id
  = if String.eqb id (rm_id room) then Some room else room_of m id.
Proof. unfold room_of, saved_and_emitted. simpl. apply jm_get_set. Qed.

Lemma participant_of_saved m room kind metadata id n :
  participant_of (saved_and_emitted m room kind metadata) id n
  = if String.eqb id (rm_id room) then jm_get n (rm_participants room) else participant_of m id n.
Proof. unfold participant_of. rewrite room_of_saved. by destruct (String.eqb id _). Qed.

Lemma saved_indexed m room kind metadata id key :
  findIndexedEvent id key (saved_and_emitted m room kind metadata)
  = if String.eqb id (rm_id room) && String.eqb key (eventKey kind (cm_nodeId metadata))
    then Some (conf_event m room kind metadata) else findIndexedEvent id key m.
Proof. unfold saved_and_emitted. by rewrite findIndexed_emitted. Qed.

Lemma saved_kept m room kind metadata id key :
  is_Some (findIndexedEvent id key m) ->
  is_Some (findIndexedEvent id key (saved_and_emitted m room kind metadata)).
Proof. rewrite saved_indexed. by destruct (_ && _). Qed.

Lemma saved_fresh m room kind metadata :
  is_Some (findIndexedEvent (rm_id room) (eventKey kind (cm_nodeId metadata))
    (saved_and_emitted m room kind metadata)).
Proof. rewrite saved_indexed, !String.eqb_refl. by eexists. Qed.

Lemma conf_ok_saved m room room0 kind metadata :
  conf_ok m -> room_of m (rm_id room) = Some room0 ->
  (forall n p, jm_get n (rm_participants room) = Some p -> participant_of m (rm_id room) n <> Some p ->
     eventKey kind (cm_nodeId metadata) = eventKey (kind_of (cp_status p)) (Some n)
     /\ (kind = ParticipantInvited
         \/ is_Some (findIndexedEvent (rm_id room) (eventKey ParticipantInvited (Some n)) m))) ->
  (rm_status room = RoomClosed -> rm_status room0 = RoomClosed
     \/ eventKey kind (cm_nodeId metadata) = eventKey RoomClosedEvent None) ->
  conf_ok (saved_and_emitted m room kind metadata).
Proof.
  intros Hok Hroom Hparts Hclosed. pose proof (saved_fresh m room kind metadata) as Hnew.
  assert (forall id n p, participant_of (saved_and_emitted m room kind metadata) id n = Some p ->
    participant_of m id n = Some p \/ (id = rm_id room /\ jm_get n (rm_participants room) = Some p
      /\ participant_of m id n <> Some p)) as Hcase.
  { intros id n p. rewrite participant_of_saved. destruct (String.eqb_spec id (rm_id room)) as [->|]; [|by left].
    intros Hp. destruct (decide (participant_of m (rm_id room) n = Some p)); [by left|by right]. }
  split.
  - apply keyed_set; [done|apply Hok].
  - intros n Hn. rewrite room_of_saved. pose proof (co_fresh m Hok n Hn) as Hf.
    destruct (String.eqb_spec (host_uuid n) (rm_id room)) as [He|]; [|done]. rewrite He in Hf. congruence.
  - intros id n p [Hp|(-> & Hp & Hne)]%Hcase; [by eapply saved_kept, co_invited|].
    destruct (Hparts n p Hp Hne) as [Hk [->|Hi]]; [|by apply saved_kept].
    apply eventKey_inj in Hk as [_ Hn]. unfold eventKey at 1 in Hnew. rewrite Hn in Hnew. exact Hnew.
  - intros id n p [Hp|(-> & Hp & Hne)]%Hcase; [by eapply saved_kept, co_reached|].
    destruct (Hparts n p Hp Hne) as [<- _]. exact Hnew.
  - intros id r. rewrite room_of_saved. destruct (String.eqb_spec id (rm_id room)) as [->|].
    + intros [= <-] Hc. destruct (Hclosed Hc) as [Hc0|<-]; [|done]. by eapply saved_kept, co_closed.
    + intros Hr Hc. by eapply saved_kept, co_closed.
  - intros id key e. rewrite saved_indexed.
    destruct (String.eqb_spec id (rm_id room)) as [->|]; simpl; [|by apply co_events].
    destruct (String.eqb_spec key (eventKey kind (cm_nodeId metadata))) as [->|]; [|by apply co_events].
    by intros [= <-].
  - apply emitted_buffer; [apply (co_buffer m Hok)|done].
Qed.

(** ** Outcomes *)

Lemma requireRoom_run id m room : room_of m id = Some room -> requireRoom id m = (m, Ok room).
Proof. unfold requireRoom, room_of, m_bind, m_gets. by intros ->. Qed.

Lemma requireActiveRoom_run id m room :
  room_of m id = Some room -> rm_status room = RoomActive -> requireActiveRoom id m = (m, Ok room).
Proof.
  intros Hr Ha. unfold requireActiveRoom. rewrite (bind_ok _ _ _ _ _ (requireRoom_run id m room Hr)).
  by rewrite Ha.
Qed.

Lemma requireActiveRoom_refused id m :
  (forall room, room_of m id = Some room -> rm_status room = RoomClosed) ->
  exists err, requireActiveRoom id m = (m, Err err).
Proof.
  intros Hc. unfold requireActiveRoom, requireRoom, room_of, m_bind, m_gets in *.
  destruct (jm_get id (cm_rooms m)) as [room|]; [|by eexists].
  simpl. rewrite (Hc room eq_refl). by eexists.
Qed.

(** A transition that was made before answers the event that recorded it. *)
Lemma transition_again m id n t reason room p :
  conf_ok m -> room_of m id = Some room -> rm_status room = RoomActive ->
  jm_get n (rm_participants room) = Some p -> cp_status p = t ->
  exists e, transition id n t (kind_of t) reason m = (m, Ok e)
    /\ findIndexedEvent id (eventKey (kind_of t) (Some n)) m = Some e.
Proof.
  intros Hok Hr Ha Hp <-. unfold transition.
  rewrite (bind_ok _ _ _ _ _ (requireActiveRoom_run id m room Hr Ha)), Hp, bool_decide_true by done.
  assert (participant_of m id n = Some p) as Hpo by (unfold participant_of; by rewrite Hr).
  destruct (co_reached m Hok id n p Hpo) as [e He]. unfold m_bind, m_gets. rewrite He. eauto.
Qed.

(** The record after a transition. *)
Definition moved_room m room n p t : ConferenceRoom :=
  room <| rm_participants ::= jm_set n (p <| cp_status := t |>
    <| cp_updatedAt := toISOString (host_clock (cm_ticks m)) |>) |>.

Lemma terminal_no_transition s : conf_terminal s = true -> ALLOWED_TRANSITIONS s = [].
Proof. by destruct s. Qed.

Lemma transition_run m id n t reason room p :
  conf_ok m -> room_of m id = Some room -> rm_status room = RoomActive ->
  jm_get n (rm_participants room) = Some p -> t ∈ ALLOWED_TRANSITIONS (cp_status p) ->
  exists m' e, transition id n t (kind_of t) reason m = (m', Ok e) /\ conf_ok m'
    /\ m' = saved_and_emitted (conf_tick m) (moved_room m room n p t) (kind_of t)
              (mkConferenceMetadata (Some n) reason)
    /\ e = conf_event (conf_tick m) (moved_room m room n p t) (kind_of t) (mkConferenceMetadata (Some n) reason).
Proof.
  intros Hok Hr Ha Hp Ht. assert (rm_id room = id) as Hid by (by apply (co_rooms m Hok)).
  assert (participant_of m id n = Some p) as Hpo by (unfold participant_of; by rewrite Hr).
  eexists _, _. split; [|split; [|by split]].
  - unfold transition.
    rewrite (bind_ok _ _ _ _ _ (requireActiveRoom_run id m room Hr Ha)), Hp, bool_decide_false
      by (intros Heq; rewrite Heq in Ht; revert Ht; destruct t; set_solver).
    destruct (conf_terminal (cp_status p)) eqn:Hterm; [rewrite terminal_no_transition in Ht by done; set_solver|].
    rewrite bool_decide_true by done. change (negb true) with false. cbv iota.
    rewrite (bind_ok _ _ m (conf_tick m) (toISOString (host_clock (cm_ticks m)))) by done. cbv zeta.
    apply save_emit_run.
  - apply (conf_ok_saved _ _ room); [by apply conf_ok_tick|unfold moved_room; simpl; by rewrite Hid| |].
    + intros n' p'. simpl. rewrite jm_get_set. destruct (String.eqb_spec n' n) as [->|].
      * intros [= <-] _. split; [done|]. right. rewrite Hid. by eapply (co_invited m Hok).
      * intros Hp' Hne. exfalso. apply Hne. unfold participant_of, conf_tick, room_of in *. simpl.
        rewrite Hid. by rewrite Hr.
    + simpl. rewrite Ha. done.
Qed.

Lemma transition_refused m id n t reason :
  (forall room p, room_of m id = Some room -> rm_status room = RoomActive ->
     jm_get n (rm_participants room) = Some p -> cp_status p <> t /\ t ∉ ALLOWED_TRANSITIONS (cp_status p)) ->
  exists err, transition id n t (kind_of t) reason m = (m, Err err).
Proof.
  intros Hno. unfold transition.
  destruct (room_of m id) as [room|] eqn:Hr.
  - destruct (rm_status room) eqn:Ha.
    + rewrite (bind_ok _ _ _ _ _ (requireActiveRoom_run id m room Hr Ha)).
      destruct (jm_get n (rm_participants room)) as [p|] eqn:Hp; [|by eexists].
      destruct (Hno room p) as [H1 H2]; [done..|]. rewrite bool_decide_false by done.
      destruct (conf_terminal _); [by eexists|]. rewrite bool_decide_false by done. by eexists.
    + destruct (requireActiveRoom_refused id m) as [err He]; [congruence|].
      exists err. unfold m_bind. by rewrite He.
  - destruct (requireActiveRoom_refused id m) as [err He]; [congruence|].
    exists err. unfold m_bind. by rewrite He.
Qed.

(** ** Every operation *)

Inductive participant_move :
    option ConferenceParticipantStatus -> option ConferenceParticipantStatus -> Prop :=
| ParticipantEnters : participant_move None (Some ConfInvited)
| ParticipantMoves s t : t ∈ ALLOWED_TRANSITIONS s -> participant_move (Some s) (Some t).

Definition conf_evolves m m' : Prop :=
  conf_ok m -> conf_ok m' /\ forall id n, rtc participant_move (status_of m id n) (status_of m' id n).
#[local] Instance conf_evolves_refl : Reflexive conf_evolves.
Proof. intros m Hm. split; [done|]. intros. reflexivity. Qed.
#[local] Instance conf_evolves_trans : Transitive conf_evolves.
Proof.
  intros m1 m2 m3 S12 S23 Hm1. destruct (S12 Hm1) as [Hm2 M12]. destruct (S23 Hm2) as [Hm3 M23].
  split; [done|]. intros id n. etransitivity; [apply M12|apply M23].
Qed.

Lemma status_saved m room kind metadata id n :
  status_of (saved_and_emitted m room kind metadata) id n
  = if String.eqb id (rm_id room) then cp_status <$> jm_get n (rm_participants room) else status_of m id n.
Proof. unfold status_of. rewrite participant_of_saved. by destruct (String.eqb id _). Qed.

Lemma status_room m id n room :
  room_of m id = Some room -> status_of m id n = cp_status <$> jm_get n (rm_participants room).
Proof. unfold status_of, participant_of. by intros ->. Qed.

Lemma evolves_transition id n t reason m : conf_evolves m (transition id n t (kind_of t) reason m).1.
Proof.
  intros Hok. assert (forall err, transition id n t (kind_of t) reason m = (m, Err err) ->
    conf_ok (transition id n t (kind_of t) reason m).1
    /\ forall i x, rtc participant_move (status_of m i x)
         (status_of (transition id n t (kind_of t) reason m).1 i x)) as Hrefused.
  { intros err ->. split; [done|]. intros. reflexivity. }
  destruct (room_of m id) as [room|] eqn:Hr;
    [|destruct (transition_refused m id n t reason) as [err He]; [congruence|by eapply Hrefused]].
  destruct (rm_status room) eqn:Ha;
    [|destruct (transition_refused m id n t reason) as [err He]; [congruence|by eapply Hrefused]].
  destruct (jm_get n (rm_participants room)) as [p|] eqn:Hp;
    [|destruct (transition_refused m id n t reason) as [err He]; [congruence|by eapply Hrefused]].
  destruct (decide (cp_status p = t)) as [Hs|Hs].
  { destruct (transition_again m id n t reason room p) as (e & -> & _); [done..|]. by apply conf_evolves_refl. }
  destruct (decide (t ∈ ALLOWED_TRANSITIONS (cp_status p))) as [Ht|Ht];
    [|destruct (transition_refused m id n t reason) as [err He]; [|by eapply Hrefused];
      intros room' p' ? _ ?; by simplify_eq].
  destruct (transition_run m id n t reason room p) as (m' & e & -> & Hok' & -> & _); [done..|].
  split; [done|]. intros i x. simpl fst. rewrite status_saved. unfold moved_room at 1. simpl rm_id.
  assert (rm_id room = id) as -> by (by apply (co_rooms m Hok)).
  destruct (String.eqb_spec i id) as [->|]; [|reflexivity]. rewrite (status_room m id x room Hr). simpl.
  rewrite jm_get_set. destruct (String.eqb_spec x n) as [->|]; [|reflexivity].
  rewrite Hp. by apply rtc_once, ParticipantMoves.
Qed.

Lemma evolves_invite_one id n room m :
  conf_ok m -> room_of m id = Some room -> jm_get n (rm_participants room) = None ->
  conf_evolves m (saved_and_emitted (conf_tick m)
    (room <| rm_participants ::= jm_set n (mkConferenceParticipant n ConfInvited
       (toISOString (host_clock (cm_ticks m)))) |>) ParticipantInvited (mkConferenceMetadata (Some n) None)).
Proof.
  intros Hok Hr Hp _. assert (rm_id room = id) as Hid by (by apply (co_rooms m Hok)). split.
  - apply (conf_ok_saved _ _ room); [by apply conf_ok_tick|simpl; by rewrite Hid| |by left].
    intros n' p'. simpl. rewrite jm_get_set. destruct (String.eqb_spec n' n) as [->|].
    + intros [= <-] _. split; [done|by left].
    + intros Hp' Hne. exfalso. apply Hne. unfold participant_of, room_of in *. simpl. by rewrite Hid, Hr.
  - intros i x. rewrite status_saved. simpl rm_id. rewrite Hid.
    destruct (String.eqb_spec i id) as [->|]; [|reflexivity]. rewrite (status_room m id x room Hr). simpl.
    rewrite jm_get_set. destruct (String.eqb_spec x n) as [->|]; [|reflexivity].
    rewrite Hp. apply rtc_once, ParticipantEnters.
Qed.

Lemma evolves_invite_loop id ns out : preserves conf_evolves (invite_loop id ns out).
Proof.
  revert out. induction ns as [|n ns IH]; intros out m; [simpl; reflexivity|].
  cbn [invite_loop]. unfold requireRoom. unfold m_bind at 1 2, m_gets at 1.
  destruct (jm_get id (cm_rooms m)) as [room|] eqn:Hr; simpl; [|reflexivity].
  destruct (jm_get n (rm_participants room)) as [p|] eqn:Hp.
  - unfold m_bind, m_gets. destruct (findIndexedEvent _ _ m); [apply IH|simpl; reflexivity].
  - intros Hok. pose proof (evolves_invite_one id n room m Hok Hr Hp) as Hstep.
    rewrite (bind_ok _ _ m (conf_tick m) (toISOString (host_clock (cm_ticks m)))) by done. cbv zeta.
    unfold set_room. rewrite bind_modify. unfold m_bind. rewrite conf_emit_run.
    exact (conf_evolves_trans _ _ _ Hstep (IH _ _) Hok).
Qed.

Lemma evolves_invite id ns : preserves conf_evolves (invite id ns).
Proof.
  intros m. unfold invite, requireActiveRoom, requireRoom, m_bind, m_gets.
  destruct (jm_get id (cm_rooms m)) as [room|]; simpl; [|reflexivity].
  destruct (bool_decide _); [simpl; reflexivity|]. apply evolves_invite_loop.
Qed.

Lemma evolves_close id m : conf_evolves m (closeRoom id m).1.
Proof.
  unfold closeRoom, requireRoom. unfold m_bind at 1 2, m_gets at 1.
  destruct (jm_get id (cm_rooms m)) as [room|] eqn:Hr; simpl; [|reflexivity].
  assert (conf_evolves m (saved_and_emitted m (room <| rm_status := RoomClosed |>) RoomClosedEvent no_metadata)) as Hc.
  { intros Hok. assert (rm_id room = id) as Hid by (by apply (co_rooms m Hok)). split.
    - apply (conf_ok_saved _ _ room); [done|simpl; by rewrite Hid| |by right].
      intros n p Hp Hne. exfalso. apply Hne. unfold participant_of, room_of. simpl. by rewrite Hid, Hr.
    - intros i x. rewrite status_saved. simpl rm_id. rewrite Hid.
      destruct (String.eqb_spec i id) as [->|]; [|reflexivity]. by rewrite (status_room m id x room Hr). }
  destruct (bool_decide _); unfold m_bind at 1, m_gets, m_ret; cbv beta iota.
  - destruct (findIndexedEvent _ _ m); [simpl; reflexivity|]. cbv zeta. rewrite save_emit_run. exact Hc.
  - cbv zeta. rewrite save_emit_run. exact Hc.
Qed.

Context (uuid_inj : forall i j : nat, host_uuid i = host_uuid j -> i = j).

Lemma evolves_create parent m : conf_evolves m (createRoom parent m).1.
Proof.
  unfold createRoom. destruct (negb _); [simpl; reflexivity|].
  intros Hok. set (id := host_uuid (cm_ids m)). assert (room_of m id = None) as Hn by by apply (co_fresh m Hok).
  set (room := mkConferenceRoom id parent (toISOString (host_clock (cm_ticks m))) RoomActive []).
  set (m1 := m <| cm_ids ::= S |> <| cm_ticks ::= S |> <| cm_roomEventIndex ::= jm_set id [] |>).
  match goal with |- context [fst ?r] =>
    assert (r.1 = saved_and_emitted m1 room RoomCreatedEvent no_metadata) as -> by by destruct m end.
  assert (forall i k, i <> id -> findIndexedEvent i k m1 = findIndexedEvent i k m) as Hidx.
  { intros i k Hi. unfold findIndexedEvent, m1. simpl. by rewrite jm_get_set, (proj2 (String.eqb_neq i id) Hi). }
  assert (forall k, findIndexedEvent id k m1 = None) as Hnone.
  { intros k. unfold findIndexedEvent, m1. simpl. by rewrite jm_get_set, String.eqb_refl. }
  assert (forall i n, participant_of (saved_and_emitted m1 room RoomCreatedEvent no_metadata) i n
    = participant_of m i n) as Hpart.
  { intros i n. rewrite participant_of_saved. simpl. destruct (String.eqb_spec i id) as [->|]; [|done].
    unfold participant_of. by rewrite Hn. }
  assert (forall i n p, participant_of m i n = Some p -> i <> id) as Hother.
  { intros i n p Hp ->. unfold participant_of in Hp. by rewrite Hn in Hp. }
  split; [split|].
  - apply keyed_set; [done|apply (co_rooms m Hok)].
  - intros n Hle. rewrite room_of_saved. simpl in Hle. simpl.
    destruct (String.eqb_spec (host_uuid n) id) as [He|]; [apply uuid_inj in He; lia|].
    apply (co_fresh m Hok). lia.
  - intros i n p. rewrite Hpart. intros Hp. apply saved_kept. rewrite Hidx by by eapply Hother.
    by eapply (co_invited m Hok).
  - intros i n p. rewrite Hpart. intros Hp. apply saved_kept. rewrite Hidx by by eapply Hother.
    by eapply (co_reached m Hok).
  - intros i r. rewrite room_of_saved. simpl. destruct (String.eqb_spec i id) as [->|Hi]; [by intros [= <-]|].
    intros Hr Hc. apply saved_kept. rewrite Hidx by done. by eapply (co_closed m Hok).
  - intros i key e. rewrite saved_indexed. simpl rm_id.
    destruct (String.eqb_spec i id) as [->|Hi]; cbn [andb].
    + destruct (String.eqb_spec key (eventKey RoomCreatedEvent (cm_nodeId no_metadata))) as [->|];
        [intros [= <-]; split; reflexivity|rewrite Hnone; discriminate].
    + rewrite Hidx by done. apply (co_events m Hok).
  - apply emitted_buffer; [apply (co_buffer m Hok)|done].
  - intros i n. unfold status_of. rewrite Hpart. reflexivity.
Qed.
End Conference.
