(* ===== verification/RateLimiter.v ===== *)
(** * The rate limiter (src/core/request-security.ts)

    [InMemoryRateLimiter]: per key the times of the accepted requests, dropped when
    they leave the window. *)

From Stdlib Require Import ZArith Lia String.
From stdpp Require Import base strings list sets.
From S2P Require Import Prelude JsRuntime.

Record RateLimitDecision : Type := mkRateLimitDecision {
  rd_key : string;
  rd_limit : Z;
  rd_remaining : Z;
  rd_resetAtMs : Z;
  rd_retryAfterSec : Z;
  rd_allowed : bool;
}.

Record BusyKey : Type := mkBusyKey {
  bk_key : string;
  bk_inWindow : Z;
  bk_remaining : Z;
  bk_resetAtMs : Z;
}.

Record RateLimitPressureSnapshot : Type := mkRateLimitPressureSnapshot {
  rp_limit : Z;
  rp_windowMs : Z;
  rp_activeKeys : Z;
  rp_allowedRequests : Z;
  rp_deniedRequests : Z;
  rp_busiest : list BusyKey;
}.

Record InMemoryRateLimiter : Type := mkInMemoryRateLimiter {
  rl_buckets : jsmap (list Z);
  rl_allowedRequests : Z;
  rl_deniedRequests : Z;
}.
#[export] Instance eta_InMemoryRateLimiter : Eta InMemoryRateLimiter := fun r =>
  mkInMemoryRateLimiter (rl_buckets r) (rl_allowedRequests r) (rl_deniedRequests r).

Definition new_limiter : InMemoryRateLimiter := mkInMemoryRateLimiter [] 0 0.

(** [Math.ceil(ms / 1000)]. *)
Definition ceil_seconds (ms : Z) : Z := (- ((- ms) / 1000))%Z.

Section Limiter.
Context (maxRequests windowMs : Z).

Definition in_window (nowMs : Z) (timestamps : list Z) : list Z :=
  List.filter (fun value => (nowMs - windowMs <? value)%Z) timestamps.

Definition check (key : string) (nowMs : Z) (l : InMemoryRateLimiter)
    : InMemoryRateLimiter * RateLimitDecision :=
  let timestamps := in_window nowMs (jm_get key (rl_buckets l) ?? []) in
  let allowed := (Z.of_nat (length timestamps) <? maxRequests)%Z in
  let timestamps := if allowed then timestamps ++ [nowMs] else timestamps in
  let l := if allowed then l <| rl_allowedRequests ::= Z.add 1 |>
           else l <| rl_deniedRequests ::= Z.add 1 |> in
  let l := l <| rl_buckets ::= jm_set key timestamps |> in
  let earliest := head timestamps ?? nowMs in
  let resetAtMs := (earliest + windowMs)%Z in
  (l, {| rd_key := key;
         rd_limit := maxRequests;
         rd_remaining := Z.max 0 (maxRequests - Z.of_nat (length timestamps));
         rd_resetAtMs := resetAtMs;
         rd_retryAfterSec := Z.max 1 (ceil_seconds (resetAtMs - nowMs));
         rd_allowed := allowed |}).

(** The body of the [map] over the entries of [buckets]. *)
Definition snapshot_entry (nowMs : Z) (acc : jsmap (list Z) * list BusyKey) (entry : string * list Z)
    : jsmap (list Z) * list BusyKey :=
  let '(buckets, active) := acc in
  match in_window nowMs entry.2 with
  | [] => (jm_delete entry.1 buckets, active)
  | first :: rest =>
      (jm_set entry.1 (first :: rest) buckets,
       active ++ [{| bk_key := entry.1;
                     bk_inWindow := Z.of_nat (length (first :: rest));
                     bk_remaining := Z.max 0 (maxRequests - Z.of_nat (length (first :: rest)));
                     bk_resetAtMs := (first + windowMs)%Z |}])
  end.

Definition busier `{JsHost} (a b : BusyKey) : Z :=
  if (bk_inWindow b =? bk_inWindow a)%Z then host_localeCompare (bk_key a) (bk_key b)
  else (bk_inWindow b - bk_inWindow a)%Z.

Definition limiter_snapshot `{JsHost} (nowMs topKeys : Z) (l : InMemoryRateLimiter)
    : InMemoryRateLimiter * RateLimitPressureSnapshot :=
  let '(buckets, active) := foldl (snapshot_entry nowMs) (rl_buckets l, []) (rl_buckets l) in
  let active := js_sort busier active in
  (l <| rl_buckets := buckets |>,
   {| rp_limit := maxRequests;
      rp_windowMs := windowMs;
      rp_activeKeys := Z.of_nat (length active);
      rp_allowedRequests := rl_allowedRequests l;
      rp_deniedRequests := rl_deniedRequests l;
      rp_busiest := take (Z.to_nat (if (topKeys <? 0)%Z then Z.of_nat (length active) + topKeys else topKeys))
                      active |}).

(** ** What the limiter promises *)

(** The accepted requests of every key, oldest first: the specification keeps them
    all, the limiter those of the window. *)
Definition accepted (log : list (string * Z)) (key : string) : list Z :=
  map snd (List.filter (fun kt => String.eqb kt.1 key) log).

(** Serving requests as the clock advances. *)
Inductive limited `{JsHost} : InMemoryRateLimiter -> list (string * Z) -> Z -> Prop :=
| LimitedNew now : limited new_limiter [] now
| LimitedCheck l log now key now' :
    limited l log now -> (now <= now')%Z ->
    limited (check key now' l).1
      (if rd_allowed (check key now' l).2 then log ++ [(key, now')] else log) now'
| LimitedSnapshot l log now now' topKeys :
    limited l log now -> (now <= now')%Z ->
    limited (limiter_snapshot now' topKeys l).1 log now'.

Definition count_between (lo hi : Z) (times : list Z) : Z :=
  Z.of_nat (length (List.filter (fun t => (lo <? t)%Z && (t <=? hi)%Z) times)).

(** ** The limiter keeps what the window needs *)

Lemma in_window_twice now now' l : (now <= now')%Z -> in_window now' (in_window now l) = in_window now' l.
Proof.
  intros Hle. unfold in_window. induction l as [|t l IH]; [done|]. cbn [List.filter].
  destruct (Z.ltb_spec (now - windowMs) t); cbn [List.filter]; [by rewrite IH|].
  destruct (Z.ltb_spec (now' - windowMs) t); [lia|done].
Qed.

Lemma in_window_app now l l' : in_window now (l ++ l') = in_window now l ++ in_window now l'.
Proof. unfold in_window. apply List.filter_app. Qed.

Lemma accepted_snoc log key now k :
  accepted (log ++ [(key, now)]) k = accepted log k ++ (if String.eqb key k then [now] else []).
Proof.
  unfold accepted. rewrite List.filter_app, map_app. f_equal. simpl. by destruct (String.eqb key k).
Qed.

Lemma jm_get_delete {V} (m : jsmap V) k k' :
  jm_wf m -> jm_get k (jm_delete k' m) = if String.eqb k k' then None else jm_get k m.
Proof.
  unfold jm_wf. induction m as [|[k0 v] m IH]; simpl; [by destruct (String.eqb k k')|].
  intros [Hk Hwf]%NoDup_cons. destruct (String.eqb_spec k' k0) as [->|Hne].
  - destruct (String.eqb_spec k k0) as [Heq|]; [|done]. rewrite Heq. by apply jm_get_None.
  - simpl. rewrite IH by done. destruct (String.eqb_spec k k0) as [->|]; [|done].
    destruct (String.eqb_spec k0 k'); [congruence|done].
Qed.

Lemma jm_keys_delete {V} (m : jsmap V) k k' : k' ∈ jm_keys (jm_delete k m) -> k' ∈ jm_keys m.
Proof.
  unfold jm_keys. induction m as [|[k0 v] m IH]; simpl; [done|].
  destruct (String.eqb k k0); simpl; [by right|]. intros [->|Hin]%elem_of_cons; [by left|right; by apply IH].
Qed.

Lemma jm_wf_delete {V} (m : jsmap V) k : jm_wf m -> jm_wf (jm_delete k m).
Proof.
  unfold jm_wf. induction m as [|[k0 v] m IH]; simpl; [done|]. intros [Hk Hwf]%NoDup_cons.
  destruct (String.eqb k k0); [done|]. simpl. apply NoDup_cons. split; [|by apply IH].
  intros Hin. by apply Hk, (jm_keys_delete m k).
Qed.

Definition bucket (l : InMemoryRateLimiter) (key : string) : list Z := jm_get key (rl_buckets l) ?? [].

Definition same_window (now : Z) (m m' : jsmap (list Z)) : Prop :=
  forall k, in_window now (jm_get k m' ?? []) = in_window now (jm_get k m ?? []).

Lemma snapshot_entry_window now m acc entry :
  jm_wf acc.1 -> same_window now m acc.1 -> jm_get entry.1 m = Some entry.2 ->
  jm_wf (snapshot_entry now acc entry).1 /\ same_window now m (snapshot_entry now acc entry).1.
Proof.
  destruct acc as [b active], entry as [k v]. simpl. intros Hwf Hs Hk.
  destruct (in_window now v) as [|t r] eqn:Hv; simpl.
  - split; [by apply jm_wf_delete|]. intros k'. rewrite jm_get_delete by done.
    destruct (String.eqb_spec k' k) as [->|]; [|apply Hs]. rewrite Hk. simpl. by rewrite Hv.
  - split; [by apply jm_wf_set|]. intros k'. rewrite jm_get_set.
    destruct (String.eqb_spec k' k) as [->|]; [|apply Hs]. rewrite Hk. simpl default.
    rewrite <- Hv. by apply in_window_twice.
Qed.

Lemma snapshot_window `{JsHost} now topKeys l :
  jm_wf (rl_buckets l) ->
  jm_wf (rl_buckets (limiter_snapshot now topKeys l).1)
  /\ same_window now (rl_buckets l) (rl_buckets (limiter_snapshot now topKeys l).1).
Proof.
  intros Hwf. unfold limiter_snapshot.
  assert (forall es acc, (forall e, e ∈ es -> jm_get e.1 (rl_buckets l) = Some e.2) ->
    jm_wf acc.1 -> same_window now (rl_buckets l) acc.1 ->
    jm_wf (foldl (snapshot_entry now) acc es).1
    /\ same_window now (rl_buckets l) (foldl (snapshot_entry now) acc es).1) as Hfold.
  { induction es as [|e es IH]; intros acc He Ha Hs; [done|]. simpl.
    destruct (snapshot_entry_window now (rl_buckets l) acc e) as [H1 H2]; [done|done|apply He; set_solver|].
    apply IH; [intros e' He'; apply He; set_solver|done|done]. }
  specialize (Hfold (rl_buckets l) (rl_buckets l, [])). simpl in Hfold.
  destruct (foldl _ _ _) as [b active]. simpl. apply Hfold; [|done|by intros k].
  intros [k v] Hin. by apply jm_elem_get.
Qed.

Record limiter_inv (l : InMemoryRateLimiter) (log : list (string * Z)) (now : Z) : Prop := {
  li_wf : jm_wf (rl_buckets l);
  li_past kt : kt ∈ log -> (kt.2 <= now)%Z;
  li_window k : in_window now (bucket l k) = in_window now (accepted log k);
}.

Lemma limiter_later l log now now' :
  (now <= now')%Z -> limiter_inv l log now ->
  (forall kt, kt ∈ log -> (kt.2 <= now')%Z)
  /\ forall k, in_window now' (bucket l k) = in_window now' (accepted log k).
Proof.
  intros Hle [Hwf Hp Hw]. split; [intros kt Hin; specialize (Hp kt Hin); lia|].
  intros k. rewrite <- (in_window_twice now now' (bucket l k)), <- (in_window_twice now now' (accepted log k)) by done.
  by rewrite Hw.
Qed.

(** The limiter decides like the one that remembers every request. *)
Lemma check_decides l log now key now' :
  limiter_inv l log now -> (now <= now')%Z ->
  rd_allowed (check key now' l).2
  = (Z.of_nat (length (in_window now' (accepted log key))) <? maxRequests)%Z.
Proof.
  intros Hi Hle. destruct (limiter_later l log now now' Hle Hi) as [_ Hw]. simpl.
  change (jm_get key (rl_buckets l) ?? []) with (bucket l key). by rewrite Hw.
Qed.

Lemma check_inv l log now key now' :
  limiter_inv l log now -> (now <= now')%Z ->
  limiter_inv (check key now' l).1
    (if rd_allowed (check key now' l).2 then log ++ [(key, now')] else log) now'.
Proof.
  intros Hi Hle. destruct (limiter_later l log now now' Hle Hi) as [Hp Hw]. pose proof (li_wf _ _ _ Hi) as Hwf.
  pose proof (Hw key) as Hkey. unfold bucket in Hkey. unfold check. simpl.
  destruct (Z.of_nat (length (in_window now' (jm_get key (rl_buckets l) ?? []))) <? maxRequests)%Z eqn:Ha; simpl.
  - split.
    + by apply jm_wf_set.
    + intros kt [Hin|Hin%list_elem_of_singleton]%elem_of_app; [by apply Hp|by subst].
    + intros k. unfold bucket. simpl. rewrite jm_get_set, accepted_snoc, String.eqb_sym.
      destruct (String.eqb_spec key k) as [->|]; [|rewrite app_nil_r; apply Hw]. simpl default.
      rewrite !in_window_app, (in_window_twice now') by done. by rewrite Hkey.
  - split; [by apply jm_wf_set|done|]. intros k. unfold bucket. simpl. rewrite jm_get_set.
    destruct (String.eqb_spec k key) as [->|]; [|apply Hw]. simpl default.
    rewrite (in_window_twice now') by done. by rewrite Hkey.
Qed.

Lemma limited_inv `{JsHost} l log now : limited l log now -> limiter_inv l log now.
Proof.
  induction 1 as [now|l log now key now' _ IH Hle|l log now now' topKeys _ IH Hle].
  - split; [apply jm_wf_nil|set_solver|done].
  - by eapply check_inv.
  - destruct (limiter_later l log now now' Hle IH) as [Hp Hw]. pose proof (li_wf _ _ _ IH) as Hwf.
    destruct (snapshot_window now' topKeys l Hwf) as [Hwf' Hs]. split; [done|done|].
    intros k. etransitivity; [apply (Hs k)|apply Hw].
Qed.

(** ** The bound *)

Lemma count_app lo hi a b : count_between lo hi (a ++ b) = (count_between lo hi a + count_between lo hi b)%Z.
Proof. unfold count_between. rewrite List.filter_app, length_app. lia. Qed.

Lemma count_in_window lo hi now times :
  (now - windowMs <= lo)%Z -> (count_between lo hi times <= Z.of_nat (length (in_window now times)))%Z.
Proof.
  intros Hlo. unfold count_between, in_window. induction times as [|t l IH]; [done|]. cbn [List.filter].
  destruct (Z.ltb_spec lo t), (Z.leb_spec t hi), (Z.ltb_spec (now - windowMs) t); simpl in *; lia.
Qed.

Lemma count_past lo hi now times :
  (forall t, t ∈ times -> (t <= now)%Z) -> (now <= lo)%Z -> count_between lo hi times = 0%Z.
Proof.
  intros Hp Hlo. unfold count_between. induction times as [|t l IH]; [done|]. cbn [List.filter].
  assert (t <= now)%Z by (apply Hp; set_solver).
  destruct (Z.ltb_spec lo t); [lia|]. simpl. apply IH. intros x Hx. apply Hp. set_solver.
Qed.

Lemma accepted_past log now k :
  (forall kt, kt ∈ log -> (kt.2 <= now)%Z) -> forall t, t ∈ accepted log k -> (t <= now)%Z.
Proof.
  intros Hp t. unfold accepted. intros ([k' t'] & -> & Hin)%list_elem_of_fmap.
  apply list_elem_of_In, filter_In in Hin as [Hin%list_elem_of_In _]. by apply Hp.
Qed.

Lemma limited_bound `{JsHost} l log now :
  limited l log now ->
  forall k hi, (count_between (hi - windowMs) hi (accepted log k) <= Z.max 0 maxRequests)%Z.
Proof.
  induction 1 as [now|l log now key now' Hlim IH Hle|l log now now' topKeys _ IH Hle]; intros k hi;
    [unfold count_between; simpl; lia| |apply IH].
  pose proof (limited_inv l log now Hlim) as Hi. pose proof (check_decides l log now key now' Hi Hle) as Hd.
  destruct (rd_allowed _) eqn:Ha; [|apply IH]. symmetry in Hd. apply Z.ltb_lt in Hd.
  rewrite accepted_snoc. destruct (String.eqb_spec key k) as [->|]; [|rewrite app_nil_r; apply IH].
  rewrite count_app.
  destruct (Z.leb_spec now' hi) as [Hhi|Hhi].
  - pose proof (count_in_window (hi - windowMs) hi now' (accepted log k) ltac:(lia)) as Hc.
    assert (count_between (hi - windowMs) hi [now'] <= 1)%Z as Hone.
    { unfold count_between. cbn [List.filter]. destruct (_ && _); simpl; lia. }
    lia.
  - assert (count_between (hi - windowMs) hi [now'] = 0%Z) as ->; [|specialize (IH k hi); lia].
    unfold count_between. cbn [List.filter]. destruct (Z.leb_spec now' hi); [lia|]. by rewrite andb_false_r.
Qed.

(** ** When a refused key may come back *)

Lemma accepted_window l log now k `{JsHost} :
  limited l log now -> (Z.of_nat (length (in_window now (accepted log k))) <= Z.max 0 maxRequests)%Z.
Proof.
  intros Hlim. pose proof (limited_bound l log now Hlim k now) as Hb.
  pose proof (accepted_past log now k (li_past _ _ _ (limited_inv l log now Hlim))) as Hp.
  enough (in_window now (accepted log k)
    = List.filter (fun t => (now - windowMs <? t)%Z && (t <=? now)%Z) (accepted log k)) as -> by exact Hb.
  unfold in_window. clear -Hp. induction (accepted log k) as [|t r IH]; [done|]. cbn [List.filter].
  rewrite IH by (intros; apply Hp; by right). rewrite (proj2 (Z.leb_le t now)) by (apply Hp; by left).
  by rewrite andb_true_r.
Qed.

(** What a refusal announces: the request that leaves the window first. *)
Lemma refused_reset l key now :
  rd_allowed (check key now l).2 = false -> (0 < maxRequests)%Z ->
  exists t rest, in_window now (bucket l key) = t :: rest
    /\ rd_resetAtMs (check key now l).2 = (t + windowMs)%Z
    /\ in_window now (bucket (check key now l).1 key) = t :: rest.
Proof.
  intros Ha Hmax. unfold check in *. fold (bucket l key) in *. simpl in *. rewrite Ha.
  destruct (in_window now (bucket l key)) as [|t rest] eqn:Hw; simpl in *; [apply Z.ltb_ge in Ha; lia|].
  exists t, rest. split; [done|]. split; [done|]. unfold bucket at 1. simpl. rewrite jm_get_set_eq.
  change (in_window now (t :: rest) = t :: rest). rewrite <- Hw. by apply in_window_twice.
Qed.

Lemma reset_reopens `{JsHost} l log key now later :
  limited l log now -> (0 < maxRequests)%Z -> rd_allowed (check key now l).2 = false ->
  (now <= later)%Z -> (rd_resetAtMs (check key now l).2 <= later)%Z ->
  rd_allowed (check key later (check key now l).1).2 = true.
Proof.
  intros Hlim Hmax Ha Hle Hreset. destruct (refused_reset l key now Ha Hmax) as (t & rest & Hw & Hr & Hw').
  pose proof (accepted_window l log now key Hlim) as Hlen.
  rewrite <- (li_window _ _ _ (limited_inv l log now Hlim)), Hw in Hlen.
  set (l' := (check key now l).1) in *. unfold check. fold (bucket l' key). simpl. apply Z.ltb_lt.
  rewrite <- (in_window_twice now later) by done. rewrite Hw'. unfold in_window. cbn [List.filter].
  rewrite (proj2 (Z.ltb_ge (later - windowMs) t)) by lia.
  pose proof (List.filter_length_le (fun v => (later - windowMs <? v)%Z) rest). simpl in Hlen. lia.
Qed.
End Limiter.
