(* ===== verification/ErrorCodes.v ===== *)
(** * The codes of the errors the broker throws

    The transports map a code to a status.  Only a completion may be refused with
    one of the two codes they do not map; every other method of the broker throws
    [plain] errors, or none. *)

From Stdlib Require Import ZArith Lia String.
From stdpp Require Import base gmap strings list pretty relations.
From S2P Require Import Prelude JsRuntime Types Policy Retention BrokerCore CoreFacts Workers.
From S2P Require Import Proposals Github TerminalBrief Tasks TaskMachine TaskFacts Exchanges System.

(** The codes of a completion without acceptable evidence. *)
Definition evidence_codes : list BrokerErrorCode :=
  [CodeGithubCompletionEvidenceMissing; CodeGithubCompletionReceiptInvalid].

Definition plain_code (c : BrokerErrorCode) : Prop := c ∉ evidence_codes.
#[export] Instance plain_code_dec c : Decision (plain_code c).
Proof. unfold plain_code. apply _. Defined.

Section Plain.
Context `{JsHost} `{TaskEventSink} `{BrokerConfig}.

Definition plain {A} (m : BM A) : Prop := forall b e, (m b).2 = Err e -> plain_code (be_code e).

Lemma plain_ret {A} (a : A) : plain (m_ret a).
Proof. by intros b e. Qed.
Lemma plain_gets {A} (f : Broker -> A) : plain (m_gets f).
Proof. by intros b e. Qed.
Lemma plain_get : plain m_get.
Proof. by intros b e. Qed.
Lemma plain_modify f : plain (m_modify f).
Proof. by intros b e. Qed.
Lemma plain_throw {A} c message : plain_code c -> plain (throw (A:=A) c message).
Proof. intros Hc b e. by intros [= <-]. Qed.
Lemma plain_throw_error {A} x : plain_code (be_code x) -> plain (m_throw x : BM A).
Proof. intros Hc b e. by intros [= <-]. Qed.
Lemma plain_throw_if t c message : plain_code c -> plain (throw_if t c message).
Proof. intros Hc b e. unfold throw_if, m_throw_if. destruct t; [by intros [= <-]|done]. Qed.
Lemma plain_bind {A B} (m : BM A) (k : A -> BM B) : plain m -> (forall a, plain (k a)) -> plain (m_bind m k).
Proof.
  intros Hm Hk b e. specialize (Hm b). unfold m_bind. destruct (m b) as [b' [a|err]]; [apply Hk|].
  simpl in *. intros [= <-]. by apply Hm.
Qed.
Lemma plain_when t (m : BM unit) : plain m -> plain (m_when t m).
Proof. unfold m_when. destruct t; eauto using plain_ret. Qed.
Lemma plain_for {A} (l : list A) (f : A -> BM unit) : (forall a, plain (f a)) -> plain (m_for l f).
Proof. intros Hf. induction l as [|a l IH]; [apply plain_ret|by apply plain_bind]. Qed.
Lemma plain_lift_policy r : plain (lift_policy r).
Proof. destruct r as [[]|x]; [apply plain_ret|]. apply plain_throw_error. by apply (bool_decide_unpack _). Qed.
Lemma plain_now_ms : plain now_ms.
Proof. by intros b e. Qed.
Lemma plain_randomUUID : plain randomUUID.
Proof. by intros b e. Qed.
Lemma plain_deref r : plain (deref_exchange r).
Proof.
  intros b e. unfold deref_exchange. destruct (_ !! r); [done|]. intros [= <-].
  by apply (bool_decide_unpack _).
Qed.
Lemma plain_alloc ex : plain (alloc_exchange ex).
Proof. by intros b e. Qed.
End Plain.

Create HintDb plain_db discriminated.
#[export] Hint Constants Opaque : plain_db.
#[export] Hint Resolve plain_ret plain_gets plain_get plain_modify plain_for plain_lift_policy plain_now_ms
  plain_randomUUID plain_deref plain_alloc : plain_db.

Ltac plain_step :=
  cbv beta;
  lazymatch goal with
  | |- plain (let x := ?v in @?k x) =>
      let y := fresh x in generalize v; intros y; change (plain (k y)); cbv beta
  | |- plain (m_bind _ _) => apply plain_bind; [|intro]
  | |- plain (m_when _ _) => apply plain_when
  | |- plain (m_for _ _) => apply plain_for; intro
  | |- plain (throw _ _) => apply plain_throw; by apply (bool_decide_unpack _)
  | |- plain (throw_if _ _ _) => apply plain_throw_if; by apply (bool_decide_unpack _)
  | |- plain (match ?x with _ => _ end) => destruct x
  | |- plain ?m => first [ solve [eauto with plain_db]
                         | let rec head t := lazymatch t with ?f _ => head f | _ => t end in
                           let h := head m in unfold h ]
  end.
Ltac plain_auto := repeat plain_step.

Section Handlers.
Context `{JsHost} `{TaskEventSink} `{BrokerConfig}.

Lemma plain_persistState : plain persistState.
Proof. plain_auto. Qed.
Lemma plain_emitTaskUpdate t r : plain (emitTaskUpdate t r).
Proof. plain_auto. Qed.
Lemma plain_appendAuditEvent i : plain (appendAuditEvent i).
Proof. plain_auto. Qed.
Hint Resolve plain_persistState plain_emitTaskUpdate plain_appendAuditEvent : plain_db.
Lemma plain_save_exchange r : plain (setExchangeRecord r).
Proof. plain_auto. Qed.
Hint Resolve plain_save_exchange : plain_db.
Lemma plain_sync t st : plain (syncExchangeStateFromTask t st).
Proof. plain_auto. Qed.
Hint Resolve plain_sync : plain_db.

(** ** Workers, proposals, exchanges *)

Lemma plain_registerWorker r : plain (registerWorker r).
Proof. plain_auto. Qed.
Lemma plain_heartbeatWorker id r : plain (heartbeatWorker id r).
Proof. plain_auto. Qed.
Lemma plain_startExchange r : plain (startExchange r).
Proof. plain_auto. Qed.
Lemma plain_createProposal r : plain (createProposal r).
Proof. plain_auto. Qed.
Lemma plain_attachArtifact id r : plain (attachArtifact id r).
Proof. plain_auto. Qed.
Lemma plain_submitValidationResult id r : plain (submitValidationResult id r).
Proof. plain_auto. Qed.
Lemma plain_approveProposal id r : plain (approveProposal id r).
Proof. plain_auto. Qed.
Lemma plain_rejectProposal id r : plain (rejectProposal id r).
Proof. plain_auto. Qed.
Lemma plain_applyProposalLocally id r w : plain (applyProposalLocally id r w).
Proof. plain_auto. Qed.

(** ** Tasks *)

Definition refuses_plainly {A} (r : result BrokerError A) : Prop :=
  match r with Ok _ => True | Err e => plain_code (be_code e) end.

Lemma plain_bad_request {A} m : refuses_plainly (A:=A) (bad_request m).
Proof. by apply (bool_decide_unpack _). Qed.
Lemma refuses_if {A} (t : bool) (r1 r2 : result BrokerError A) :
  refuses_plainly r1 -> refuses_plainly r2 -> refuses_plainly (if t then r1 else r2).
Proof. by destruct t. Qed.

Lemma plain_repo_and_issue f m1 m2 : refuses_plainly (repo_and_issue f m1 m2).
Proof.
  unfold repo_and_issue. destruct (truthy_opt _) as [repo|]; [|apply plain_bad_request].
  apply refuses_if; [apply plain_bad_request|]. destruct (normalized_issue f); [done|apply plain_bad_request].
Qed.

Lemma plain_normalize r : plain (lift_result (normalizeGitHubPatchTaskRequest r)).
Proof.
  enough (refuses_plainly (normalizeGitHubPatchTaskRequest r)) as Hr.
  { intros b e. unfold lift_result. destruct (normalizeGitHubPatchTaskRequest r); [done|]. by intros [= <-]. }
  unfold normalizeGitHubPatchTaskRequest, normalize_read_only, normalize_patch. cbv zeta.
  repeat first [ apply refuses_if | apply plain_bad_request | exact I
               | match goal with |- refuses_plainly (match ?x with Ok _ => _ | Err _ => _ end) =>
                   let Hx := fresh in pose proof (plain_repo_and_issue) as Hx;
                   match x with repo_and_issue ?f ?m1 ?m2 => specialize (Hx f m1 m2) end;
                   destruct x as [[]|]; [exact I|exact Hx] end ].
Qed.
Hint Resolve plain_normalize : plain_db.

Lemma plain_createTask r : plain (createTask r).
Proof. plain_auto. Qed.
Lemma plain_approveTask id r : plain (approveTask id r).
Proof. plain_auto. Qed.
Lemma plain_reassignTask id r : plain (reassignTask id r).
Proof. plain_auto. Qed.
Lemma plain_updateTaskPayload id p a n : plain (updateTaskPayload id p a n).
Proof. plain_auto. Qed.
Lemma plain_claimTask id w : plain (claimTask id w).
Proof. plain_auto. Qed.
Lemma plain_startTask id w : plain (startTask id w).
Proof. plain_auto. Qed.
Lemma plain_heartbeatTask id w : plain (heartbeatTask id w).
Proof. plain_auto. Qed.
Lemma plain_failTask id w e : plain (failTask id w e).
Proof. plain_auto. Qed.
Lemma plain_planAcceptedTaskWake id r : plain (planAcceptedTaskWake id r).
Proof. plain_auto. Qed.
Lemma plain_recordTaskWakeDecision id r : plain (recordTaskWakeDecision id r).
Proof. plain_auto. Qed.
Lemma plain_updateTerminalTaskOutboxEvent u : plain (updateTerminalTaskOutboxEvent u).
Proof. plain_auto. Qed.

(** ** Cancellation, requeue and messages *)

Lemma plain_cancelTaskRecord t p : plain (cancelTaskRecord t p).
Proof. plain_auto. Qed.
Hint Resolve plain_cancelTaskRecord : plain_db.

Lemma plain_cancelTaskTree fuel : forall t p visited, plain (cancelTaskTree fuel t p visited).
Proof.
  induction fuel as [|fuel IH]; intros t p visited; cbn [cancelTaskTree];
    [apply plain_throw_error; by apply (bool_decide_unpack _)|].
  destruct (bool_decide _); [apply plain_ret|]. cbv zeta.
  apply plain_bind; [apply plain_cancelTaskRecord|]. intros c.
  apply plain_bind; [apply plain_gets|]. intros children.
  apply plain_bind; [|intro; apply plain_ret].
  generalize (task_id t :: visited). induction children as [|child l IHl]; intros vs; cbn [cancel_children];
    [apply plain_ret|].
  destruct (isTerminalTaskStatus (task_status child)); [apply IHl|].
  apply plain_bind; [apply IH|]. intros r. apply IHl.
Qed.
Hint Resolve plain_cancelTaskTree : plain_db.

Lemma plain_cancelTask id a reason : plain (cancelTask id a reason).
Proof. plain_auto. Qed.
Lemma plain_rejectTaskApproval id r : plain (rejectTaskApproval id r).
Proof. plain_auto. Qed.

Lemma plain_requeue_one th ms stale t out : plain (requeue_one th ms stale t out).
Proof. plain_auto. Qed.
Lemma plain_requeue_loop th ms stale l : forall out, plain (requeue_loop th ms stale l out).
Proof.
  induction l as [|t l IH]; intros out; cbn [requeue_loop]; [apply plain_ret|].
  apply plain_bind; [apply plain_requeue_one|apply IH].
Qed.
Hint Resolve plain_requeue_loop : plain_db.
Lemma plain_requeueStaleTasksDetailed o n w : plain (requeueStaleTasksDetailed o n w).
Proof. plain_auto. Qed.

Lemma plain_cancelActiveExchangeTask ref reason : plain (cancelActiveExchangeTask ref reason).
Proof. plain_auto. Qed.
Hint Resolve plain_cancelActiveExchangeTask plain_createTask plain_reassignTask : plain_db.
Lemma plain_addExchangeMessage id r : plain (addExchangeMessage id r).
Proof. plain_auto. Qed.

Lemma plain_ignore {A} (m : BM A) : plain m -> plain (ignore m).
Proof. intros Hm. apply plain_bind; [done|]. intros. apply plain_ret. Qed.

(** Every request but a completion. *)
Lemma plain_call c : match c with CallCompleteTask _ _ _ => False | _ => True end -> plain (run_call c).
Proof.
  intros Hc. destruct c; try done; simpl; try apply plain_ignore;
    first [ apply plain_registerWorker | apply plain_heartbeatWorker | apply plain_startExchange
          | apply plain_addExchangeMessage | apply plain_createProposal | apply plain_attachArtifact
          | apply plain_submitValidationResult | apply plain_approveProposal | apply plain_rejectProposal
          | apply plain_applyProposalLocally | apply plain_createTask | apply plain_approveTask
          | apply plain_rejectTaskApproval | apply plain_cancelTask | apply plain_reassignTask
          | apply plain_updateTaskPayload | apply plain_claimTask | apply plain_startTask
          | apply plain_heartbeatTask | apply plain_failTask | apply plain_requeueStaleTasksDetailed
          | apply plain_planAcceptedTaskWake | apply plain_recordTaskWakeDecision
          | apply plain_updateTerminalTaskOutboxEvent | apply plain_modify | plain_auto ].
Qed.
End Handlers.
