(* ===== verification/RequestSecurity.v ===== *)
(** * Request security (src/core/request-security.ts)

    Who a request comes from, as its headers say; the key and the bucket it is
    counted under; and the checks the routes make of it.  A request is what
    node:http and the URL class hand over. *)

From Stdlib Require Import ZArith Lia String Ascii.
From stdpp Require Import base strings list pretty.
From S2P Require Import Prelude JsRuntime Types BrokerCore RateLimiter.

(** ** Requests *)

Inductive HeaderValue : Type :=
| HeaderText (s : string)
| HeaderList (l : list string).

(** [req.method], [req.headers], [req.socket.remoteAddress], and the path and the
    search parameters of its URL. *)
Record IncomingMessage : Type := mkIncomingMessage {
  req_method : string;
  req_headers : jsmap HeaderValue;
  req_remoteAddress : option string;
  url_pathname : string;
  url_searchParams : list (string * string);
}.

(** [url.searchParams.get(name)]. *)
Definition search_param (name : string) (req : IncomingMessage) : option string :=
  jm_get name (url_searchParams req).

(** [s.split(sep)] for a separator of one character. *)
Fixpoint split_chars (sep : ascii) (l : list ascii) : list (list ascii) :=
  match l with
  | [] => [[]]
  | c :: l =>
      if Ascii.eqb c sep then [] :: split_chars sep l
      else match split_chars sep l with
           | [] => [[c]]
           | w :: ws => (c :: w) :: ws
           end
  end.
Definition js_split (sep : ascii) (s : string) : list string := map unchars (split_chars sep (chars s)).

(** [path.split("/").filter(Boolean)]. *)
Definition path_segments (path : string) : list string := List.filter str_truthy (js_split "/" path).

Definition headerValue (req : IncomingMessage) (name : string) : option string :=
  match jm_get name (req_headers req) with
  | Some (HeaderList l) => head l ≫= trimmed
  | Some (HeaderText s) => trimmed s
  | None => None
  end.

(** ** Identity *)

Record RequesterIdentity : Type := mkRequesterIdentity {
  ri_id : string;
  ri_kind : option A2APartyKind;
  ri_role : option A2APartyRole;
  ri_scopes : option (list string);
}.

(** The schemas of the headers, which belong to the zod package: the value a text
    parses to, if any. *)
Class RequesterSchemas : Type := {
  requesterKindSchema : string -> option A2APartyKind;
  requesterRoleSchema : string -> option A2APartyRole;
}.

Abbreviation Sec := (result BrokerError).
Definition refuse {A} (code : BrokerErrorCode) (message : string) : Sec A := Err (mkBrokerError code message).
Definition sec_bind {A B} (r : Sec A) (k : A -> Sec B) : Sec B :=
  match r with Ok a => k a | Err e => Err e end.
Notation "x <-! r ; k" := (sec_bind r (fun x => k))
  (at level 100, r at next level, right associativity) : js_scope.

Definition parseRequesterKind `{RequesterSchemas} (value : option string) : Sec (option A2APartyKind) :=
  match truthy_opt value with
  | None => Ok None
  | Some value =>
      match requesterKindSchema value with
      | Some k => Ok (Some k)
      | None => refuse CodeBadRequest "x-a2a-requester-kind must be one of: session, node, user, service"
      end
  end.

Definition parseRequesterRole `{RequesterSchemas} (value : option string) : Sec (option A2APartyRole) :=
  match truthy_opt value with
  | None => Ok None
  | Some value =>
      match requesterRoleSchema value with
      | Some r => Ok (Some r)
      | None => refuse CodeBadRequest
          "x-a2a-requester-role must be one of: hub, live-trader, researcher, analyst, operator"
      end
  end.

(** [value.split(/[\s,]+/)]. *)
Definition is_scope_separator (c : ascii) : bool := is_space c || Ascii.eqb c ",".
Fixpoint split_scopes (gap : bool) (l : list ascii) : list (list ascii) :=
  match l with
  | [] => [[]]
  | c :: l =>
      if is_scope_separator c then (if gap then split_scopes true l else [] :: split_scopes true l)
      else match split_scopes false l with
           | [] => [[c]]
           | w :: ws => (c :: w) :: ws
           end
  end.

Definition parseRequesterScopes `{JsHost} (value : option string) : option (list string) :=
  match truthy_opt value with
  | None => None
  | Some value =>
      let scopes := js_sort host_localeCompare
        (js_unique (List.filter (fun entry => 0 <? String.length entry)
          (map (fun w => js_trim (unchars w)) (split_scopes false (chars value))))) in
      if 0 <? length scopes then Some scopes else None
  end.

Definition extractRequesterIdentity `{JsHost} `{RequesterSchemas} (req : IncomingMessage)
    : Sec (option RequesterIdentity) :=
  let id := headerValue req "x-a2a-requester-id" in
  let rawKind := headerValue req "x-a2a-requester-kind" in
  let rawRole := headerValue req "x-a2a-requester-role" in
  let rawScopes := headerValue req "x-a2a-requester-scopes" ??o headerValue req "x-a2a-requester-scope" in
  match truthy_opt id with
  | None =>
      if ostr_truthy rawKind || ostr_truthy rawRole || ostr_truthy rawScopes then
        refuse CodeBadRequest
          "x-a2a-requester-id is required when requester kind, role, or scopes headers are present"
      else Ok None
  | Some id =>
      kind <-! parseRequesterKind rawKind;
      role <-! parseRequesterRole rawRole;
      Ok (Some (mkRequesterIdentity id kind role (parseRequesterScopes rawScopes)))
  end.

(** ** Rate limiting *)

Inductive RateLimitBucket : Type := BucketGeneral | BucketWorker.
#[export] Instance RateLimitBucket_eq_dec : EqDecision RateLimitBucket.
Proof. solve_decision. Defined.
Definition RateLimitBucket_text (b : RateLimitBucket) : string :=
  match b with BucketGeneral => "general" | BucketWorker => "worker" end.

(** [identity?.id] when it is not empty. *)
Definition identity_id (identity : option RequesterIdentity) : option string :=
  truthy_opt (ri_id <$> identity).

Definition rateLimitKey (req : IncomingMessage) (identity : option RequesterIdentity) (trustedProxy : bool) : string :=
  match identity_id identity with
  | Some id => ("requester:" ++ id)%string
  | None =>
      let forwarded := if trustedProxy then headerValue req "x-forwarded-for" else None in
      let remoteAddress :=
        (forwarded ≫= fun f => head (js_split "," f) ≫= trimmed)
        ??o truthy_opt (req_remoteAddress req) in
      ("ip:" ++ (remoteAddress ?? "unknown"))%string
  end.

Definition applyRateLimitHeaders (decision : RateLimitDecision) (bucket : RateLimitBucket) : list (string * string) :=
  [("x-a2a-ratelimit-bucket", RateLimitBucket_text bucket);
   ("x-ratelimit-limit", pretty (rd_limit decision));
   ("x-ratelimit-remaining", pretty (rd_remaining decision));
   ("x-ratelimit-reset", pretty (rd_resetAtMs decision / 1000)%Z)].

(** [timingSafeEqual] answers whether two buffers of one length are equal. *)
Definition secretsMatch (providedSecret expectedSecret : string) : bool :=
  (String.length providedSecret =? String.length expectedSecret) && String.eqb providedSecret expectedSecret.

Definition assertEdgeSecret (req : IncomingMessage) (expectedSecret : option string) : Sec unit :=
  match truthy_opt expectedSecret with
  | None => Ok tt
  | Some expected =>
      match headerValue req "x-a2a-edge-secret" with
      | Some provided =>
          if secretsMatch provided expected then Ok tt
          else refuse CodeUnauthorized "x-a2a-edge-secret is required for this route"
      | None => refuse CodeUnauthorized "x-a2a-edge-secret is required for this route"
      end
  end.

(** [segments[n] === text], and [segments[n]] as a condition. *)
Definition segment_is (n : nat) (text : string) (segments : list string) : bool :=
  bool_decide (segments !! n = Some text).
Definition has_segment (n : nat) (segments : list string) : bool := ostr_truthy (segments !! n).

Definition classifyRateLimitBucket (req : IncomingMessage) : RateLimitBucket :=
  let path := url_pathname req in
  let segments := path_segments path in
  let post := String.eqb (req_method req) "POST" in
  let get := String.eqb (req_method req) "GET" in
  let requesterId := headerValue req "x-a2a-requester-id" in
  if post && String.eqb path "/workers/register" then BucketWorker
  else if post && segment_is 0 "workers" segments && has_segment 1 segments && segment_is 2 "heartbeat" segments
  then BucketWorker
  else if post && segment_is 0 "tasks" segments && has_segment 1 segments
    && existsb (String.eqb (segments !! 2 ?? "")) ["claim"; "start"; "complete"; "evidence"; "fail"]
  then BucketWorker
  else if get && segment_is 0 "a2a" segments && segment_is 1 "workers" segments && has_segment 2 segments
    && segment_is 3 "assignment-events" segments && bool_decide (requesterId = segments !! 2)
  then BucketWorker
  else
    let assignedWorkerId := (search_param "assignedWorkerId" req ≫= trimmed)
                            ??o (search_param "worker" req ≫= trimmed) in
    if get && String.eqb path "/tasks" && ostr_truthy assignedWorkerId
      && bool_decide (requesterId = assignedWorkerId)
    then BucketWorker
    else BucketGeneral.

(** ** The checks of the routes *)

Definition requireRequesterIdentity (identity : option RequesterIdentity) : Sec RequesterIdentity :=
  match identity with
  | Some i => if str_truthy (ri_id i) then Ok i
              else refuse CodeUnauthorized "x-a2a-requester-id is required for this route"
  | None => refuse CodeUnauthorized "x-a2a-requester-id is required for this route"
  end.

Definition privileged_role (r : A2APartyRole) : bool := bool_decide (r ∈ [RoleHub; RoleOperator]).

Definition assertRequesterMatchesParty (identity : option RequesterIdentity) (id : string)
    (role : option A2APartyRole) (context : string) : Sec unit :=
  requester <-! requireRequesterIdentity identity;
  if negb (String.eqb (ri_id requester) id) then
    refuse CodeUnauthorized (context ++ " requester id must match " ++ id)
  else
    match role with
    | None => Ok tt
    | Some role =>
        if privileged_role role && negb (bool_decide (ri_role requester = Some role)) then
          refuse CodeUnauthorized
            (context ++ " requester role must match privileged actor role " ++ A2APartyRole_text role)
        else if is_some (ri_role requester) && negb (bool_decide (ri_role requester = Some role)) then
          refuse CodeUnauthorized (context ++ " requester role must match " ++ A2APartyRole_text role)
        else Ok tt
    end.

Definition assertRequesterCanTouchProposalArtifacts (identity : option RequesterIdentity)
    (proposal : ChangeProposal) : Sec unit :=
  requester <-! requireRequesterIdentity identity;
  if bool_decide (ri_role requester = Some RoleOperator) then Ok tt
  else if String.eqb (ri_id requester) (pr_sourceNodeId proposal)
       || String.eqb (ri_id requester) (pr_targetNodeId proposal) then Ok tt
  else refuse CodeUnauthorized
         "artifact updates require the proposal source, target, or an operator requester".

Definition assertRequesterCanSubscribeToTask (identity : option RequesterIdentity) (task : TaskRecord) : Sec unit :=
  requester <-! requireRequesterIdentity identity;
  if match ri_role requester with Some r => privileged_role r | None => false end then Ok tt
  else if bool_decide (ri_id requester ∈ List.filter (fun value => 0 <? String.length value)
            (omap id [Some (party_id (task_requester task)); Some (task_targetNodeId task);
                      task_assignedWorkerId task])) then Ok tt
  else refuse CodeUnauthorized
         "task subscribe requires the task requester, target, assigned worker, or a hub/operator role".

Definition assertRequesterHasRole (identity : option RequesterIdentity) (allowedRoles : list A2APartyRole)
    (context : string) : Sec unit :=
  requester <-! requireRequesterIdentity identity;
  match ri_role requester with
  | Some r => if bool_decide (r ∈ allowedRoles) then Ok tt
              else refuse CodeUnauthorized (context ++ " requester role must be one of: "
                     ++ String.concat ", " (map A2APartyRole_text allowedRoles))
  | None => refuse CodeUnauthorized (context ++ " requester role must be one of: "
                ++ String.concat ", " (map A2APartyRole_text allowedRoles))
  end.
