(* ===== verification/HttpServer.v ===== *)
(** * The HTTP server (src/server.ts)

    The requests that change the broker, and the event stream of a task.  A
    request is admitted in one step (identity, edge secret, rate limit); its
    handler then awaits the body and runs in a second step, so that the handlers
    of several requests interleave.  A body is JSON that the route casts to its
    type; [hr_body] is that reading of it. *)

From Stdlib Require Import ZArith Lia String Ascii.
From stdpp Require Import base gmap strings list pretty relations.
From S2P Require Import Prelude JsRuntime Types Policy Retention BrokerCore EventBuffer TaskEventStream.
From S2P Require Import Outbox Workers Proposals Github TerminalBrief Tasks TaskFacts Exchanges System.
From S2P Require Import RateLimiter RequestSecurity.

(** ** Endpoints and their bodies *)

Inductive Endpoint : Type :=
| PostWorkersRegister
| PostWorkerHeartbeat (nodeId : string)
| PostExchanges
| PostExchangeMessages (exchangeId : string)
| PostProposals
| PostProposalArtifacts (proposalId : string)
| PostProposalValidate (proposalId : string)
| PostProposalApprove (proposalId : string)
| PostProposalReject (proposalId : string)
| PostProposalApply (proposalId : string)
| PostTasks
| PostTasksRequeueStale
| PostTaskWakePlan (taskId : string)
| PostTaskWakeDecision (taskId : string)
| PostTaskClaim (taskId : string)
| PostTaskStart (taskId : string)
| PostTaskHeartbeat (taskId : string)
| PostTaskComplete (taskId : string)
| PostTaskEvidence (taskId : string)
| PostTaskFail (taskId : string)
| PostTaskApprove (taskId : string)
| PostTaskRejectApproval (taskId : string)
| PostTaskCancel (taskId : string)
| PostTaskReassign (taskId : string)
| PostOutboxReceipt
| PostOutboxAck
| GetTaskEvents (taskId : string).

Record TaskClaimRequest : Type := mkTaskClaimRequest { tq_workerId : option string }.
Record TaskCompleteRequest : Type := mkTaskCompleteRequest {
  tc_workerId : option string;
  tc_result : option TaskResult;
}.
Record TaskEvidenceRequest : Type := mkTaskEvidenceRequest {
  te_workerId : option string;
  te_outcome : option string;
  te_result : option TaskResult;
  te_error : option TaskError;
}.
Record TaskFailRequest : Type := mkTaskFailRequest {
  tx_workerId : option string;
  tx_error : option TaskError;
}.
Record TaskCancelRequest : Type := mkTaskCancelRequest {
  tcr_actor : option A2APartyRef;
  tcr_reason : option string;
}.
Record ApplyProposalRequest : Type := mkApplyProposalRequest {
  ap_request : ProposalActorRequest;
  ap_workspace : option WorkspaceRef;
}.

Definition body_of (e : Endpoint) : Type :=
  match e with
  | PostWorkersRegister => RegisterWorkerRequest
  | PostWorkerHeartbeat _ => WorkerHeartbeatRequest
  | PostExchanges => A2AExchangeRequest
  | PostExchangeMessages _ => A2AExchangeMessageRequest
  | PostProposals => CreateProposalRequest
  | PostProposalArtifacts _ => AttachArtifactRequest
  | PostProposalValidate _ => SubmitValidationRequest
  | PostProposalApprove _ | PostProposalReject _ => ProposalActorRequest
  | PostProposalApply _ => ApplyProposalRequest
  | PostTasks => CreateTaskRequest
  | PostTaskWakePlan _ => TaskWakePlanRequest
  | PostTaskWakeDecision _ => TaskWakeDecisionRequest
  | PostTaskClaim _ | PostTaskStart _ | PostTaskHeartbeat _ => TaskClaimRequest
  | PostTaskComplete _ => TaskCompleteRequest
  | PostTaskEvidence _ => TaskEvidenceRequest
  | PostTaskFail _ => TaskFailRequest
  | PostTaskApprove _ | PostTaskRejectApproval _ => TaskApprovalRequest
  | PostTaskCancel _ => TaskCancelRequest
  | PostTaskReassign _ => TaskReassignRequest
  | PostOutboxReceipt | PostOutboxAck => JsRecord
  | PostTasksRequeueStale | GetTaskEvents _ => unit
  end.

(** What [readJson] finds: nothing (or a falsy value), no JSON, or a value. *)
Inductive JsonBody (A : Type) : Type :=
| BodyAbsent
| BodyInvalid
| BodyValue (a : A).
Arguments BodyAbsent {A}.
Arguments BodyInvalid {A}.
Arguments BodyValue {A} a.

(** [hr_nowMs] is the clock when the request arrives, [hr_connection] the
    listener its response is. *)
Record HttpRequest : Type := mkHttpRequest {
  hr_message : IncomingMessage;
  hr_body : forall e : Endpoint, JsonBody (body_of e);
  hr_nowMs : Z;
  hr_connection : nat;
}.

(** ** Routing *)

(** The route of [segments[0] === collection && segments[1] && segments[2] ===
    action] among the given ones. *)
Definition resource_route (collection : string) (segments : list string)
    (actions : list (string * (string -> Endpoint))) : option Endpoint :=
  match segments with
  | c :: id :: action :: _ =>
      if String.eqb c collection && str_truthy id
      then (fun e : string -> Endpoint => e id) <$> jm_get action actions else None
  | _ => None
  end.

Definition wake_route (segments : list string) : option Endpoint :=
  match segments with
  | [c; id; "wake"%string; action] =>
      if String.eqb c "tasks" && str_truthy id then
        if String.eqb action "plan" then Some (PostTaskWakePlan id)
        else if String.eqb action "decision" then Some (PostTaskWakeDecision id) else None
      else None
  | _ => None
  end.

Definition task_actions : list (string * (string -> Endpoint)) := [
  ("claim", PostTaskClaim); ("start", PostTaskStart); ("heartbeat", PostTaskHeartbeat);
  ("complete", PostTaskComplete); ("evidence", PostTaskEvidence); ("fail", PostTaskFail);
  ("approve", PostTaskApprove); ("reject-approval", PostTaskRejectApproval);
  ("cancel", PostTaskCancel); ("reassign", PostTaskReassign)].

Definition proposal_actions : list (string * (string -> Endpoint)) := [
  ("artifacts", PostProposalArtifacts); ("validate", PostProposalValidate);
  ("approve", PostProposalApprove); ("reject", PostProposalReject); ("apply", PostProposalApply)].

Definition post_path_route (path : string) : option Endpoint :=
  jm_get path [
    ("/a2a/tasks/terminal-outbox/receipt", PostOutboxReceipt);
    ("/a2a/tasks/terminal-outbox/ack", PostOutboxAck);
    ("/workers/register", PostWorkersRegister);
    ("/exchanges", PostExchanges);
    ("/proposals", PostProposals);
    ("/tasks", PostTasks);
    ("/tasks/requeue_stale", PostTasksRequeueStale)].

Definition endpoint_of (req : IncomingMessage) : option Endpoint :=
  let path := url_pathname req in
  let segments := path_segments path in
  if String.eqb (req_method req) "POST" then
    post_path_route path
    ??o resource_route "workers" segments [("heartbeat", PostWorkerHeartbeat)]
    ??o resource_route "exchanges" segments [("messages", PostExchangeMessages)]
    ??o resource_route "proposals" segments proposal_actions
    ??o wake_route segments
    ??o resource_route "tasks" segments task_actions
  else if String.eqb (req_method req) "GET" then
    match segments with
    | ["a2a"; "tasks"; taskId; "events"] => if str_truthy taskId then Some (GetTaskEvents taskId) else None
    | _ => None
    end
  else None.

(** ** Responses *)

(** An event of a task's stream; its task is the record that is projected. *)
Record SseEvent : Type := mkSseEvent {
  sse_event : string;
  sse_id : string;
  sse_task : TaskRecord;
  sse_reason : string;
  sse_final : bool;
}.

(** The JSON of the responses the routes of this file send. *)
Inductive HttpData : Type :=
| DataWorker (worker : WorkerRecord) (brokerId : option string)
| DataExchange (exchange : A2AExchangeState)
| DataMessage (message : A2AExchangeMessageRecord)
| DataProposal (proposal : ChangeProposal)
| DataProposalStatus (proposalId : string) (status : ProposalStatus) (updatedAt : string)
| DataArtifact (artifact : ArtifactRecord)
| DataValidation (validation : ValidationResult)
| DataTask (task : TaskRecord)
| DataWakePlan (result : TaskWakePlanResult)
| DataRequeue (olderThanSeconds : JsNum) (outcome : RequeueOutcome)
| DataOutboxEvent (event : TerminalTaskOutboxEvent)
| DataEventStream (events : list SseEvent) (open : bool)
| DataInternalError.

Record HttpReply : Type := mkHttpReply {
  rep_status : Z;
  rep_data : HttpData;
}.

(** [statusCodeFor]: [None] is the error it throws for a code it does not know. *)
Definition statusCodeFor (code : BrokerErrorCode) : option Z :=
  match code with
  | CodeBadRequest => Some 400
  | CodeUnauthorized => Some 401
  | CodePolicyDenied => Some 403
  | CodeNotFound => Some 404
  | CodeInvalidTransition => Some 409
  | CodeRateLimited => Some 429
  | _ => None
  end%Z.

(** What the client sees.  An error thrown by [sendError] itself leaves the
    handler's promise rejected and the response unsent. *)
Inductive HttpAnswer : Type :=
| Answered (reply : HttpReply)
| ErrorAnswer (status : Z) (error : BrokerError)
| Unanswered (error : BrokerError).

Definition sendError (e : BrokerError) : HttpAnswer :=
  match statusCodeFor (be_code e) with
  | Some status => ErrorAnswer status e
  | None => Unanswered e
  end.

(** ** Handlers *)

Class ServerConfig : Type := {
  sc_enforceRequesterIdentity : bool;
  sc_edgeSecret : option string;
  sc_trustedProxy : bool;
  sc_workerOfflineAfterSec : Z;
  sc_rateLimitMaxRequests : Z;
  sc_rateLimitWindowMs : Z;
  sc_workerRateLimitMaxRequests : Z;
  sc_workerRateLimitWindowMs : Z;
  (** [Number(text)] of a text that is no run of decimal digits, and a thousand
      times a fraction, in whole milliseconds. *)
  sc_otherNumber : string -> JsNum;
  sc_fractionMillis : string -> Z;
}.

Section Server.
Context `{JsHost} `{OutboxText} `{BrokerConfig} `{ServerConfig}.
Implicit Types (identity : option RequesterIdentity).

Definition lift_sec {A} (r : Sec A) : BM A :=
  match r with Ok a => m_ret a | Err e => m_throw e end.

(** [if (enforceRequesterIdentity) assert...(requesterIdentity, ...)]. *)
Definition enforce (check : Sec unit) : BM unit :=
  if sc_enforceRequesterIdentity then lift_sec check else m_ret tt.

Definition readJson {A} (body : JsonBody A) : BM (option A) :=
  match body with
  | BodyAbsent => m_ret None
  | BodyInvalid => throw CodeBadRequest "invalid JSON body"
  | BodyValue a => m_ret (Some a)
  end.

(** [readJson] followed by the guard on what the route requires of the body. *)
Definition read_body {A} (body : JsonBody A) (required : A -> bool) (message : string) : BM A :=
  value <-- readJson body;
  match value with
  | Some a => if required a then m_ret a else throw CodeBadRequest message
  | None => throw CodeBadRequest message
  end.

Definition any_body {A} (_ : A) : bool := true.
Definition reply (status : Z) (data : HttpData) : BM HttpReply := m_ret (mkHttpReply status data).

Definition hub_or_operator : list A2APartyRole := [RoleHub; RoleOperator].

(** *** Workers and exchanges *)

Definition post_workers_register identity (body : JsonBody RegisterWorkerRequest) : BM HttpReply :=
  body <-- read_body body any_body "request body is required";
  enforce (assertRequesterMatchesParty identity (rw_nodeId body) (rw_role body) "worker.register");;;
  worker <-- registerWorker body;
  reply 201 (DataWorker worker cfg_brokerId).

Definition post_worker_heartbeat identity (nodeId : string) (body : JsonBody WorkerHeartbeatRequest) : BM HttpReply :=
  body <-- readJson body;
  existing <-- getWorker nodeId;
  enforce (assertRequesterMatchesParty identity nodeId (wr_role <$> existing) "worker.heartbeat");;;
  worker <-- heartbeatWorker nodeId body;
  reply 200 (DataWorker worker None).

Definition exchange_complete (body : A2AExchangeRequest) : bool :=
  str_truthy (party_id (xr_requester body)) && str_truthy (party_id (xr_target body))
  && str_truthy (xr_message body).

Definition post_exchanges identity (body : JsonBody A2AExchangeRequest) : BM HttpReply :=
  body <-- read_body body exchange_complete "requester.id, target.id, and message are required";
  enforce (assertRequesterMatchesParty identity (party_id (xr_requester body)) (party_role (xr_requester body))
             "exchange.create");;;
  exchange <-- startExchange body;
  reply 201 (DataExchange exchange).

Definition post_exchange_messages identity (exchangeId : string) (body : JsonBody A2AExchangeMessageRequest)
    : BM HttpReply :=
  body <-- read_body body (fun b => str_truthy (actor_id (mr_actor b)) && str_truthy (mr_message b))
             "actor.id and message are required";
  enforce (assertRequesterMatchesParty identity (actor_id (mr_actor body)) (actor_role (mr_actor body))
             "exchange.message.create");;;
  message <-- addExchangeMessage exchangeId body;
  reply 201 (DataMessage message).

(** *** Proposals *)

Definition post_proposals identity (body : JsonBody CreateProposalRequest) : BM HttpReply :=
  body <-- read_body body any_body "request body is required";
  enforce (assertRequesterMatchesParty identity (party_id (cp_source body)) (party_role (cp_source body))
             "proposal.create");;;
  proposal <-- createProposal body;
  reply 201 (DataProposal proposal).

Definition post_proposal_artifacts identity (proposalId : string) (body : JsonBody AttachArtifactRequest)
    : BM HttpReply :=
  body <-- read_body body any_body "request body is required";
  (if sc_enforceRequesterIdentity then
     proposal <-- getProposal proposalId;
     match proposal with
     | None => throw CodeNotFound "proposal not found"
     | Some proposal => lift_sec (assertRequesterCanTouchProposalArtifacts identity proposal)
     end
   else m_ret tt);;;
  artifact <-- attachArtifact proposalId body;
  reply 201 (DataArtifact artifact).

Definition post_proposal_validate identity (proposalId : string) (body : JsonBody SubmitValidationRequest)
    : BM HttpReply :=
  body <-- read_body body any_body "request body is required";
  enforce (assertRequesterMatchesParty identity (sv_nodeId body) None "proposal.validate");;;
  validation <-- submitValidationResult proposalId body;
  reply 201 (DataValidation validation).

Definition proposal_status (proposal : ChangeProposal) : HttpData :=
  DataProposalStatus (pr_id proposal) (pr_status proposal) (pr_updatedAt proposal).

Definition post_proposal_approve identity (proposalId : string) (body : JsonBody ProposalActorRequest) : BM HttpReply :=
  body <-- read_body body (fun b => str_truthy (actor_id (pa_actor b))) "actor.id is required";
  enforce (assertRequesterMatchesParty identity (actor_id (pa_actor body)) (actor_role (pa_actor body))
             "proposal.approve");;;
  proposal <-- approveProposal proposalId body;
  reply 200 (proposal_status proposal).

Definition post_proposal_reject identity (proposalId : string) (body : JsonBody ProposalActorRequest) : BM HttpReply :=
  body <-- read_body body (fun b => str_truthy (actor_id (pa_actor b))) "actor.id is required";
  enforce (assertRequesterMatchesParty identity (actor_id (pa_actor body)) (actor_role (pa_actor body))
             "proposal.reject");;;
  proposal <-- rejectProposal proposalId body;
  reply 200 (proposal_status proposal).

Definition apply_complete (b : ApplyProposalRequest) : bool :=
  str_truthy (actor_id (pa_actor (ap_request b)))
  && match ap_workspace b with
     | Some w => str_truthy (ws_nodeId w) && str_truthy (ws_workspaceId w)
     | None => false
     end.

Definition apply_required : string := "actor.id, workspace.nodeId, and workspace.workspaceId are required".

Definition post_proposal_apply identity (proposalId : string) (body : JsonBody ApplyProposalRequest) : BM HttpReply :=
  body <-- read_body body apply_complete apply_required;
  let request := ap_request body in
  enforce (assertRequesterMatchesParty identity (actor_id (pa_actor request)) (actor_role (pa_actor request))
             "proposal.apply");;;
  match ap_workspace body with
  | None => throw CodeBadRequest apply_required
  | Some workspace =>
      proposal <-- applyProposalLocally proposalId request workspace;
      reply 200 (proposal_status proposal)
  end.

(** *** Tasks *)

Definition post_tasks identity (body : JsonBody CreateTaskRequest) : BM HttpReply :=
  body <-- read_body body any_body "request body is required";
  enforce (assertRequesterMatchesParty identity (party_id (ct_requester body)) (party_role (ct_requester body))
             "task.create");;;
  task <-- createTask body;
  reply 201 (DataTask task).

(** [Number(text)] of a parameter of the query. *)
Definition query_number (text : string) : JsNum :=
  let l := trim_chars (chars text) in
  if all_digits l then NInt (digits_value l) else sc_otherNumber text.

Definition number_negative (n : JsNum) : bool :=
  match n with
  | NInt z => (z <? 0)%Z
  | NFrac text => starts_with "-" text
  | NNaN => false
  | NInf negative => negative
  end.

Definition numberQueryParam (name : string) (req : IncomingMessage) : Sec (option JsNum) :=
  match truthy_opt (search_param name req) with
  | None => Ok None
  | Some text =>
      let parsed := query_number text in
      match parsed with
      | NNaN | NInf _ => refuse CodeBadRequest (name ++ " must be a non-negative number")
      | _ => if number_negative parsed then refuse CodeBadRequest (name ++ " must be a non-negative number")
             else Ok (Some parsed)
      end
  end.

(** [n * 1000] for a finite number. *)
Definition seconds_to_ms (n : JsNum) : Z :=
  match n with NInt z => (z * 1000)%Z | NFrac text => sc_fractionMillis text | _ => 0%Z end.

Definition post_tasks_requeue_stale (req : IncomingMessage) identity : BM HttpReply :=
  enforce (assertRequesterHasRole identity hub_or_operator "task.requeue_stale");;;
  parsed <-- lift_sec (numberQueryParam "older_than_seconds" req);
  let olderThanSec := parsed ?? NInt 300 in
  outcome <-- requeueStaleTasksDetailed (seconds_to_ms olderThanSec) None
                (Some (sc_workerOfflineAfterSec * 1000)%Z);
  reply 200 (DataRequeue olderThanSec outcome).

Definition post_task_wake_plan identity (taskId : string) (body : JsonBody TaskWakePlanRequest) : BM HttpReply :=
  body <-- read_body body (fun b => ostr_truthy (wp_targetSessionKey b)) "targetSessionKey is required";
  enforce (assertRequesterHasRole identity hub_or_operator "task.wake.plan");;;
  result <-- planAcceptedTaskWake taskId body;
  reply (if wpr_replayed result then 200 else 201) (DataWakePlan result).

(** The status of a decision is a member of its type, hence not empty. *)
Definition post_task_wake_decision identity (taskId : string) (body : JsonBody TaskWakeDecisionRequest)
    : BM HttpReply :=
  body <-- read_body body any_body "status is required";
  enforce (assertRequesterHasRole identity hub_or_operator "task.wake.decision");;;
  task <-- recordTaskWakeDecision taskId body;
  reply 200 (DataTask task).

(** The guard the routes of a worker share: the worker it names is the requester. *)
Definition worker_body {A} identity (body : JsonBody A) (workerId : A -> option string) (context : string)
    : BM (A * string) :=
  body <-- read_body body (fun b => ostr_truthy (workerId b)) "workerId is required";
  let worker := workerId body ?? "" in
  enforce (assertRequesterMatchesParty identity worker None context);;;
  m_ret (body, worker).

Definition post_task_claim identity (taskId : string) (body : JsonBody TaskClaimRequest) : BM HttpReply :=
  r <-- worker_body identity body tq_workerId "task.claim";
  task <-- claimTask taskId r.2;
  reply 200 (DataTask task).

Definition post_task_start identity (taskId : string) (body : JsonBody TaskClaimRequest) : BM HttpReply :=
  r <-- worker_body identity body tq_workerId "task.start";
  task <-- startTask taskId r.2;
  reply 200 (DataTask task).

Definition post_task_heartbeat identity (taskId : string) (body : JsonBody TaskClaimRequest) : BM HttpReply :=
  r <-- worker_body identity body tq_workerId "task.heartbeat";
  task <-- heartbeatTask taskId r.2;
  reply 200 (DataTask task).

Definition post_task_complete identity (taskId : string) (body : JsonBody TaskCompleteRequest) : BM HttpReply :=
  r <-- worker_body identity body tc_workerId "task.complete";
  task <-- completeTask taskId r.2 (tc_result r.1);
  reply 200 (DataTask task).

Definition evidence_default_error (outcome : string) (result : option TaskResult) : TaskError :=
  mkTaskError (Some outcome)
    ((result ≫= res_summary) ??o (result ≫= res_note) ?? ("worker posted " ++ outcome ++ " evidence")%string) None.

Definition post_task_evidence identity (taskId : string) (body : JsonBody TaskEvidenceRequest) : BM HttpReply :=
  r <-- worker_body identity body te_workerId "task.evidence";
  let body := r.1 in
  let outcome := te_outcome body ?? "done" in
  if String.eqb outcome "done" || String.eqb outcome "pr" then
    task <-- completeTask taskId r.2 (te_result body);
    reply 200 (DataTask task)
  else if String.eqb outcome "blocked" || String.eqb outcome "failed" then
    task <-- failTask taskId r.2 (Some (te_error body ?? evidence_default_error outcome (te_result body)));
    reply 200 (DataTask task)
  else throw CodeBadRequest "outcome must be done, pr, blocked, or failed".

Definition post_task_fail identity (taskId : string) (body : JsonBody TaskFailRequest) : BM HttpReply :=
  r <-- worker_body identity body tx_workerId "task.fail";
  task <-- failTask taskId r.2 (tx_error r.1);
  reply 200 (DataTask task).

(** The guards of the routes that decide on a task: the actor is the requester. *)
Definition actor_body {A} identity (body : JsonBody A) (actor : A -> option A2APartyRef)
    (context : string) (privileged : bool) : BM A :=
  body <-- read_body body (fun b => str_truthy (actor_id (actor b))) "actor.id is required";
  enforce (_ <-! assertRequesterMatchesParty identity (actor_id (actor body)) (actor_role (actor body)) context;
           if privileged then assertRequesterHasRole identity hub_or_operator context else Ok tt);;;
  m_ret body.

Definition post_task_approve identity (taskId : string) (body : JsonBody TaskApprovalRequest) : BM HttpReply :=
  body <-- actor_body identity body ar_actor "task.approve" true;
  task <-- approveTask taskId body;
  reply 200 (DataTask task).

Definition post_task_reject_approval identity (taskId : string) (body : JsonBody TaskApprovalRequest) : BM HttpReply :=
  body <-- actor_body identity body ar_actor "task.reject-approval" true;
  task <-- rejectTaskApproval taskId body;
  reply 200 (DataTask task).

Definition post_task_cancel identity (taskId : string) (body : JsonBody TaskCancelRequest) : BM HttpReply :=
  body <-- actor_body identity body tcr_actor "task.cancel" false;
  task <-- cancelTask taskId (tcr_actor body) (tcr_reason body);
  reply 200 (DataTask task).

Definition post_task_reassign identity (taskId : string) (body : JsonBody TaskReassignRequest) : BM HttpReply :=
  body <-- actor_body identity body rr_actor "task.reassign" true;
  task <-- reassignTask taskId body;
  reply 200 (DataTask task).

(** *** The terminal outbox *)

Definition string_field (name : string) (m : JsRecord) : option string := js_string (js_prop name m).

Definition parseTerminalOutboxAckReceipt (value : JsValue) : Sec AckInput :=
  match js_record value with
  | None => refuse CodeBadRequest
      "terminal outbox ack requires receipt evidence; Gateway/provider send success alone is not accepted"
  | Some receipt =>
      match string_field "evidence" receipt with
      | Some evidence =>
          if is_some (parse_evidence evidence) then
            Ok (mkAckInput evidence (string_field "acknowledgedAt" receipt) (string_field "receiptId" receipt)
                  (string_field "note" receipt))
          else refuse CodeBadRequest
            "terminal outbox ack evidence must be current_session_visible, operator_visible, operator_confirmed, or provider_delivery_receipt"
      | None => refuse CodeBadRequest
          "terminal outbox ack evidence must be current_session_visible, operator_visible, operator_confirmed, or provider_delivery_receipt"
      end
  end.

Record ReceiptUpdateInput : Type := mkReceiptUpdateInput {
  ru_status : string;
  ru_updatedAt : option string;
  ru_note : option string;
}.

Definition parseTerminalOutboxReceiptUpdate (value : JsValue) : Sec ReceiptUpdateInput :=
  match js_record value with
  | None => refuse CodeBadRequest "terminal outbox receipt update requires a receipt object"
  | Some receipt =>
      match string_field "status" receipt with
      | Some status =>
          if is_some (parse_receipt_status status) then
            Ok (mkReceiptUpdateInput status (string_field "updatedAt" receipt) (string_field "note" receipt))
          else refuse CodeBadRequest
            "terminal outbox receipt status must be accepted, started, produced, provider_sent, provider_accepted, current_session_visible, operator_visible, timed_out, stale, or failed"
      | None => refuse CodeBadRequest
          "terminal outbox receipt status must be accepted, started, produced, provider_sent, provider_accepted, current_session_visible, operator_visible, timed_out, stale, or failed"
      end
  end.

(** [body?.id] as a non-empty string. *)
Definition outbox_id (body : option JsRecord) (message : string) : BM string :=
  match body ≫= string_field "id" with
  | Some id => if 0 <? String.length id then m_ret id else throw CodeBadRequest message
  | None => throw CodeBadRequest message
  end.

Definition outbox_reply (r : result string (option TerminalTaskOutboxEvent)) : BM HttpReply :=
  match r with
  | Ok (Some event) => reply 200 (DataOutboxEvent event)
  | Ok None => throw CodeNotFound "terminal outbox event not found"
  | Err _ => reply 500 DataInternalError
  end.

Definition post_outbox_receipt identity (body : JsonBody JsRecord) : BM HttpReply :=
  enforce (assertRequesterHasRole identity hub_or_operator "task-terminal-outbox.receipt");;;
  body <-- readJson body;
  id <-- outbox_id body "terminal outbox receipt update requires a non-empty id";
  receipt <-- lift_sec (parseTerminalOutboxReceiptUpdate (js_prop "receipt" (body ?? [])));
  event <-- recordTerminalTaskOutboxReceiptStatus id (ru_status receipt) (ru_updatedAt receipt) (ru_note receipt);
  outbox_reply event.

Definition post_outbox_ack identity (body : JsonBody JsRecord) : BM HttpReply :=
  enforce (assertRequesterHasRole identity hub_or_operator "task-terminal-outbox.ack");;;
  body <-- readJson body;
  id <-- outbox_id body "terminal outbox ack requires a non-empty id";
  receipt <-- lift_sec (parseTerminalOutboxAckReceipt (js_prop "receipt" (body ?? [])));
  event <-- acknowledgeTerminalTaskOutboxEvent id receipt;
  outbox_reply event.

(** *** The event stream of a task *)

(** [formatSseEventId] and [parseSseEventId] of the broker. *)
Definition formatSseEventId (taskId : string) (seq : Z) : string := (taskId ++ ":" ++ pretty seq)%string.

(** The text before and after the last colon. *)
Fixpoint split_last_colon (l : list ascii) : option (list ascii * list ascii) :=
  match l with
  | [] => None
  | c :: l =>
      match split_last_colon l with
      | Some (a, b) => Some (c :: a, b)
      | None => if Ascii.eqb c ":" then Some ([], l) else None
      end
  end.

(** The largest integer not above a number; sequence numbers are integers. *)
Definition number_floor (n : JsNum) : Z :=
  match n with NInt z => z | NFrac text => (sc_fractionMillis text / 1000)%Z | _ => 0%Z end.

Definition parseSseEventId (raw : string) : option (string * Z) :=
  match split_last_colon (chars raw) with
  | None | Some ([], _) => None
  | Some (taskId, rest) =>
      let seq := query_number (unchars rest) in
      match seq with
      | NNaN | NInf _ => None
      | _ => if number_negative seq then None else Some (unchars taskId, number_floor seq)
      end
  end.

Definition isTerminalSnapshotStatus (s : TaskStatus) : bool :=
  bool_decide (s ∈ [TaskSucceeded; TaskFailed; TaskCanceled]).

(** A header of several values is joined by node:http, except cookies. *)
Definition last_event_id (req : IncomingMessage) : option string :=
  match jm_get "last-event-id" (req_headers req) with
  | Some (HeaderText s) => truthy_opt (Some s)
  | _ => None
  end.

Definition replay_after (req : IncomingMessage) (task : TaskRecord) : Z :=
  match last_event_id req ≫= parseSseEventId with
  | Some (taskId, seq) => if String.eqb taskId (task_id task) then seq else (-1)%Z
  | None => (-1)%Z
  end.

Definition sse_of_buffered (task : TaskRecord) (e : BufferedTaskEvent) : SseEvent :=
  mkSseEvent (bt_event e) (formatSseEventId (task_id task) (bt_seq e)) (tu_task (bt_data e))
    (TaskUpdateReason_text (tu_reason (bt_data e))) (tu_final (bt_data e)).

Definition sse_snapshot (task : TaskRecord) (b : Broker) : SseEvent :=
  mkSseEvent "task-snapshot"
    (formatSseEventId (task_id task) (Z.of_nat (length (replayTaskEvents (task_id task) (-1) b))))
    task "snapshot" (isTerminalSnapshotStatus (task_status task)).

(** What a connection is sent at once. *)
Definition opening_events (req : IncomingMessage) (task : TaskRecord) (b : Broker) : list SseEvent :=
  let replayAfterSeq := replay_after req task in
  (if (0 <=? replayAfterSeq)%Z
   then map (sse_of_buffered task) (replayTaskEvents (task_id task) replayAfterSeq b) else [])
  ++ [sse_snapshot task b].

Definition handleTaskEventStream (req : IncomingMessage) (task : TaskRecord) (connection : nat)
    : BM (list SseEvent * bool) :=
  events <-- m_gets (opening_events req task);
  if isTerminalSnapshotStatus (task_status task) then m_ret (events, false)
  else subscribeToTask (task_id task) connection;;; m_ret (events, true).

Definition get_task_events (req : IncomingMessage) (connection : nat) identity (taskId : string) : BM HttpReply :=
  task <-- getTask taskId;
  match task with
  | None => throw CodeNotFound "task not found"
  | Some task =>
      enforce (assertRequesterCanSubscribeToTask identity task);;;
      r <-- handleTaskEventStream req task connection;
      reply 200 (DataEventStream r.1 r.2)
  end.
End Server.

(** ** The handler *)

Section State.
Context `{OutboxText}.
Record Server : Type := mkServer {
  sv_broker : Broker;
  sv_rateLimiter : InMemoryRateLimiter;
  sv_workerRateLimiter : InMemoryRateLimiter;
  sv_pending : list (HttpRequest * option RequesterIdentity);
}.
#[export] Instance eta_Server : Eta Server := fun r =>
  mkServer (sv_broker r) (sv_rateLimiter r) (sv_workerRateLimiter r) (sv_pending r).
End State.

Section Handler.
Context `{JsHost} `{OutboxText} `{BrokerConfig} `{ServerConfig} `{RequesterSchemas}.

(** The routes that are served without secret and limit. *)
Definition public_route (req : IncomingMessage) : bool :=
  let get := String.eqb (req_method req) "GET" in
  String.eqb (url_pathname req) "/health"
  || (get && String.eqb (url_pathname req) "/livez")
  || (get && String.eqb (url_pathname req) "/.well-known/agent-card.json").

(** The limiter of the request's bucket counts it. *)
Definition count_request (req : IncomingMessage) (identity : option RequesterIdentity) (nowMs : Z) (s : Server)
    : Server * RateLimitDecision :=
  let key := rateLimitKey req identity sc_trustedProxy in
  match classifyRateLimitBucket req with
  | BucketWorker =>
      let r := check sc_workerRateLimitMaxRequests sc_workerRateLimitWindowMs key nowMs (sv_workerRateLimiter s) in
      (s <| sv_workerRateLimiter := r.1 |>, r.2)
  | BucketGeneral =>
      let r := check sc_rateLimitMaxRequests sc_rateLimitWindowMs key nowMs (sv_rateLimiter s) in
      (s <| sv_rateLimiter := r.1 |>, r.2)
  end.

(** The part of the handler before the route. *)
Definition admission (r : HttpRequest) (s : Server) : Server * Sec (option RequesterIdentity) :=
  let req := hr_message r in
  match extractRequesterIdentity req with
  | Err e => (s, Err e)
  | Ok identity =>
      if public_route req then (s, Ok identity)
      else match assertEdgeSecret req sc_edgeSecret with
           | Err e => (s, Err e)
           | Ok _ =>
               let counted := count_request req identity (hr_nowMs r) s in
               (counted.1, if rd_allowed counted.2 then Ok identity
                           else refuse CodeRateLimited "rate limit exceeded")
           end
  end.

(** The route an endpoint stands for. *)
Definition serve (e : Endpoint) (r : HttpRequest) (identity : option RequesterIdentity) : BM HttpReply :=
  match e as e return JsonBody (body_of e) -> BM HttpReply with
  | PostWorkersRegister => post_workers_register identity
  | PostWorkerHeartbeat id => post_worker_heartbeat identity id
  | PostExchanges => post_exchanges identity
  | PostExchangeMessages id => post_exchange_messages identity id
  | PostProposals => post_proposals identity
  | PostProposalArtifacts id => post_proposal_artifacts identity id
  | PostProposalValidate id => post_proposal_validate identity id
  | PostProposalApprove id => post_proposal_approve identity id
  | PostProposalReject id => post_proposal_reject identity id
  | PostProposalApply id => post_proposal_apply identity id
  | PostTasks => post_tasks identity
  | PostTasksRequeueStale => fun _ => post_tasks_requeue_stale (hr_message r) identity
  | PostTaskWakePlan id => post_task_wake_plan identity id
  | PostTaskWakeDecision id => post_task_wake_decision identity id
  | PostTaskClaim id => post_task_claim identity id
  | PostTaskStart id => post_task_start identity id
  | PostTaskHeartbeat id => post_task_heartbeat identity id
  | PostTaskComplete id => post_task_complete identity id
  | PostTaskEvidence id => post_task_evidence identity id
  | PostTaskFail id => post_task_fail identity id
  | PostTaskApprove id => post_task_approve identity id
  | PostTaskRejectApproval id => post_task_reject_approval identity id
  | PostTaskCancel id => post_task_cancel identity id
  | PostTaskReassign id => post_task_reassign identity id
  | PostOutboxReceipt => post_outbox_receipt identity
  | PostOutboxAck => post_outbox_ack identity
  | GetTaskEvents id => fun _ => get_task_events (hr_message r) (hr_connection r) identity id
  end (hr_body r e).

Definition answer_of (r : result BrokerError HttpReply) : HttpAnswer :=
  match r with Ok reply => Answered reply | Err e => sendError e end.

(** The rest of the handler, once the body is there. *)
Definition dispatch (e : Endpoint) (r : HttpRequest) (identity : option RequesterIdentity) (s : Server)
    : Server * HttpAnswer :=
  let run := serve e r identity (sv_broker s) in
  (s <| sv_broker := run.1 |>, answer_of run.2).

(** ** The server as a transition system *)

Definition new_server (b : Broker) : Server := mkServer b new_limiter new_limiter [].

(** What the broker relies on: a client names a new task neither by the empty
    string nor by an id the broker itself will draw. *)
Definition proper_request (e : Endpoint) (r : HttpRequest) (b : Broker) : Prop :=
  match e as e return JsonBody (body_of e) -> Prop with
  | PostTasks => fun body => match body with BodyValue c => admissible c b | _ => True end
  | _ => fun _ => True
  end (hr_body r e).

(** A request arrives, the body of an admitted one arrives, the stale-task reaper
    runs, or a client closes its stream. *)
Inductive server_step : Server -> Server -> Prop :=
| StepRefused s r e : (admission r s).2 = Err e -> server_step s (admission r s).1
| StepAdmitted s r identity : (admission r s).2 = Ok identity ->
    server_step s ((admission r s).1 <| sv_pending ::= cons (r, identity) |>)
| StepDispatched s r identity e before after :
    sv_pending s = before ++ (r, identity) :: after -> endpoint_of (hr_message r) = Some e ->
    proper_request e r (sv_broker s) ->
    server_step s ((dispatch e r identity s).1 <| sv_pending := before ++ after |>)
| StepReaper s olderThanMs :
    server_step s (s <| sv_broker := (requeueStaleTasksDetailed olderThanMs None
                          (Some (sc_workerOfflineAfterSec * 1000)%Z) (sv_broker s)).1 |>)
| StepClosed s taskId connection :
    server_step s (s <| sv_broker := (unsubscribeFromTask taskId connection (sv_broker s)).1 |>).

Definition server_reachable (s : Server) : Prop :=
  exists sink startedAtMs, rtc server_step (new_server (new_broker sink startedAtMs)) s.
End Handler.
