(* ===== verification/HttpFacts.v ===== *)
(** * What an HTTP request may do to the broker

    Every dispatched request is one call of the broker, made on behalf of the
    party its headers name, or changes nothing; so the server's runs are runs of
    the broker. *)

From Stdlib Require Import ZArith Lia String Ascii.
From stdpp Require Import base gmap strings list pretty relations.
From S2P Require Import Prelude JsRuntime Types Policy Retention BrokerCore CoreFacts EventBuffer TaskEventStream.
From S2P Require Import Outbox Workers Proposals Github TerminalBrief Tasks TaskMachine TaskFacts Exchanges System.
From S2P Require Import Atomicity ErrorCodes RateLimiter RequestSecurity HttpServer.

(** ** Who may make a call *)

Definition speaks_for (identity : option RequesterIdentity) (id : string) (role : option A2APartyRole) : Prop :=
  exists i, identity = Some i /\ ri_id i = id /\ id <> ""
    /\ forall r, role = Some r ->
         (privileged_role r = true -> ri_role i = Some r) /\ (ri_role i = None \/ ri_role i = Some r).

Definition speaks_as (identity : option RequesterIdentity) (actor : option A2APartyRef) : Prop :=
  speaks_for identity (actor_id actor) (actor_role actor).

Definition is_hub_or_operator (identity : option RequesterIdentity) : Prop :=
  exists i r, identity = Some i /\ ri_role i = Some r /\ r ∈ hub_or_operator.

Section Authority.
Context `{OutboxText}.

(** The calls a requester may have the broker make. *)
Definition authorized (identity : option RequesterIdentity) (b : Broker) (c : call) : Prop :=
  match c with
  | CallRegisterWorker r => speaks_for identity (rw_nodeId r) (rw_role r)
  | CallHeartbeatWorker nodeId _ => speaks_for identity nodeId (wr_role <$> jm_get nodeId (br_workers b))
  | CallStartExchange r => speaks_as identity (Some (xr_requester r))
  | CallAddExchangeMessage _ r => speaks_as identity (mr_actor r)
  | CallCreateProposal r => speaks_as identity (Some (cp_source r))
  | CallAttachArtifact id _ => exists p, jm_get id (br_proposals b) = Some p
      /\ exists i, identity = Some i
      /\ (ri_role i = Some RoleOperator \/ ri_id i = pr_sourceNodeId p \/ ri_id i = pr_targetNodeId p)
  | CallSubmitValidation _ r => speaks_for identity (sv_nodeId r) None
  | CallApproveProposal _ r | CallRejectProposal _ r | CallApplyProposal _ r _ => speaks_as identity (pa_actor r)
  | CallCreateTask r => speaks_as identity (Some (ct_requester r))
  | CallApproveTask _ r | CallRejectTaskApproval _ r => speaks_as identity (ar_actor r) /\ is_hub_or_operator identity
  | CallCancelTask _ actor _ => speaks_as identity actor
  | CallReassignTask _ r => speaks_as identity (rr_actor r) /\ is_hub_or_operator identity
  | CallClaimTask _ w | CallStartTask _ w | CallHeartbeatTask _ w
  | CallCompleteTask _ w _ | CallFailTask _ w _ => speaks_for identity w None
  | CallRequeueStaleTasks _ _ _ | CallPlanWake _ _ | CallDecideWake _ _ | CallUpdateOutbox _ =>
      is_hub_or_operator identity
  | CallSubscribe id _ => exists t, jm_get id (br_tasks b) = Some t
      /\ exists i, identity = Some i
      /\ (is_hub_or_operator identity
          \/ ri_id i ∈ party_id (task_requester t) :: task_targetNodeId t :: option_list (task_assignedWorkerId t))
  | CallUpdateTaskPayload _ _ _ _ | CallUnsubscribe _ _ => False
  end.
End Authority.

(** ** The checks *)

Lemma requester_inv identity i : requireRequesterIdentity identity = Ok i -> identity = Some i /\ ri_id i <> "".
Proof.
  unfold requireRequesterIdentity. destruct identity as [j|]; [|done].
  destruct (str_truthy (ri_id j)) eqn:Ht; [|done]. intros [= ->]. split; [done|]. by apply str_truthy_spec.
Qed.

Lemma matches_party identity id role context :
  assertRequesterMatchesParty identity id role context = Ok tt -> speaks_for identity id role.
Proof.
  unfold assertRequesterMatchesParty. destruct (requireRequesterIdentity identity) as [i|] eqn:Hi; [|done].
  apply requester_inv in Hi as [-> Hne]. simpl. destruct (String.eqb_spec (ri_id i) id) as [<-|]; [|done].
  intros Hr. exists i. split_and!; [done..|]. intros r ->. simpl in Hr.
  destruct (decide (ri_role i = Some r)) as [Heq|Hneq]; [by split; [|right]|].
  rewrite !bool_decide_false in Hr by done. simpl in Hr. rewrite !andb_true_r in Hr.
  destruct (privileged_role r); [done|]. destruct (ri_role i); [done|]. by split; [|left].
Qed.

Lemma has_role identity roles context :
  assertRequesterHasRole identity roles context = Ok tt ->
  exists i r, identity = Some i /\ ri_role i = Some r /\ r ∈ roles.
Proof.
  unfold assertRequesterHasRole. destruct (requireRequesterIdentity identity) as [i|] eqn:Hi; [|done].
  apply requester_inv in Hi as [-> _]. simpl. destruct (ri_role i) as [r|] eqn:Hr; [|done].
  case_bool_decide; [|done]. intros _. by exists i, r.
Qed.

Lemma may_touch_artifacts identity p :
  assertRequesterCanTouchProposalArtifacts identity p = Ok tt ->
  exists i, identity = Some i
    /\ (ri_role i = Some RoleOperator \/ ri_id i = pr_sourceNodeId p \/ ri_id i = pr_targetNodeId p).
Proof.
  unfold assertRequesterCanTouchProposalArtifacts.
  destruct (requireRequesterIdentity identity) as [i|] eqn:Hi; [|done].
  apply requester_inv in Hi as [-> _]. simpl. intros Ha. exists i. split; [done|].
  case_bool_decide; [by left|]. right.
  destruct (String.eqb_spec (ri_id i) (pr_sourceNodeId p)); [by left|].
  destruct (String.eqb_spec (ri_id i) (pr_targetNodeId p)); [by right|done].
Qed.

Lemma may_subscribe identity t :
  assertRequesterCanSubscribeToTask identity t = Ok tt ->
  exists i, identity = Some i
    /\ (is_hub_or_operator identity
        \/ ri_id i ∈ party_id (task_requester t) :: task_targetNodeId t :: option_list (task_assignedWorkerId t)).
Proof.
  unfold assertRequesterCanSubscribeToTask.
  destruct (requireRequesterIdentity identity) as [i|] eqn:Hi; [|done].
  apply requester_inv in Hi as [-> _]. cbn [sec_bind]. intros Ha. exists i. split; [done|].
  destruct (match ri_role i with Some r => privileged_role r | None => false end) eqn:Hp.
  - left. destruct (ri_role i) as [r|] eqn:Hr; [|done]. exists i, r. split_and!; [done..|].
    by apply bool_decide_eq_true in Hp.
  - right. revert Ha. case_bool_decide as Hin; [intros _|done].
    apply list_elem_of_In, filter_In in Hin as [Hin%list_elem_of_In _].
    by destruct (task_assignedWorkerId t).
Qed.

(** An operation of a sink that answers no event and leaves the sink alone leaves
    the broker alone. *)
Lemma update_nothing `{JsHost} `{TaskEventSink} `{BrokerConfig} u b b' :
  (forall now s, (sink_apply u now s).2 = Ok None ->
     sink_reads_clock u s = false /\ (sink_apply u now s).1 = s) ->
  updateTerminalTaskOutboxEvent u b = (b', Ok (Ok None)) -> b' = b.
Proof.
  intros Hnone. unfold updateTerminalTaskOutboxEvent. intros Hr.
  apply bind_inv_ok in Hr as (b1 & s & Hs & Hr). injection Hs as <- <-.
  apply bind_inv_ok in Hr as (b2 & now & Hclock & Hr).
  apply bind_inv_ok in Hr as (b3 & r & Hu & Hr). unfold update_sink, m_bind, m_gets, m_modify in Hu.
  injection Hu as <- <-. destruct (sink_apply u now (br_sink b2)).2 as [[e|]|err] eqn:Ha.
  - apply bind_inv_ok in Hr as (b4 & x & _ & Hr). discriminate.
  - destruct (Hnone _ _ Ha) as [Hc Hsame]. injection Hr as <-. rewrite Hsame.
    assert (br_sink b2 = br_sink b) as Hb.
    { destruct (sink_reads_clock u (br_sink b)); injection Hclock as <-; done. }
    rewrite Hb in Hc. rewrite Hc in Hclock. injection Hclock as <- _. by destruct b.
  - discriminate.
Qed.

(** ** One call, or nothing *)

Section Served.
Context `{JsHost} `{OutboxText} `{BrokerConfig} `{ServerConfig}.

(** The run of [m] leaves the broker alone, or is that of a call in [P], and
    answers as that call did. *)
Definition served (P : call -> Prop) {A} (m : BM A) (b : Broker) : Prop :=
  (m b).1 = b \/ exists c, P c /\ (m b).1 = (run_call c b).1 /\ is_ok (m b).2 = is_ok (run_call c b).2.

Lemma served_readonly P {A} (m : BM A) b : readonly m -> served P m b.
Proof. intros Hm. left. symmetry. apply Hm. Qed.

Lemma served_throw P {A} code message b : served P (throw (A:=A) code message) b.
Proof. by left. Qed.

Lemma served_check P {A B} (m : BM A) (k : A -> BM B) b :
  readonly m -> (forall a, m b = (b, Ok a) -> served P (k a) b) -> served P (m_bind m k) b.
Proof.
  intros Hm Hk. specialize (Hm b). unfold served, m_bind in *.
  destruct (m b) as [b' [a|e]]; simpl in Hm; subst; [by apply Hk|by left].
Qed.

(** A program that only answers. *)
Definition answers {A} (m : BM A) : Prop := forall b, exists a, m b = (b, Ok a).

Lemma answers_reply status data : answers (reply status data).
Proof. intros b. by eexists. Qed.

Lemma served_call P {A B} (c : call) (m : BM A) (k : A -> BM B) b :
  run_call c = ignore m -> P c -> (forall a, answers (k a)) -> served P (m_bind m k) b.
Proof.
  intros Hc HP Hk. right. exists c. split; [done|]. rewrite Hc. unfold ignore, m_bind, m_ret.
  destruct (m b) as [b1 [a|e]]; [|done]. by destruct (Hk a b1) as [r ->].
Qed.

(** ** The guards of the routes *)

Lemma readonly_lift_sec {A} (r : Sec A) : readonly (lift_sec r).
Proof. intros b. by destruct r. Qed.
Lemma readonly_enforce check : readonly (enforce check).
Proof. unfold enforce. intros b. destruct sc_enforceRequesterIdentity; [by destruct check|done]. Qed.
Lemma readonly_readJson {A} (body : JsonBody A) : readonly (readJson body).
Proof. intros b. by destruct body. Qed.
Lemma readonly_read_body {A} (body : JsonBody A) required message : readonly (read_body body required message).
Proof. intros b. unfold read_body, m_bind. destruct body as [| |a]; simpl; [done..|]. by destruct (required a). Qed.

Definition when_enforced (P : Prop) : Prop := sc_enforceRequesterIdentity = true -> P.

Lemma enforced check b : enforce check b = (b, Ok tt) -> when_enforced (check = Ok tt).
Proof. unfold enforce. intros Hr Hs. rewrite Hs in Hr. by destruct check as [[]|]. Qed.

Lemma body_read {A} (body : JsonBody A) required message b a :
  read_body body required message b = (b, Ok a) -> body = BodyValue a /\ required a = true.
Proof.
  unfold read_body, m_bind. destruct body as [| |a']; simpl; [done..|]. destruct (required a') eqn:Hr; [|done].
  by intros [= ->].
Qed.

(** What a route may have the broker do: a call [adm] allows, and under
    enforcement one the requester may make. *)
Definition on_behalf (adm : call -> Prop) (identity : option RequesterIdentity) (b : Broker) (c : call) : Prop :=
  adm c /\ when_enforced (authorized identity b c).

(** Neither the creation of a task nor a message. *)
Definition plain_call (c : call) : Prop :=
  match c with CallCreateTask _ | CallAddExchangeMessage _ _ => False | _ => True end.

Lemma readonly_worker_body {A} identity (body : JsonBody A) f context : readonly (worker_body identity body f context).
Proof.
  intros b. unfold worker_body, read_body, m_bind. destruct body as [| |a]; simpl; [done..|].
  destruct (ostr_truthy (f a)); simpl; [|done]. unfold enforce.
  destruct sc_enforceRequesterIdentity; [|done]. by destruct (assertRequesterMatchesParty _ _ _ _).
Qed.

Lemma worker_bodied {A} identity (body : JsonBody A) f context b r :
  worker_body identity body f context b = (b, Ok r) ->
  when_enforced (speaks_for identity r.2 None).
Proof.
  unfold worker_body. intros Hr Hs. apply bind_inv_ok in Hr as (b1 & a & _ & Hr).
  apply bind_inv_ok in Hr as (b2 & u & He & Hr). unfold enforce in He. rewrite Hs in He.
  destruct (assertRequesterMatchesParty _ _ _ _) as [[]|] eqn:Hm; [|done].
  apply matches_party in Hm. by inversion Hr.
Qed.

Lemma readonly_actor_body {A} identity (body : JsonBody A) f context p :
  readonly (actor_body identity body f context p).
Proof.
  intros b. unfold actor_body, read_body, m_bind. destruct body as [| |a]; simpl; [done..|].
  destruct (str_truthy (actor_id (f a))); simpl; [|done]. unfold enforce.
  destruct sc_enforceRequesterIdentity; [|done]. unfold sec_bind.
  destruct (assertRequesterMatchesParty _ _ _ _); [|done]. destruct p; [|done].
  by destruct (assertRequesterHasRole _ _ _).
Qed.

Lemma actor_bodied {A} identity (body : JsonBody A) f context p b a :
  actor_body identity body f context p b = (b, Ok a) ->
  when_enforced (speaks_as identity (f a) /\ (p = true -> is_hub_or_operator identity)).
Proof.
  unfold actor_body. intros Hr Hs. apply bind_inv_ok in Hr as (b1 & a1 & _ & Hr).
  apply bind_inv_ok in Hr as (b2 & u & He & Hr). inversion Hr; subst. unfold enforce in He. rewrite Hs in He.
  unfold sec_bind in He. destruct (assertRequesterMatchesParty _ _ _ _) as [[]|] eqn:Hm; [|done].
  apply matches_party in Hm. split; [done|]. intros ->.
  destruct (assertRequesterHasRole _ _ _) as [[]|] eqn:Hh; [|done]. by apply has_role in Hh.
Qed.

(** ** The routes *)

Ltac route_step :=
  lazymatch goal with
  | |- served _ (m_bind (read_body _ _ _) _) _ =>
      apply served_check; [apply readonly_read_body|intros ? _]
  | |- served _ (m_bind (readJson _) _) _ => apply served_check; [apply readonly_readJson|intros ? _]
  | |- served _ (m_bind (enforce _) _) _ =>
      apply served_check; [apply readonly_enforce|intros [] ?%enforced]
  | |- served _ (m_bind (lift_sec _) _) _ => apply served_check; [apply readonly_lift_sec|intros ? _]
  | |- served _ (m_bind (worker_body _ _ _ _) _) _ =>
      apply served_check; [apply readonly_worker_body|intros ? ?%worker_bodied]
  | |- served _ (m_bind (actor_body _ _ _ _ _) _) _ =>
      apply served_check; [apply readonly_actor_body|intros ? ?%actor_bodied]
  end; cbv beta zeta.

Ltac use_checks :=
  let Hs := fresh "Hs" in
  intros Hs; repeat match goal with H : when_enforced _ |- _ => specialize (H Hs) end;
  unfold authorized, speaks_as, is_hub_or_operator in *; simpl; try solve [eauto with http_db].

Ltac by_call c :=
  apply (served_call _ c);
    [reflexivity|split; [solve [match goal with Hp : forall c, plain_call c -> _ |- _ => apply Hp; exact I end | auto]|use_checks]|intros; apply answers_reply].

Implicit Types (identity : option RequesterIdentity) (adm : call -> Prop).

Create HintDb http_db.
Local Hint Resolve matches_party has_role : http_db.

Lemma served_workers adm (Hadm : forall c, plain_call c -> adm c) identity b :
  (forall body, served (on_behalf adm identity b) (post_workers_register identity body) b)
  /\ forall id body, served (on_behalf adm identity b) (post_worker_heartbeat identity id body) b.
Proof.
  split.
  - intros body. unfold post_workers_register. do 2 route_step. by_call (CallRegisterWorker a).
  - intros id body. unfold post_worker_heartbeat. route_step.
    apply served_check; [by intros ?|]. intros existing [= <-]. route_step.
    by_call (CallHeartbeatWorker id a).
Qed.

Lemma served_exchanges adm (Hadm : forall c, plain_call c -> adm c) identity b :
  (forall body, served (on_behalf adm identity b) (post_exchanges identity body) b)
  /\ forall id body, (forall q, adm (CallAddExchangeMessage id q)) ->
       served (on_behalf adm identity b) (post_exchange_messages identity id body) b.
Proof.
  split; intros.
  - unfold post_exchanges. do 2 route_step. by_call (CallStartExchange a).
  - unfold post_exchange_messages. do 2 route_step. by_call (CallAddExchangeMessage id a).
Qed.

Lemma served_proposals adm (Hadm : forall c, plain_call c -> adm c) identity b :
  (forall body, served (on_behalf adm identity b) (post_proposals identity body) b)
  /\ (forall id body, served (on_behalf adm identity b) (post_proposal_artifacts identity id body) b)
  /\ (forall id body, served (on_behalf adm identity b) (post_proposal_validate identity id body) b)
  /\ (forall id body, served (on_behalf adm identity b) (post_proposal_approve identity id body) b)
  /\ (forall id body, served (on_behalf adm identity b) (post_proposal_reject identity id body) b)
  /\ forall id body, served (on_behalf adm identity b) (post_proposal_apply identity id body) b.
Proof.
  split_and!; intros.
  - unfold post_proposals. do 2 route_step. by_call (CallCreateProposal a).
  - unfold post_proposal_artifacts. route_step. apply served_check.
    { intros b'. unfold getProposal, gets_map, m_bind, m_gets. destruct sc_enforceRequesterIdentity; [|done].
      destruct (jm_get id (br_proposals b')); [|done]. by destruct (assertRequesterCanTouchProposalArtifacts _ _). }
    intros [] Hp. by_call (CallAttachArtifact id a). rewrite Hs in Hp.
    unfold getProposal, gets_map, m_bind, m_gets in Hp. destruct (jm_get id (br_proposals b)) as [p|]; [|done].
    exists p. split; [done|]. apply may_touch_artifacts.
    by destruct (assertRequesterCanTouchProposalArtifacts identity p) as [[]|].
  - unfold post_proposal_validate. do 2 route_step. by_call (CallSubmitValidation id a).
  - unfold post_proposal_approve. do 2 route_step. by_call (CallApproveProposal id a).
  - unfold post_proposal_reject. do 2 route_step. by_call (CallRejectProposal id a).
  - unfold post_proposal_apply. do 2 route_step. destruct (ap_workspace a) as [w|]; [|apply served_throw].
    by_call (CallApplyProposal id (ap_request a) w).
Qed.

Lemma served_task_admin adm (Hadm : forall c, plain_call c -> adm c) identity b :
  (forall body, (forall q, body = BodyValue q -> adm (CallCreateTask q)) ->
     served (on_behalf adm identity b) (post_tasks identity body) b)
  /\ (forall req, served (on_behalf adm identity b) (post_tasks_requeue_stale req identity) b)
  /\ (forall id body, served (on_behalf adm identity b) (post_task_wake_plan identity id body) b)
  /\ (forall id body, served (on_behalf adm identity b) (post_task_wake_decision identity id body) b).
Proof.
  split_and!; intros.
  - unfold post_tasks. apply served_check; [apply readonly_read_body|]. intros a [-> _]%body_read. route_step. by_call (CallCreateTask a).
  - unfold post_tasks_requeue_stale. do 2 route_step.
    by_call (CallRequeueStaleTasks (seconds_to_ms (a ?? NInt 300)) None (Some (sc_workerOfflineAfterSec * 1000)%Z)).
  - unfold post_task_wake_plan. do 2 route_step. by_call (CallPlanWake id a).
  - unfold post_task_wake_decision. do 2 route_step. by_call (CallDecideWake id a).
Qed.

Lemma served_task_work adm (Hadm : forall c, plain_call c -> adm c) identity b id :
  (forall body, served (on_behalf adm identity b) (post_task_claim identity id body) b)
  /\ (forall body, served (on_behalf adm identity b) (post_task_start identity id body) b)
  /\ (forall body, served (on_behalf adm identity b) (post_task_heartbeat identity id body) b)
  /\ (forall body, served (on_behalf adm identity b) (post_task_complete identity id body) b)
  /\ (forall body, served (on_behalf adm identity b) (post_task_evidence identity id body) b)
  /\ (forall body, served (on_behalf adm identity b) (post_task_fail identity id body) b).
Proof.
  split_and!; intros.
  - unfold post_task_claim. route_step. by_call (CallClaimTask id a.2).
  - unfold post_task_start. route_step. by_call (CallStartTask id a.2).
  - unfold post_task_heartbeat. route_step. by_call (CallHeartbeatTask id a.2).
  - unfold post_task_complete. route_step. by_call (CallCompleteTask id a.2 (tc_result a.1)).
  - unfold post_task_evidence. route_step. destruct (_ || _); [|destruct (_ || _)].
    + by_call (CallCompleteTask id a.2 (te_result a.1)).
    + by_call (CallFailTask id a.2 (Some (te_error a.1 ?? evidence_default_error (te_outcome a.1 ?? "done") (te_result a.1)))).
    + apply served_throw.
  - unfold post_task_fail. route_step. by_call (CallFailTask id a.2 (tx_error a.1)).
Qed.

Lemma served_task_decisions adm (Hadm : forall c, plain_call c -> adm c) identity b id :
  (forall body, served (on_behalf adm identity b) (post_task_approve identity id body) b)
  /\ (forall body, served (on_behalf adm identity b) (post_task_reject_approval identity id body) b)
  /\ (forall body, served (on_behalf adm identity b) (post_task_cancel identity id body) b)
  /\ (forall body, served (on_behalf adm identity b) (post_task_reassign identity id body) b).
Proof.
  split_and!; intros.
  - unfold post_task_approve. route_step. by_call (CallApproveTask id a). naive_solver.
  - unfold post_task_reject_approval. route_step. by_call (CallRejectTaskApproval id a). naive_solver.
  - unfold post_task_cancel. route_step. by_call (CallCancelTask id (tcr_actor a) (tcr_reason a)). naive_solver.
  - unfold post_task_reassign. route_step. by_call (CallReassignTask id a). naive_solver.
Qed.

(** *** The outbox *)

(** An update that finds no record changes nothing. *)
Lemma update_none u b b' : updateTerminalTaskOutboxEvent u b = (b', Ok (Ok None)) -> b' = b.
Proof.
  apply update_nothing. intros now [st o]. simpl. destruct u as [id r|id status at_ note]; simpl.
  - unfold acknowledge. destruct (parse_evidence (ki_evidence r)); [|done].
    destruct (find_event id (ox_events o)) as [e|]; [|done]. by destruct (ob_ack e).
  - unfold recordReceiptStatus. destruct (parse_receipt_status status); [|done].
    by destruct (find_event id (ox_events o)).
Qed.

Lemma served_update P u b :
  P (CallUpdateOutbox u) -> served P (m_bind (updateTerminalTaskOutboxEvent u) outbox_reply) b.
Proof.
  intros HP. destruct (updateTerminalTaskOutboxEvent u b) as [b' r] eqn:Hr.
  assert (r <> Ok (Ok None) -> served P (m_bind (updateTerminalTaskOutboxEvent u) outbox_reply) b) as Hcase.
  { intros Hne. right. exists (CallUpdateOutbox u). split; [done|]. simpl run_call.
    unfold ignore, m_bind. rewrite Hr. destruct r as [[[e|]|err]|e]; done. }
  destruct r as [[[e|]|err]|e]; try by apply Hcase.
  left. unfold m_bind. rewrite Hr. simpl. by eapply update_none.
Qed.

Lemma readonly_outbox_id body message : readonly (outbox_id body message).
Proof. intros b. unfold outbox_id. destruct (_ ≫= _) as [id|]; [|done]. by destruct (0 <? String.length id). Qed.

Lemma served_outbox adm (Hadm : forall c, plain_call c -> adm c) identity b :
  (forall body, served (on_behalf adm identity b) (post_outbox_receipt identity body) b)
  /\ forall body, served (on_behalf adm identity b) (post_outbox_ack identity body) b.
Proof.
  split; intros.
  - unfold post_outbox_receipt. do 2 route_step.
    apply served_check; [apply readonly_outbox_id|]. intros id _. route_step.
    apply served_update. split; [by apply Hadm|]. intros Hs. specialize (H3 Hs). by apply has_role in H3.
  - unfold post_outbox_ack. do 2 route_step.
    apply served_check; [apply readonly_outbox_id|]. intros id _. route_step.
    apply served_update. split; [by apply Hadm|]. intros Hs. specialize (H3 Hs). by apply has_role in H3.
Qed.

(** *** The event stream *)

Lemma served_events adm (Hadm : forall c, plain_call c -> adm c) identity b req conn id :
  wf_broker b -> served (on_behalf adm identity b) (get_task_events req conn identity id) b.
Proof.
  intros Hwf. unfold get_task_events. apply served_check; [by intros ?|]. intros found [= <-].
  destruct (jm_get id (br_tasks b)) as [t|] eqn:Ht; [|apply served_throw]. route_step.
  assert (task_id t = id) as Hid by (by apply (wf_tasks _ Hwf)).
  unfold handleTaskEventStream. destruct (isTerminalSnapshotStatus (task_status t)); [by left|].
  right. exists (CallSubscribe id conn). split; [|by rewrite <- Hid].
  split; [by apply Hadm|]. intros Hs. specialize (H3 Hs). exists t. split; [done|]. by apply may_subscribe in H3.
Qed.

(** The calls the endpoint's body stands for. *)
Definition asked_by (e : Endpoint) (r : HttpRequest) (c : call) : Prop :=
  match c with
  | CallCreateTask q =>
      match e as e return JsonBody (body_of e) -> Prop with
      | PostTasks => fun body => body = BodyValue q
      | _ => fun _ => False
      end (hr_body r e)
  | CallAddExchangeMessage id _ => e = PostExchangeMessages id
  | _ => True
  end.

Lemma serve_served e r identity b :
  wf_broker b -> served (on_behalf (asked_by e r) identity b) (serve e r identity) b.
Proof.
  intros Hwf. assert (forall c, plain_call c -> asked_by e r c) as Hadm by by intros [].
  revert Hadm. unfold serve, asked_by. generalize (hr_body r e).
  destruct e; intros body Hadm;
    first [ by apply served_workers | by apply served_exchanges | by apply served_proposals
          | by apply (served_task_admin _ Hadm) | by apply served_task_work | by apply served_task_decisions
          | by apply served_outbox | by apply served_events ].
Qed.
End Served.

(** ** The errors of the routes *)

Lemma refuses_bind {A B} (r : Sec A) (k : A -> Sec B) :
  refuses_plainly r -> (forall a, refuses_plainly (k a)) -> refuses_plainly (sec_bind r k).
Proof. intros Hr Hk. destruct r; [apply Hk|exact Hr]. Qed.

Ltac sec_step :=
  cbv beta;
  lazymatch goal with
  | |- refuses_plainly (sec_bind _ _) => apply refuses_bind; [|intro]
  | |- refuses_plainly (Ok _) => exact I
  | |- refuses_plainly (refuse ?c _) => change (plain_code c); by apply (bool_decide_unpack _)
  | |- refuses_plainly (match ?x with _ => _ end) => destruct x
  | |- refuses_plainly (let x := ?v in @?k x) =>
      let y := fresh x in generalize v; intros y; change (refuses_plainly (k y)); cbv beta
  | |- refuses_plainly ?r => let rec head t := lazymatch t with ?f _ => head f | _ => t end in
                             let h := head r in unfold h
  end.
Ltac sec_auto := repeat sec_step.

Section Errors.
Context `{JsHost} `{OutboxText} `{BrokerConfig} `{ServerConfig}.

Lemma plain_lift_sec {A} (r : Sec A) : refuses_plainly r -> plain (lift_sec r).
Proof. intros Hr b e. destruct r; [done|]. by intros [= <-]. Qed.

Lemma plain_enforce c : refuses_plainly c -> plain (enforce c).
Proof. intros Hc. unfold enforce. destruct sc_enforceRequesterIdentity; [by apply plain_lift_sec|apply plain_ret]. Qed.

Lemma plain_matches_party i id role context : refuses_plainly (assertRequesterMatchesParty i id role context).
Proof. sec_auto. Qed.
Lemma plain_has_role i roles context : refuses_plainly (assertRequesterHasRole i roles context).
Proof. sec_auto. Qed.
Lemma plain_touch i p : refuses_plainly (assertRequesterCanTouchProposalArtifacts i p).
Proof. sec_auto. Qed.
Lemma plain_subscribe i t : refuses_plainly (assertRequesterCanSubscribeToTask i t).
Proof. sec_auto. Qed.
Lemma plain_number name req : refuses_plainly (numberQueryParam name req).
Proof. sec_auto. Qed.
Lemma plain_ack v : refuses_plainly (parseTerminalOutboxAckReceipt v).
Proof. sec_auto. Qed.
Lemma plain_receipt v : refuses_plainly (parseTerminalOutboxReceiptUpdate v).
Proof. sec_auto. Qed.

Hint Resolve plain_lift_sec plain_enforce plain_matches_party plain_has_role plain_touch plain_subscribe
  plain_number plain_ack plain_receipt refuses_bind : plain_db.
Hint Resolve plain_registerWorker plain_heartbeatWorker plain_startExchange plain_addExchangeMessage
  plain_createProposal plain_attachArtifact plain_submitValidationResult plain_approveProposal
  plain_rejectProposal plain_applyProposalLocally plain_createTask plain_approveTask plain_rejectTaskApproval
  plain_cancelTask plain_reassignTask plain_claimTask plain_startTask plain_heartbeatTask plain_failTask
  plain_requeueStaleTasksDetailed plain_planAcceptedTaskWake plain_recordTaskWakeDecision
  plain_updateTerminalTaskOutboxEvent : plain_db.

(** The routes that complete a task. *)
Definition completes (e : Endpoint) : Prop :=
  match e with PostTaskComplete _ | PostTaskEvidence _ => True | _ => False end.

Lemma plain_actor_body {A} identity (body : JsonBody A) f context p : plain (actor_body identity body f context p).
Proof.
  unfold actor_body. apply plain_bind; [plain_auto|]. intros a. apply plain_bind; [|intro; apply plain_ret].
  apply plain_enforce, refuses_bind; [apply plain_matches_party|]. intros _.
  destruct p; [apply plain_has_role|exact I].
Qed.
Hint Resolve plain_actor_body : plain_db.

Lemma plain_serve e r identity : ~ completes e -> plain (serve e r identity).
Proof.
  unfold serve. generalize (hr_body r e). destruct e; intros body Hc; try (by destruct Hc; exact I); plain_auto.
Qed.
End Errors.

(** ** The server's runs *)

Section Runs.
Context `{JsHost} `{OutboxText} `{BrokerConfig} `{ServerConfig} `{RequesterSchemas}.

Lemma admit_broker r s :
  sv_broker (admission r s).1 = sv_broker s /\ sv_pending (admission r s).1 = sv_pending s.
Proof.
  unfold admission. destruct (extractRequesterIdentity (hr_message r)) as [identity|]; [|done].
  destruct (public_route (hr_message r)); [done|]. destruct (assertEdgeSecret _ _); [|done].
  simpl. unfold count_request. by destruct (classifyRateLimitBucket _).
Qed.

(** The routes of this file are not public. *)
Lemma endpoint_protected req e : endpoint_of req = Some e -> public_route req = false.
Proof.
  unfold public_route, endpoint_of. intros He.
  destruct (String.eqb_spec (url_pathname req) "/health") as [Hp|_].
  { rewrite Hp in He. by destruct (String.eqb (req_method req) "POST"), (String.eqb (req_method req) "GET"). }
  destruct (String.eqb_spec (url_pathname req) "/livez") as [Hp|_].
  { rewrite Hp in He. destruct (String.eqb_spec (req_method req) "GET") as [Hg|]; [|done].
    rewrite Hg in He. done. }
  destruct (String.eqb_spec (url_pathname req) "/.well-known/agent-card.json") as [Hp|_].
  { rewrite Hp in He. destruct (String.eqb_spec (req_method req) "GET") as [Hg|]; [|done].
    rewrite Hg in He. done. }
  simpl. by rewrite !andb_false_r.
Qed.

Lemma edge_secret req expected secret :
  assertEdgeSecret req expected = Ok tt -> truthy_opt expected = Some secret ->
  headerValue req "x-a2a-edge-secret" = Some secret.
Proof.
  unfold assertEdgeSecret. intros Ha Hs. rewrite Hs in Ha.
  destruct (headerValue req "x-a2a-edge-secret") as [p|]; [|done]. unfold secretsMatch in Ha.
  destruct (String.eqb_spec p secret) as [Heq|]; [by rewrite Heq|]. by rewrite andb_false_r in Ha.
Qed.

(** What is known of an admitted request. *)
Definition vetted (r : HttpRequest) (identity : option RequesterIdentity) : Prop :=
  extractRequesterIdentity (hr_message r) = Ok identity
  /\ (public_route (hr_message r) = false -> forall secret, truthy_opt sc_edgeSecret = Some secret ->
        headerValue (hr_message r) "x-a2a-edge-secret" = Some secret).

Lemma admitted_vetted r s identity : (admission r s).2 = Ok identity -> vetted r identity.
Proof.
  unfold admission, vetted. destruct (extractRequesterIdentity (hr_message r)) as [i|]; [|done].
  destruct (public_route (hr_message r)); [by intros [= ->]|].
  destruct (assertEdgeSecret (hr_message r) sc_edgeSecret) as [[]|] eqn:He; [|done]. simpl.
  destruct (rd_allowed _); [|done]. intros [= ->]. split; [done|]. intros _ secret. by apply edge_secret.
Qed.

(** A call the server may make for the request. *)
Lemma dispatch_served e r identity s :
  wf_broker (sv_broker s) ->
  served (on_behalf (asked_by e r) identity (sv_broker s)) (serve e r identity) (sv_broker s).
Proof. apply serve_served. Qed.

Lemma dispatched_call e r c b :
  proper_request e r b -> asked_by e r c -> proper_call c b.
Proof.
  unfold proper_request, asked_by. destruct c; try done. simpl. generalize (hr_body r e).
  destruct e; intros body Hp Hc; try done. by subst.
Qed.

Lemma server_broker_step s s' :
  wf_broker (sv_broker s) -> server_step s s' ->
  sv_broker s' = sv_broker s \/ broker_step (sv_broker s) (sv_broker s').
Proof.
  intros Hwf Hs. destruct Hs as [s r e _|s r identity _|s r identity e before after _ _ Hp|s ms|s id conn].
  - left. apply admit_broker.
  - left. apply admit_broker.
  - simpl. destruct (dispatch_served e r identity s Hwf) as [Hb|(c & [Hc _] & Hb & _)]; [by left|].
    right. exists c. split; [by eapply dispatched_call|done].
  - right. eexists (CallRequeueStaleTasks ms None _). split; [done|]. simpl run_call. by rewrite ignore_fst.
  - right. by exists (CallUnsubscribe id conn).
Qed.

Lemma server_pending_step s s' r identity :
  server_step s s' -> (r, identity) ∈ sv_pending s' -> (r, identity) ∈ sv_pending s \/ vetted r identity.
Proof.
  intros Hs. destruct Hs as [s r' e _|s r' i Ha|s r' i e before after Hpre _ _|s ms|s id conn]; simpl.
  - rewrite (proj2 (admit_broker r' s)). by left.
  - rewrite (proj2 (admit_broker r' s)). intros [[= -> ->]|Hin]%elem_of_cons; [|by left].
    right. by eapply admitted_vetted.
  - rewrite Hpre. set_solver.
  - by left.
  - by left.
Qed.

Context (uuid_inj : forall m n : nat, host_uuid m = host_uuid n -> m = n).

Lemma server_reachable_facts s :
  server_reachable s ->
  reachable (sv_broker s) /\ forall r identity, (r, identity) ∈ sv_pending s -> vetted r identity.
Proof.
  intros (sink & ms & Hr).
  assert (reachable (sv_broker (new_server (new_broker sink ms)))
    /\ forall r identity, (r, identity) ∈ sv_pending (new_server (new_broker sink ms)) -> vetted r identity) as H0'.
  { split; [by exists sink, ms|]. simpl. intros r i Hin. by apply elem_of_nil in Hin. }
  induction Hr as [s|s1 s2 s3 Hstep _ IH]; [done|]. apply IH. destruct H0' as [Hb Hv]. split.
  - destruct (server_broker_step s1 s2) as [Heq|Hbs]; [by apply (reachable_good uuid_inj)|done| |].
    + by rewrite Heq.
    + destruct Hb as (sink' & ms' & Hb). exists sink', ms'. by eapply rtc_r.
  - intros r i Hin. destruct (server_pending_step s1 s2 r i Hstep Hin); [by apply Hv|done].
Qed.

(** A refused dispatch, messages of an exchange apart, leaves the broker alone. *)
Lemma refused_dispatch e r identity b :
  wf_broker b -> (forall id, e <> PostExchangeMessages id) ->
  is_ok (serve e r identity b).2 = false -> (serve e r identity b).1 = b.
Proof.
  intros Hwf He Herr. destruct (serve_served e r identity b Hwf) as [Hb|(c & [Hc _] & Hb & Hok)]; [done|].
  rewrite Hb. rewrite Herr in Hok.
  assert (match c with CallAddExchangeMessage _ _ => False | _ => True end) as Hm
    by (destruct c; try done; by eapply He).
  destruct (run_call c b) as [b' [a|err]] eqn:Hrun; [done|].
  by apply (refused_call c b Hwf Hm b' err).
Qed.
End Runs.
