(* ===== verification/PeerStatus.v ===== *)
(** * Peer status (src/a2a/peer-status.ts)

    The read-only service behind [a2a.peer.status]: whether a peer is reachable,
    busy, stale or degraded.  A query is counted per caller and target, answered
    from a cache while the entry is young enough, and computed from the broker
    otherwise, at most 200 times a second as long as there is an entry to serve. *)

From Stdlib Require Import ZArith Lia String.
From stdpp Require Import base gmap strings list pretty.
From S2P Require Import Prelude JsRuntime Types BrokerCore Workers Proposals Github TerminalBrief Tasks.

(** ** Requests and responses *)

Record PeerStatusRequest : Type := mkPeerStatusRequest {
  pq_target : string;
  pq_maxCacheAgeMs : option JsNum;
  pq_verbose : option bool;
}.

Inductive PeerHealth : Type := HealthOk | HealthBusy | HealthDegraded | HealthStale | HealthUnreachable.
#[export] Instance PeerHealth_eq_dec : EqDecision PeerHealth.
Proof. solve_decision. Defined.

Inductive PeerGatewayMode : Type := ModeInternal | ModeStandalone | ModeDual.

Record PeerCapacity : Type := mkPeerCapacity { pcp_slotsTotal : Z; pcp_slotsBusy : Z }.
Record PeerGateway : Type := mkPeerGateway {
  pg_reachable : bool;
  pg_version : option string;
  pg_mode : option PeerGatewayMode;
}.
(** [lastHeartbeatAt] is [Date.parse] of a text: [Some None] is NaN. *)
Record PeerWorker : Type := mkPeerWorker {
  pwk_registered : bool;
  pwk_lastHeartbeatAt : option (option Z);
  pwk_workerMode : option WorkerMode;
  pwk_capacity : option PeerCapacity;
}.
Record PeerTasks : Type := mkPeerTasks { pt_active : Z; pt_queued : Z; pt_stale : Z }.
Record PeerRateLimit : Type := mkPeerRateLimit { pr_remaining : Z; pr_resetAt : Z }.

Record PeerStatusResponse : Type := mkPeerStatusResponse {
  psr_target : string;
  psr_observedAt : Z;
  psr_cacheAgeMs : Z;
  psr_gateway : PeerGateway;
  psr_worker : PeerWorker;
  psr_tasks : PeerTasks;
  psr_health : PeerHealth;
  psr_rateLimit : option PeerRateLimit;
}.
#[export] Instance eta_PeerStatusResponse : Eta PeerStatusResponse := fun r =>
  mkPeerStatusResponse (psr_target r) (psr_observedAt r) (psr_cacheAgeMs r) (psr_gateway r) (psr_worker r)
    (psr_tasks r) (psr_health r) (psr_rateLimit r).

Record PeerStatusError : Type := mkPeerStatusError {
  pse_errorCode : string;
  pse_message : string;
  pse_retryAfterMs : option Z;
  pse_requiredScope : option string;
}.

Definition PEER_STATUS_VERBOSE_SCOPE : string := "a2a.peer.status.verbose".

Definition DEFAULT_CACHE_TTL_MS : Z := 5000.
Definition RATE_WINDOW_MS : Z := 10000.
Definition RATE_LIMIT : Z := 20.
Definition RATE_BURST : Z := 5.
Definition GLOBAL_RECOMPUTE_CAP_PER_S : Z := 200.

(** ** The service *)

Record CacheEntry : Type := mkCacheEntry { ce_response : PeerStatusResponse; ce_computedAt : Z }.
Record RateBucket : Type := mkRateBucket { rb_count : Z; rb_windowStart : Z }.

Record PeerStatusService : Type := mkPeerStatusService {
  pss_cache : jsmap CacheEntry;
  pss_rateBuckets : jsmap RateBucket;
  pss_globalRecomputeCount : Z;
  pss_globalRecomputeWindowStart : Z;
}.
#[export] Instance eta_PeerStatusService : Eta PeerStatusService := fun s =>
  mkPeerStatusService (pss_cache s) (pss_rateBuckets s) (pss_globalRecomputeCount s)
    (pss_globalRecomputeWindowStart s).

Definition new_peer_service : PeerStatusService := mkPeerStatusService [] [] 0 0.

(** The options of the constructor; [peer_clock n] is the service's [n]-th reading
    of [Date.now()]; [fraction_floor] is the largest integer below a fraction, by
    the text JavaScript prints for it. *)
Class PeerStatusOptions : Type := {
  pso_workerOfflineAfterMs : option Z;
  pso_mobileOfflineAfterMs : option Z;
  peer_clock : nat -> Z;
  fraction_floor : string -> Z;
}.

(** The broker, the service that reads it, and the readings of the clock so far. *)
Section World.
Context `{TaskEventSink}.
Record PeerWorld : Type := mkPeerWorld {
  pw_broker : Broker;
  pw_service : PeerStatusService;
  pw_ticks : nat;
}.
#[export] Instance eta_PeerWorld : Eta PeerWorld := fun w =>
  mkPeerWorld (pw_broker w) (pw_service w) (pw_ticks w).
End World.

(** [age <= limit]. *)
Definition within_age `{PeerStatusOptions} (age : Z) (limit : JsNum) : bool :=
  match limit with
  | NInt z => (age <=? z)%Z
  | NFrac text => (age <=? fraction_floor text)%Z
  | NNaN => false
  | NInf negative => negb negative
  end.

Section Service.
Context `{JsHost} `{TaskEventSink} `{BrokerConfig} `{PeerStatusOptions}.

Abbreviation PeerM := (stM PeerWorld PeerStatusError).

(** [Date.now()]. *)
Definition peer_now {E} : stM PeerWorld E Z := fun w =>
  (w <| pw_ticks ::= S |>, Ok (peer_clock (pw_ticks w))).

(** A value returned early, as an error. *)
Definition peer_error {A} (code message : string) (retryAfterMs : option Z) (requiredScope : option string) : PeerM A :=
  m_throw (mkPeerStatusError code message retryAfterMs requiredScope).

Definition hasScope (scopes : option (list string)) (requiredScope : string) : bool :=
  bool_decide (requiredScope ∈ scopes ?? []).

(** ** Rate limiting *)

Definition bucket_key (callerId target : string) : string := (callerId ++ ":" ++ target)%string.

Definition checkRateLimit (callerId target : string) : PeerM unit :=
  let key := bucket_key callerId target in
  now <-- peer_now;
  w <-- m_get;
  bucket <-- match jm_get key (pss_rateBuckets (pw_service w)) with
    | Some bucket =>
        if (RATE_WINDOW_MS <=? now - rb_windowStart bucket)%Z then m_ret (mkRateBucket 0 now) else m_ret bucket
    | None => m_ret (mkRateBucket 0 now)
    end;
  m_modify (fun w => w <| pw_service ::= fun s => s <| pss_rateBuckets ::= jm_set key bucket |> |>);;;
  if (RATE_LIMIT + RATE_BURST <=? rb_count bucket)%Z then
    peer_error "rate_limited" ("rate limit exceeded for " ++ callerId ++ " → " ++ target)%string
      (Some (rb_windowStart bucket + RATE_WINDOW_MS - now)%Z) None
  else
    m_modify (fun w => w <| pw_service ::= fun s => s
      <| pss_rateBuckets ::= jm_set key (mkRateBucket (rb_count bucket + 1) (rb_windowStart bucket)) |> |>).

Definition getRateLimitInfo (callerId target : string) : PeerM PeerRateLimit :=
  now <-- peer_now;
  w <-- m_get;
  let bucket := jm_get (bucket_key callerId target) (pss_rateBuckets (pw_service w)) in
  m_ret (mkPeerRateLimit
    (Z.max 0 (RATE_LIMIT + RATE_BURST - ((rb_count <$> bucket) ?? 0%Z))%Z)
    (((rb_windowStart <$> bucket) ?? now) + RATE_WINDOW_MS)%Z).

Definition tryAcquireGlobalRecomputeSlot (nowMs : Z) : PeerM bool :=
  m_modify (fun w => w <| pw_service ::= fun s =>
    if (1000 <=? nowMs - pss_globalRecomputeWindowStart s)%Z
    then s <| pss_globalRecomputeWindowStart := nowMs |> <| pss_globalRecomputeCount := 0%Z |> else s |>);;;
  w <-- m_get;
  if (GLOBAL_RECOMPUTE_CAP_PER_S <=? pss_globalRecomputeCount (pw_service w))%Z then m_ret false
  else
    m_modify (fun w => w <| pw_service ::= fun s => s <| pss_globalRecomputeCount ::= Z.add 1 |> |>);;;
    m_ret true.

(** ** The status of a peer *)

Definition computeHealth (reachable workerStale : bool) (staleTaskCount occupiedSlots totalSlots : Z) : PeerHealth :=
  if negb reachable then HealthUnreachable
  else if workerStale then HealthStale
  else if (0 <? totalSlots)%Z && (totalSlots <=? occupiedSlots)%Z then HealthBusy
  else if (0 <? staleTaskCount)%Z then HealthDegraded
  else HealthOk.

(** Claimed or running. *)
Definition peer_active (t : TaskRecord) : bool :=
  bool_decide (task_status t = TaskClaimed) || bool_decide (task_status t = TaskRunning).

Definition peer_task_stale (nowMs : Z) (t : TaskRecord) : bool :=
  peer_active t && match task_last_signal t with Some at_ => (120000 <? nowMs - at_)%Z | None => false end.

Definition count_tasks (p : TaskRecord -> bool) (tasks : list TaskRecord) : Z :=
  Z.of_nat (length (List.filter p tasks)).

Definition tasks_of_target (target : string) (b : Broker) : list TaskRecord :=
  listTasks (Some (mkTaskListFilters None None (Some target) None None None None None None)) b.

(** [viewMs] is the clock when the worker's status is taken. *)
Definition peer_status_at (target : string) (nowMs viewMs : Z) (b : Broker) : PeerStatusResponse :=
  let worker := jm_get target (br_workers b) in
  let allTasks := tasks_of_target target b in
  let isMobile := bool_decide ((worker ?> wr_workerMode) = Some ModeMobile) in
  let offlineAfterMs := if isMobile then pso_mobileOfflineAfterMs ?? 30000%Z else pso_workerOfflineAfterMs ?? 90000%Z in
  let isReachable := is_some worker in
  let isWorkerStale := match worker with
    | Some w => match computeWorkerStatus (wr_lastSeenAt w) offlineAfterMs viewMs with WorkerStale => true | _ => false end
    | None => false end in
  let active := count_tasks peer_active allTasks in
  let queued := count_tasks (fun t => bool_decide (task_status t = TaskQueued)) allTasks in
  let stale := count_tasks (peer_task_stale nowMs) allTasks in
  let slotsTotal := if isMobile then 3%Z else 10%Z in
  let slotsBusy := (active + queued)%Z in
  {| psr_target := target;
     psr_observedAt := nowMs;
     psr_cacheAgeMs := 0;
     psr_gateway := mkPeerGateway isReachable (worker ?> wr_metadata ?> jm_get "version") (Some ModeStandalone);
     psr_worker := mkPeerWorker isReachable ((fun w => date_parse (wr_lastSeenAt w)) <$> worker)
                     (worker ?> wr_workerMode)
                     (if isReachable then Some (mkPeerCapacity slotsTotal slotsBusy) else None);
     psr_tasks := mkPeerTasks active queued stale;
     psr_health := computeHealth isReachable isWorkerStale stale slotsBusy slotsTotal;
     psr_rateLimit := None |}.

(** The view of a worker reads the clock. *)
Definition computeStatus (target : string) (nowMs : Z) : PeerM PeerStatusResponse :=
  w <-- m_get;
  viewMs <-- if jm_has target (br_workers (pw_broker w)) then peer_now else m_ret nowMs;
  m_ret (peer_status_at target nowMs viewMs (pw_broker w)).

(** The copy a caller is sent: the stored answer, its age, the caller's quota. *)
Definition buildDefaultResponse (response : PeerStatusResponse) (cacheAgeMs : Z) (callerId target : string)
    : PeerM PeerStatusResponse :=
  limit <-- getRateLimitInfo callerId target;
  m_ret (response <| psr_cacheAgeMs := cacheAgeMs |> <| psr_rateLimit := Some limit |>).

(** A fresh status, kept in the cache. *)
Definition computed_answer (target : string) (now : Z) (callerId : string) : PeerM PeerStatusResponse :=
  status <-- computeStatus target now;
  response <-- buildDefaultResponse status 0 callerId target;
  m_modify (fun w => w <| pw_service ::= fun s => s
    <| pss_cache ::= jm_set target (mkCacheEntry response now) |> |>);;;
  m_ret response.

Definition query (request : PeerStatusRequest) (callerId : option string) (scopes : option (list string))
    : PeerM PeerStatusResponse :=
  match trimmed (pq_target request), truthy_opt callerId with
  | None, _ => peer_error "bad_request" "target is required" None None
  | _, None => peer_error "unauthenticated" "caller identity is required" None None
  | Some target, Some callerId =>
      m_when (obool_true (pq_verbose request) && negb (hasScope scopes PEER_STATUS_VERBOSE_SCOPE))
        (peer_error "scope_denied" ("missing required scope: " ++ PEER_STATUS_VERBOSE_SCOPE)%string
           None (Some PEER_STATUS_VERBOSE_SCOPE));;;
      checkRateLimit callerId target;;;
      let maxCacheAge := pq_maxCacheAgeMs request ?? NInt DEFAULT_CACHE_TTL_MS in
      w <-- m_get;
      let cached := jm_get target (pss_cache (pw_service w)) in
      now <-- peer_now;
      match cached with
      | Some entry =>
          if within_age (now - ce_computedAt entry) maxCacheAge
          then buildDefaultResponse (ce_response entry) (now - ce_computedAt entry) callerId target
          else
            recompute <-- tryAcquireGlobalRecomputeSlot now;
            if recompute then computed_answer target now callerId
            else buildDefaultResponse (ce_response entry) (now - ce_computedAt entry) callerId target
      | None => tryAcquireGlobalRecomputeSlot now;;; computed_answer target now callerId
      end
  end.
End Service.

(** ** What a peer status answer tells

    Every answer, cached or not, is the status some state of the broker had, and
    the quota it announces is what is left of the caller's window. *)

Section Facts.
Context `{JsHost} `{TaskEventSink} `{BrokerConfig} `{PeerStatusOptions}.

(** The worlds a service goes through, with the states of the broker so far: the
    broker moves on by itself, and queries arrive. *)
Inductive peer_trace : list Broker -> PeerWorld -> Prop :=
| PeerStart b : peer_trace [b] (mkPeerWorld b new_peer_service 0)
| PeerBrokerMoves h w b : peer_trace h w -> peer_trace (b :: h) (w <| pw_broker := b |>)
| PeerQueried h w request callerId scopes :
    peer_trace h w -> peer_trace h (query request callerId scopes w).1.

(** An answer without what depends on its caller. *)
Definition bare (r : PeerStatusResponse) : PeerStatusResponse :=
  r <| psr_cacheAgeMs := 0%Z |> <| psr_rateLimit := None |>.

(** The status the broker had in one of the states, taken at [ms]. *)
Definition told (h : list Broker) (target : string) (ms : Z) (r : PeerStatusResponse) : Prop :=
  exists b viewMs, b ∈ h /\ bare r = peer_status_at target ms viewMs b.

Definition quota : Z := (RATE_LIMIT + RATE_BURST)%Z.

Record service_ok (h : list Broker) (s : PeerStatusService) : Prop := {
  so_cache : forall t e, jm_get t (pss_cache s) = Some e -> told h t (ce_computedAt e) (ce_response e);
  so_buckets : forall k b, jm_get k (pss_rateBuckets s) = Some b -> (0 <= rb_count b <= quota)%Z;
}.

(** ** Runs of the parts *)

(** The bucket a query is counted in. *)
Definition current_bucket (key : string) (now : Z) (s : PeerStatusService) : RateBucket :=
  match jm_get key (pss_rateBuckets s) with
  | Some b => if (RATE_WINDOW_MS <=? now - rb_windowStart b)%Z then mkRateBucket 0 now else b
  | None => mkRateBucket 0 now
  end.

Definition with_bucket (key : string) (b : RateBucket) (s : PeerStatusService) : PeerStatusService :=
  s <| pss_rateBuckets ::= jm_set key b |>.

Definition rate_error (c t : string) (now : Z) (b : RateBucket) : PeerStatusError :=
  mkPeerStatusError "rate_limited" ("rate limit exceeded for " ++ c ++ " → " ++ t)%string
    (Some (rb_windowStart b + RATE_WINDOW_MS - now)%Z) None.

Lemma checkRateLimit_run c t w :
  let key := bucket_key c t in
  let now := peer_clock (pw_ticks w) in
  let b := current_bucket key now (pw_service w) in
  checkRateLimit c t w =
    if (quota <=? rb_count b)%Z
    then (mkPeerWorld (pw_broker w) (with_bucket key b (pw_service w)) (S (pw_ticks w)),
          Err (rate_error c t now b))
    else (mkPeerWorld (pw_broker w)
            (with_bucket key (mkRateBucket (rb_count b + 1) (rb_windowStart b)) (pw_service w)) (S (pw_ticks w)), Ok tt).
Proof.
  cbv zeta. unfold checkRateLimit, quota, current_bucket, with_bucket, rate_error. cbv zeta.
  unfold m_bind, peer_now, m_get, m_modify, m_ret, peer_error, m_throw. destruct w as [br s n]. simpl.
  destruct (jm_get _ _) as [b|]; simpl.
  - destruct (RATE_WINDOW_MS <=? _)%Z; simpl.
    + unfold update. simpl. by rewrite jm_set_set.
    + destruct (_ <=? rb_count b)%Z eqn:Hq; simpl; [done|]. unfold update. simpl. by rewrite jm_set_set.
  - unfold update. simpl. by rewrite jm_set_set.
Qed.

Definition ticked (n : nat) (w : PeerWorld) : PeerWorld := mkPeerWorld (pw_broker w) (pw_service w) (n + pw_ticks w).

Definition limit_of (b : RateBucket) : PeerRateLimit :=
  mkPeerRateLimit (quota - rb_count b) (rb_windowStart b + RATE_WINDOW_MS).

Lemma build_run r age c t b w :
  jm_get (bucket_key c t) (pss_rateBuckets (pw_service w)) = Some b -> (rb_count b <= quota)%Z ->
  buildDefaultResponse r age c t w
  = (ticked 1 w, Ok (r <| psr_cacheAgeMs := age |> <| psr_rateLimit := Some (limit_of b) |>)).
Proof.
  intros Hb Hq. unfold buildDefaultResponse, getRateLimitInfo, m_bind, peer_now, m_get, m_ret, limit_of, ticked.
  unfold update. simpl. rewrite Hb. simpl. unfold quota in *. by rewrite Z.max_r by lia.
Qed.

Lemma slot_run now w : exists ok s,
  tryAcquireGlobalRecomputeSlot now w = (mkPeerWorld (pw_broker w) s (pw_ticks w), Ok ok)
  /\ pss_cache s = pss_cache (pw_service w) /\ pss_rateBuckets s = pss_rateBuckets (pw_service w)
  /\ (ok = false -> (GLOBAL_RECOMPUTE_CAP_PER_S <= pss_globalRecomputeCount s)%Z
        /\ (now - pss_globalRecomputeWindowStart s < 1000)%Z).
Proof.
  unfold tryAcquireGlobalRecomputeSlot, m_bind, m_modify, m_get, m_ret. destruct w as [b s n]. unfold update. simpl.
  destruct (Z.leb_spec 1000 (now - pss_globalRecomputeWindowStart s)); simpl; [by eexists true, _|].
  destruct (Z.leb_spec GLOBAL_RECOMPUTE_CAP_PER_S (pss_globalRecomputeCount s)); simpl; [|by eexists true, _].
  by exists false, s.
Qed.

Lemma computed_run c t now b w :
  jm_get (bucket_key c t) (pss_rateBuckets (pw_service w)) = Some b -> (rb_count b <= quota)%Z ->
  exists n viewMs, let r := (peer_status_at t now viewMs (pw_broker w)) <| psr_cacheAgeMs := 0%Z |>
                      <| psr_rateLimit := Some (limit_of b) |> in
    computed_answer t now c w
    = (mkPeerWorld (pw_broker w) ((pw_service w) <| pss_cache ::= jm_set t (mkCacheEntry r now) |>) n, Ok r).
Proof.
  intros Hb Hq. unfold computed_answer, computeStatus.
  destruct (jm_has t (br_workers (pw_broker w))) eqn:Hw.
  - exists (2 + pw_ticks w), (peer_clock (pw_ticks w)). cbv zeta.
    unfold m_bind at 1 2 3. unfold m_get. rewrite Hw. unfold peer_now, m_ret at 1. unfold m_bind at 1.
    rewrite (build_run _ _ c t b) by done. done.
  - exists (1 + pw_ticks w), now. cbv zeta. unfold m_bind at 1 2 3. unfold m_get. rewrite Hw.
    unfold m_ret at 1 2. unfold m_bind at 1. rewrite (build_run _ _ c t b) by done. done.
Qed.

(** ** Queries *)

(** What is in the way of a query before it is counted. *)
Definition query_refused (request : PeerStatusRequest) (callerId : option string) (scopes : option (list string)) : Prop :=
  trimmed (pq_target request) = None \/ truthy_opt callerId = None
  \/ (obool_true (pq_verbose request) = true /\ hasScope scopes PEER_STATUS_VERBOSE_SCOPE = false).

(** An answer [r] to the query [request] of [c] about [t], with the world after it. *)
Definition answers_query (h : list Broker) (w w' : PeerWorld) (request : PeerStatusRequest) (c t : string)
    (r : PeerStatusResponse) : Prop :=
  let now := peer_clock (S (pw_ticks w)) in
  told h t (psr_observedAt r) r
  /\ psr_cacheAgeMs r = (now - psr_observedAt r)%Z
  /\ ((exists viewMs, bare r = peer_status_at t now viewMs (pw_broker w))
      \/ within_age (psr_cacheAgeMs r) (pq_maxCacheAgeMs request ?? NInt DEFAULT_CACHE_TTL_MS) = true
      \/ ((GLOBAL_RECOMPUTE_CAP_PER_S <= pss_globalRecomputeCount (pw_service w'))%Z
          /\ (now - pss_globalRecomputeWindowStart (pw_service w') < 1000)%Z))
  /\ exists b, jm_get (bucket_key c t) (pss_rateBuckets (pw_service w')) = Some b
       /\ psr_rateLimit r = Some (limit_of b) /\ (1 <= rb_count b <= quota)%Z.

(** A query that is over its quota. *)
Definition over_quota (w : PeerWorld) (c t : string) (e : PeerStatusError) : Prop :=
  let now := peer_clock (pw_ticks w) in
  exists b, jm_get (bucket_key c t) (pss_rateBuckets (pw_service w)) = Some b
    /\ rb_count b = quota /\ (now - rb_windowStart b < RATE_WINDOW_MS)%Z /\ e = rate_error c t now b.

Lemma told_bare h t ms r r' : bare r = bare r' -> told h t ms r -> told h t ms r'.
Proof. intros Hb (b & v & Hin & Hr). exists b, v. split; [done|]. by rewrite <- Hb. Qed.

Lemma told_observed h t ms r : told h t ms r -> psr_observedAt r = ms.
Proof. intros (b & v & _ & Hr). apply (f_equal psr_observedAt) in Hr. exact Hr. Qed.

Lemma service_ok_set h key b s :
  service_ok h s -> (0 <= rb_count b <= quota)%Z -> service_ok h (with_bucket key b s).
Proof.
  intros [Hc Hb] Hq. split; [exact Hc|]. intros k b'. unfold with_bucket, update. simpl. rewrite jm_get_set.
  destruct (String.eqb k key); [by intros [= <-]|apply Hb].
Qed.

Lemma current_bucket_bounds h key now s :
  service_ok h s -> (0 <= rb_count (current_bucket key now s) <= quota)%Z.
Proof.
  intros [_ Hb]. unfold current_bucket. specialize (Hb key). destruct (jm_get key _) as [b|]; [|done].
  destruct (_ <=? _)%Z; [done|]. by apply Hb.
Qed.

(** The two ways a query ends: a fresh status, and an entry of the cache. *)
Definition ends_well (h : list Broker) (w : PeerWorld) (request : PeerStatusRequest) (c t : string)
    (run : PeerWorld * result PeerStatusError PeerStatusResponse) : Prop :=
  pw_broker run.1 = pw_broker w /\ service_ok h (pw_service run.1)
  /\ exists r, run.2 = Ok r /\ answers_query h w run.1 request c t r.

Lemma computed_ends h w wx request c t b :
  pw_broker w ∈ h -> pw_broker wx = pw_broker w -> service_ok h (pw_service wx) ->
  jm_get (bucket_key c t) (pss_rateBuckets (pw_service wx)) = Some b -> (1 <= rb_count b <= quota)%Z ->
  ends_well h w request c t (computed_answer t (peer_clock (S (pw_ticks w))) c wx).
Proof.
  intros Hin Hbr [Hcache Hbuckets] Hb Hq.
  destruct (computed_run c t (peer_clock (S (pw_ticks w))) b wx Hb ltac:(lia)) as (n & v & ->).
  rewrite Hbr. set (r := _ <| psr_rateLimit := _ |>). split; [done|].
  assert (bare r = peer_status_at t (peer_clock (S (pw_ticks w))) v (pw_broker w)) as Hr by done.
  assert (told h t (peer_clock (S (pw_ticks w))) r) as Htold by by exists (pw_broker w), v.
  split; [|exists r; split; [done|]].
  - split; [|exact Hbuckets]. intros t' e. unfold update. simpl. rewrite jm_get_set.
    destruct (String.eqb_spec t' t) as [->|]; [|apply Hcache]. by intros [= <-].
  - split_and!; [exact Htold| |by left; exists v|by exists b]. simpl. lia.
Qed.

Lemma cached_ends h w wx request c t b entry :
  pw_broker wx = pw_broker w -> service_ok h (pw_service wx) ->
  jm_get (bucket_key c t) (pss_rateBuckets (pw_service wx)) = Some b -> (1 <= rb_count b <= quota)%Z ->
  told h t (ce_computedAt entry) (ce_response entry) ->
  let now := peer_clock (S (pw_ticks w)) in
  within_age (now - ce_computedAt entry) (pq_maxCacheAgeMs request ?? NInt DEFAULT_CACHE_TTL_MS) = true
  \/ ((GLOBAL_RECOMPUTE_CAP_PER_S <= pss_globalRecomputeCount (pw_service wx))%Z
      /\ (now - pss_globalRecomputeWindowStart (pw_service wx) < 1000)%Z) ->
  ends_well h w request c t (buildDefaultResponse (ce_response entry) (now - ce_computedAt entry) c t wx).
Proof.
  intros Hbr Hok Hb Hq Htold now Hold. rewrite (build_run _ _ c t b wx Hb) by lia.
  set (r := _ <| psr_rateLimit := _ |>).
  assert (told h t (ce_computedAt entry) r) as Hr by (eapply told_bare; [|exact Htold]; done).
  split; [done|]. split; [done|]. exists r. split; [done|]. pose proof (told_observed _ _ _ _ Hr) as Hobs.
  split_and!; rewrite ?Hobs; [done|done|by right|by exists b].
Qed.

Lemma query_run h w request callerId scopes :
  pw_broker w ∈ h -> service_ok h (pw_service w) ->
  let '(w', answer) := query request callerId scopes w in
  pw_broker w' = pw_broker w /\ service_ok h (pw_service w')
  /\ match answer with
     | Ok r => exists t c, trimmed (pq_target request) = Some t /\ truthy_opt callerId = Some c
                 /\ answers_query h w w' request c t r
     | Err e => (query_refused request callerId scopes /\ w' = w)
         \/ exists t c, trimmed (pq_target request) = Some t /\ truthy_opt callerId = Some c /\ over_quota w c t e
     end.
Proof.
  intros Hin Hok. unfold query.
  destruct (trimmed (pq_target request)) as [t|] eqn:Ht; [|split_and!; [done..|left; by split; [left|]]].
  destruct (truthy_opt callerId) as [c|] eqn:Hc; [|split_and!; [done..|left; by split; [right; left|]]].
  destruct (obool_true (pq_verbose request) && negb (hasScope scopes PEER_STATUS_VERBOSE_SCOPE)) eqn:Hv.
  { apply andb_prop in Hv as [Hv Hs%negb_true_iff]. split_and!; [done..|]. left. split; [|done]. by right; right. }
  rewrite (bind_ok _ _ w w tt) by done. unfold m_bind at 1. rewrite checkRateLimit_run.
  set (b := current_bucket (bucket_key c t) (peer_clock (pw_ticks w)) (pw_service w)).
  pose proof (current_bucket_bounds h (bucket_key c t) (peer_clock (pw_ticks w)) _ Hok) as Hb. fold b in Hb.
  destruct (Z.leb_spec quota (rb_count b)) as [Hq|Hq].
  { simpl. split_and!; [done|by apply service_ok_set|]. right. exists t, c. split_and!; [done..|].
    revert Hb Hq. subst b. unfold over_quota, current_bucket.
    destruct (jm_get (bucket_key c t) _) as [b|] eqn:Hget; [|simpl; unfold quota, RATE_LIMIT, RATE_BURST; lia].
    destruct (Z.leb_spec RATE_WINDOW_MS (peer_clock (pw_ticks w) - rb_windowStart b));
      [simpl; unfold quota, RATE_LIMIT, RATE_BURST; lia|]. intros ? ?. exists b. split_and!; [done|lia|lia|done]. }
  set (b1 := mkRateBucket (rb_count b + 1) (rb_windowStart b)).
  set (w1 := mkPeerWorld (pw_broker w) (with_bucket (bucket_key c t) b1 (pw_service w)) (S (pw_ticks w))).
  assert (service_ok h (pw_service w1)) as Hok1 by (apply service_ok_set; [done|simpl; lia]).
  assert (jm_get (bucket_key c t) (pss_rateBuckets (pw_service w1)) = Some b1) as Hb1 by apply jm_get_set_eq.
  assert (1 <= rb_count b1 <= quota)%Z as Hcount by (simpl; lia).
  cbv zeta. unfold m_bind at 1. unfold m_get at 1. unfold m_bind at 1. unfold peer_now at 1. cbv zeta.
  assert (forall run : PeerWorld * result PeerStatusError PeerStatusResponse, ends_well h w request c t run ->
    let '(w', answer) := run in pw_broker w' = pw_broker w /\ service_ok h (pw_service w')
      /\ match answer with
         | Ok r => exists t0 c0, Some t = Some t0 /\ Some c = Some c0 /\ answers_query h w w' request c0 t0 r
         | Err e => (query_refused request callerId scopes /\ w' = w)
             \/ exists t0 c0, Some t = Some t0 /\ Some c = Some c0 /\ over_quota w c0 t0 e
         end) as Hend.
  { intros [w' answer] (Hbr & Hs & r & Ha & Hq'). simpl in *. subst answer. split_and!; [done..|]. by exists t, c. }
  apply Hend. clear Hend. change (peer_clock (pw_ticks w1)) with (peer_clock (S (pw_ticks w))).
  set (w2 := w1 <| pw_ticks ::= S |>). destruct (jm_get t (pss_cache (pw_service w1))) as [entry|] eqn:He.
  - pose proof (so_cache _ _ Hok1 t entry He) as Htold.
    destruct (within_age _ _) eqn:Hage; [apply (cached_ends h w w2 request c t b1); [done..|by left]|].
    unfold m_bind. destruct (slot_run (peer_clock (S (pw_ticks w))) w2) as (ok & s & -> & Hsc & Hsb & Hcap).
    assert (service_ok h s) as Hs by (destruct Hok1; split; [by rewrite Hsc|by rewrite Hsb]).
    destruct ok.
    + apply (computed_ends h w _ request c t b1); [done|done|done|simpl; by rewrite Hsb|done].
    + apply (cached_ends h w _ request c t b1); [done|done|simpl; by rewrite Hsb|done|done|right; by apply Hcap].
  - unfold m_bind. destruct (slot_run (peer_clock (S (pw_ticks w))) w2) as (ok & s & -> & Hsc & Hsb & _).
    assert (service_ok h s) as Hs by (destruct Hok1; split; [by rewrite Hsc|by rewrite Hsb]).
    apply (computed_ends h w _ request c t b1); [done|done|done|simpl; by rewrite Hsb|done].
Qed.

(** The invariant of a trace. *)
Lemma service_ok_more h h' s : (forall b, b ∈ h -> b ∈ h') -> service_ok h s -> service_ok h' s.
Proof.
  intros Hh [Hc Hb]. split; [|exact Hb]. intros t e He. destruct (Hc t e He) as (b & v & Hin & Hr).
  exists b, v. split; [by apply Hh|done].
Qed.

Lemma trace_ok h w : peer_trace h w -> pw_broker w ∈ h /\ service_ok h (pw_service w).
Proof.
  induction 1 as [b|h w b _ [_ IH]|h w request callerId scopes _ [Hin IH]].
  - split; [apply list_elem_of_here|]. by split; intros ? ? ?.
  - split; [apply list_elem_of_here|]. eapply service_ok_more; [|exact IH]. intros b' Hb'. by right.
  - pose proof (query_run h w request callerId scopes Hin IH) as Hq.
    destruct (query request callerId scopes w) as [w' answer]. destruct Hq as (Hbr & Hs & _). simpl.
    split; [by rewrite Hbr|done].
Qed.
End Facts.
