(* ===== verification/JsonRpc.v ===== *)
(** * The JSON-RPC surface (src/a2a/json-rpc.ts, src/a2a/task-projection.ts)

    Requests of agents as JSON values: messages, tasks, cancellations, peer
    status.  A request is answered with a result or a failure, never by a throw;
    [RpcError] is what is thrown inside and mapped to a failure at the end. *)

From Stdlib Require Import ZArith Lia String Ascii.
From stdpp Require Import base gmap strings list pretty.
From S2P Require Import Prelude JsRuntime Types BrokerCore EventBuffer TaskEventStream Outbox Workers Proposals.
From S2P Require Import Github TerminalBrief Tasks Exchanges RateLimiter RequestSecurity PeerStatus.

(** ** Task projection *)

Inductive A2ATaskState : Type := StateSubmitted | StateWorking | StateCompleted | StateFailed | StateCanceled.
#[export] Instance A2ATaskState_eq_dec : EqDecision A2ATaskState.
Proof. solve_decision. Defined.

Definition mapTaskState (status : TaskStatus) : A2ATaskState :=
  match status with
  | TaskBlocked | TaskQueued => StateSubmitted
  | TaskClaimed | TaskRunning => StateWorking
  | TaskSucceeded => StateCompleted
  | TaskFailed => StateFailed
  | TaskCanceled => StateCanceled
  end.

(** The metadata of a projection; [contextId] repeats the exchange.  A list entry
    has [resultSummary] for [result] and an error without its details. *)
Record TaskProjectionMetadata : Type := mkTaskProjectionMetadata {
  pm_internalStatus : TaskStatus;
  pm_intent : A2AExchangeIntent;
  pm_requester : A2APartyRef;
  pm_target : A2APartyRef;
  pm_exchangeId : option string;
  pm_contextId : option string;
  pm_parentTaskId : option string;
  pm_referenceTaskIds : option (list string);
  pm_proposalId : option string;
  pm_targetNodeId : string;
  pm_assignedWorkerId : option string;
  pm_claimedBy : option string;
  pm_workspace : option WorkspaceRef;
  pm_createdAt : string;
  pm_updatedAt : string;
  pm_cancellation : option TaskCancellationInfo;
  pm_error : option TaskError;
  pm_result : option TaskResult;
  pm_resultSummary : option string;
  pm_policyContext : option TaskPolicyContext;
  pm_approval : option TaskApprovalInfo;
}.
#[export] Instance eta_TaskProjectionMetadata : Eta TaskProjectionMetadata := fun m =>
  mkTaskProjectionMetadata (pm_internalStatus m) (pm_intent m) (pm_requester m) (pm_target m) (pm_exchangeId m)
    (pm_contextId m) (pm_parentTaskId m) (pm_referenceTaskIds m) (pm_proposalId m) (pm_targetNodeId m)
    (pm_assignedWorkerId m) (pm_claimedBy m) (pm_workspace m) (pm_createdAt m) (pm_updatedAt m)
    (pm_cancellation m) (pm_error m) (pm_result m) (pm_resultSummary m) (pm_policyContext m) (pm_approval m).

Record A2ATaskProjection : Type := mkTaskProjection {
  tp_id : string;
  tp_state : A2ATaskState;
  tp_timestamp : string;
  tp_message : option string;
  tp_metadata : TaskProjectionMetadata;
  tp_artifacts : list string;
}.
#[export] Instance eta_A2ATaskProjection : Eta A2ATaskProjection := fun p =>
  mkTaskProjection (tp_id p) (tp_state p) (tp_timestamp p) (tp_message p) (tp_metadata p) (tp_artifacts p).

Definition task_result_summary (task : TaskRecord) : option string :=
  (task_result task ?> res_summary) ??o (task_result task ?> res_note).

Definition projectBrokerTask (task : TaskRecord) : A2ATaskProjection := {|
  tp_id := task_id task;
  tp_state := mapTaskState (task_status task);
  tp_timestamp := task_completedAt task ?? task_updatedAt task;
  tp_message := truthy_opt (task_result_summary task ??o task_message task);
  tp_metadata := {|
    pm_internalStatus := task_status task;
    pm_intent := task_intent task;
    pm_requester := task_requester task;
    pm_target := task_target task;
    pm_exchangeId := task_exchangeId task;
    pm_contextId := task_exchangeId task;
    pm_parentTaskId := task_parentTaskId task;
    pm_referenceTaskIds := task_referenceTaskIds task;
    pm_proposalId := task_proposalId task;
    pm_targetNodeId := task_targetNodeId task;
    pm_assignedWorkerId := task_assignedWorkerId task;
    pm_claimedBy := task_claimedBy task;
    pm_workspace := task_workspace task;
    pm_createdAt := task_createdAt task;
    pm_updatedAt := task_updatedAt task;
    pm_cancellation := task_cancellation task;
    pm_error := task_error task;
    pm_result := task_result task;
    pm_resultSummary := None;
    pm_policyContext := task_policyContext task;
    pm_approval := task_approval task |};
  tp_artifacts := (task_result task ?> res_artifactIds) ?? task_artifactIds task |}.

Definition projectBrokerTaskForList (task : TaskRecord) : A2ATaskProjection :=
  (projectBrokerTask task) <| tp_metadata ::= fun m => m
    <| pm_error ::= fmap (fun e => mkTaskError (err_code e) (err_message e) None) |>
    <| pm_result := None |>
    <| pm_resultSummary := task_result_summary task |> |>.

(** ** Reading JSON *)

(** [isRecord]: null apart, an array is an object too; it has none of the
    properties that are read. *)
Definition rpc_record (v : JsValue) : option JsRecord :=
  match v with JObj m => Some m | JArr _ => Some [] | _ => None end.

Definition optionalString (v : JsValue) : option string := js_string v ≫= trimmed.

(** [optionalEnum] with the values of a type and their texts. *)
Definition optionalEnum {T} (text : T -> string) (allowed : list T) (v : JsValue) : option T :=
  match v with
  | JStr s => List.find (fun t => String.eqb (text t) (js_trim s)) allowed
  | _ => None
  end.

Definition optionalStringField (v : JsValue) (field : string) : option string :=
  match rpc_record v with Some m => optionalString (js_prop field m) | None => None end.

Definition rpc_intents : list A2AExchangeIntent :=
  [IntentChat; IntentAnalyze; IntentVerify; IntentBackfill; IntentProposePatch; IntentProposeParams;
   IntentValidateChange; IntentApplyLocalChange; IntentPromoteToLive; IntentRollbackLive].
Definition rpc_statuses : list TaskStatus :=
  [TaskBlocked; TaskQueued; TaskClaimed; TaskRunning; TaskSucceeded; TaskFailed; TaskCanceled].
Definition rpc_kinds : list A2APartyKind := [KindSession; KindNode; KindUser; KindService].
Definition rpc_roles : list A2APartyRole :=
  [RoleHub; RoleLiveTrader; RoleResearcher; RoleAnalyst; RoleOperator].

(** ** Requests and responses *)

Inductive JsonRpcId : Type :=
| RpcIdText (s : string)
| RpcIdNumber (n : JsNum)
| RpcIdNull.

Definition readId (v : JsValue) : JsonRpcId :=
  match v with JStr s => RpcIdText s | JNum n => RpcIdNumber n | _ => RpcIdNull end.

Record JsonRpcRequest : Type := mkJsonRpcRequest {
  jr_id : JsonRpcId;
  jr_method : string;
  jr_params : JsValue;
}.

(** The data of a failure. *)
Record RpcErrorData : Type := mkRpcErrorData {
  rd_brokerCode : string;
  rd_retryAfterMs : option Z;
  rd_requiredScope : option string;
}.

Record RpcFailure : Type := mkRpcFailure {
  rf_code : Z;
  rf_message : string;
  rf_data : option RpcErrorData;
}.

(** The results of the methods.  The agent card is the one of the options. *)
Inductive RpcResult : Type :=
| ResultMessage (contextId messageId : string) (task : option A2ATaskProjection)
| ResultTask (task : A2ATaskProjection)
| ResultTasks (tasks : list A2ATaskProjection)
| ResultSubscription (task : A2ATaskProjection) (url : option string)
| ResultAgentCard
| ResultPeerStatus (response : PeerStatusResponse).

Record JsonRpcResponse : Type := mkJsonRpcResponse {
  jp_id : JsonRpcId;
  jp_outcome : result RpcFailure RpcResult;
}.

Definition plain_failure (code : Z) (message : string) : RpcFailure := mkRpcFailure code message None.
Definition coded_failure (code : Z) (message brokerCode : string) : RpcFailure :=
  mkRpcFailure code message (Some (mkRpcErrorData brokerCode None None)).

Definition parseJsonRpcRequest (request : JsValue) : JsonRpcRequest + JsonRpcResponse :=
  let invalid id message := inr (mkJsonRpcResponse id (Err (plain_failure (-32600)%Z message))) in
  match rpc_record request with
  | None => invalid RpcIdNull "invalid JSON-RPC request"
  | Some m =>
      let id := readId (js_prop "id" m) in
      if negb (bool_decide (js_string (js_prop "jsonrpc" m) = Some "2.0")) then invalid id "jsonrpc must be '2.0'"
      else match js_string (js_prop "method" m) with
           | Some method =>
               if str_truthy (js_trim method) then inl (mkJsonRpcRequest id method (js_prop "params" m))
               else invalid id "method is required"
           | None => invalid id "method is required"
           end
  end.

(** ** Errors *)

(** What a method throws: a [BrokerError] or a plain [Error]; or a failure it
    returns. *)
Inductive RpcError : Type :=
| ThrownBroker (e : BrokerError)
| ThrownError (message : string)
| Returned (f : RpcFailure).

(** The codes of GitHub evidence have no number: the function throws, and the
    throw leaves [executeA2AJsonRpc]. *)
Definition brokerErrorCode (code : BrokerErrorCode) : option Z :=
  match code with
  | CodeBadRequest => Some (-32602)
  | CodeUnauthorized => Some (-32001)
  | CodePolicyDenied => Some (-32003)
  | CodeNotFound => Some (-32004)
  | CodeInvalidTransition => Some (-32009)
  | CodeRateLimited => Some (-32029)
  | _ => None
  end%Z.

(** ** Messages *)

(** [parts.filter(isRecord).map(text).filter(Boolean).join("\n\n").trim()]. *)
Definition newline2 : string := String (Ascii.ascii_of_nat 10) (String (Ascii.ascii_of_nat 10) "").
Definition parts_text (parts : list JsValue) : string :=
  js_trim (String.concat newline2
    (omap (fun part => rpc_record part ≫= fun m => optionalString (js_prop "text" m)) parts)).

Definition extractMessageText (message : JsValue) : result string string :=
  match js_string message ≫= trimmed with
  | Some text => Ok text
  | None =>
      match rpc_record message with
      | None => Err "message is required"
      | Some m =>
          match optionalString (js_prop "text" m) with
          | Some text => Ok text
          | None =>
              match js_prop "parts" m with
              | JArr parts => match truthy_opt (Some (parts_text parts)) with
                              | Some text => Ok text
                              | None => Err "message text is required"
                              end
              | _ => Err "message text is required"
              end
          end
      end
  end%string.

Definition parseVia (metadata : JsRecord) : option A2AExchangeVia :=
  let transport := optionalString (js_prop "transport" metadata) in
  let channel := optionalString (js_prop "channel" metadata) in
  let nodeId := optionalString (js_prop "nodeId" metadata) in
  let sessionId := optionalString (js_prop "sessionId" metadata) in
  let traceId := optionalString (js_prop "traceId" metadata) ??o optionalString (js_prop "messageId" metadata) in
  if existsb is_some [transport; channel; nodeId; sessionId; traceId]
  then Some (mkA2AExchangeVia transport channel nodeId sessionId traceId) else None.

Definition parseListTaskFilters (params : JsValue) : result string TaskListFilters :=
  match params with
  | JUndef => Ok (mkTaskListFilters None None None None None None None None None)
  | _ =>
      match rpc_record params with
      | None => Err "params must be an object"%string
      | Some m => Ok {|
          tf_exchangeId := optionalString (js_prop "exchangeId" m) ??o optionalString (js_prop "contextId" m);
          tf_status := optionalEnum TaskStatus_text rpc_statuses (js_prop "status" m);
          tf_targetNodeId := optionalString (js_prop "targetNodeId" m);
          tf_proposalId := optionalString (js_prop "proposalId" m);
          tf_intent := optionalEnum A2AExchangeIntent_text rpc_intents (js_prop "intent" m);
          tf_claimedBy := optionalString (js_prop "claimedBy" m);
          tf_assignedWorkerId := optionalString (js_prop "assignedWorkerId" m);
          tf_taskOrigin := None;
          tf_limit := None |}
      end
  end.

(** ** The options of a request *)

Record RpcOptions : Type := mkRpcOptions {
  ro_publicBaseUrl : option string;
  ro_requesterIdentity : option RequesterIdentity;
  ro_enforceRequesterIdentity : bool;
  ro_peerStatusEnabled : bool;
}.

(** [url.endsWith("/") ? url.slice(0, -1) : url]. *)
Definition without_slash (url : string) : string :=
  match rev (chars url) with
  | c :: l => if Ascii.eqb c "/" then unchars (rev l) else url
  | [] => url
  end.

Definition buildSubscribeUrl (publicBaseUrl : option string) (taskId : string) : option string :=
  (fun url => without_slash url ++ "/a2a/tasks/" ++ encodeURIComponent taskId ++ "/events")%string
    <$> truthy_opt publicBaseUrl.

(** ** Methods *)

Section Rpc.
Context `{JsHost} `{TaskEventSink} `{BrokerConfig} `{PeerStatusOptions}.
Abbreviation RpcM := (stM PeerWorld RpcError).

Definition broker_call {A} (m : BM A) : RpcM A := fun w =>
  match m (pw_broker w) with
  | (b, Ok a) => (w <| pw_broker := b |>, Ok a)
  | (b, Err e) => (w <| pw_broker := b |>, Err (ThrownBroker e))
  end.

Definition rpc_throw {A} (message : string) : RpcM A := m_throw (ThrownError message).
Definition rpc_refuse {A} (code : BrokerErrorCode) (message : string) : RpcM A :=
  m_throw (ThrownBroker (mkBrokerError code message)).
Definition rpc_read {A} (r : result string A) : RpcM A :=
  match r with Ok a => m_ret a | Err message => rpc_throw message end.
Definition rpc_params (params : JsValue) : RpcM JsRecord :=
  match rpc_record params with Some m => m_ret m | None => rpc_throw "params must be an object" end.

Definition requireString (value : JsValue) (field : string) : RpcM string :=
  match optionalStringField value field with
  | Some s => m_ret s
  | None => rpc_throw (field ++ " is required")
  end.

(** The object of the headers also has the scopes, which no handler reads. *)
Definition identity_party (i : RequesterIdentity) : A2APartyRef := mkA2APartyRef (ri_id i) (ri_kind i) (ri_role i).

(** [requesterIdentity?.id ? requesterIdentity : ...]. *)
Definition known_requester (identity : option RequesterIdentity) : option RequesterIdentity :=
  match identity with Some i => if str_truthy (ri_id i) then Some i else None | None => None end.

Definition deriveActor (params : JsValue) (o : RpcOptions) : RpcM A2APartyRef :=
  let named := rpc_record params ≫= fun m => rpc_record (js_prop "actor" m)
               ≫= fun a => (fun id => (id, a)) <$> js_string (js_prop "id" a) in
  match named with
  | Some (id, a) =>
      let actor := mkA2APartyRef id (optionalEnum A2APartyKind_text rpc_kinds (js_prop "kind" a))
                     (optionalEnum A2APartyRole_text rpc_roles (js_prop "role" a)) in
      if ro_enforceRequesterIdentity o then
        match known_requester (ro_requesterIdentity o) with
        | None => rpc_refuse CodeUnauthorized "x-a2a-requester-id is required for CancelTask"
        | Some requester =>
            if negb (String.eqb (ri_id requester) id) then
              rpc_refuse CodeUnauthorized ("CancelTask requester id must match " ++ id)
            else match party_role actor, ri_role requester with
                 | Some role, Some requesterRole =>
                     if bool_decide (requesterRole = role) then m_ret actor
                     else rpc_refuse CodeUnauthorized
                            ("CancelTask requester role must match " ++ A2APartyRole_text role)
                 | _, _ => m_ret actor
                 end
        end
      else m_ret actor
  | None =>
      match known_requester (ro_requesterIdentity o) with
      | Some requester => m_ret (identity_party requester)
      | None => rpc_throw "actor.id is required"
      end
  end.

(** A message of an exchange that exists. *)
Definition send_to_exchange (exchangeId text : string) (actor : A2APartyRef) (metadata : JsRecord)
    : RpcM RpcResult :=
  message <-- broker_call (addExchangeMessage exchangeId {|
    mr_actor := Some actor;
    mr_message := text;
    mr_via := parseVia metadata;
    mr_decision := None;
    mr_targetNodeId := optionalString (js_prop "targetNodeId" metadata);
    mr_assignedWorkerId := optionalString (js_prop "assignedWorkerId" metadata);
    mr_parentMessageId := optionalString (js_prop "parentMessageId" metadata) |});
  exchange <-- broker_call (getExchange exchangeId);
  activeTask <-- match exchange with
    | None => m_ret None
    | Some ref => ex <-- broker_call (deref_exchange ref); broker_call (active_task ex)
    end;
  m_ret (ResultMessage exchangeId (msg_id message) (projectBrokerTask <$> activeTask)).

(** A new exchange and its task. *)
Definition open_exchange (text : string) (actor : A2APartyRef) (intent : A2AExchangeIntent) (metadata : JsRecord)
    : RpcM RpcResult :=
  match optionalString (js_prop "targetNodeId" metadata) with
  | None => rpc_throw "metadata.targetNodeId is required when starting a new context"
  | Some targetNodeId =>
      target <-- broker_call (getWorker targetNodeId);
      match target with
      | None => rpc_refuse CodeNotFound "target worker not found"
      | Some targetWorker =>
          assigned <-- broker_call (getWorker
            (optionalString (js_prop "assignedWorkerId" metadata) ?? wr_nodeId targetWorker));
          match assigned with
          | None => rpc_refuse CodeNotFound "assigned worker not found"
          | Some assignedWorker =>
              let via := parseVia metadata in
              exchange <-- broker_call (startExchange {|
                xr_requester := actor; xr_target := node_party targetWorker; xr_message := text;
                xr_maxTurns := None; xr_intent := Some intent; xr_via := via |});
              task <-- broker_call (createTask {|
                ct_id := None; ct_exchangeId := Some (ex_id exchange); ct_parentTaskId := None;
                ct_referenceTaskIds := None; ct_intent := intent; ct_requester := actor;
                ct_target := node_party targetWorker; ct_workspace := None; ct_message := Some text;
                ct_proposalId := None; ct_artifactIds := None;
                ct_assignedWorkerId := Some (wr_nodeId assignedWorker); ct_via := via;
                ct_policyContext := None; ct_createdAt := None; ct_payload := None;
                ct_taskOrigin := None; ct_brokerOfRecord := None; ct_teamId := None |});
              m_ret (ResultMessage (ex_id exchange) (ex_rootMessageId exchange) (Some (projectBrokerTask task)))
          end
      end
  end.

Definition executeSendMessage (params : JsValue) (o : RpcOptions) : RpcM RpcResult :=
  m <-- rpc_params params;
  actor <-- deriveActor params o;
  text <-- rpc_read (extractMessageText (js_prop "message" m));
  let metadata := rpc_record (js_prop "metadata" m) ?? [] in
  let intent := optionalEnum A2AExchangeIntent_text rpc_intents (js_prop "intent" metadata) ?? IntentChat in
  match optionalString (js_prop "exchangeId" metadata) ??o optionalString (js_prop "contextId" metadata) with
  | Some exchangeId => send_to_exchange exchangeId text actor metadata
  | None => open_exchange text actor intent metadata
  end.

Definition require_task (taskId : string) : RpcM TaskRecord :=
  task <-- broker_call (getTask taskId);
  match task with Some t => m_ret t | None => rpc_refuse CodeNotFound "task not found" end.

Definition executeGetTask (params : JsValue) : RpcM RpcResult :=
  taskId <-- requireString params "taskId";
  task <-- require_task taskId;
  m_ret (ResultTask (projectBrokerTask task)).

Definition executeListTasks (params : JsValue) : RpcM RpcResult :=
  filters <-- rpc_read (parseListTaskFilters params);
  w <-- m_get;
  m_ret (ResultTasks (map projectBrokerTaskForList (listTasks (Some filters) (pw_broker w)))).

Definition executeCancelTask (params : JsValue) (o : RpcOptions) : RpcM RpcResult :=
  taskId <-- requireString params "taskId";
  actor <-- deriveActor params o;
  task <-- broker_call (cancelTask taskId (Some actor) (optionalStringField params "reason"));
  m_ret (ResultTask (projectBrokerTask task)).

Definition executeSubscribeToTask (params : JsValue) (o : RpcOptions) : RpcM RpcResult :=
  taskId <-- requireString params "taskId";
  task <-- require_task taskId;
  m_ret (ResultSubscription (projectBrokerTask task) (buildSubscribeUrl (ro_publicBaseUrl o) taskId)).

Definition peer_rpc_code (errorCode : string) : Z :=
  jm_get errorCode [("rate_limited"%string, -32029); ("unauthenticated"%string, -32001);
                    ("scope_denied"%string, -32003)]%Z ?? (-32602)%Z.

(** Of the service's query: its error is a failure that is returned. *)
Definition peer_call (m : stM PeerWorld PeerStatusError PeerStatusResponse) : RpcM RpcResult := fun w =>
  match m w with
  | (w', Ok response) => (w', Ok (ResultPeerStatus response))
  | (w', Err e) =>
      (w', Err (Returned (mkRpcFailure (peer_rpc_code (pse_errorCode e)) (pse_message e)
         (Some (mkRpcErrorData (pse_errorCode e) (pse_retryAfterMs e) (pse_requiredScope e))))))
  end.

Definition rpc_return {A} (f : RpcFailure) : RpcM A := m_throw (Returned f).

Definition executePeerStatus (method : string) (params : JsValue) (o : RpcOptions) : RpcM RpcResult :=
  if negb (ro_peerStatusEnabled o) then rpc_return (plain_failure (-32601)%Z ("method not found: " ++ method))
  else match known_requester (ro_requesterIdentity o) with
  | None => rpc_return (coded_failure (-32001)%Z (method ++ " requires caller identity") "unauthenticated")
  | Some requester =>
      m <-- rpc_params params;
      let verbose := match js_prop "verbose" m with JBool b => Some b | _ => None end in
      let maxCacheAgeMs := match js_prop "maxCacheAgeMs" m with JNum n => Some n | _ => None end in
      match optionalString (js_prop "target" m) with
      | None => rpc_throw "target is required"
      | Some target =>
          if obool_true verbose && negb (hasScope (ri_scopes requester) PEER_STATUS_VERBOSE_SCOPE) then
            rpc_return (mkRpcFailure (-32003)%Z ("missing required scope: " ++ PEER_STATUS_VERBOSE_SCOPE)
              (Some (mkRpcErrorData "scope_denied" None (Some PEER_STATUS_VERBOSE_SCOPE))))
          else
            worker <-- broker_call (getWorker target);
            match worker with
            | None => rpc_return (coded_failure (-32004)%Z ("target unknown: " ++ target) "target_unknown")
            | Some _ => peer_call (query (mkPeerStatusRequest target maxCacheAgeMs verbose)
                          (Some (ri_id requester)) (ri_scopes requester))
            end
      end
  end.

Definition execute_method (method : string) (params : JsValue) (o : RpcOptions) : RpcM RpcResult :=
  (if String.eqb method "SendMessage" then executeSendMessage params o
   else if String.eqb method "GetTask" then executeGetTask params
   else if String.eqb method "ListTasks" then executeListTasks params
   else if String.eqb method "CancelTask" then executeCancelTask params o
   else if String.eqb method "SubscribeToTask" then executeSubscribeToTask params o
   else if String.eqb method "GetExtendedAgentCard" then m_ret ResultAgentCard
   else if String.eqb method "a2a.peer.status" || String.eqb method "PeerStatus"
   then executePeerStatus method params o
   else rpc_return (plain_failure (-32601)%Z ("method not found: " ++ method)))%string.

(** The [catch] clause; [None] is the throw of [brokerErrorCode]. *)
Definition rpc_failure (e : RpcError) : option RpcFailure :=
  match e with
  | ThrownBroker e =>
      (fun code => coded_failure code (be_message e) (BrokerErrorCode_text (be_code e)))
        <$> brokerErrorCode (be_code e)
  | ThrownError message => Some (plain_failure (-32602)%Z message)
  | Returned f => Some f
  end.

(** [None] when the function throws. *)
Definition executeA2AJsonRpc (request : JsValue) (o : RpcOptions) (w : PeerWorld)
    : PeerWorld * option JsonRpcResponse :=
  match parseJsonRpcRequest request with
  | inr response => (w, Some response)
  | inl r =>
      match execute_method (jr_method r) (jr_params r) o w with
      | (w', Ok a) => (w', Some (mkJsonRpcResponse (jr_id r) (Ok a)))
      | (w', Err e) => (w', (fun f => mkJsonRpcResponse (jr_id r) (Err f)) <$> rpc_failure e)
      end
  end.
End Rpc.
