(* ===== verification/RpcFacts.v ===== *)
(** * What a JSON-RPC request may do to the broker

    Every method is a sequence of at most two calls of the broker, made for the
    actor the request names or its headers identify; nothing but a message
    changes the broker and fails. *)

From Stdlib Require Import ZArith Lia String Ascii.
From stdpp Require Import base gmap strings list pretty relations.
From S2P Require Import Prelude JsRuntime Types Policy BrokerCore CoreFacts EventBuffer TaskEventStream Outbox Workers.
From S2P Require Import Proposals Github TerminalBrief Tasks TaskMachine TaskFacts Exchanges System Atomicity.
From S2P Require Import ErrorCodes RateLimiter RequestSecurity PeerStatus JsonRpc.

Section Facts.
Context `{JsHost} `{TaskEventSink} `{BrokerConfig} `{PeerStatusOptions}.

Definition calls_run (cs : list call) (b : Broker) : Broker := foldl (fun b c => (run_call c b).1) b cs.

(** ** Programs made of calls *)

(** The errors the [catch] clause maps to a failure. *)
Definition mapped (e : RpcError) : Prop := is_Some (rpc_failure e).

Lemma mapped_broker e : plain_code (be_code e) -> mapped (ThrownBroker e).
Proof.
  intros Hp. unfold mapped. simpl. destruct (be_code e); try by eexists.
  all: exfalso; apply Hp; apply (bool_decide_unpack _); reflexivity.
Qed.

(** A program that leaves the world alone and returns only values in [P]. *)
Definition rpc_reads {A} (P : A -> Prop) (m : stM PeerWorld RpcError A) : Prop := forall w,
  (m w).1 = w /\ match (m w).2 with Ok a => P a | Err e => mapped e end.

(** A program that makes at most [n] calls, all in [Q]. *)
Definition rpc_acts {A} (Q : call -> Prop) (n : nat) (m : stM PeerWorld RpcError A) : Prop := forall w,
  exists cs, length cs <= n /\ Forall Q cs /\ pw_broker (m w).1 = calls_run cs (pw_broker w)
    /\ forall e, (m w).2 = Err e -> mapped e.

Lemma reads_ret {A} (P : A -> Prop) a : P a -> rpc_reads P (m_ret a).
Proof. intros Ha w. done. Qed.
Lemma reads_throw {A} (P : A -> Prop) message : rpc_reads P (rpc_throw (A:=A) message).
Proof. intros w. split; [done|]. by eexists. Qed.
Lemma reads_return {A} (P : A -> Prop) f : rpc_reads P (rpc_return (A:=A) f).
Proof. intros w. split; [done|]. by eexists. Qed.
Lemma reads_refuse {A} (P : A -> Prop) code message :
  plain_code code -> rpc_reads P (rpc_refuse (A:=A) code message).
Proof. intros Hc w. split; [done|]. by apply mapped_broker. Qed.
Lemma reads_get : rpc_reads (fun _ => True) m_get.
Proof. intros w. done. Qed.
Lemma reads_read {A} (r : result string A) : rpc_reads (fun _ => True) (rpc_read r).
Proof. destruct r; [by apply reads_ret|apply reads_throw]. Qed.
Lemma reads_params params : rpc_reads (fun _ => True) (rpc_params params).
Proof. unfold rpc_params. destruct (rpc_record params); [by apply reads_ret|apply reads_throw]. Qed.

Lemma reads_broker {A} (m : BM A) : readonly m -> plain m -> rpc_reads (fun _ => True) (broker_call m).
Proof.
  intros Hr Hp w. unfold broker_call. specialize (Hr (pw_broker w)). specialize (Hp (pw_broker w)).
  destruct (m (pw_broker w)) as [b [a|e]]; simpl in *; subst b; (split; [by destruct w|]); [done|].
  apply mapped_broker. by apply Hp.
Qed.

Lemma acts_reads {A} Q n P (m : stM PeerWorld RpcError A) : rpc_reads P m -> rpc_acts Q n m.
Proof.
  intros Hm w. destruct (Hm w) as [Hw Hr]. exists []. rewrite Hw. split_and!; [simpl; lia|constructor|done|].
  intros e He. by rewrite He in Hr.
Qed.

Lemma acts_throw {A} Q n message : rpc_acts Q n (rpc_throw (A:=A) message).
Proof. apply (acts_reads _ _ (fun _ => True)), reads_throw. Qed.
Lemma acts_return {A} Q n f : rpc_acts Q n (rpc_return (A:=A) f).
Proof. apply (acts_reads _ _ (fun _ => True)), reads_return. Qed.
Lemma acts_refuse {A} Q n code message : plain_code code -> rpc_acts Q n (rpc_refuse (A:=A) code message).
Proof. intros Hc. by apply (acts_reads _ _ (fun _ => True)), reads_refuse. Qed.
Lemma acts_ret {A} Q n (a : A) : rpc_acts Q n (m_ret a).
Proof. by apply (acts_reads _ _ (fun _ => True)), reads_ret. Qed.

Lemma reads_bind {A B} P Q (m : stM PeerWorld RpcError A) (k : A -> stM PeerWorld RpcError B) :
  rpc_reads P m -> (forall a, P a -> rpc_reads Q (k a)) -> rpc_reads Q (m_bind m k).
Proof.
  intros Hm Hk w. unfold m_bind. destruct (Hm w) as [Hw Hr].
  destruct (m w) as [w1 [a|e]]; simpl in *; subst; [by apply Hk|done].
Qed.

Lemma acts_bind_reads {A B} Q n P (m : stM PeerWorld RpcError A) (k : A -> stM PeerWorld RpcError B) :
  rpc_reads P m -> (forall a, P a -> rpc_acts Q n (k a)) -> rpc_acts Q n (m_bind m k).
Proof.
  intros Hm Hk w. unfold m_bind. destruct (Hm w) as [Hw Hr].
  destruct (m w) as [w1 [a|e]]; simpl in *; subst; [by apply Hk|].
  exists []. split_and!; [simpl; lia|constructor|done|]. by intros e' [= <-].
Qed.

Lemma acts_bind_call {A B} (Q : call -> Prop) n c (m : BM A) (k : A -> stM PeerWorld RpcError B) :
  run_call c = ignore m -> Q c -> plain m -> (forall a, rpc_acts Q n (k a)) ->
  rpc_acts Q (S n) (m_bind (broker_call m) k).
Proof.
  intros Hc HQ Hp Hk w. specialize (Hp (pw_broker w)).
  assert (m_bind (broker_call m) k w = match m (pw_broker w) with
    | (b, Ok a) => k a (w <| pw_broker := b |>)
    | (b, Err e) => (w <| pw_broker := b |>, Err (ThrownBroker e)) end) as ->
    by (unfold m_bind, broker_call; by destruct (m (pw_broker w)) as [b [a|e]]).
  assert ((run_call c (pw_broker w)).1 = (m (pw_broker w)).1) as Hrun.
  { rewrite Hc. unfold ignore, m_bind. by destruct (m (pw_broker w)) as [b [a|e]]. }
  destruct (m (pw_broker w)) as [b [a|e]]; simpl in Hrun, Hp.
  - destruct (Hk a (w <| pw_broker := b |>)) as (cs & Hn & HQs & Hb & He). exists (c :: cs).
    split_and!; [simpl; lia|by constructor| |exact He]. rewrite Hb. simpl. by rewrite Hrun.
  - exists [c]. split_and!; [simpl; lia|by repeat constructor|simpl; by rewrite Hrun|].
    intros e' [= <-]. apply mapped_broker. by apply Hp.
Qed.

(** ** The actor of a request *)

(** Under enforcement the requester the headers name; a role the actor claims is
    the requester's if the headers give one. *)
Definition acts_for (o : RpcOptions) (actor : A2APartyRef) : Prop :=
  (exists i, ro_requesterIdentity o = Some i /\ ri_id i <> "" /\ actor = identity_party i)
  \/ (ro_enforceRequesterIdentity o = true -> exists i,
        ro_requesterIdentity o = Some i /\ ri_id i = party_id actor /\ ri_id i <> ""
        /\ forall r, party_role actor = Some r -> ri_role i = None \/ ri_role i = Some r).

Lemma known_requester_inv identity i :
  known_requester identity = Some i -> identity = Some i /\ ri_id i <> "".
Proof.
  unfold known_requester. destruct identity as [j|]; [|done]. destruct (str_truthy (ri_id j)) eqn:Ht; [|done].
  intros [= ->]. split; [done|]. by apply str_truthy_spec.
Qed.

Lemma reads_deriveActor params o : rpc_reads (acts_for o) (deriveActor params o).
Proof.
  unfold deriveActor. destruct (rpc_record params ≫= _) as [[id a]|].
  - cbv zeta. set (actor := mkA2APartyRef id _ _).
    destruct (ro_enforceRequesterIdentity o) eqn:He; [|apply reads_ret; right; congruence].
    destruct (known_requester (ro_requesterIdentity o)) as [i|] eqn:Hi;
      [|apply reads_refuse; by apply (bool_decide_unpack _)].
    apply known_requester_inv in Hi as [Hi Hne].
    destruct (String.eqb_spec (ri_id i) id) as [Hid|]; [|apply reads_refuse; by apply (bool_decide_unpack _)].
    simpl negb. cbv iota.
    assert (forall Hr : forall r, party_role actor = Some r -> ri_role i = None \/ ri_role i = Some r,
      rpc_reads (acts_for o) (m_ret actor)) as Hok.
    { intros Hr. apply reads_ret. right. intros _. exists i. split_and!; [done|by rewrite Hid|done|exact Hr]. }
    destruct (party_role actor) as [r|] eqn:Hrole; [|by apply Hok].
    destruct (ri_role i) as [r'|] eqn:Hr'; [|apply Hok; by left].
    case_bool_decide as Heq; [|apply reads_refuse; by apply (bool_decide_unpack _)].
    apply Hok. intros ? [= <-]. right. by rewrite Heq.
  - destruct (known_requester (ro_requesterIdentity o)) as [i|] eqn:Hi; [|apply reads_throw].
    apply known_requester_inv in Hi as [Hi Hne]. apply reads_ret. left. by exists i.
Qed.

(** ** The methods *)

(** The calls a request may lead to. *)
Definition rpc_call (o : RpcOptions) (c : call) : Prop :=
  match c with
  | CallAddExchangeMessage _ r => exists a, mr_actor r = Some a /\ acts_for o a
  | CallStartExchange r => acts_for o (xr_requester r)
  | CallCreateTask r => acts_for o (ct_requester r) /\ ct_id r = None
  | CallCancelTask _ (Some a) _ => acts_for o a
  | _ => False
  end.

Lemma readonly_deref ref : readonly (deref_exchange ref).
Proof. intros b. unfold deref_exchange. by destruct (_ !! ref). Qed.
Lemma readonly_active ex : readonly (active_task ex).
Proof. intros b. unfold active_task. by destruct (truthy_opt _). Qed.
Lemma plain_active ex : plain (active_task ex).
Proof. intros b e. unfold active_task. by destruct (truthy_opt _). Qed.

Lemma reads_lookup {V} (m : Broker -> jsmap V) k : rpc_reads (fun _ => True) (broker_call (gets_map m k)).
Proof. apply reads_broker; [apply readonly_gets_map|by intros b e]. Qed.
Lemma reads_deref ref : rpc_reads (fun _ => True) (broker_call (deref_exchange ref)).
Proof. apply reads_broker; [apply readonly_deref|apply plain_deref]. Qed.
Lemma reads_active ex : rpc_reads (fun _ => True) (broker_call (active_task ex)).
Proof. apply reads_broker; [apply readonly_active|apply plain_active]. Qed.
Lemma reads_requireString v f : rpc_reads (fun _ => True) (requireString v f).
Proof. unfold requireString. destruct (optionalStringField v f); [by apply reads_ret|apply reads_throw]. Qed.

Lemma reads_require_task id : rpc_reads (fun _ => True) (require_task id).
Proof.
  unfold require_task. eapply reads_bind; [apply reads_lookup|]. intros [t|] _; [by apply reads_ret|].
  apply reads_refuse. by apply (bool_decide_unpack _).
Qed.

Lemma reads_executeGetTask params : rpc_reads (fun _ => True) (executeGetTask params).
Proof.
  unfold executeGetTask. eapply reads_bind; [apply reads_requireString|]. intros id _.
  eapply reads_bind; [apply reads_require_task|]. intros t _. by apply reads_ret.
Qed.

Lemma reads_executeListTasks params : rpc_reads (fun _ => True) (executeListTasks params).
Proof.
  unfold executeListTasks. eapply reads_bind; [apply reads_read|]. intros f _.
  eapply reads_bind; [apply reads_get|]. intros w _. by apply reads_ret.
Qed.

Lemma reads_executeSubscribeToTask params o : rpc_reads (fun _ => True) (executeSubscribeToTask params o).
Proof.
  unfold executeSubscribeToTask. eapply reads_bind; [apply reads_requireString|]. intros id _.
  eapply reads_bind; [apply reads_require_task|]. intros t _. by apply reads_ret.
Qed.

(** The service never changes the broker. *)
Lemma peer_broker_bind {A B E} (m : stM PeerWorld E A) (k : A -> stM PeerWorld E B) :
  preserves (fun w w' => pw_broker w' = pw_broker w) m ->
  (forall a, preserves (fun w w' => pw_broker w' = pw_broker w) (k a)) ->
  preserves (fun w w' => pw_broker w' = pw_broker w) (m_bind m k).
Proof. apply preserves_bind. intros w1 w2 w3 H12 H23. congruence. Qed.

Lemma peer_query_broker request callerId scopes :
  preserves (fun w w' => pw_broker w' = pw_broker w) (query request callerId scopes).
Proof.
  assert (Reflexive (fun w w' : PeerWorld => pw_broker w' = pw_broker w)) as Hrefl by done.
  assert (forall E, preserves (fun w w' => pw_broker w' = pw_broker w) (peer_now (E:=E))) as Hnow by done.
  assert (forall c t, preserves (fun w w' => pw_broker w' = pw_broker w) (getRateLimitInfo c t)) as Hlimit by done.
  assert (forall r a c t, preserves (fun w w' => pw_broker w' = pw_broker w) (buildDefaultResponse r a c t))
    as Hbuild by (intros; apply peer_broker_bind; [done|intros; by apply preserves_ret]).
  assert (forall t n c, preserves (fun w w' => pw_broker w' = pw_broker w) (computed_answer t n c)) as Hcomp.
  { intros t n c. unfold computed_answer, computeStatus. repeat (apply peer_broker_bind; [|intros]); try done.
    intros w. by destruct (jm_has _ _). }
  assert (forall c t, preserves (fun w w' => pw_broker w' = pw_broker w) (checkRateLimit c t)) as Hcheck.
  { intros c t. unfold checkRateLimit. cbv zeta. repeat (apply peer_broker_bind; [|intros]); try done.
    - intros w. destruct (jm_get _ _); [|done]. by destruct (_ <=? _)%Z.
    - intros w. by destruct (_ <=? _)%Z. }
  assert (forall n, preserves (fun w w' => pw_broker w' = pw_broker w) (tryAcquireGlobalRecomputeSlot n)) as Hslot.
  { intros n. unfold tryAcquireGlobalRecomputeSlot. repeat (apply peer_broker_bind; [|intros]); try done.
    intros w. by destruct (_ <=? _)%Z. }
  unfold query. destruct (trimmed _) as [t|]; [|done]. destruct (truthy_opt callerId) as [c|]; [|done]. cbv zeta.
  apply peer_broker_bind; [by intros w; destruct (_ && _)|intros _].
  apply peer_broker_bind; [done|intros _]. apply peer_broker_bind; [done|intros w0].
  apply peer_broker_bind; [done|intros now]. destruct (jm_get t _) as [entry|].
  - destruct (within_age _ _); [done|]. apply peer_broker_bind; [done|intros []; done].
  - apply peer_broker_bind; [done|intros _; done].
Qed.

(** A program that changes no broker. *)
Definition rpc_keeps {A} (m : stM PeerWorld RpcError A) : Prop := rpc_acts (fun _ => False) 0 m.

Lemma keeps_broker {A} (m : stM PeerWorld RpcError A) w : rpc_keeps m -> pw_broker (m w).1 = pw_broker w.
Proof. intros Hm. destruct (Hm w) as (cs & Hn & _ & -> & _). by destruct cs; [|simpl in Hn; lia]. Qed.

Lemma keeps_acts {A} Q n (m : stM PeerWorld RpcError A) : rpc_keeps m -> rpc_acts Q n m.
Proof.
  intros Hm w. destruct (Hm w) as (cs & Hn & _ & Hb & He). destruct cs; [|simpl in Hn; lia].
  exists []. split_and!; [simpl; lia|constructor|done..].
Qed.

Lemma keeps_peer_call m : preserves (fun w w' => pw_broker w' = pw_broker w) m -> rpc_keeps (peer_call m).
Proof.
  intros Hm w. specialize (Hm w). unfold peer_call. destruct (m w) as [w' [r|e]]; exists [];
    (split_and!; [simpl; lia|constructor|done|]); [done|]. intros e' [= <-]. by eexists.
Qed.

Lemma keeps_executePeerStatus method params o : rpc_keeps (executePeerStatus method params o).
Proof.
  unfold executePeerStatus. destruct (ro_peerStatusEnabled o); [|by apply acts_return].
  destruct (known_requester _) as [i|]; [|by apply acts_return]. cbv beta iota delta [negb].
  eapply acts_bind_reads; [apply reads_params|]. intros m _. cbv zeta.
  destruct (optionalString _) as [target|]; [|by apply acts_throw].
  destruct (_ && _); [by apply acts_return|].
  eapply acts_bind_reads; [apply reads_lookup|]. intros [wk|] _; [|by apply acts_return].
  apply keeps_peer_call, peer_query_broker.
Qed.

Lemma acts_executeCancelTask params o : rpc_acts (rpc_call o) 1 (executeCancelTask params o).
Proof.
  unfold executeCancelTask. eapply acts_bind_reads; [apply reads_requireString|]. intros id _.
  eapply acts_bind_reads; [apply reads_deriveActor|]. intros actor Ha.
  apply (acts_bind_call _ _ (CallCancelTask id (Some actor) (optionalStringField params "reason")));
    [done|exact Ha|apply plain_cancelTask|]. intros t. by apply acts_ret.
Qed.

Lemma acts_send_to_exchange id text actor metadata o :
  acts_for o actor -> rpc_acts (rpc_call o) 1 (send_to_exchange id text actor metadata).
Proof.
  intros Ha. unfold send_to_exchange.
  match goal with |- context [addExchangeMessage id ?r] =>
    apply (acts_bind_call _ _ (CallAddExchangeMessage id r));
      [done|by exists actor|apply plain_addExchangeMessage|] end.
  intros m. eapply acts_bind_reads; [apply reads_lookup|]. intros ex _.
  apply (acts_bind_reads _ _ (fun _ => True)); [|intros t _; by apply acts_ret].
  destruct ex as [ref|]; [|by apply reads_ret].
  eapply reads_bind; [apply reads_deref|]. intros x _. apply reads_active.
Qed.

Lemma acts_open_exchange text actor intent metadata o :
  acts_for o actor -> rpc_acts (rpc_call o) 2 (open_exchange text actor intent metadata).
Proof.
  intros Ha. unfold open_exchange. destruct (optionalString _) as [target|]; [|by apply acts_throw].
  eapply acts_bind_reads; [apply reads_lookup|]. intros [tw|] _;
    [|apply acts_refuse; by apply (bool_decide_unpack _)].
  eapply acts_bind_reads; [apply reads_lookup|]. intros [aw|] _;
    [|apply acts_refuse; by apply (bool_decide_unpack _)].
  cbv zeta. match goal with |- context [startExchange ?r] =>
    apply (acts_bind_call _ _ (CallStartExchange r)); [done|exact Ha|apply plain_startExchange|] end.
  intros ex. match goal with |- context [createTask ?r] =>
    apply (acts_bind_call _ _ (CallCreateTask r)); [done|by split|apply plain_createTask|] end.
  intros t. by apply acts_ret.
Qed.

Lemma acts_executeSendMessage params o : rpc_acts (rpc_call o) 2 (executeSendMessage params o).
Proof.
  unfold executeSendMessage. eapply acts_bind_reads; [apply reads_params|]. intros m _.
  eapply acts_bind_reads; [apply reads_deriveActor|]. intros actor Ha.
  eapply acts_bind_reads; [apply reads_read|]. intros text _. cbv zeta.
  destruct (_ ??o _) as [id|]; [|by apply acts_open_exchange].
  intros w. destruct (acts_send_to_exchange id text actor (rpc_record (js_prop "metadata" m) ?? []) o Ha w)
    as (cs & Hn & Hrest). exists cs. split; [lia|exact Hrest].
Qed.

Lemma acts_execute_method method params o : rpc_acts (rpc_call o) 2 (execute_method method params o).
Proof.
  unfold execute_method.
  destruct (String.eqb method "SendMessage"); [apply acts_executeSendMessage|].
  destruct (String.eqb method "GetTask"); [eapply acts_reads, reads_executeGetTask|].
  destruct (String.eqb method "ListTasks"); [eapply acts_reads, reads_executeListTasks|].
  destruct (String.eqb method "CancelTask").
  { intros w. destruct (acts_executeCancelTask params o w) as (cs & Hn & Hrest). exists cs. split; [lia|exact Hrest]. }
  destruct (String.eqb method "SubscribeToTask"); [eapply acts_reads, reads_executeSubscribeToTask|].
  destruct (String.eqb method "GetExtendedAgentCard"); [by apply acts_ret|].
  destruct (_ || _); [apply keeps_acts, keeps_executePeerStatus|by apply acts_return].
Qed.

(** ** Failures *)

Lemma cancel_fails params o w e :
  wf_broker (pw_broker w) -> (executeCancelTask params o w).2 = Err e ->
  pw_broker (executeCancelTask params o w).1 = pw_broker w.
Proof.
  intros Hwf. unfold executeCancelTask, m_bind.
  destruct (reads_requireString params "taskId" w) as [Hw _].
  destruct (requireString params "taskId" w) as [w1 [id|]]; simpl in Hw; subst w1; [|done].
  destruct (reads_deriveActor params o w) as [Hw _].
  destruct (deriveActor params o w) as [w1 [a|]]; simpl in Hw; subst w1; [|done].
  unfold broker_call. pose proof (atomic_cancelTask id (Some a) (optionalStringField params "reason") _ Hwf) as Hat.
  destruct (cancelTask id (Some a) _ (pw_broker w)) as [b [t|err]] eqn:Hr; [done|]. simpl. intros _.
  by apply (Hat b err).
Qed.

Lemma method_fails method params o w e :
  wf_broker (pw_broker w) -> method <> "SendMessage" -> (execute_method method params o w).2 = Err e ->
  pw_broker (execute_method method params o w).1 = pw_broker w.
Proof.
  intros Hwf Hm. unfold execute_method. rewrite (proj2 (String.eqb_neq method "SendMessage") Hm).
  destruct (String.eqb method "GetTask"); [intros _; by apply keeps_broker; eapply acts_reads, reads_executeGetTask|].
  destruct (String.eqb method "ListTasks"); [intros _; by apply keeps_broker; eapply acts_reads, reads_executeListTasks|].
  destruct (String.eqb method "CancelTask"); [by apply cancel_fails|].
  destruct (String.eqb method "SubscribeToTask");
    [intros _; by apply keeps_broker; eapply acts_reads, reads_executeSubscribeToTask|].
  destruct (String.eqb method "GetExtendedAgentCard"); [done|].
  destruct (_ || _); intros _; [by apply keeps_broker, keeps_executePeerStatus|done].
Qed.

(** ** Runs of calls *)

Lemma calls_run_reachable o cs b :
  Forall (rpc_call o) cs -> reachable b -> reachable (calls_run cs b).
Proof.
  intros Hcs. revert b. induction Hcs as [|c cs Hc _ IH]; intros b Hb; [done|]. apply IH.
  destruct Hb as (sink & ms & Hb). exists sink, ms. eapply rtc_r; [exact Hb|]. exists c. split; [|done].
  destruct c; simpl in *; try done. destruct Hc as [_ Hid]. intros id. by rewrite Hid.
Qed.
End Facts.
