(* ===== verification/Lifecycle.v ===== *)
(** * Managers of life cycles

    What the managers of executions, deliveries and proposals share
    (src/core/execution-lifecycle.ts, delivery-lifecycle.ts, proposal-lifecycle.ts):
    a map of entries, a stream of events on the cursor buffer, a clock, a source of
    ids, and a guarded [transition].  The class [Lifecycle] is what a manager gives;
    [life_step] is the machine that its operations refine, and [life_ok] the
    invariant of the machine: what the stream tells about an entry is a path of the
    table of transitions that ends in the entry's status. *)

From Stdlib Require Import ZArith Lia String Ascii Sorted.
From stdpp Require Import base strings list pretty relations.
From S2P Require Import Prelude JsRuntime EventBuffer Types Policy Retention BrokerCore CoreFacts.

Inductive LifecycleErrorCode : Type := NotFound | InvalidTransition | InvalidRetry.
Record LifecycleError : Type := mkLifecycleError { le_message : string; le_code : LifecycleErrorCode }.

(** A manager's statuses, entries and events. *)
Class Lifecycle (St Entry Event : Type) : Type := {
  lc_id : Entry -> string;
  lc_status : Entry -> St;
  lc_event_id : Event -> Z;
  lc_entry : Event -> string;
  (** the status that the kind of an event stands for *)
  lc_about : Event -> St;
  lc_initial : St;
  lc_allowed : St -> list St;
  lc_text : St -> string;
  (** how the errors name an entry *)
  lc_noun : string;
  lc_title : string;
  lc_dec :: EqDecision St;
}.

(** [mg_index] is the second map that the manager of deliveries keeps. *)
Record Manager (Entry Event : Type) : Type := mkManager {
  mg_entries : jsmap Entry;
  mg_index : jsmap string;
  mg_buffer : CursorEventBuffer Event;
  mg_ticks : nat;
  mg_ids : nat;
}.
Arguments mkManager {Entry Event} _ _ _ _ _.
Arguments mg_entries {Entry Event} _.
Arguments mg_index {Entry Event} _.
Arguments mg_buffer {Entry Event} _.
Arguments mg_ticks {Entry Event} _.
Arguments mg_ids {Entry Event} _.
#[export] Instance eta_Manager {Entry Event} : Eta (Manager Entry Event) := fun r =>
  mkManager (mg_entries r) (mg_index r) (mg_buffer r) (mg_ticks r) (mg_ids r).

Abbreviation LM Entry Event := (stM (Manager Entry Event) LifecycleError).

Definition DEFAULT_LIFECYCLE_EVENTS : Z := 500.

Section Manager.
Context `{JsHost} {St Entry Event : Type} `{!Lifecycle St Entry Event}.
Implicit Types m : Manager Entry Event.

Definition empty_manager (maxEvents : option Z) : Manager Entry Event :=
  mkManager [] [] (new_buffer (match maxEvents with
    | Some n => if (0 <? n)%Z then n else DEFAULT_LIFECYCLE_EVENTS
    | None => DEFAULT_LIFECYCLE_EVENTS end)) 0 0.

(** [this.now()], [this.now().toISOString()] and [this.idFactory()]. *)
Definition life_clock : LM Entry Event Z := fun m => (m <| mg_ticks ::= S |>, Ok (host_clock (mg_ticks m))).
Definition life_now : LM Entry Event string := ms <-- life_clock; m_ret (toISOString ms).
Definition life_id : LM Entry Event string := fun m => (m <| mg_ids ::= S |>, Ok (host_uuid (mg_ids m))).

(** A change of the entry that the map holds. *)
Definition put_entry (e : Entry) : LM Entry Event unit :=
  m_modify (fun m => m <| mg_entries ::= jm_set (lc_id e) e |>).

(** [emitEvent]: an id, a time, and the event with both. *)
Definition emitEvent (event : Z -> string -> Event) : LM Entry Event unit :=
  m <-- m_get;
  let '(buffer, id) := allocateId (mg_buffer m) in
  m_modify (fun m => m <| mg_buffer := buffer |>);;;
  timestamp <-- life_now;
  m_modify (fun m => m <| mg_buffer ::= push (event id timestamp) |>).

Definition require_entry (id : string) : LM Entry Event Entry :=
  o <-- m_gets (fun m => jm_get id (mg_entries m));
  match o with
  | Some e => m_ret e
  | None => m_throw (mkLifecycleError (lc_title ++ " not found: " ++ id)%string NotFound)
  end.

(** [transition]: [update] sets the status, the time and what the caller applies;
    [event] tells of the entry so changed. *)
Definition life_transition (id : string) (target : St) (update : string -> Entry -> Entry)
    (event : string -> Entry -> Z -> string -> Event) : LM Entry Event Entry :=
  entry <-- require_entry id;
  if negb (bool_decide (target ∈ lc_allowed (lc_status entry))) then
    m_throw (mkLifecycleError ("Cannot transition " ++ lc_noun ++ " " ++ id ++ " from " ++ lc_text (lc_status entry)
      ++ " to " ++ lc_text target)%string InvalidTransition)
  else
    ts <-- life_now;
    let entry := update ts entry in
    put_entry entry;;;
    emitEvent (event ts entry);;;
    m_ret entry.

(** [new Date(a).getTime() - new Date(b).getTime()]: [None] is NaN. *)
Definition date_diff (a b : string) : option Z :=
  match date_parse a, date_parse b with Some a, Some b => Some (a - b)%Z | _, _ => None end.

(** [new Date(deadline) < this.now()]. *)
Definition is_past (deadline : string) : LM Entry Event bool :=
  now <-- life_clock;
  m_ret (match date_parse deadline with Some d => (d <? now)%Z | None => false end).

(** A filter whose predicate reads the clock. *)
Fixpoint life_filter (p : Entry -> LM Entry Event bool) (l : list Entry) : LM Entry Event (list Entry) :=
  match l with
  | [] => m_ret []
  | e :: l =>
      b <-- p e;
      rest <-- life_filter p l;
      m_ret (if b : bool then e :: rest else rest)
  end.

(** ** The machine *)

Definition get_entry m (id : string) : option Entry := jm_get id (mg_entries m).

(** An entry is saved and the event [ev] tells of it. *)
Definition told m (e : Entry) (ev : Event) : Manager Entry Event := m
  <| mg_entries ::= jm_set (lc_id e) e |>
  <| mg_buffer := push ev (allocateId (mg_buffer m)).1 |>.

Definition tells m (e : Entry) (ev : Event) : Prop :=
  lc_entry ev = lc_id e /\ lc_about ev = lc_status e /\ lc_event_id ev = (1 + cb_nextId (mg_buffer m))%Z.

(** [born] are the entries that are created, [change] what an operation may make of
    an entry: it moves along the table, with an event, or keeps its status. *)
Inductive life_step (born : Entry -> Prop) (change : Entry -> Entry -> Prop) m :
    Manager Entry Event -> Prop :=
| LifeBorn n e ev : mg_ids m = n -> lc_id e = host_uuid n -> born e -> lc_status e = lc_initial -> tells m e ev ->
    life_step born change m (told (m <| mg_ids ::= S |>) e ev)
| LifeMove e e' ev : get_entry m (lc_id e) = Some e -> lc_id e' = lc_id e ->
    lc_status e' ∈ lc_allowed (lc_status e) -> change e e' -> tells m e' ev ->
    life_step born change m (told m e' ev)
| LifeTouch e e' : get_entry m (lc_id e) = Some e -> lc_id e' = lc_id e -> lc_status e' = lc_status e ->
    change e e' -> life_step born change m (m <| mg_entries ::= jm_set (lc_id e') e' |>)
| LifeTick : life_step born change m (m <| mg_ticks ::= S |>)
| LifeIndex k v : life_step born change m (m <| mg_index ::= jm_set k v |>).

(** ** What the stream tells *)

Definition follows (l : list St) : Prop :=
  forall i a b, l !! i = Some a -> l !! S i = Some b -> b ∈ lc_allowed a.

Definition log_of (id : string) (l : list Event) : list St :=
  map lc_about (List.filter (fun ev => String.eqb (lc_entry ev) id) l).

Lemma follows_suffix l k : follows (k ++ l) -> follows l.
Proof.
  intros Hf i a b Ha Hb. apply (Hf (length k + i)).
  - by rewrite lookup_app_r, Nat.add_comm, Nat.add_sub by lia.
  - rewrite lookup_app_r by lia. by replace (S (length k + i) - length k) with (S i) by lia.
Qed.

Lemma follows_snoc l b : follows l -> (forall a, last l = Some a -> b ∈ lc_allowed a) -> follows (l ++ [b]).
Proof.
  intros Hf Hl i x y Hx Hy. destruct (decide (S i < length l)) as [Hi|Hi].
  - rewrite lookup_app_l in Hx, Hy by lia. by eapply Hf.
  - apply lookup_lt_Some in Hy as Hlt. rewrite length_app in Hlt. simpl in Hlt.
    assert (S i = length l) as He by lia.
    rewrite lookup_app_r in Hy by lia. rewrite He, Nat.sub_diag in Hy. injection Hy as <-.
    rewrite lookup_app_l in Hx by lia. apply Hl. rewrite last_lookup, <- He. done.
Qed.

Lemma log_of_app id l l' : log_of id (l ++ l') = log_of id l ++ log_of id l'.
Proof. unfold log_of. by rewrite List.filter_app, map_app. Qed.

Lemma log_of_one id ev : log_of id [ev] = if String.eqb (lc_entry ev) id then [lc_about ev] else [].
Proof. unfold log_of. simpl. by destruct (String.eqb _ _). Qed.

(** The stream after a push: what it told, the new event, less the oldest. *)
Lemma log_push id ev (b : CursorEventBuffer Event) :
  exists k, log_of id (cb_events b) ++ log_of id [ev] = k ++ log_of id (cb_events (push ev b)).
Proof.
  unfold push. simpl. destruct (trim_oldest_suffix (cb_maxEvents b) (cb_events b ++ [ev])) as [k Hk].
  exists (log_of id k). by rewrite <- !log_of_app, <- Hk.
Qed.

Definition tells_status (log : list St) (o : option Entry) : Prop :=
  match o with Some e => forall s, last log = Some s -> s = lc_status e | None => log = [] end.

Record life_ok m : Prop := {
  lk_keyed : keyed lc_id (mg_entries m);
  lk_fresh n : mg_ids m <= n -> get_entry m (host_uuid n) = None;
  lk_buffer : buffer_ok lc_event_id (mg_buffer m) /\ (0 <= cb_nextId (mg_buffer m))%Z;
  lk_follows id : follows (log_of id (cb_events (mg_buffer m)));
  lk_status id : tells_status (log_of id (cb_events (mg_buffer m))) (get_entry m id);
}.

Lemma empty_manager_ok max : life_ok (empty_manager max).
Proof. split; try done; [apply keyed_nil|split; [apply new_buffer_ok|done]]. Qed.

(** ** The invariant of the machine *)

Context (uuid_inj : forall n k, host_uuid n = host_uuid k -> n = k).

Lemma get_entry_told m e ev id :
  get_entry (told m e ev) id = if String.eqb id (lc_id e) then Some e else get_entry m id.
Proof. unfold get_entry, told. simpl. apply jm_get_set. Qed.

Lemma told_buffer m e ev :
  tells m e ev -> buffer_ok lc_event_id (mg_buffer m) /\ (0 <= cb_nextId (mg_buffer m))%Z ->
  buffer_ok lc_event_id (mg_buffer (told m e ev)) /\ (0 <= cb_nextId (mg_buffer (told m e ev)))%Z.
Proof.
  intros (_ & _ & Hid) [[Hs Hl Hb] Hn]. split; [|simpl; lia]. unfold told, push. simpl. split; simpl.
  - assert (StronglySorted (fun x y => (lc_event_id x < lc_event_id y)%Z) (cb_events (mg_buffer m) ++ [ev])) as Hs'.
    { apply StronglySorted_snoc; [done|]. intros y Hy. rewrite Hid. specialize (Hl y Hy). lia. }
    destruct (trim_oldest_suffix (cb_maxEvents (mg_buffer m)) (cb_events (mg_buffer m) ++ [ev])) as [k Hk].
    rewrite Hk in Hs'. by apply StronglySorted_app_r in Hs'.
  - intros e' He%trim_oldest_elem%elem_of_app. destruct He as [He|He%list_elem_of_singleton].
    + specialize (Hl e' He). lia.
    + subst e'. rewrite Hid. lia.
  - intros. by apply trim_oldest_length.
Qed.

(** The stream of one entry, when an event about [e] is pushed. *)
Lemma told_log m e ev id :
  tells m e ev -> (forall s, last (log_of id (cb_events (mg_buffer m))) = Some s -> lc_id e = id ->
    lc_status e ∈ lc_allowed s) ->
  follows (log_of id (cb_events (mg_buffer m))) ->
  tells_status (log_of id (cb_events (mg_buffer m))) (get_entry m id) ->
  follows (log_of id (cb_events (mg_buffer (told m e ev))))
  /\ tells_status (log_of id (cb_events (mg_buffer (told m e ev)))) (get_entry (told m e ev) id).
Proof.
  intros (He & Ha & _) Hal Hf Ht. destruct (log_push id ev (allocateId (mg_buffer m)).1) as [k Hk].
  change (mg_buffer (told m e ev)) with (push ev (allocateId (mg_buffer m)).1).
  change (cb_events (allocateId (mg_buffer m)).1) with (cb_events (mg_buffer m)) in Hk.
  set (after := log_of id (cb_events (push ev _))) in *. clearbody after. rewrite log_of_one, He, Ha in Hk. rewrite get_entry_told, (String.eqb_sym id).
  destruct (String.eqb_spec (lc_id e) id) as [Heq|Hne].
  - split.
    + eapply follows_suffix. rewrite <- Hk. apply follows_snoc; [done|]. intros a Hl. by apply Hal.
    + intros s Hs. apply (f_equal last) in Hk. rewrite last_snoc, last_app, Hs in Hk. by injection Hk.
  - rewrite app_nil_r in Hk. split; [eapply follows_suffix; by rewrite <- Hk|].
    unfold tells_status in *. destruct (get_entry m id) as [e0|].
    + intros s Hs. apply Ht. by rewrite Hk, last_app, Hs.
    + rewrite Ht in Hk. symmetry in Hk. by apply app_eq_nil in Hk as [_ Hk].
Qed.

Lemma told_ok m e ev :
  life_ok m -> tells m e ev ->
  (get_entry m (lc_id e) = None /\ mg_ids m = mg_ids (told m e ev) /\ (forall n, mg_ids m <= n -> lc_id e <> host_uuid n)
   \/ exists e0, get_entry m (lc_id e) = Some e0 /\ lc_status e ∈ lc_allowed (lc_status e0)) ->
  life_ok (told m e ev).
Proof.
  intros Hok Ht Hcase.
  assert (forall s id, last (log_of id (cb_events (mg_buffer m))) = Some s -> lc_id e = id ->
    lc_status e ∈ lc_allowed s) as Hal.
  { intros s id Hs <-. pose proof (lk_status m Hok (lc_id e)) as Hst. destruct Hcase as [(Hn & _)|(e0 & He0 & Hin)].
    - rewrite Hn in Hst. simpl in Hst. by rewrite Hst in Hs.
    - rewrite He0 in Hst. by rewrite (Hst s Hs). }
  split.
  - apply keyed_set; [done|apply Hok].
  - intros n Hn. rewrite get_entry_told. destruct (String.eqb_spec (host_uuid n) (lc_id e)) as [Heq|]; [|by apply Hok].
    exfalso. destruct Hcase as [(_ & _ & Hfresh)|(e0 & He0 & _)]; [by apply (Hfresh n Hn)|].
    rewrite <- Heq, (lk_fresh m Hok n Hn) in He0. done.
  - apply told_buffer; [done|apply Hok].
  - intros id. apply (told_log m e ev id Ht); [intros; by eapply Hal|apply Hok..].
  - intros id. apply (told_log m e ev id Ht); [intros; by eapply Hal|apply Hok..].
Qed.

Lemma life_ok_ids m : life_ok m -> life_ok (m <| mg_ids ::= S |>).
Proof. intros []. split; try done. intros n Hn. simpl in Hn. apply lk_fresh0. lia. Qed.

Lemma life_step_ok born change m m' : life_step born change m m' -> life_ok m -> life_ok m'.
Proof.
  intros Hstep Hok. destruct Hstep as [n e ev Hn Hid _ Hst Ht|e e' ev He Hid Hin _ Ht|e e' He Hid Hst _| |k v].
  - apply told_ok; [by apply life_ok_ids|done|]. left. rewrite Hid. split_and!; [apply (lk_fresh m Hok); lia|done|].
    intros k Hk Heq. apply uuid_inj in Heq as <-. simpl in Hk. lia.
  - apply told_ok; [done|done|]. right. exists e. by rewrite Hid.
  - destruct Hok as [Hk Hf Hb Hfo Hs]. split; simpl; try done.
    + by apply keyed_set.
    + intros n Hn. unfold get_entry. simpl. rewrite jm_get_set. destruct (String.eqb_spec (host_uuid n) (lc_id e')) as [Heq|];
        [|by apply Hf]. rewrite Hid in Heq. pose proof (Hf n Hn) as Hnone. congruence.
    + intros id. unfold get_entry. simpl. rewrite jm_get_set. destruct (String.eqb_spec id (lc_id e')) as [->|]; [|apply Hs].
      specialize (Hs (lc_id e)). rewrite He in Hs. rewrite Hid. simpl in *. intros s Hl. rewrite Hst. by apply Hs.
  - destruct Hok. by split.
  - destruct Hok. by split.
Qed.

Lemma life_steps_ok born change m m' : rtc (life_step born change) m m' -> life_ok m -> life_ok m'.
Proof. induction 1; eauto using life_step_ok. Qed.

(** What becomes of an entry. *)
Lemma life_step_entry born change m m' id e :
  life_ok m -> life_step born change m m' -> get_entry m id = Some e ->
  exists e', get_entry m' id = Some e' /\ rtc change e e'.
Proof.
  intros Hok Hstep He. destruct Hstep as [n e1 ev Hn Hid _ Hst Ht|e1 e' ev He1 Hid Hin Hc Ht|e1 e' He1 Hid Hst Hc| |k v];
    [..|by exists e|by exists e].
  - rewrite get_entry_told. destruct (String.eqb_spec id (lc_id e1)) as [->|]; [|by exists e].
    rewrite Hid in He. assert (get_entry m (host_uuid n) = None) as Hf by (apply Hok; lia).
    unfold get_entry in *. congruence.
  - rewrite get_entry_told. destruct (String.eqb_spec id (lc_id e')) as [->|]; [|by exists e].
    exists e'. split; [done|]. rewrite Hid, He1 in He. injection He as <-. by apply rtc_once.
  - unfold get_entry in *. simpl. rewrite jm_get_set. destruct (String.eqb_spec id (lc_id e')) as [->|]; [|by exists e].
    exists e'. split; [done|]. rewrite Hid, He1 in He. injection He as <-. by apply rtc_once.
Qed.

Lemma life_steps_entry born change m m' id e :
  life_ok m -> rtc (life_step born change) m m' -> get_entry m id = Some e ->
  exists e', get_entry m' id = Some e' /\ rtc change e e'.
Proof.
  intros Hok Hs. revert e. induction Hs as [m|m1 m2 m3 H12 _ IH]; intros e He; [by exists e|].
  destruct (life_step_entry born change m1 m2 id e Hok H12 He) as (e2 & He2 & H2').
  destruct (IH (life_step_ok _ _ _ _ H12 Hok) e2 He2) as (e3 & He3 & H3').
  exists e3. split; [done|]. by etransitivity.
Qed.

(** An entry that was not there was born. *)
Lemma life_inv born change (I : Entry -> Prop) m m' :
  (forall e, born e -> I e) -> (forall e e', change e e' -> I e -> I e') ->
  rtc (life_step born change) m m' -> (forall id e, get_entry m id = Some e -> I e) ->
  forall id e, get_entry m' id = Some e -> I e.
Proof.
  intros Hborn Hchange. induction 1 as [|m1 m2 m3 H12 _ IH]; [done|]. intros HI. apply IH. intros id e.
  destruct H12 as [n e1 ev Hn Hid Hb Hst Ht|e1 e' ev He1 Hid Hin Hc Ht|e1 e' He1 Hid Hst Hc| |k v]; [..|by apply HI|by apply HI].
  - rewrite get_entry_told. destruct (String.eqb _ _); [intros [= <-]; by apply Hborn|apply HI].
  - rewrite get_entry_told. destruct (String.eqb _ _); [intros [= <-]; eauto|apply HI].
  - unfold get_entry. simpl. rewrite jm_get_set. destruct (String.eqb _ _); [intros [= <-]; eauto|apply HI].
Qed.

(** *** What the stream tells is paid for

    Every event about an entry has a weight; [budget] is what the entry has paid,
    and no change lowers it. *)
Definition weigh (weight : St -> nat) (l : list St) : nat := foldr (fun s n => weight s + n) 0 l.

Lemma weigh_app weight l l' : weigh weight (l ++ l') = weigh weight l + weigh weight l'.
Proof. induction l as [|s l IH]; simpl; lia. Qed.

Definition within (weight : St -> nat) (budget : Entry -> nat) m : Prop :=
  forall id, weigh weight (log_of id (cb_events (mg_buffer m)))
             <= match get_entry m id with Some e => budget e | None => 0 end.

Section Budget.
Context (born : Entry -> Prop) (change : Entry -> Entry -> Prop) (weight : St -> nat) (budget : Entry -> nat).
Context (born_pays : forall e, born e -> weight lc_initial <= budget e)
  (change_keeps : forall e e', change e e' -> budget e <= budget e')
  (move_pays : forall e e', change e e' -> lc_status e' ∈ lc_allowed (lc_status e) ->
     budget e + weight (lc_status e') <= budget e').

Lemma told_weight m e ev id :
  tells m e ev ->
  weigh weight (log_of id (cb_events (mg_buffer (told m e ev))))
  <= weigh weight (log_of id (cb_events (mg_buffer m))) + if String.eqb (lc_id e) id then weight (lc_status e) else 0.
Proof.
  intros (He & Ha & _). destruct (log_push id ev (allocateId (mg_buffer m)).1) as [k Hk].
  change (mg_buffer (told m e ev)) with (push ev (allocateId (mg_buffer m)).1).
  change (cb_events (allocateId (mg_buffer m)).1) with (cb_events (mg_buffer m)) in Hk.
  set (after := log_of id (cb_events (push ev _))) in *. clearbody after.
  apply (f_equal (weigh weight)) in Hk. rewrite !weigh_app, log_of_one, He, Ha in Hk.
  destruct (String.eqb (lc_id e) id); simpl in Hk; lia.
Qed.

Lemma within_told m e ev b :
  tells m e ev -> within weight budget m -> match get_entry m (lc_id e) with Some e0 => budget e0 | None => 0 end <= b ->
  b + weight (lc_status e) <= budget e -> within weight budget (told m e ev).
Proof.
  intros Ht Hw Hb Hp id. pose proof (told_weight m e ev id Ht) as Hle. pose proof (Hw id) as Ho. rewrite get_entry_told.
  rewrite String.eqb_sym in Hle. destruct (String.eqb_spec id (lc_id e)) as [Heq|]; [|lia].
  rewrite Heq in Ho, Hle |- *. lia.
Qed.

Lemma within_step m m' : life_ok m -> life_step born change m m' -> within weight budget m -> within weight budget m'.
Proof.
  intros Hok Hstep Hw. destruct Hstep as [n e ev Hn Hid Hb Hst Ht|e e' ev He Hid Hin Hc Ht|e e' He Hid Hst Hc| |k v];
    [..|done|done].
  - apply (within_told _ e ev 0); [exact Ht|done| |rewrite Hst; by apply born_pays].
    assert (get_entry m (lc_id e) = None) as Hnone by (rewrite Hid; apply Hok; lia).
    unfold get_entry in *. simpl. by rewrite Hnone.
  - apply (within_told _ e' ev (budget e)); [exact Ht|done|by rewrite Hid, He|by apply move_pays].
  - intros id. pose proof (Hw id) as Ho. unfold get_entry in *. simpl. rewrite jm_get_set.
    destruct (String.eqb_spec id (lc_id e')) as [Heq|]; [|done]. rewrite Heq, Hid, He in Ho. rewrite Heq, Hid.
    specialize (change_keeps e e' Hc). lia.
Qed.

Lemma within_steps m m' : life_ok m -> rtc (life_step born change) m m' -> within weight budget m -> within weight budget m'.
Proof. intros Hok Hs. induction Hs; eauto using within_step, life_step_ok. Qed.
End Budget.

(** ** Runs of the operations *)

Definition ticked (n : nat) m : Manager Entry Event := m <| mg_ticks ::= Nat.add n |>.
Definition time_at (n : nat) m : string := toISOString (host_clock (n + mg_ticks m)).

Section Steps.
Context (born : Entry -> Prop) (change : Entry -> Entry -> Prop).
Abbreviation steps := (rtc (life_step born change)).

Lemma steps_ticked n m : steps m (ticked n m).
Proof.
  induction n as [|n IH]; [by destruct m|]. eapply rtc_r; [exact IH|].
  change (ticked (S n) m) with ((ticked n m) <| mg_ticks ::= S |>). apply LifeTick.
Qed.

Lemma emit_run event m :
  emitEvent event m
  = (ticked 1 m <| mg_buffer := push (event (1 + cb_nextId (mg_buffer m))%Z (time_at 0 m)) (allocateId (mg_buffer m)).1 |>, Ok tt).
Proof. by destruct m. Qed.

(** The outcome of a transition. *)
Lemma transition_cases id target update event m :
  (exists err, life_transition id target update event m = (m, Err err) /\
     (le_code err = NotFound /\ get_entry m id = None
      \/ le_code err = InvalidTransition /\ exists e, get_entry m id = Some e /\ target ∉ lc_allowed (lc_status e)))
  \/ exists e, get_entry m id = Some e /\ target ∈ lc_allowed (lc_status e)
       /\ let e' := update (time_at 0 m) e in
          life_transition id target update event m
          = (ticked 2 (told m e' (event (time_at 0 m) e' (1 + cb_nextId (mg_buffer m))%Z (time_at 1 m))), Ok e').
Proof.
  unfold life_transition, require_entry, get_entry, m_bind, m_gets.
  destruct (jm_get id (mg_entries m)) as [e|] eqn:He; simpl; [|left; eexists; split; [done|by left]].
  case_bool_decide as Hin; simpl; [|left; eexists; split; [done|right; eauto]].
  right. exists e. split; [done|]. split; [done|]. by destruct m.
Qed.

Lemma transition_steps id target update event :
  (forall ts e, lc_id (update ts e) = lc_id e /\ lc_status (update ts e) = target) ->
  (forall ts e n t, lc_entry (event ts e n t) = lc_id e /\ lc_about (event ts e n t) = target
     /\ lc_event_id (event ts e n t) = n) ->
  forall m, life_ok m ->
  (forall ts e, get_entry m id = Some e -> target ∈ lc_allowed (lc_status e) -> change e (update ts e)) ->
  steps m (life_transition id target update event m).1.
Proof.
  intros Hup Hev m Hok Hch. destruct (transition_cases id target update event m) as [(err & -> & _)|(e & He & Hin & ->)];
    [reflexivity|]. cbv zeta. simpl. transitivity (ticked 2 m); [apply steps_ticked|].
  set (ts := time_at 0 m). destruct (Hup ts e) as [Hid Hst].
  change (ticked 2 (told m (update ts e) (event ts (update ts e) (1 + cb_nextId (mg_buffer m))%Z (time_at 1 m))))
    with (told (ticked 2 m) (update ts e) (event ts (update ts e) (1 + cb_nextId (mg_buffer m))%Z (time_at 1 m))).
  assert (lc_id e = id) as Hk by by apply (lk_keyed m Hok).
  apply rtc_once, (LifeMove _ _ _ e); [unfold get_entry in *; simpl; by rewrite Hk|done|by rewrite Hst|by apply Hch|].
  destruct (Hev ts (update ts e) (1 + cb_nextId (mg_buffer m))%Z (time_at 1 m)) as (H1 & H2 & H3). split_and!; [done| |done].
  by rewrite H2, Hst.
Qed.

Lemma steps_bind {A B} (p : LM Entry Event A) (k : A -> LM Entry Event B) m :
  steps m (p m).1 -> (forall m' a, p m = (m', Ok a) -> steps m' (k a m').1) -> steps m (m_bind p k m).1.
Proof.
  intros Hp Hk. unfold m_bind. destruct (p m) as [m' [a|e]]; simpl in *; [|done]. transitivity m'; [done|by apply Hk].
Qed.

Lemma steps_clock m : steps m (life_clock m).1.
Proof. apply rtc_once, LifeTick. Qed.

Lemma steps_past deadline m : steps m (is_past deadline m).1.
Proof. apply steps_bind; [apply steps_clock|]. intros m' a _. reflexivity. Qed.

Lemma steps_filter (p : Entry -> LM Entry Event bool) l m :
  (forall e m', steps m' (p e m').1) -> steps m (life_filter p l m).1.
Proof.
  intros Hp. revert m. induction l as [|e l IH]; intros m; simpl; [reflexivity|].
  apply steps_bind; [apply Hp|]. intros m1 b _. apply steps_bind; [apply IH|]. intros m2 rest _. reflexivity.
Qed.

(** A creation: the id and the time are drawn, in either order, before. *)
Lemma create_steps e ev m n k :
  life_ok m -> lc_id e = host_uuid (mg_ids m) -> born e -> lc_status e = lc_initial -> tells m e ev ->
  n = S (mg_ids m) ->
  steps m (ticked k (told m e ev) <| mg_ids := n |>).
Proof.
  intros Hok Hid Hb Hst Ht ->. transitivity (ticked k m); [apply steps_ticked|].
  apply rtc_once. eapply (LifeBorn _ _ (ticked k m) (mg_ids m) e ev); [done|done|done|done|exact Ht].
Qed.
End Steps.

(** ** Histories of operations *)

Section Histories.
Context {Op : Type} (run : Op -> Manager Entry Event -> Manager Entry Event).

Definition op_step m m' : Prop := exists op, run op m = m'.
Definition play (ops : list Op) m : Manager Entry Event := foldl (fun m op => run op m) m ops.

Lemma play_steps ops m : rtc op_step m (play ops m).
Proof.
  revert m. induction ops as [|op ops IH]; intros m; simpl; [reflexivity|]. eapply rtc_l; [by exists op|apply IH].
Qed.

Context (born : Entry -> Prop) (change : Entry -> Entry -> Prop) (I : Manager Entry Event -> Prop).
Context (I_life : forall m, I m -> life_ok m)
  (run_steps : forall op m, I m -> rtc (life_step born change) m (run op m))
  (run_keeps : forall op m, I m -> I (run op m)).

Lemma ops_keep m m' : rtc op_step m m' -> I m -> I m'.
Proof using run_keeps. induction 1 as [|m1 m2 m3 (op & <-) _ IH]; auto. Qed.

Lemma ops_entry m m' id e :
  I m -> rtc op_step m m' -> get_entry m id = Some e -> exists e', get_entry m' id = Some e' /\ rtc change e e'.
Proof using uuid_inj born I_life run_steps run_keeps.
  intros Hok Hs. revert e Hok. induction Hs as [m|m1 m2 m3 (op & <-) _ IH]; intros e Hok He; [by exists e|].
  destruct (life_steps_entry born change m1 _ id e (I_life m1 Hok) (run_steps op m1 Hok) He) as (e2 & He2 & H12).
  destruct (IH e2 (run_keeps op m1 Hok) He2) as (e3 & He3 & H23). exists e3. split; [done|by etransitivity].
Qed.
End Histories.
End Manager.
