(* ===== verification/Execution.v ===== *)
(** * Executions (src/core/execution-lifecycle.ts, execution-lifecycle-types.ts)

    [ExecutionManager]: one run per request of an execution, from the wake of a
    session over the delivery of its payload to a result; leases, retries and the
    stream of events. *)

From Stdlib Require Import ZArith Lia String Ascii.
From stdpp Require Import base strings list pretty relations.
From S2P Require Import Prelude JsRuntime EventBuffer Types Policy Retention BrokerCore CoreFacts Lifecycle.

Inductive ExecutionStatus : Type :=
| ExWakeRequested | ExSessionReady | ExPayloadDelivered | ExRunning | ExResultReported | ExFailed | ExTimeout
| ExCancelled.
#[export] Instance ExecutionStatus_eq_dec : EqDecision ExecutionStatus.
Proof. solve_decision. Defined.
Definition ExecutionStatus_text (s : ExecutionStatus) : string :=
  match s with
  | ExWakeRequested => "wake_requested"
  | ExSessionReady => "session_ready"
  | ExPayloadDelivered => "payload_delivered"
  | ExRunning => "running"
  | ExResultReported => "result_reported"
  | ExFailed => "failed"
  | ExTimeout => "timeout"
  | ExCancelled => "cancelled"
  end.

Definition EXECUTION_TRANSITIONS (s : ExecutionStatus) : list ExecutionStatus :=
  match s with
  | ExWakeRequested => [ExSessionReady; ExFailed; ExTimeout; ExCancelled]
  | ExSessionReady => [ExPayloadDelivered; ExFailed; ExTimeout; ExCancelled]
  | ExPayloadDelivered => [ExRunning; ExFailed; ExTimeout; ExCancelled]
  | ExRunning => [ExResultReported; ExFailed; ExTimeout; ExCancelled]
  | ExResultReported => []
  | ExFailed => [ExWakeRequested; ExSessionReady]
  | ExTimeout => [ExWakeRequested; ExSessionReady; ExCancelled]
  | ExCancelled => []
  end.

Inductive ExecutionFailureCode : Type :=
| XfPeerUnreachable | XfSessionExpired | XfPayloadTooLarge | XfDeliveryFailed | XfRuntimeError | XfResultParseError
| XfAuthFailed | XfRateLimited | XfLeaseExpired | XfExecutionTimeout | XfCancelledByOperator
| XfDuplicatePayloadSuppressed | XfOther.
Definition ExecutionFailureCode_text (c : ExecutionFailureCode) : string :=
  match c with
  | XfPeerUnreachable => "peer_unreachable"
  | XfSessionExpired => "session_expired"
  | XfPayloadTooLarge => "payload_too_large"
  | XfDeliveryFailed => "delivery_failed"
  | XfRuntimeError => "runtime_error"
  | XfResultParseError => "result_parse_error"
  | XfAuthFailed => "auth_failed"
  | XfRateLimited => "rate_limited"
  | XfLeaseExpired => "lease_expired"
  | XfExecutionTimeout => "execution_timeout"
  | XfCancelledByOperator => "cancelled_by_operator"
  | XfDuplicatePayloadSuppressed => "duplicate_payload_suppressed"
  | XfOther => "other"
  end.

Definition EXECUTION_FAILURE_CODES : list ExecutionFailureCode :=
  [XfPeerUnreachable; XfSessionExpired; XfPayloadTooLarge; XfDeliveryFailed; XfRuntimeError; XfResultParseError;
   XfAuthFailed; XfRateLimited; XfLeaseExpired; XfExecutionTimeout; XfCancelledByOperator;
   XfDuplicatePayloadSuppressed; XfOther].

Definition exec_aliases : jsmap ExecutionFailureCode := [
  ("unreachable", XfPeerUnreachable); ("peer_unreachable", XfPeerUnreachable);
  ("expired", XfSessionExpired); ("session_expired", XfSessionExpired);
  ("payload_large", XfPayloadTooLarge); ("payload_too_large", XfPayloadTooLarge);
  ("delivery", XfDeliveryFailed); ("delivery_failed", XfDeliveryFailed);
  ("runtime", XfRuntimeError); ("runtime_error", XfRuntimeError);
  ("parse", XfResultParseError); ("result_parse_error", XfResultParseError);
  ("auth", XfAuthFailed); ("auth_failed", XfAuthFailed);
  ("rate_limit", XfRateLimited); ("rate_limited", XfRateLimited);
  ("lease", XfLeaseExpired); ("lease_expired", XfLeaseExpired);
  ("timeout", XfExecutionTimeout); ("execution_timeout", XfExecutionTimeout);
  ("cancelled", XfCancelledByOperator); ("cancelled_by_operator", XfCancelledByOperator);
  ("duplicate", XfDuplicatePayloadSuppressed); ("duplicate_payload_suppressed", XfDuplicatePayloadSuppressed);
  ("other", XfOther)].

(** A name that objects inherit is no alias: what the lookup returns is in no set. *)
Definition exec_failure_code (raw : string) : ExecutionFailureCode :=
  match jm_get raw exec_aliases with
  | Some c => c
  | None => List.find (fun c => String.eqb (ExecutionFailureCode_text c) raw) EXECUTION_FAILURE_CODES ?? XfOther
  end.

Inductive ResultOutcome : Type := OutcomeSuccess | OutcomePartial | OutcomeRejected.

Record ResultArtifact : Type := mkResultArtifact {
  ra_outcome : ResultOutcome;
  ra_summary : string;
  ra_artifactIds : option (list string);
  ra_errorCode : option ExecutionFailureCode;
}.

Inductive ExecutionEventKind : Type :=
| ExecWakeRequested | ExecSessionReady | ExecPayloadDelivered | ExecRunning | ExecResultReported | ExecFailed
| ExecTimeout | ExecCancelled.

Definition exec_kind (s : ExecutionStatus) : ExecutionEventKind :=
  match s with
  | ExWakeRequested => ExecWakeRequested
  | ExSessionReady => ExecSessionReady
  | ExPayloadDelivered => ExecPayloadDelivered
  | ExRunning => ExecRunning
  | ExResultReported => ExecResultReported
  | ExFailed => ExecFailed
  | ExTimeout => ExecTimeout
  | ExCancelled => ExecCancelled
  end.
Definition status_of_exec_kind (k : ExecutionEventKind) : ExecutionStatus :=
  match k with
  | ExecWakeRequested => ExWakeRequested
  | ExecSessionReady => ExSessionReady
  | ExecPayloadDelivered => ExPayloadDelivered
  | ExecRunning => ExRunning
  | ExecResultReported => ExResultReported
  | ExecFailed => ExFailed
  | ExecTimeout => ExTimeout
  | ExecCancelled => ExCancelled
  end.

(** The duration, when there is one, is [None] for NaN. *)
Record ExecutionMetadata : Type := mkExecutionMetadata {
  xm_failureCode : option ExecutionFailureCode;
  xm_leaseDeadline : option string;
  xm_outcome : option ResultOutcome;
  xm_executionDurationMs : option (option Z);
  xm_wakeEventId : option Z;
}.

Record ExecutionEvent : Type := mkExecutionEvent {
  xv_id : Z;
  xv_timestamp : string;
  xv_runId : string;
  xv_sessionKey : string;
  xv_peerNodeId : string;
  xv_parentTaskId : option string;
  xv_kind : ExecutionEventKind;
  xv_metadata : ExecutionMetadata;
}.

Record ExecutionRunState : Type := mkExecutionRunState {
  xr_runId : string;
  xr_sessionKey : string;
  xr_peerNodeId : string;
  xr_parentTaskId : option string;
  xr_status : ExecutionStatus;
  xr_failureCode : option ExecutionFailureCode;
  xr_result : option ResultArtifact;
  xr_leaseDeadline : option string;
  xr_wakeEventId : option Z;
  xr_createdAt : string;
  xr_updatedAt : string;
  xr_payloadDeliveredAt : option string;
  xr_startedAt : option string;
  xr_completedAt : option string;
  xr_attempts : Z;
  xr_payloadDelivered : bool;
}.
#[export] Instance eta_ExecutionRunState : Eta ExecutionRunState := fun r =>
  mkExecutionRunState (xr_runId r) (xr_sessionKey r) (xr_peerNodeId r) (xr_parentTaskId r) (xr_status r)
    (xr_failureCode r) (xr_result r) (xr_leaseDeadline r) (xr_wakeEventId r) (xr_createdAt r) (xr_updatedAt r)
    (xr_payloadDeliveredAt r) (xr_startedAt r) (xr_completedAt r) (xr_attempts r) (xr_payloadDelivered r).

#[export] Instance execution_lifecycle : Lifecycle ExecutionStatus ExecutionRunState ExecutionEvent := {|
  lc_id := xr_runId;
  lc_status := xr_status;
  lc_event_id := xv_id;
  lc_entry := xv_runId;
  lc_about := fun ev => status_of_exec_kind (xv_kind ev);
  lc_initial := ExWakeRequested;
  lc_allowed := EXECUTION_TRANSITIONS;
  lc_text := ExecutionStatus_text;
  lc_noun := "run";
  lc_title := "Execution run" |}.

Abbreviation ExecutionManager := (Manager ExecutionRunState ExecutionEvent).
Abbreviation XM := (stM ExecutionManager LifecycleError).

Record ExecutionRequestInput : Type := mkExecutionRequestInput {
  xi_sessionKey : string;
  xi_peerNodeId : string;
  xi_parentTaskId : option string;
  xi_wakeEventId : option Z;
}.

Section Executions.
Context `{JsHost}.

Definition getRunsForSession (sessionKey : string) (m : ExecutionManager) : list ExecutionRunState :=
  List.filter (fun r => String.eqb (xr_sessionKey r) sessionKey) (jm_values (mg_entries m)).
Definition getRunsForTask (parentTaskId : string) (m : ExecutionManager) : list ExecutionRunState :=
  List.filter (fun r => bool_decide (xr_parentTaskId r = Some parentTaskId)) (jm_values (mg_entries m)).

Definition exec_event (r : ExecutionRunState) (kind : ExecutionEventKind) (metadata : ExecutionMetadata)
    (id : Z) (timestamp : string) : ExecutionEvent :=
  mkExecutionEvent id timestamp (xr_runId r) (xr_sessionKey r) (xr_peerNodeId r) (xr_parentTaskId r) kind metadata.

(** A run as requestExecution and retryExecution make it. *)
Definition new_run (runId sessionKey peerNodeId : string) (parentTaskId : option string) (wakeEventId : option Z)
    (ts : string) (attempts : Z) : ExecutionRunState :=
  mkExecutionRunState runId sessionKey peerNodeId parentTaskId ExWakeRequested None None None wakeEventId ts ts
    None None None attempts false.

Definition start_run (r : ExecutionRunState) : XM ExecutionRunState :=
  put_entry r;;;
  emitEvent (exec_event r ExecWakeRequested (mkExecutionMetadata None None None None (xr_wakeEventId r)));;;
  m_ret r.

Definition requestExecution (input : ExecutionRequestInput) : XM ExecutionRunState :=
  runId <-- life_id;
  ts <-- life_now;
  start_run (new_run runId (xi_sessionKey input) (xi_peerNodeId input) (xi_parentTaskId input) (xi_wakeEventId input) ts 1).

(** [transition]: [apply] runs on the run with its new status and time. *)
Definition exec_transition (runId : string) (target : ExecutionStatus) (apply : ExecutionRunState -> ExecutionRunState)
    (leaseDeadline : option string) (outcome : option ResultOutcome) (failureCode : option ExecutionFailureCode)
    : XM ExecutionRunState :=
  life_transition runId target
    (fun ts run => apply (run <| xr_status := target |> <| xr_updatedAt := ts |>))
    (fun ts run => exec_event run (exec_kind target) (mkExecutionMetadata failureCode (truthy_opt leaseDeadline) outcome
       (match truthy_opt (xr_payloadDeliveredAt run), truthy_opt (xr_completedAt run) with
        | Some delivered, Some completed => Some (date_diff completed delivered) | _, _ => None end) None)).

Definition completed (r : ExecutionRunState) : ExecutionRunState := r <| xr_completedAt := Some (xr_updatedAt r) |>.
Definition ended_with (c : ExecutionFailureCode) (r : ExecutionRunState) : ExecutionRunState :=
  completed (r <| xr_failureCode := Some c |>).

Definition sessionReady (runId : string) (leaseDeadline : option string) : XM ExecutionRunState :=
  exec_transition runId ExSessionReady (fun s => s <| xr_leaseDeadline := leaseDeadline |>) leaseDeadline None None.

Definition deliverPayload (runId : string) (leaseDeadline : option string) : XM ExecutionRunState :=
  run <-- require_entry runId;
  if xr_payloadDelivered run then m_ret run
  else exec_transition runId ExPayloadDelivered (fun s =>
    let s := s <| xr_payloadDelivered := true |> <| xr_payloadDeliveredAt := Some (xr_updatedAt s) |> in
    if ostr_truthy leaseDeadline then s <| xr_leaseDeadline := leaseDeadline |> else s) None None None.

Definition startRunning (runId : string) : XM ExecutionRunState :=
  exec_transition runId ExRunning (fun s => s <| xr_startedAt := Some (xr_updatedAt s) |>) None None None.

Definition reportResult (runId : string) (result : ResultArtifact) : XM ExecutionRunState :=
  exec_transition runId ExResultReported (fun s => completed (s <| xr_result := Some result |>))
    None (Some (ra_outcome result)) None.

Definition failExecution (runId reason : string) : XM ExecutionRunState :=
  exec_transition runId ExFailed (ended_with (exec_failure_code reason)) None None (Some (exec_failure_code reason)).
Definition timeoutExecution (runId : string) : XM ExecutionRunState :=
  exec_transition runId ExTimeout (ended_with XfExecutionTimeout) None None (Some XfExecutionTimeout).
Definition cancelExecution (runId : string) : XM ExecutionRunState :=
  exec_transition runId ExCancelled (ended_with XfCancelledByOperator) None None (Some XfCancelledByOperator).

Definition retryExecution (runId : string) : XM ExecutionRunState :=
  existing <-- require_entry runId;
  if negb (bool_decide (xr_status existing ∈ [ExFailed; ExTimeout])) then
    m_throw (mkLifecycleError ("Cannot retry run " ++ runId ++ " in status " ++ ExecutionStatus_text (xr_status existing))%string
      InvalidRetry)
  else
    ts <-- life_now;
    newRunId <-- life_id;
    start_run (new_run newRunId (xr_sessionKey existing) (xr_peerNodeId existing) (xr_parentTaskId existing)
      (xr_wakeEventId existing) ts (xr_attempts existing + 1)).

(** ** Leases *)

Definition lease_active (s : ExecutionStatus) : bool :=
  bool_decide (s ∈ [ExSessionReady; ExPayloadDelivered; ExRunning]).

Definition isLeaseExpired (runId : string) : XM bool :=
  o <-- m_gets (fun m => jm_get runId (mg_entries m));
  match o with
  | None => m_ret false
  | Some run =>
      match truthy_opt (xr_leaseDeadline run) with
      | None => m_ret false
      | Some deadline => if negb (lease_active (xr_status run)) then m_ret false else is_past deadline
      end
  end.

Definition findExpiredLeases : XM (list string) :=
  runs <-- m_gets (fun m => jm_values (mg_entries m));
  expired <-- life_filter (fun r => isLeaseExpired (xr_runId r)) runs;
  m_ret (map xr_runId expired).

(** ** Closeout and replay *)

Inductive ExecutionCloseoutKind : Type :=
| CloseoutCompleted | CloseoutFailed | CloseoutTimedOut | CloseoutWaiting | CloseoutCancelled.

Record ExecutionCloseoutSummary : Type := mkExecutionCloseoutSummary {
  xc_runId : string;
  xc_sessionKey : string;
  xc_peerNodeId : string;
  xc_kind : ExecutionCloseoutKind;
  xc_attempts : Z;
  xc_result : option ResultArtifact;
  xc_failureCode : option ExecutionFailureCode;
  xc_updatedAt : string;
}.

Definition execution_summary (run : ExecutionRunState) : ExecutionCloseoutSummary :=
  mkExecutionCloseoutSummary (xr_runId run) (xr_sessionKey run) (xr_peerNodeId run)
    (match xr_status run with
     | ExResultReported => CloseoutCompleted
     | ExFailed => CloseoutFailed
     | ExTimeout => CloseoutTimedOut
     | ExCancelled => CloseoutCancelled
     | _ => CloseoutWaiting
     end)
    (xr_attempts run) (xr_result run) (xr_failureCode run) (xr_updatedAt run).

Definition closeoutRun (runId : string) (m : ExecutionManager) : option ExecutionCloseoutSummary :=
  execution_summary <$> jm_get runId (mg_entries m).
Definition closeoutRunsOfTask (parentTaskId : string) (m : ExecutionManager) : list ExecutionCloseoutSummary :=
  map execution_summary (getRunsForTask parentTaskId m).
Definition closeoutRunsOfSession (sessionKey : string) (m : ExecutionManager) : list ExecutionCloseoutSummary :=
  map execution_summary (getRunsForSession sessionKey m).

Record ExecutionSubscribeOptions : Type := mkExecutionSubscribeOptions {
  xs_afterId : option Z;
  xs_runId : option string;
  xs_sessionKey : option string;
  xs_peerNodeId : option string;
  xs_parentTaskId : option string;
  xs_limit : option Z;
}.

(** [options.x && e.x !== options.x]: an absent or empty option does not filter. *)
Definition option_admits (wanted value : option string) : bool :=
  match truthy_opt wanted with Some w => bool_decide (value = Some w) | None => true end.

Definition exec_subscribe (o : ExecutionSubscribeOptions) (m : ExecutionManager) : list ExecutionEvent :=
  subscribe xv_id (xs_afterId o) (xs_limit o) (fun e =>
    option_admits (xs_runId o) (Some (xv_runId e)) && option_admits (xs_sessionKey o) (Some (xv_sessionKey e))
    && option_admits (xs_peerNodeId o) (Some (xv_peerNodeId e)) && option_admits (xs_parentTaskId o) (xv_parentTaskId e))
    (mg_buffer m).
End Executions.

(** ** The life of an execution

    The invariant of a run, what an operation may make of one, and the proof that
    the operations of [ExecutionManager] are steps of the machine of [Lifecycle]. *)

(** A closed list has an element or has not. *)
Ltac closed_elem :=
  match goal with
  | |- ?x ∈ ?l => apply (bool_decide_unpack (x ∈ l)); exact I
  | Hin : ?x ∈ ?l |- _ => exfalso; revert Hin; apply (bool_decide_unpack (~ x ∈ l)); exact I
  end.

Section Executions.
Context `{JsHost}.

Record run_ok (r : ExecutionRunState) : Prop := {
  ro_delivered : xr_status r ∈ [ExPayloadDelivered; ExRunning; ExResultReported] -> xr_payloadDelivered r = true;
  ro_delivered_at : is_some (xr_payloadDeliveredAt r) = xr_payloadDelivered r;
  ro_result : is_some (xr_result r) = bool_decide (xr_status r = ExResultReported);
  ro_failure : xr_status r ∈ [ExFailed; ExTimeout; ExCancelled] -> is_some (xr_failureCode r) = true;
  ro_completed : xr_status r ∈ [ExResultReported; ExFailed; ExTimeout; ExCancelled] -> is_some (xr_completedAt r) = true;
  ro_attempts : (1 <= xr_attempts r)%Z;
}.

(** Delivered once and not running: such a run is never run again. *)
Definition run_stopped (r : ExecutionRunState) : Prop :=
  xr_payloadDelivered r = true /\ xr_status r ∈ [ExWakeRequested; ExSessionReady; ExFailed; ExTimeout; ExCancelled].

Record run_change (r r' : ExecutionRunState) : Prop := {
  rc_identity : (xr_runId r', xr_sessionKey r', xr_peerNodeId r', xr_parentTaskId r', xr_wakeEventId r', xr_createdAt r',
      xr_attempts r')
    = (xr_runId r, xr_sessionKey r, xr_peerNodeId r, xr_parentTaskId r, xr_wakeEventId r, xr_createdAt r, xr_attempts r);
  rc_table : xr_status r' ∈ EXECUTION_TRANSITIONS (xr_status r);
  rc_delivered : xr_payloadDelivered r = true -> xr_payloadDelivered r' = true;
  rc_delivery : xr_status r' = ExPayloadDelivered -> xr_payloadDelivered r = false /\ xr_payloadDelivered r' = true;
  rc_ok : run_ok r -> run_ok r';
}.

Definition run_born (r : ExecutionRunState) : Prop :=
  run_ok r /\ xr_payloadDelivered r = false.

Abbreviation exec_steps := (rtc (life_step run_born run_change)).

Lemma stopped_change r r' : run_change r r' -> run_stopped r -> run_stopped r'.
Proof.
  intros Hc [Hd Hs]. pose proof (rc_table r r' Hc) as Ht. split; [by apply (rc_delivered r r' Hc)|].
  assert (xr_status r' <> ExPayloadDelivered) as Hn.
  { intros Hp. destruct (rc_delivery r r' Hc Hp). congruence. }
  destruct (xr_status r), (xr_status r'); cbn in *; first [done|closed_elem].
Qed.

(** By the status the run had: the impossible ones are discarded. *)
Ltac run_change_at st Hin :=
  let O1 := fresh "O" in let O2 := fresh "O" in let O3 := fresh "O" in
  let O4 := fresh "O" in let O5 := fresh "O" in let O6 := fresh "O" in
  cbn in Hin |- *; destruct st; cbn in Hin; try (exfalso; clear -Hin; closed_elem; fail);
  (split; cbn; [done|first [done|closed_elem]|done|done|]);
  intros [O1 O2 O3 O4 O5 O6]; cbn in O1, O2, O3, O4, O5, O6;
  (split; cbn; intros; first [done|closed_elem|apply O1; closed_elem|apply O4; closed_elem|apply O5; closed_elem]).
Ltac run_change_auto Hin :=
  let st := fresh "st" in
  match goal with |- run_change ?r _ => destruct r as [? ? ? ? st ? ? ? ? ? ? ? ? ? ? ?] end; run_change_at st Hin.

(** ** Operations are steps *)

Lemma status_kind_exec s : status_of_exec_kind (exec_kind s) = s.
Proof. by destruct s. Qed.

Definition marked (target : ExecutionStatus) (ts : string) (r : ExecutionRunState) : ExecutionRunState :=
  r <| xr_status := target |> <| xr_updatedAt := ts |>.

Lemma exec_transition_steps runId target apply lease outcome code m :
  (forall x, xr_runId (apply x) = xr_runId x /\ xr_status (apply x) = xr_status x) -> life_ok m ->
  (forall ts r, get_entry m runId = Some r -> target ∈ EXECUTION_TRANSITIONS (xr_status r) ->
     run_change r (apply (marked target ts r))) ->
  exec_steps m (exec_transition runId target apply lease outcome code m).1.
Proof.
  intros Happly Hok Hch. apply transition_steps; [| |done|].
  - intros ts r. exact (Happly (marked target ts r)).
  - intros ts r n t. simpl. by rewrite status_kind_exec.
  - exact Hch.
Qed.

Ltac exec_change :=
  intros ts r Hget Hin; unfold marked, completed, ended_with; run_change_auto Hin.

Lemma sessionReady_steps runId lease m : life_ok m -> exec_steps m (sessionReady runId lease m).1.
Proof. intros Hok. apply exec_transition_steps; [done|done|]. exec_change. Qed.
Lemma startRunning_steps runId m : life_ok m -> exec_steps m (startRunning runId m).1.
Proof. intros Hok. apply exec_transition_steps; [done|done|]. exec_change. Qed.
Lemma reportResult_steps runId result m : life_ok m -> exec_steps m (reportResult runId result m).1.
Proof. intros Hok. apply exec_transition_steps; [done|done|]. exec_change. Qed.
Lemma failExecution_steps runId reason m : life_ok m -> exec_steps m (failExecution runId reason m).1.
Proof.
  intros Hok. unfold failExecution. generalize (exec_failure_code reason). intros c.
  apply exec_transition_steps; [done|done|]. exec_change.
Qed.
Lemma timeoutExecution_steps runId m : life_ok m -> exec_steps m (timeoutExecution runId m).1.
Proof. intros Hok. apply exec_transition_steps; [done|done|]. exec_change. Qed.
Lemma cancelExecution_steps runId m : life_ok m -> exec_steps m (cancelExecution runId m).1.
Proof. intros Hok. apply exec_transition_steps; [done|done|]. exec_change. Qed.

Lemma require_cases `{!Lifecycle St Entry Event} id (m : Manager Entry Event) :
  (exists err, require_entry id m = (m, Err err) /\ get_entry m id = None)
  \/ exists e, get_entry m id = Some e /\ require_entry id m = (m, Ok e).
Proof.
  unfold require_entry, get_entry, m_bind, m_gets. destruct (jm_get id (mg_entries m)) as [e|]; [right; by exists e|].
  left. eexists. split; reflexivity.
Qed.

Lemma deliverPayload_steps runId lease m : life_ok m -> exec_steps m (deliverPayload runId lease m).1.
Proof.
  intros Hok. unfold deliverPayload.
  destruct (require_cases runId m) as [(err & Hr & _)|(r0 & Hr0 & Hr)]; [by rewrite (bind_err _ _ _ _ _ Hr)|].
  rewrite (bind_ok _ _ _ _ _ Hr). destruct (xr_payloadDelivered r0) eqn:Hd; [reflexivity|].
  apply exec_transition_steps; [intros x; by destruct (ostr_truthy lease)|done|].
  intros ts r Hget Hin. rewrite Hr0 in Hget. injection Hget as <-.
  destruct r0 as [? ? ? ? st ? ? ? ? ? ? ? ? ? ? delivered]. simpl in Hd. subst delivered.
  unfold marked. destruct (ostr_truthy lease); run_change_at st Hin.
Qed.

Lemma start_run_run r m :
  start_run r m = (ticked 1 (told m r (exec_event r ExecWakeRequested
    (mkExecutionMetadata None None None None (xr_wakeEventId r)) (1 + cb_nextId (mg_buffer m))%Z (time_at 0 m))), Ok r).
Proof. by destruct m. Qed.

Lemma new_run_born runId s p t w ts attempts : (1 <= attempts)%Z -> run_born (new_run runId s p t w ts attempts).
Proof. intros Ha. split; [|done]. split; cbn; intros; first [done|closed_elem]. Qed.

(** Both creations draw an id and a time; a creation that finds the manager with
    [k] more readings of the clock and the id drawn. *)
Lemma start_run_steps m m1 r k :
  life_ok m -> m1 = ticked k m <| mg_ids := S (mg_ids m) |> -> run_born r -> xr_runId r = host_uuid (mg_ids m) ->
  xr_status r = ExWakeRequested -> exec_steps m (start_run r m1).1.
Proof.
  intros Hok -> Hb Hid Hst. rewrite start_run_run. simpl.
  match goal with |- exec_steps _ (ticked 1 (told _ r ?ev)) =>
    change (exec_steps m (ticked (1 + k) (told m r ev) <| mg_ids := S (mg_ids m) |>)); set (event := ev) end.
  apply create_steps; [done|done|done|done| |done]. by split_and!; rewrite ?Hst.
Qed.

Lemma requestExecution_steps input m : life_ok m -> exec_steps m (requestExecution input m).1.
Proof.
  intros Hok. eapply (start_run_steps m _ (new_run (host_uuid (mg_ids m)) _ _ _ _ _ 1) 1); [done| |by apply new_run_born|done|done].
  by destruct m.
Qed.

Lemma retryExecution_steps runId m :
  life_ok m -> (forall r, get_entry m runId = Some r -> run_ok r) -> exec_steps m (retryExecution runId m).1.
Proof.
  intros Hok HI. unfold retryExecution.
  destruct (require_cases runId m) as [(err & Hr & _)|(r & Hget & Hr)]; [by rewrite (bind_err _ _ _ _ _ Hr)|].
  rewrite (bind_ok _ _ _ _ _ Hr). destruct (negb _); [reflexivity|].
  eapply (start_run_steps m _ (new_run (host_uuid (mg_ids m)) _ _ _ _ _ _) 1); [done| |apply new_run_born|done|done].
  - by destruct m.
  - destruct (HI r Hget). lia.
Qed.

Lemma isLeaseExpired_steps runId m : exec_steps m (isLeaseExpired runId m).1.
Proof.
  unfold isLeaseExpired. apply steps_bind; [reflexivity|]. intros m' [run|] _; [|reflexivity].
  destruct (truthy_opt _); [|reflexivity]. destruct (negb _); [reflexivity|apply steps_past].
Qed.

Lemma findExpiredLeases_steps m : exec_steps m (findExpiredLeases m).1.
Proof.
  unfold findExpiredLeases. apply steps_bind; [reflexivity|]. intros m' runs _.
  apply steps_bind; [apply steps_filter; intros; apply isLeaseExpired_steps|]. intros m2 l _. reflexivity.
Qed.

(** ** Leases *)

(** The runs whose lease is found expired are active, and stay so meanwhile. *)
Lemma filter_expired runs m m' l :
  life_filter (fun r => isLeaseExpired (xr_runId r)) runs m = (m', Ok l) ->
  mg_entries m' = mg_entries m /\ forall r, r ∈ l -> exists r', get_entry m (xr_runId r) = Some r' /\ lease_active (xr_status r') = true.
Proof.
  revert m m' l. induction runs as [|r runs IH]; intros m m' l; simpl; [by intros [= <- <-]; set_solver|].
  intros Hrun. run_inv Hrun. rename s into m1, a into b, s0 into m2, a0 into rest.
  injection Hrun as <- <-. destruct (IH _ _ _ Hm0) as [He Hl].
  assert (mg_entries m1 = mg_entries m /\ (b = true -> exists r', get_entry m (xr_runId r) = Some r' /\ lease_active (xr_status r') = true))
    as [He1 Hb].
  { unfold isLeaseExpired in Hm. rewrite (bind_ok _ _ m m (get_entry m (xr_runId r))) in Hm by done.
    destruct (get_entry m (xr_runId r)) as [r'|] eqn:Hget; [|by injection Hm as <- <-].
    destruct (truthy_opt _) as [d|]; [|by injection Hm as <- <-].
    destruct (lease_active (xr_status r')) eqn:Ha; simpl in Hm; [|by injection Hm as <- <-].
    unfold is_past, life_clock, m_bind in Hm. simpl in Hm. injection Hm as <- _. split; [done|]. intros _. by exists r'. }
  split; [congruence|]. intros r0 Hr0.
  assert (get_entry m1 (xr_runId r0) = get_entry m (xr_runId r0)) as Heq by (unfold get_entry; by rewrite He1).
  destruct b; [|rewrite <- Heq; by apply Hl]. apply elem_of_cons in Hr0 as [->|Hr0]; [by apply Hb|].
  rewrite <- Heq. by apply Hl.
Qed.

Lemma timeout_active id m r :
  get_entry m id = Some r -> lease_active (xr_status r) = true ->
  exists m' r', timeoutExecution id m = (m', Ok r') /\ xr_status r' = ExTimeout.
Proof.
  intros Hget Ha. assert (ExTimeout ∈ EXECUTION_TRANSITIONS (xr_status r)) as Hin.
  { unfold lease_active in Ha. apply bool_decide_eq_true in Ha. destruct (xr_status r); first [closed_elem|done]. }
  unfold timeoutExecution, exec_transition.
  match goal with |- context [life_transition id ?t ?u ?e m] => destruct (transition_cases id t u e m) as [(err & _ & [[_ Hn]|(_ & r0 & Hr0 & Hnot)])|(r0 & Hr0 & _ & Hrun)] end.
  - congruence.
  - rewrite Hget in Hr0. injection Hr0 as <-. done.
  - do 2 eexists. split; [exact Hrun|done].
Qed.
(** ** Histories *)

Inductive exec_op : Type :=
| XRequest (input : ExecutionRequestInput)
| XReady (runId : string) (leaseDeadline : option string)
| XDeliver (runId : string) (leaseDeadline : option string)
| XStart (runId : string)
| XReport (runId : string) (result : ResultArtifact)
| XFail (runId reason : string)
| XTimeout (runId : string)
| XCancel (runId : string)
| XRetry (runId : string)
| XLease (runId : string)
| XLeases.

Definition run_exec (op : exec_op) (m : ExecutionManager) : ExecutionManager :=
  match op with
  | XRequest input => (requestExecution input m).1
  | XReady id lease => (sessionReady id lease m).1
  | XDeliver id lease => (deliverPayload id lease m).1
  | XStart id => (startRunning id m).1
  | XReport id result => (reportResult id result m).1
  | XFail id reason => (failExecution id reason m).1
  | XTimeout id => (timeoutExecution id m).1
  | XCancel id => (cancelExecution id m).1
  | XRetry id => (retryExecution id m).1
  | XLease id => (isLeaseExpired id m).1
  | XLeases => (findExpiredLeases m).1
  end.

(** The events about a run that tell a delivery of its payload: at most one. *)
Definition deliveries_told (s : ExecutionStatus) : nat := if bool_decide (s = ExPayloadDelivered) then 1 else 0.
Definition deliveries_made (r : ExecutionRunState) : nat := if xr_payloadDelivered r then 1 else 0.

Definition exec_ok (m : ExecutionManager) : Prop :=
  life_ok m /\ within deliveries_told deliveries_made m
  /\ forall id r, get_entry m id = Some r -> run_ok r.

Lemma run_exec_steps op m : exec_ok m -> exec_steps m (run_exec op m).
Proof.
  intros (Hok & _ & HI). destruct op; simpl.
  - by apply requestExecution_steps.
  - by apply sessionReady_steps.
  - by apply deliverPayload_steps.
  - by apply startRunning_steps.
  - by apply reportResult_steps.
  - by apply failExecution_steps.
  - by apply timeoutExecution_steps.
  - by apply cancelExecution_steps.
  - by apply retryExecution_steps; [|apply HI].
  - by apply isLeaseExpired_steps.
  - by apply findExpiredLeases_steps.
Qed.

Context (uuid_inj : forall n k, host_uuid n = host_uuid k -> n = k).

Lemma exec_ok_steps m m' : exec_steps m m' -> exec_ok m -> exec_ok m'.
Proof.
  intros Hs (Hok & Honce & HI). split_and!.
  - by eapply life_steps_ok.
  - eapply (within_steps uuid_inj run_born run_change); [| | |exact Hok|exact Hs|exact Honce].
    + intros r _. apply Nat.le_0_l.
    + intros r r' Hc. unfold deliveries_made. destruct (xr_payloadDelivered r) eqn:Hd; [|lia].
      by rewrite (rc_delivered r r' Hc Hd).
    + intros r r' Hc _. unfold deliveries_made, deliveries_told. simpl. case_bool_decide as Hst.
      * destruct (rc_delivery r r' Hc Hst) as [-> ->]. done.
      * destruct (xr_payloadDelivered r) eqn:Hd; [by rewrite (rc_delivered r r' Hc Hd)|lia].
  - eapply (life_inv run_born run_change run_ok); [|by intros e e' [_ _ _ _ ?]|exact Hs|exact HI]. by intros e [He _].
Qed.

Lemma exec_ok_empty max : exec_ok (empty_manager max).
Proof. split_and!; [apply empty_manager_ok|by intros id|done]. Qed.

Definition exec_step : ExecutionManager -> ExecutionManager -> Prop := op_step run_exec.

Lemma run_exec_ok op m : exec_ok m -> exec_ok (run_exec op m).
Proof. intros Hok. by eapply exec_ok_steps; [apply run_exec_steps|]. Qed.

Lemma exec_steps_ok m m' : rtc exec_step m m' -> exec_ok m -> exec_ok m'.
Proof. apply ops_keep, run_exec_ok. Qed.

Lemma exec_steps_entry m m' id r :
  exec_ok m -> rtc exec_step m m' -> get_entry m id = Some r -> exists r', get_entry m' id = Some r' /\ rtc run_change r r'.
Proof. apply (ops_entry uuid_inj run_exec run_born run_change exec_ok); [by intros ? []|apply run_exec_steps|apply run_exec_ok]. Qed.
End Executions.
