(* ===== verification/Delivery.v ===== *)
(** * Deliveries (src/core/delivery-lifecycle.ts, delivery-lifecycle-types.ts)

    [DeliveryManager]: the way of a result to the originator of its execution: one
    delivery per run, attempts up to a limit, deadlines of the delivery and of its
    acknowledgement, and the stream of events. *)

From Stdlib Require Import ZArith Lia String Ascii.
From stdpp Require Import base strings list pretty relations.
From S2P Require Import Prelude JsRuntime EventBuffer Types Policy Retention BrokerCore CoreFacts Lifecycle Execution.

Inductive DeliveryStatus : Type :=
| DlResultReady | DlPending | DlDelivering | DlDelivered | DlAcked | DlFailed | DlRetrying | DlTimedOut.
#[export] Instance DeliveryStatus_eq_dec : EqDecision DeliveryStatus.
Proof. solve_decision. Defined.
Definition DeliveryStatus_text (s : DeliveryStatus) : string :=
  match s with
  | DlResultReady => "result_ready"
  | DlPending => "delivery_pending"
  | DlDelivering => "delivering"
  | DlDelivered => "delivered"
  | DlAcked => "acked"
  | DlFailed => "failed"
  | DlRetrying => "retrying"
  | DlTimedOut => "timed_out"
  end.

Definition DELIVERY_TRANSITIONS (s : DeliveryStatus) : list DeliveryStatus :=
  match s with
  | DlResultReady => [DlPending; DlFailed; DlTimedOut]
  | DlPending => [DlDelivering; DlRetrying; DlFailed; DlTimedOut]
  | DlDelivering => [DlDelivered; DlFailed; DlTimedOut]
  | DlDelivered => [DlAcked; DlTimedOut]
  | DlAcked => []
  | DlFailed => [DlRetrying; DlTimedOut]
  | DlRetrying => [DlPending; DlFailed; DlTimedOut]
  | DlTimedOut => [DlRetrying]
  end.

Inductive DeliveryFailureCode : Type :=
| DfOriginatorUnreachable | DfChannelUnavailable | DfPayloadTooLarge | DfDeliveryTimeout | DfAckTimeout | DfRateLimited
| DfAuthFailed | DfDuplicateDeliverySuppressed | DfMaxRetriesExceeded | DfSerializationError | DfOther.
Definition DeliveryFailureCode_text (c : DeliveryFailureCode) : string :=
  match c with
  | DfOriginatorUnreachable => "originator_unreachable"
  | DfChannelUnavailable => "channel_unavailable"
  | DfPayloadTooLarge => "payload_too_large"
  | DfDeliveryTimeout => "delivery_timeout"
  | DfAckTimeout => "ack_timeout"
  | DfRateLimited => "rate_limited"
  | DfAuthFailed => "auth_failed"
  | DfDuplicateDeliverySuppressed => "duplicate_delivery_suppressed"
  | DfMaxRetriesExceeded => "max_retries_exceeded"
  | DfSerializationError => "serialization_error"
  | DfOther => "other"
  end.

Definition DELIVERY_FAILURE_CODES : list DeliveryFailureCode :=
  [DfOriginatorUnreachable; DfChannelUnavailable; DfPayloadTooLarge; DfDeliveryTimeout; DfAckTimeout; DfRateLimited;
   DfAuthFailed; DfDuplicateDeliverySuppressed; DfMaxRetriesExceeded; DfSerializationError; DfOther].

Definition delivery_aliases : jsmap DeliveryFailureCode := [
  ("unreachable", DfOriginatorUnreachable); ("originator_unreachable", DfOriginatorUnreachable);
  ("channel_unavailable", DfChannelUnavailable);
  ("payload_large", DfPayloadTooLarge); ("payload_too_large", DfPayloadTooLarge);
  ("delivery_timeout", DfDeliveryTimeout); ("ack_timeout", DfAckTimeout);
  ("rate_limit", DfRateLimited); ("rate_limited", DfRateLimited);
  ("auth", DfAuthFailed); ("auth_failed", DfAuthFailed);
  ("duplicate", DfDuplicateDeliverySuppressed); ("duplicate_delivery_suppressed", DfDuplicateDeliverySuppressed);
  ("max_retries", DfMaxRetriesExceeded); ("max_retries_exceeded", DfMaxRetriesExceeded);
  ("serialization", DfSerializationError); ("serialization_error", DfSerializationError);
  ("other", DfOther)].

Definition delivery_failure_code (raw : string) : DeliveryFailureCode :=
  match jm_get raw delivery_aliases with
  | Some c => c
  | None => List.find (fun c => String.eqb (DeliveryFailureCode_text c) raw) DELIVERY_FAILURE_CODES ?? DfOther
  end.

Record DeliveryArtifact : Type := mkDeliveryArtifact {
  da_runId : string;
  da_outcome : ResultOutcome;
  da_summary : string;
  da_artifactIds : option (list string);
  da_executionErrorCode : option string;
}.

Inductive DeliveryEventKind : Type :=
| DelResultReady | DelPending | DelDelivering | DelDelivered | DelAcked | DelFailed | DelRetrying | DelTimedOut.

Definition delivery_kind (s : DeliveryStatus) : DeliveryEventKind :=
  match s with
  | DlResultReady => DelResultReady
  | DlPending => DelPending
  | DlDelivering => DelDelivering
  | DlDelivered => DelDelivered
  | DlAcked => DelAcked
  | DlFailed => DelFailed
  | DlRetrying => DelRetrying
  | DlTimedOut => DelTimedOut
  end.
Definition status_of_delivery_kind (k : DeliveryEventKind) : DeliveryStatus :=
  match k with
  | DelResultReady => DlResultReady
  | DelPending => DlPending
  | DelDelivering => DlDelivering
  | DelDelivered => DlDelivered
  | DelAcked => DlAcked
  | DelFailed => DlFailed
  | DelRetrying => DlRetrying
  | DelTimedOut => DlTimedOut
  end.

(** A duration is [None] when it is not a number. *)
Record DeliveryMetadata : Type := mkDeliveryMetadata {
  dm_failureCode : option DeliveryFailureCode;
  dm_attempt : Z;
  dm_maxRetries : option Z;
  dm_deliveryDeadline : option string;
  dm_ackDeadline : option string;
  dm_deliveryDurationMs : option (option Z);
  dm_ackDurationMs : option (option Z);
  dm_channel : option string;
}.

Record DeliveryEvent : Type := mkDeliveryEvent {
  dv_id : Z;
  dv_timestamp : string;
  dv_deliveryId : string;
  dv_runId : string;
  dv_originatorSessionKey : string;
  dv_originatorNodeId : string;
  dv_parentTaskId : option string;
  dv_kind : DeliveryEventKind;
  dv_metadata : DeliveryMetadata;
}.

Record DeliveryState : Type := mkDeliveryState {
  ds_deliveryId : string;
  ds_runId : string;
  ds_originatorSessionKey : string;
  ds_originatorNodeId : string;
  ds_parentTaskId : option string;
  ds_status : DeliveryStatus;
  ds_artifact : DeliveryArtifact;
  ds_failureCode : option DeliveryFailureCode;
  ds_attempt : Z;
  ds_maxRetries : Z;
  ds_deliveryDeadline : option string;
  ds_ackDeadline : option string;
  ds_channel : option string;
  ds_acknowledged : bool;
  ds_duplicateSuppressed : bool;
  ds_createdAt : string;
  ds_updatedAt : string;
  ds_deliveryStartedAt : option string;
  ds_deliveredAt : option string;
  ds_ackedAt : option string;
  ds_completedAt : option string;
}.
#[export] Instance eta_DeliveryState : Eta DeliveryState := fun r =>
  mkDeliveryState (ds_deliveryId r) (ds_runId r) (ds_originatorSessionKey r) (ds_originatorNodeId r) (ds_parentTaskId r)
    (ds_status r) (ds_artifact r) (ds_failureCode r) (ds_attempt r) (ds_maxRetries r) (ds_deliveryDeadline r)
    (ds_ackDeadline r) (ds_channel r) (ds_acknowledged r) (ds_duplicateSuppressed r) (ds_createdAt r) (ds_updatedAt r)
    (ds_deliveryStartedAt r) (ds_deliveredAt r) (ds_ackedAt r) (ds_completedAt r).

#[export] Instance delivery_lifecycle : Lifecycle DeliveryStatus DeliveryState DeliveryEvent := {|
  lc_id := ds_deliveryId;
  lc_status := ds_status;
  lc_event_id := dv_id;
  lc_entry := dv_deliveryId;
  lc_about := fun ev => status_of_delivery_kind (dv_kind ev);
  lc_initial := DlResultReady;
  lc_allowed := DELIVERY_TRANSITIONS;
  lc_text := DeliveryStatus_text;
  lc_noun := "delivery";
  lc_title := "Delivery" |}.

Abbreviation DeliveryManager := (Manager DeliveryState DeliveryEvent).
Abbreviation DM := (stM DeliveryManager LifecycleError).

Record RegisterDeliveryInput : Type := mkRegisterDeliveryInput {
  di_runId : string;
  di_originatorSessionKey : string;
  di_originatorNodeId : string;
  di_parentTaskId : option string;
  di_artifact : DeliveryArtifact;
  di_deliveryDeadline : option string;
  di_ackDeadline : option string;
  di_channel : option string;
  di_maxRetries : option Z;
}.

(** The option defaultMaxRetries. *)
Class DeliveryManagerOptions : Type := { dl_defaultMaxRetries : Z }.

Section Deliveries.
Context `{JsHost} `{DeliveryManagerOptions}.

Definition getDeliveryByRunId (runId : string) (m : DeliveryManager) : option DeliveryState :=
  truthy_opt (jm_get runId (mg_index m)) ≫= fun id => jm_get id (mg_entries m).
Definition getDeliveriesForSession (originatorSessionKey : string) (m : DeliveryManager) : list DeliveryState :=
  List.filter (fun d => String.eqb (ds_originatorSessionKey d) originatorSessionKey) (jm_values (mg_entries m)).
Definition getDeliveriesForTask (parentTaskId : string) (m : DeliveryManager) : list DeliveryState :=
  List.filter (fun d => bool_decide (ds_parentTaskId d = Some parentTaskId)) (jm_values (mg_entries m)).

Definition delivery_event (d : DeliveryState) (kind : DeliveryEventKind) (metadata : DeliveryMetadata)
    (id : Z) (timestamp : string) : DeliveryEvent :=
  mkDeliveryEvent id timestamp (ds_deliveryId d) (ds_runId d) (ds_originatorSessionKey d) (ds_originatorNodeId d)
    (ds_parentTaskId d) kind metadata.

Definition new_delivery (input : RegisterDeliveryInput) (deliveryId ts : string) : DeliveryState :=
  mkDeliveryState deliveryId (di_runId input) (di_originatorSessionKey input) (di_originatorNodeId input)
    (di_parentTaskId input) DlResultReady (di_artifact input) None 1 (di_maxRetries input ?? dl_defaultMaxRetries)
    (di_deliveryDeadline input) None (di_channel input) false false ts ts None None None None.

(** The entry that [this.deliveries.get(existingId)!] takes to be there; setting a
    field of [undefined] throws. *)
Definition registerDelivery (input : RegisterDeliveryInput) : DM DeliveryState :=
  existingId <-- m_gets (fun m => truthy_opt (jm_get (di_runId input) (mg_index m)));
  match existingId with
  | Some existingId =>
      existing <-- require_entry existingId;
      let existing := existing <| ds_duplicateSuppressed := true |> in
      put_entry existing;;;
      m_ret existing
  | None =>
      deliveryId <-- life_id;
      ts <-- life_now;
      let state := new_delivery input deliveryId ts in
      put_entry state;;;
      m_modify (fun m => m <| mg_index ::= jm_set (di_runId input) deliveryId |>);;;
      emitEvent (delivery_event state DelResultReady
        (mkDeliveryMetadata None 1 (Some (ds_maxRetries state)) None None None None None));;;
      m_ret state
  end.

(** The metadata that [transition] writes about the delivery as it is then. *)
Definition delivery_metadata (failureCode : option DeliveryFailureCode) (ts : string) (d : DeliveryState) : DeliveryMetadata :=
  mkDeliveryMetadata failureCode (ds_attempt d) (Some (ds_maxRetries d)) (truthy_opt (ds_deliveryDeadline d))
    (truthy_opt (ds_ackDeadline d))
    (match truthy_opt (ds_deliveryStartedAt d) with
     | Some started =>
         if ostr_truthy (ds_deliveredAt d) || bool_decide (ds_status d ∈ [DlFailed; DlTimedOut])
         then Some (date_diff (ds_deliveredAt d ?? ts) started) else None
     | None => None
     end)
    (match truthy_opt (ds_deliveredAt d), truthy_opt (ds_ackedAt d) with
     | Some delivered, Some acked => Some (date_diff acked delivered) | _, _ => None end)
    (truthy_opt (ds_channel d)).

Definition delivery_transition (deliveryId : string) (target : DeliveryStatus) (apply : DeliveryState -> DeliveryState)
    (failureCode : option DeliveryFailureCode) : DM DeliveryState :=
  life_transition deliveryId target
    (fun ts d =>
       let d := d <| ds_status := target |> <| ds_updatedAt := ts |> in
       apply (match failureCode with Some c => d <| ds_failureCode := Some c |> | None => d end))
    (fun ts d => delivery_event d (delivery_kind target) (delivery_metadata failureCode ts d)).

Definition queueDelivery (deliveryId : string) : DM DeliveryState :=
  delivery_transition deliveryId DlPending id None.

Definition startDelivery (deliveryId : string) (channel : option string) : DM DeliveryState :=
  delivery_transition deliveryId DlDelivering (fun s =>
    let s := s <| ds_deliveryStartedAt := Some (ds_updatedAt s) |> in
    if ostr_truthy channel then s <| ds_channel := channel |> else s) None.

Definition markDelivered (deliveryId : string) (ackDeadline : option string) : DM DeliveryState :=
  delivery_transition deliveryId DlDelivered (fun s =>
    let s := s <| ds_deliveredAt := Some (ds_updatedAt s) |> in
    if ostr_truthy ackDeadline then s <| ds_ackDeadline := ackDeadline |> else s) None.

Definition acknowledgeDelivery (deliveryId : string) : DM DeliveryState :=
  delivery_transition deliveryId DlAcked (fun s => s
    <| ds_acknowledged := true |>
    <| ds_ackedAt := Some (ds_updatedAt s) |>
    <| ds_completedAt := Some (ds_updatedAt s) |>) None.

Definition failDelivery (deliveryId reason : string) : DM DeliveryState :=
  delivery_transition deliveryId DlFailed id (Some (delivery_failure_code reason)).

Definition retryDelivery (deliveryId : string) : DM DeliveryState :=
  existing <-- require_entry deliveryId;
  if negb (bool_decide (ds_status existing ∈ [DlFailed; DlTimedOut])) then
    m_throw (mkLifecycleError ("Cannot retry delivery " ++ deliveryId ++ " in status "
      ++ DeliveryStatus_text (ds_status existing))%string InvalidRetry)
  else
    let nextAttempt := (ds_attempt existing + 1)%Z in
    if (ds_maxRetries existing <? nextAttempt)%Z then
      delivery_transition deliveryId DlTimedOut (fun s => s <| ds_attempt := nextAttempt |>) (Some DfMaxRetriesExceeded)
    else
      delivery_transition deliveryId DlRetrying
        (fun s => s <| ds_attempt := nextAttempt |> <| ds_failureCode := None |>) None.

Definition timeoutDelivery (deliveryId : string) (reason : option string) : DM DeliveryState :=
  delivery_transition deliveryId DlTimedOut (fun s => s <| ds_completedAt := Some (ds_updatedAt s) |>)
    (Some (delivery_failure_code (reason ?? "delivery_timeout"))).

(** ** Deadlines *)

Definition overdue (deadline : DeliveryState -> option string) (statuses : list DeliveryStatus) (d : DeliveryState) : DM bool :=
  match truthy_opt (deadline d) with
  | None => m_ret false
  | Some deadline => if negb (bool_decide (ds_status d ∈ statuses)) then m_ret false else is_past deadline
  end.

Definition findDeliveryTimeouts : DM (list string) :=
  l <-- m_gets (fun m => jm_values (mg_entries m));
  late <-- life_filter (overdue ds_deliveryDeadline [DlPending; DlDelivering]) l;
  m_ret (map ds_deliveryId late).

Definition findAckTimeouts : DM (list string) :=
  l <-- m_gets (fun m => jm_values (mg_entries m));
  late <-- life_filter (overdue ds_ackDeadline [DlDelivered]) l;
  m_ret (map ds_deliveryId late).

(** ** Closeout and replay *)

Inductive DeliveryCloseoutKind : Type :=
| DcAcked | DcDeliveredUnacked | DcFailed | DcTimedOut | DcMaxRetriesExceeded | DcPending | DcDuplicateSuppressed.

Record DeliveryCloseoutSummary : Type := mkDeliveryCloseoutSummary {
  dc_summary_deliveryId : string;
  dc_runId : string;
  dc_originatorSessionKey : string;
  dc_originatorNodeId : string;
  dc_kind : DeliveryCloseoutKind;
  dc_attempts : Z;
  dc_artifact : DeliveryArtifact;
  dc_failureCode : option DeliveryFailureCode;
  dc_channel : option string;
  dc_updatedAt : string;
}.

Definition delivery_summary (d : DeliveryState) : DeliveryCloseoutSummary :=
  let kind :=
    match ds_status d with
    | DlAcked => DcAcked
    | DlDelivered => DcDeliveredUnacked
    | DlTimedOut => if (ds_maxRetries d <? ds_attempt d)%Z then DcMaxRetriesExceeded else DcTimedOut
    | DlFailed => DcFailed
    | _ => DcPending
    end in
  mkDeliveryCloseoutSummary (ds_deliveryId d) (ds_runId d) (ds_originatorSessionKey d) (ds_originatorNodeId d)
    (if ds_duplicateSuppressed d && bool_decide (ds_status d = DlResultReady) then DcDuplicateSuppressed else kind)
    (ds_attempt d) (ds_artifact d) (ds_failureCode d) (ds_channel d) (ds_updatedAt d).

Definition closeoutDelivery (deliveryId : string) (m : DeliveryManager) : option DeliveryCloseoutSummary :=
  delivery_summary <$> jm_get deliveryId (mg_entries m).
Definition closeoutDeliveriesOfTask (parentTaskId : string) (m : DeliveryManager) : list DeliveryCloseoutSummary :=
  map delivery_summary (getDeliveriesForTask parentTaskId m).
Definition closeoutDeliveriesOfSession (originatorSessionKey : string) (m : DeliveryManager) : list DeliveryCloseoutSummary :=
  map delivery_summary (getDeliveriesForSession originatorSessionKey m).

Record DeliverySubscribeOptions : Type := mkDeliverySubscribeOptions {
  dso_afterId : option Z;
  dso_deliveryId : option string;
  dso_runId : option string;
  dso_originatorSessionKey : option string;
  dso_originatorNodeId : option string;
  dso_parentTaskId : option string;
  dso_limit : option Z;
}.

Definition delivery_subscribe (o : DeliverySubscribeOptions) (m : DeliveryManager) : list DeliveryEvent :=
  subscribe dv_id (dso_afterId o) (dso_limit o) (fun e =>
    option_admits (dso_deliveryId o) (Some (dv_deliveryId e)) && option_admits (dso_runId o) (Some (dv_runId e))
    && option_admits (dso_originatorSessionKey o) (Some (dv_originatorSessionKey e))
    && option_admits (dso_originatorNodeId o) (Some (dv_originatorNodeId e))
    && option_admits (dso_parentTaskId o) (dv_parentTaskId e))
    (mg_buffer m).
End Deliveries.

(** ** The life of a delivery

    The invariant of a delivery and of the index of runs; every change pays for its
    event, so that a delivery changes only so often; and the proof that the
    operations of [DeliveryManager] are steps of the machine of [Lifecycle]. *)

Section Deliveries.
Context `{JsHost} `{DeliveryManagerOptions}.

(** The last attempt that can be made. *)
Definition last_attempt (d : DeliveryState) : Z := Z.max 1 (ds_maxRetries d).

Record delivery_ok (d : DeliveryState) : Prop := {
  do_attempt : (1 <= ds_attempt d)%Z;
  do_last : (ds_attempt d <= last_attempt d)%Z \/ (ds_attempt d = last_attempt d + 1)%Z /\ ds_status d = DlTimedOut;
  do_acked : ds_acknowledged d = bool_decide (ds_status d = DlAcked);
  do_acked_at : is_some (ds_ackedAt d) = ds_acknowledged d;
  do_started : ds_status d ∈ [DlDelivering; DlDelivered; DlAcked] -> is_some (ds_deliveryStartedAt d) = true;
  do_delivered : ds_status d ∈ [DlDelivered; DlAcked] -> is_some (ds_deliveredAt d) = true;
  do_failure : ds_status d ∈ [DlFailed; DlTimedOut] -> is_some (ds_failureCode d) = true;
}.

(** How far an attempt has come, and how far the delivery. *)
Definition position (s : DeliveryStatus) : nat :=
  match s with
  | DlResultReady | DlRetrying => 0
  | DlPending => 1
  | DlDelivering => 2
  | DlDelivered => 3
  | DlFailed => 4
  | DlTimedOut => 5
  | DlAcked => 6
  end.
Definition progress (d : DeliveryState) : nat := 8 * Z.to_nat (ds_attempt d - 1) + position (ds_status d) + 1.
Definition event_told (s : DeliveryStatus) : nat := 1.

Record delivery_change (d d' : DeliveryState) : Prop := {
  dc_before : delivery_ok d;
  dc_after : delivery_ok d';
  dc_identity : (ds_deliveryId d', ds_runId d', ds_originatorSessionKey d', ds_originatorNodeId d', ds_parentTaskId d',
      ds_artifact d', ds_maxRetries d', ds_createdAt d', ds_deliveryDeadline d')
    = (ds_deliveryId d, ds_runId d, ds_originatorSessionKey d, ds_originatorNodeId d, ds_parentTaskId d,
      ds_artifact d, ds_maxRetries d, ds_createdAt d, ds_deliveryDeadline d);
  dc_moves : d' = d <| ds_duplicateSuppressed := true |>
    \/ ds_status d' ∈ DELIVERY_TRANSITIONS (ds_status d) /\ progress d < progress d';
}.

Definition delivery_born (d : DeliveryState) : Prop := delivery_ok d /\ progress d = 1.

Abbreviation delivery_steps := (rtc (life_step delivery_born delivery_change)).

Lemma progress_bound d : delivery_ok d -> progress d <= 8 * Z.to_nat (last_attempt d) + 7.
Proof.
  intros [Ha Hl _ _ _ _ _]. unfold progress, last_attempt in *.
  assert (position (ds_status d) <= 6) by (destruct (ds_status d); simpl; lia).
  destruct Hl as [Hl|[Hl Hs]]; lia.
Qed.

(** A transition within an attempt, and one that begins the next. *)
Definition delivery_moved (target : DeliveryStatus) (ts : string) (code : option DeliveryFailureCode) (d : DeliveryState)
    : DeliveryState :=
  let d := d <| ds_status := target |> <| ds_updatedAt := ts |> in
  match code with Some c => d <| ds_failureCode := Some c |> | None => d end.

Lemma status_kind_delivery s : status_of_delivery_kind (delivery_kind s) = s.
Proof. by destruct s. Qed.

Lemma delivery_transition_steps id target apply code m :
  (forall x, ds_deliveryId (apply x) = ds_deliveryId x /\ ds_status (apply x) = ds_status x) -> life_ok m ->
  (forall ts d, get_entry m id = Some d -> target ∈ DELIVERY_TRANSITIONS (ds_status d) ->
     delivery_change d (apply (delivery_moved target ts code d))) ->
  delivery_steps m (delivery_transition id target apply code m).1.
Proof.
  intros Happly Hok Hch. apply transition_steps; [| |done|].
  - intros ts d. destruct (Happly (delivery_moved target ts code d)) as [Hi Hs].
    unfold delivery_moved in *. destruct code; exact (conj Hi Hs).
  - intros ts d n t. simpl. by rewrite status_kind_delivery.
  - exact Hch.
Qed.

(** By the status the delivery had. *)
Ltac delivery_change_at st Hin Hok :=
  let O1 := fresh "O" in let O2 := fresh "O" in let O3 := fresh "O" in
  let O4 := fresh "O" in let O5 := fresh "O" in let O6 := fresh "O" in let O7 := fresh "O" in
  pose proof Hok as [O1 O2 O3 O4 O5 O6 O7]; unfold last_attempt in O2; cbn in O1, O2, O3, O4, O5, O6, O7, Hin;
  destruct st; cbn in Hin; try (exfalso; clear -Hin; closed_elem; fail);
  (split; [done| |done|right; split; [done|unfold progress; cbn; lia]]);
  (split; unfold last_attempt; cbn; intros;
   first [lia | done | closed_elem | apply O5; closed_elem | apply O6; closed_elem | apply O7; closed_elem
         | destruct O2 as [O2|[O2 ?]]; [left; lia|done]]).

Ltac delivery_change_auto :=
  let st := fresh "st" in let ts := fresh "ts" in let d := fresh "d" in
  let Hget := fresh "Hget" in let Hin := fresh "Hin" in let Hok := fresh "Hok" in
  match goal with HI : forall d, get_entry _ _ = Some d -> delivery_ok d |- _ =>
    intros ts d Hget Hin; pose proof (HI d Hget) as Hok; clear Hget;
    unfold delivery_moved; destruct d as [? ? ? ? ? st ? ? ? ? ? ? ? ? ? ? ? ? ? ? ?]; delivery_change_at st Hin Hok
  end.

Lemma queueDelivery_steps id m :
  life_ok m -> (forall d, get_entry m id = Some d -> delivery_ok d) -> delivery_steps m (queueDelivery id m).1.
Proof. intros Hok HI. apply delivery_transition_steps; [done|done|]. delivery_change_auto. Qed.

Lemma startDelivery_steps id channel m :
  life_ok m -> (forall d, get_entry m id = Some d -> delivery_ok d) -> delivery_steps m (startDelivery id channel m).1.
Proof.
  intros Hok HI. apply delivery_transition_steps; [by destruct (ostr_truthy channel)|done|].
  destruct (ostr_truthy channel); delivery_change_auto.
Qed.
Lemma markDelivered_steps id deadline m :
  life_ok m -> (forall d, get_entry m id = Some d -> delivery_ok d) -> delivery_steps m (markDelivered id deadline m).1.
Proof.
  intros Hok HI. apply delivery_transition_steps; [by destruct (ostr_truthy deadline)|done|].
  destruct (ostr_truthy deadline); delivery_change_auto.
Qed.
Lemma acknowledgeDelivery_steps id m :
  life_ok m -> (forall d, get_entry m id = Some d -> delivery_ok d) -> delivery_steps m (acknowledgeDelivery id m).1.
Proof. intros Hok HI. apply delivery_transition_steps; [done|done|]. delivery_change_auto. Qed.
Lemma failDelivery_steps id reason m :
  life_ok m -> (forall d, get_entry m id = Some d -> delivery_ok d) -> delivery_steps m (failDelivery id reason m).1.
Proof.
  intros Hok HI. unfold failDelivery. generalize (delivery_failure_code reason). intros c.
  apply delivery_transition_steps; [done|done|]. delivery_change_auto.
Qed.
Lemma timeoutDelivery_steps id reason m :
  life_ok m -> (forall d, get_entry m id = Some d -> delivery_ok d) -> delivery_steps m (timeoutDelivery id reason m).1.
Proof.
  intros Hok HI. unfold timeoutDelivery. generalize (delivery_failure_code (reason ?? "delivery_timeout")). intros c.
  apply delivery_transition_steps; [done|done|]. delivery_change_auto.
Qed.

Lemma retryDelivery_steps id m :
  life_ok m -> (forall d, get_entry m id = Some d -> delivery_ok d) -> delivery_steps m (retryDelivery id m).1.
Proof.
  intros Hok HI. unfold retryDelivery.
  destruct (require_cases id m) as [(err & Hr & _)|(d0 & Hget0 & Hr)]; [by rewrite (bind_err _ _ _ _ _ Hr)|].
  rewrite (bind_ok _ _ _ _ _ Hr). destruct (negb _) eqn:Hst; [reflexivity|].
  apply negb_false_iff, bool_decide_eq_true in Hst.
  cbv zeta. destruct (Z.ltb_spec (ds_maxRetries d0) (ds_attempt d0 + 1)) as [Hmax|Hmax];
    (apply delivery_transition_steps; [done|done|]);
    intros ts d Hget Hin; assert (d = d0) as -> by congruence; pose proof (HI d0 Hget) as Hd; clear Hget Hget0 Hr;
    unfold delivery_moved; destruct d0 as [? ? ? ? ? st ? ? ? ? ? ? ? ? ? ? ? ? ? ? ?]; cbn in Hst, Hmax;
    pose proof Hd as [O1 O2 O3 O4 O5 O6 O7]; unfold last_attempt in O2; cbn in O1, O2, O3, O4, O5, O6, O7, Hin;
    destruct st; cbn in Hin; try (exfalso; clear -Hin; closed_elem; fail); try (exfalso; clear -Hst; closed_elem; fail);
    (split; [done| |done|right; split; [done|unfold progress; cbn; lia]]);
    (split; unfold last_attempt; cbn; intros;
     first [lia | done | closed_elem | destruct O2 as [O2|[O2 O8]]; first [done | left; lia | right; split; [lia|done]]]).
Qed.

(** ** Registration and the index of runs *)

Record index_ok (m : DeliveryManager) : Prop := {
  ix_entry run id : jm_get run (mg_index m) = Some id -> exists d, get_entry m id = Some d /\ ds_runId d = run;
  ix_run id d : get_entry m id = Some d -> jm_get (ds_runId d) (mg_index m) = Some id;
  ix_named id d : get_entry m id = Some d -> str_truthy id = true;
}.

Definition same_runs (m m' : DeliveryManager) : Prop :=
  mg_index m' = mg_index m /\ forall id, ds_runId <$> get_entry m' id = ds_runId <$> get_entry m id.

Lemma same_runs_ok m m' : same_runs m m' -> index_ok m -> index_ok m'.
Proof.
  intros [Hi Hr] [He Hd Hn]. split.
  - intros run id. rewrite Hi. intros (d & Hget & Hrun)%He. specialize (Hr id). rewrite Hget in Hr.
    destruct (get_entry m' id) as [d'|]; [|done]. injection Hr as Hr. exists d'. split; [done|congruence].
  - intros id d' Hget. specialize (Hr id). rewrite Hget in Hr. destruct (get_entry m id) as [d|] eqn:Hget0; [|done].
    injection Hr as Hr. rewrite Hi, Hr. by apply Hd.
  - intros id d' Hget. specialize (Hr id). rewrite Hget in Hr. destruct (get_entry m id) as [d|] eqn:Hget0; [|done].
    by eapply Hn.
Qed.

Lemma same_runs_refl m : same_runs m m.
Proof. done. Qed.

Lemma transition_runs id target apply code m :
  (forall x, ds_deliveryId (apply x) = ds_deliveryId x /\ ds_runId (apply x) = ds_runId x) -> life_ok m ->
  same_runs m (delivery_transition id target apply code m).1.
Proof.
  intros Happly Hok. unfold delivery_transition.
  match goal with |- context [life_transition id ?t ?u ?e m] =>
    destruct (transition_cases id t u e m) as [(err & -> & _)|(d & Hget & _ & ->)] end; [done|].
  set (d' := apply _). assert (ds_deliveryId d' = id /\ ds_runId d' = ds_runId d) as [Hi Hr].
  { destruct (Happly (delivery_moved target (time_at 0 m) code d)) as [Hi Hr]. unfold d', delivery_moved in *.
    rewrite Hi, Hr. assert (ds_deliveryId d = id) by by apply (lk_keyed m Hok). by destruct code. }
  simpl. split; [done|]. intros k. unfold get_entry. simpl. rewrite jm_get_set.
  destruct (String.eqb_spec k (ds_deliveryId d')) as [->|]; [|done].
  unfold get_entry in Hget. rewrite Hi, Hget. simpl. by rewrite Hr.
Qed.

(** What registering an input does: the delivery of its run is marked, or a new one
    is stored and indexed. *)
Definition registered (input : RegisterDeliveryInput) (m : DeliveryManager) (d : DeliveryState) : DeliveryManager :=
  let ev := delivery_event d DelResultReady
    (mkDeliveryMetadata None 1 (Some (ds_maxRetries d)) None None None None None)
    (1 + cb_nextId (mg_buffer m))%Z (time_at 1 m) in
  ticked 2 (told (m <| mg_index ::= jm_set (di_runId input) (ds_deliveryId d) |>) d ev) <| mg_ids := S (mg_ids m) |>.

Lemma register_cases input m :
  life_ok m -> index_ok m ->
  (exists d, get_entry m (ds_deliveryId d) = Some d /\ ds_runId d = di_runId input
     /\ registerDelivery input m = (m <| mg_entries ::= jm_set (ds_deliveryId d) (d <| ds_duplicateSuppressed := true |>) |>,
          Ok (d <| ds_duplicateSuppressed := true |>)))
  \/ jm_get (di_runId input) (mg_index m) = None
     /\ let d := new_delivery input (host_uuid (mg_ids m)) (time_at 0 m) in
        registerDelivery input m = (registered input m d, Ok d).
Proof.
  intros Hok Hix. unfold registerDelivery.
  rewrite (bind_ok _ _ m m (truthy_opt (jm_get (di_runId input) (mg_index m)))) by done.
  destruct (jm_get (di_runId input) (mg_index m)) as [id|] eqn:Hrun.
  - destruct (ix_entry m Hix _ _ Hrun) as (d & Hget & Hd). left. exists d. simpl.
    rewrite (ix_named m Hix _ _ Hget). assert (ds_deliveryId d = id) as -> by by apply (lk_keyed m Hok).
    split; [done|]. split; [done|].
    assert (require_entry id m = (m, Ok d)) as Hr.
    { unfold require_entry. rewrite (bind_ok _ _ m m (Some d)) by (unfold m_gets; unfold get_entry in Hget; by rewrite Hget). done. }
    rewrite (bind_ok _ _ _ _ _ Hr). assert (ds_deliveryId d = id) as <- by by apply (lk_keyed m Hok). done.
  - right. split; [done|]. by destruct m.
Qed.

Lemma new_delivery_born input id ts : delivery_born (new_delivery input id ts).
Proof.
  split; [|done]. split; unfold last_attempt; cbn; intros; first [lia|done|closed_elem].
Qed.

Lemma registerDelivery_steps input m :
  life_ok m -> index_ok m -> (forall id d, get_entry m id = Some d -> delivery_ok d) ->
  delivery_steps m (registerDelivery input m).1.
Proof.
  intros Hok Hix HI. destruct (register_cases input m Hok Hix) as [(d & Hget & _ & ->)|[_ ->]]; cbn [fst].
  - pose proof (HI _ _ Hget) as Hd. apply rtc_once.
    set (d' := d <| ds_duplicateSuppressed := true |>).
    assert (delivery_change d d') as Hch by (split; [done|by destruct Hd|done|by left]).
    exact (LifeTouch delivery_born delivery_change m d d' Hget eq_refl eq_refl Hch).
  - set (d := new_delivery _ _ _). set (m1 := m <| mg_index ::= jm_set (di_runId input) (ds_deliveryId d) |>).
    transitivity m1; [apply rtc_once, LifeIndex|].
    apply (create_steps delivery_born delivery_change d _ m1 (S (mg_ids m)) 2);
      [by destruct Hok|done|apply new_delivery_born|done|done|done].
Qed.

Lemma registerDelivery_index input m :
  (forall n, str_truthy (host_uuid n) = true) -> life_ok m -> index_ok m -> index_ok (registerDelivery input m).1.
Proof.
  intros Htr Hok Hix. destruct (register_cases input m Hok Hix) as [(d & Hget & _ & ->)|[Hnone ->]]; cbn [fst].
  - eapply same_runs_ok; [|exact Hix]. split; [done|]. intros k. unfold get_entry in *. simpl. rewrite jm_get_set.
    destruct (String.eqb_spec k (ds_deliveryId d)) as [->|]; [|done]. by rewrite Hget.
  - set (d := new_delivery _ _ _).
    assert (get_entry m (ds_deliveryId d) = None) as Hfresh by (apply Hok; done).
    assert (forall k, get_entry (registered input m d) k = if String.eqb k (ds_deliveryId d) then Some d else get_entry m k) as Hget
      by (intros k; apply jm_get_set).
    assert (mg_index (registered input m d) = jm_set (di_runId input) (ds_deliveryId d) (mg_index m)) as Hi by done.
    split.
    + intros run id. rewrite Hi, jm_get_set. destruct (String.eqb_spec run (di_runId input)) as [->|].
      * intros [= <-]. exists d. by rewrite Hget, String.eqb_refl.
      * intros (d0 & Hd0 & Hrun)%(ix_entry m Hix). exists d0. rewrite Hget.
        destruct (String.eqb_spec id (ds_deliveryId d)) as [->|]; [congruence|done].
    + intros id d0. rewrite Hget, Hi, jm_get_set. destruct (String.eqb_spec id (ds_deliveryId d)) as [->|].
      * intros [= <-]. by rewrite String.eqb_refl.
      * intros Hd0. pose proof (ix_run m Hix _ _ Hd0) as Hrun.
        destruct (String.eqb_spec (ds_runId d0) (di_runId input)) as [Heq|]; [congruence|done].
    + intros id d0. rewrite Hget. destruct (String.eqb_spec id (ds_deliveryId d)) as [->|]; [intros _; apply Htr|].
      apply (ix_named m Hix).
Qed.

(** ** Deadlines *)

Lemma overdue_steps deadline statuses d m : delivery_steps m (overdue deadline statuses d m).1.
Proof.
  unfold overdue. destruct (truthy_opt _); [|reflexivity]. destruct (negb _); [reflexivity|apply steps_past].
Qed.

Lemma late_steps deadline statuses m :
  delivery_steps m ((l <-- m_gets (fun m => jm_values (mg_entries m)); late <-- life_filter (overdue deadline statuses) l;
    m_ret (map ds_deliveryId late)) m).1.
Proof.
  apply steps_bind; [reflexivity|]. intros m' l _. apply steps_bind; [apply steps_filter; intros; apply overdue_steps|].
  intros m2 late _. reflexivity.
Qed.

(** A filter by deadlines reads the clock and nothing else. *)
Lemma filter_overdue deadline statuses l m m' late :
  life_filter (overdue deadline statuses) l m = (m', Ok late) ->
  mg_entries m' = mg_entries m /\ mg_index m' = mg_index m
  /\ forall d, d ∈ late -> d ∈ l /\ ds_status d ∈ statuses.
Proof.
  revert m m' late. induction l as [|d l IH]; intros m m' late; simpl; [intros [= <- <-]; split_and!; set_solver|].
  intros Hrun. run_inv Hrun. rename s into m1, a into b, s0 into m2, a0 into rest.
  injection Hrun as <- <-. destruct (IH _ _ _ Hm0) as (He & Hi & Hl).
  assert (mg_entries m1 = mg_entries m /\ mg_index m1 = mg_index m /\ (b = true -> ds_status d ∈ statuses)) as (He1 & Hi1 & Hb).
  { unfold overdue in Hm. destruct (truthy_opt _) as [t|]; [|by injection Hm as <- <-].
    case_bool_decide as Hs; simpl in Hm; [|by injection Hm as <- <-].
    unfold is_past, life_clock, m_bind in Hm. simpl in Hm. by injection Hm as <- _. }
  split; [congruence|]. split; [congruence|]. intros d0 Hd0.
  assert (forall x, x ∈ rest -> x ∈ d :: l /\ ds_status x ∈ statuses) as Hrest
    by (intros x [Hx ?]%Hl; split; [by right|done]).
  destruct b; [|by apply Hrest]. apply elem_of_cons in Hd0 as [->|Hd0]; [|by apply Hrest].
  split; [by left|by apply Hb].
Qed.

Lemma timeout_possible id reason m d :
  get_entry m id = Some d -> DlTimedOut ∈ DELIVERY_TRANSITIONS (ds_status d) ->
  exists m' d', timeoutDelivery id reason m = (m', Ok d') /\ ds_status d' = DlTimedOut.
Proof.
  intros Hget Hin. unfold timeoutDelivery, delivery_transition.
  match goal with |- context [life_transition id ?t ?u ?e m] => destruct (transition_cases id t u e m) as [(err & _ & [[_ Hn]|(_ & d0 & Hd0 & Hnot)])|(d0 & Hd0 & _ & Hrun)] end.
  - congruence.
  - rewrite Hget in Hd0. injection Hd0 as <-. done.
  - do 2 eexists. split; [exact Hrun|done].
Qed.

(** Every delivery found late can be timed out. *)
Lemma late_times_out deadline statuses m m' ids :
  life_ok m -> (forall s, s ∈ statuses -> DlTimedOut ∈ DELIVERY_TRANSITIONS s) ->
  (l <-- m_gets (fun m => jm_values (mg_entries m)); late <-- life_filter (overdue deadline statuses) l;
    m_ret (map ds_deliveryId late)) m = (m', Ok ids) ->
  forall id reason, id ∈ ids -> exists m2 d, timeoutDelivery id reason m' = (m2, Ok d) /\ ds_status d = DlTimedOut.
Proof.
  intros Hok Hst Hrun id reason Hid. run_inv Hrun. injection Hm as <- <-. injection Hrun as <- <-.
  destruct (filter_overdue _ _ _ _ _ _ Hm0) as (He & _ & Hl).
  apply list_elem_of_fmap in Hid as (d & -> & Hd). destruct (Hl d Hd) as [Hin Hs].
  apply (timeout_possible (ds_deliveryId d) reason _ d); [|by apply Hst].
  unfold get_entry. rewrite He. exact (proj1 (keyed_value ds_deliveryId (mg_entries m) d (lk_keyed m Hok)) Hin).
Qed.

(** ** Histories *)

Inductive delivery_op : Type :=
| DRegister (input : RegisterDeliveryInput)
| DQueue (id : string)
| DStart (id : string) (channel : option string)
| DDelivered (id : string) (ackDeadline : option string)
| DAcknowledge (id : string)
| DFail (id reason : string)
| DRetry (id : string)
| DTimeout (id : string) (reason : option string)
| DFindTimeouts
| DFindAckTimeouts.

Definition run_delivery (op : delivery_op) (m : DeliveryManager) : DeliveryManager :=
  match op with
  | DRegister input => (registerDelivery input m).1
  | DQueue id => (queueDelivery id m).1
  | DStart id channel => (startDelivery id channel m).1
  | DDelivered id deadline => (markDelivered id deadline m).1
  | DAcknowledge id => (acknowledgeDelivery id m).1
  | DFail id reason => (failDelivery id reason m).1
  | DRetry id => (retryDelivery id m).1
  | DTimeout id reason => (timeoutDelivery id reason m).1
  | DFindTimeouts => (findDeliveryTimeouts m).1
  | DFindAckTimeouts => (findAckTimeouts m).1
  end.

Definition deliveries_ok (m : DeliveryManager) : Prop :=
  life_ok m /\ index_ok m /\ within event_told progress m /\ forall id d, get_entry m id = Some d -> delivery_ok d.

Lemma run_delivery_steps op m : deliveries_ok m -> delivery_steps m (run_delivery op m).
Proof.
  intros (Hok & Hix & _ & HI). destruct op; simpl.
  - by apply registerDelivery_steps.
  - apply queueDelivery_steps; eauto.
  - apply startDelivery_steps; eauto.
  - apply markDelivered_steps; eauto.
  - apply acknowledgeDelivery_steps; eauto.
  - apply failDelivery_steps; eauto.
  - apply retryDelivery_steps; eauto.
  - apply timeoutDelivery_steps; eauto.
  - apply late_steps.
  - apply late_steps.
Qed.

Lemma late_index deadline statuses m :
  same_runs m ((l <-- m_gets (fun m => jm_values (mg_entries m)); late <-- life_filter (overdue deadline statuses) l;
    m_ret (map ds_deliveryId late)) m).1.
Proof.
  rewrite (bind_ok _ _ m m (jm_values (mg_entries m))) by done.
  assert (forall l m0, exists m1 late, life_filter (overdue deadline statuses) l m0 = (m1, Ok late)) as Htotal.
  { induction l as [|d l IH]; intros m0; simpl; [by do 2 eexists|].
    assert (exists m1 b, overdue deadline statuses d m0 = (m1, Ok b)) as (m1 & b & Hb).
    { unfold overdue. destruct (truthy_opt _); [|by do 2 eexists]. destruct (negb _); by do 2 eexists. }
    destruct (IH m1) as (m2 & late & Hl). exists m2. eexists.
    rewrite (bind_ok _ _ _ _ _ Hb), (bind_ok _ _ _ _ _ Hl). reflexivity. }
  destruct (Htotal (jm_values (mg_entries m)) m) as (m1 & late & Hrun). rewrite (bind_ok _ _ _ _ _ Hrun). simpl.
  destruct (filter_overdue _ _ _ _ _ _ Hrun) as (He & Hi & _). split; [done|]. intros id. unfold get_entry. by rewrite He.
Qed.

Lemma retry_runs id m : life_ok m -> same_runs m (retryDelivery id m).1.
Proof.
  intros Hok. unfold retryDelivery. destruct (require_cases id m) as [(err & Hr & _)|(d0 & _ & Hr)];
    [by rewrite (bind_err _ _ _ _ _ Hr)|]. rewrite (bind_ok _ _ _ _ _ Hr). destruct (negb _); [done|].
  cbv zeta. destruct (_ <? _)%Z; by apply transition_runs.
Qed.

Lemma run_delivery_index op m :
  (forall n, str_truthy (host_uuid n) = true) -> life_ok m -> index_ok m -> index_ok (run_delivery op m).
Proof.
  intros Htr Hok Hix. destruct op; simpl; [by apply registerDelivery_index|..]; (eapply same_runs_ok; [|exact Hix]).
  - by apply transition_runs.
  - apply transition_runs; [|done]. intros x. by destruct (ostr_truthy channel).
  - apply transition_runs; [|done]. intros x. by destruct (ostr_truthy ackDeadline).
  - by apply transition_runs.
  - by apply transition_runs.
  - by apply retry_runs.
  - by apply transition_runs.
  - apply late_index.
  - apply late_index.
Qed.

Context (uuid_inj : forall n k, host_uuid n = host_uuid k -> n = k) (uuid_truthy : forall n, str_truthy (host_uuid n) = true).

Lemma deliveries_ok_step op m : deliveries_ok m -> deliveries_ok (run_delivery op m).
Proof.
  intros Hm. pose proof (run_delivery_steps op m Hm) as Hs. destruct Hm as (Hok & Hix & Hw & HI). split_and!.
  - by eapply life_steps_ok.
  - by apply run_delivery_index.
  - eapply (within_steps uuid_inj delivery_born delivery_change); [| | |exact Hok|exact Hs|exact Hw].
    + intros d [_ ->]. done.
    + intros d d' Hc. destruct (dc_moves d d' Hc) as [->|[_ Hlt]]; [done|lia].
    + intros d d' Hc Hin. destruct (dc_moves d d' Hc) as [->|[_ Hlt]]; [|unfold event_told; lia].
      exfalso. simpl in Hin. destruct (ds_status d); cbn in Hin; closed_elem.
  - eapply (life_inv delivery_born delivery_change delivery_ok); [by intros d [? _]|by intros d d' [_ ? _ _]|exact Hs|exact HI].
Qed.

Lemma deliveries_ok_empty max : deliveries_ok (empty_manager max).
Proof. split_and!; [apply empty_manager_ok|done|by intros id|done]. Qed.

Definition delivery_step : DeliveryManager -> DeliveryManager -> Prop := op_step run_delivery.

Lemma deliveries_ok_steps m m' : rtc delivery_step m m' -> deliveries_ok m -> deliveries_ok m'.
Proof. apply ops_keep, deliveries_ok_step. Qed.

Lemma delivery_steps_entry m m' id d :
  deliveries_ok m -> rtc delivery_step m m' -> get_entry m id = Some d ->
  exists d', get_entry m' id = Some d' /\ rtc delivery_change d d'.
Proof.
  apply (ops_entry uuid_inj run_delivery delivery_born delivery_change deliveries_ok);
    [by intros ? []|apply run_delivery_steps|apply deliveries_ok_step].
Qed.
End Deliveries.
