(* ===== verification/Proposing.v ===== *)
(** * Proposals of a conference (src/core/proposal-lifecycle.ts, proposal-types.ts)

    [ProposalManager]: a proposal that a conference made is blocked, approved or
    rejected, applied or failed, and a failed one may be approved again.  (The change
    proposals of the broker are another type, of Types.v and Proposals.v.) *)

From Stdlib Require Import ZArith Lia String Ascii.
From stdpp Require Import base strings list pretty relations.
From S2P Require Import Prelude JsRuntime EventBuffer Types Policy Retention BrokerCore CoreFacts Lifecycle Execution.

Inductive ConferenceProposalStatus : Type :=
| CpProposed | CpBlocked | CpApproved | CpRejected | CpApplying | CpApplied | CpFailed.
#[export] Instance ConferenceProposalStatus_eq_dec : EqDecision ConferenceProposalStatus.
Proof. solve_decision. Defined.
Definition ConferenceProposalStatus_text (s : ConferenceProposalStatus) : string :=
  match s with
  | CpProposed => "proposed"
  | CpBlocked => "blocked"
  | CpApproved => "approved"
  | CpRejected => "rejected"
  | CpApplying => "applying"
  | CpApplied => "applied"
  | CpFailed => "failed"
  end.

Inductive ProposalBlockReasonCode : Type :=
| PbQuorumNotMet | PbChairVeto | PbConflictDetected | PbValidationFailed | PbApplyTimeout | PbApplyError | PbOther.
Definition ProposalBlockReasonCode_text (c : ProposalBlockReasonCode) : string :=
  match c with
  | PbQuorumNotMet => "quorum_not_met"
  | PbChairVeto => "chair_veto"
  | PbConflictDetected => "conflict_detected"
  | PbValidationFailed => "validation_failed"
  | PbApplyTimeout => "apply_timeout"
  | PbApplyError => "apply_error"
  | PbOther => "other"
  end.
Definition PROPOSAL_BLOCK_REASON_CODES : list ProposalBlockReasonCode :=
  [PbQuorumNotMet; PbChairVeto; PbConflictDetected; PbValidationFailed; PbApplyTimeout; PbApplyError; PbOther].

Definition PROPOSAL_TRANSITIONS (s : ConferenceProposalStatus) : list ConferenceProposalStatus :=
  match s with
  | CpProposed => [CpBlocked; CpApproved; CpRejected]
  | CpBlocked => [CpApproved; CpRejected]
  | CpApproved => [CpApplying; CpRejected]
  | CpRejected => []
  | CpApplying => [CpApplied; CpFailed]
  | CpApplied => []
  | CpFailed => [CpApproved; CpRejected]
  end.

Record ProposalParticipantRef : Type := mkProposalParticipantRef {
  pp_nodeId : string;
  pp_displayName : option string;
  pp_role : string;
}.

Inductive ProposalArtifactCategory : Type :=
| ArtifactAnalysis | ArtifactDecision | ArtifactArtifact | ArtifactCorrection.

Record ProposalArtifact : Type := mkProposalArtifact {
  pf_id : string;
  pf_category : ProposalArtifactCategory;
  pf_summary : string;
}.

Record Proposal : Type := mkProposal {
  pq_id : string;
  pq_parentTaskId : string;
  pq_conferenceRoomId : option string;
  pq_status : ConferenceProposalStatus;
  pq_summary : string;
  pq_participants : list ProposalParticipantRef;
  pq_artifacts : list ProposalArtifact;
  pq_reasonCode : option ProposalBlockReasonCode;
  pq_createdAt : string;
  pq_updatedAt : string;
  pq_applyStartedAt : option string;
  pq_applyCompletedAt : option string;
  pq_applyAttempts : Z;
}.
#[export] Instance eta_Proposal : Eta Proposal := fun r =>
  mkProposal (pq_id r) (pq_parentTaskId r) (pq_conferenceRoomId r) (pq_status r) (pq_summary r) (pq_participants r)
    (pq_artifacts r) (pq_reasonCode r) (pq_createdAt r) (pq_updatedAt r) (pq_applyStartedAt r) (pq_applyCompletedAt r)
    (pq_applyAttempts r).

Inductive ProposalEventKind : Type :=
| PropCreated | PropBlocked | PropApproved | PropRejected | PropApplying | PropApplied | PropFailed.

Record ProposalMetadata : Type := mkProposalMetadata {
  pm_reasonCode : option ProposalBlockReasonCode;
  pm_applyAttempt : option Z;
}.

Record ProposalEvent : Type := mkProposalEvent {
  pv_id : Z;
  pv_timestamp : string;
  pv_proposalId : string;
  pv_parentTaskId : string;
  pv_conferenceRoomId : option string;
  pv_kind : ProposalEventKind;
  pv_metadata : ProposalMetadata;
}.

Definition statusToEventKind (s : ConferenceProposalStatus) : ProposalEventKind :=
  match s with
  | CpProposed => PropCreated
  | CpBlocked => PropBlocked
  | CpApproved => PropApproved
  | CpRejected => PropRejected
  | CpApplying => PropApplying
  | CpApplied => PropApplied
  | CpFailed => PropFailed
  end.
Definition status_of_event_kind (k : ProposalEventKind) : ConferenceProposalStatus :=
  match k with
  | PropCreated => CpProposed
  | PropBlocked => CpBlocked
  | PropApproved => CpApproved
  | PropRejected => CpRejected
  | PropApplying => CpApplying
  | PropApplied => CpApplied
  | PropFailed => CpFailed
  end.

#[export] Instance proposing_lifecycle : Lifecycle ConferenceProposalStatus Proposal ProposalEvent := {|
  lc_id := pq_id;
  lc_status := pq_status;
  lc_event_id := pv_id;
  lc_entry := pv_proposalId;
  lc_about := fun ev => status_of_event_kind (pv_kind ev);
  lc_initial := CpProposed;
  lc_allowed := PROPOSAL_TRANSITIONS;
  lc_text := ConferenceProposalStatus_text;
  lc_noun := "proposal";
  lc_title := "Proposal" |}.

Abbreviation ProposalManager := (Manager Proposal ProposalEvent).
Abbreviation PM := (stM ProposalManager LifecycleError).

Definition block_reason_aliases : jsmap ProposalBlockReasonCode := [
  ("quorum", PbQuorumNotMet); ("quorum_not_met", PbQuorumNotMet); ("veto", PbChairVeto); ("chair_veto", PbChairVeto);
  ("conflict", PbConflictDetected); ("conflict_detected", PbConflictDetected);
  ("validation", PbValidationFailed); ("validation_failed", PbValidationFailed);
  ("timeout", PbApplyTimeout); ("apply_timeout", PbApplyTimeout);
  ("apply_error", PbApplyError); ("error", PbApplyError); ("other", PbOther)].

(** A name that objects inherit is no alias: what the lookup returns is in no set. *)
Definition resolveBlockReason (raw : string) : ProposalBlockReasonCode :=
  match jm_get raw block_reason_aliases with
  | Some c => c
  | None => List.find (fun c => String.eqb (ProposalBlockReasonCode_text c) raw) PROPOSAL_BLOCK_REASON_CODES ?? PbOther
  end.

Record ProposalCreateInput : Type := mkProposalCreateInput {
  pi_parentTaskId : string;
  pi_conferenceRoomId : option string;
  pi_summary : string;
  pi_participants : list ProposalParticipantRef;
  pi_artifacts : option (list ProposalArtifact);
}.

Section Proposals.
Context `{JsHost}.

Definition getProposalsForTask (parentTaskId : string) (m : ProposalManager) : list Proposal :=
  List.filter (fun p => String.eqb (pq_parentTaskId p) parentTaskId) (jm_values (mg_entries m)).

Definition proposal_event (p : Proposal) (kind : ProposalEventKind) (metadata : ProposalMetadata)
    (id : Z) (timestamp : string) : ProposalEvent :=
  mkProposalEvent id timestamp (pq_id p) (pq_parentTaskId p) (pq_conferenceRoomId p) kind metadata.

Definition new_proposal (input : ProposalCreateInput) (id ts : string) : Proposal :=
  mkProposal id (pi_parentTaskId input) (pi_conferenceRoomId input) CpProposed (pi_summary input)
    (pi_participants input) (pi_artifacts input ?? []) None ts ts None None 0.

Definition create (input : ProposalCreateInput) : PM Proposal :=
  id <-- life_id;
  ts <-- life_now;
  let proposal := new_proposal input id ts in
  put_entry proposal;;;
  emitEvent (proposal_event proposal PropCreated (mkProposalMetadata None None));;;
  m_ret proposal.

Definition proposal_moved (target : ConferenceProposalStatus) (reasonCode : option ProposalBlockReasonCode) (ts : string)
    (p : Proposal) : Proposal :=
  let p := p <| pq_status := target |> <| pq_updatedAt := ts |> in
  match reasonCode with Some c => p <| pq_reasonCode := Some c |> | None => p end.

Definition proposal_transition (proposalId : string) (target : ConferenceProposalStatus)
    (reasonCode : option ProposalBlockReasonCode) : PM Proposal :=
  life_transition proposalId target (proposal_moved target reasonCode)
    (fun _ p => proposal_event p (statusToEventKind target)
       (mkProposalMetadata reasonCode (match target with CpFailed => Some (pq_applyAttempts p + 1)%Z | _ => None end))).

(** What the operations assign to the object that [transition] returned, which is
    the one the map holds. *)
Definition assign (f : Proposal -> Proposal) (p : Proposal) : PM Proposal :=
  put_entry (f p);;; m_ret (f p).

Definition block (proposalId reason : string) : PM Proposal :=
  proposal_transition proposalId CpBlocked (Some (resolveBlockReason reason)).
Definition approve (proposalId : string) : PM Proposal := proposal_transition proposalId CpApproved None.
Definition reject (proposalId : string) : PM Proposal := proposal_transition proposalId CpRejected None.

Definition startApply (proposalId : string) : PM Proposal :=
  proposal <-- require_entry proposalId;
  if bool_decide (pq_status proposal = CpApplying) then m_ret proposal
  else
    p <-- proposal_transition proposalId CpApplying None;
    assign (fun p => p <| pq_applyStartedAt := Some (pq_updatedAt p) |>) p.

Definition completeApply (proposalId : string) : PM Proposal :=
  proposal <-- require_entry proposalId;
  if bool_decide (pq_status proposal = CpApplied) then m_ret proposal
  else
    p <-- proposal_transition proposalId CpApplied None;
    assign (fun p => p <| pq_applyCompletedAt := Some (pq_updatedAt p) |>) p.

Definition failApply (proposalId reason : string) : PM Proposal :=
  _ <-- require_entry proposalId;
  p <-- proposal_transition proposalId CpFailed (Some (resolveBlockReason reason));
  assign (fun p => p <| pq_applyCompletedAt := Some (pq_updatedAt p) |> <| pq_applyAttempts ::= Z.add 1 |>) p.

Record ProposalSubscribeOptions : Type := mkProposalSubscribeOptions {
  pso_afterId : option Z;
  pso_parentTaskId : option string;
  pso_conferenceRoomId : option string;
  pso_limit : option Z;
}.

Definition proposal_subscribe (o : ProposalSubscribeOptions) (m : ProposalManager) : list ProposalEvent :=
  subscribe pv_id (pso_afterId o) (pso_limit o) (fun e =>
    option_admits (pso_parentTaskId o) (Some (pv_parentTaskId e))
    && option_admits (pso_conferenceRoomId o) (pv_conferenceRoomId e))
    (mg_buffer m).
End Proposals.

(** ** The life of a proposal of a conference

    The invariant of a proposal, what an operation may make of one, and the proof that
    the operations of [ProposalManager] are steps of the machine of [Lifecycle]. *)

Section Proposals.
Context `{JsHost}.

Record proposal_ok (p : Proposal) : Prop := {
  po_attempts : (0 <= pq_applyAttempts p)%Z;
  po_failed : pq_status p = CpFailed -> (1 <= pq_applyAttempts p)%Z;
  po_started : pq_status p ∈ [CpApplying; CpApplied; CpFailed] -> is_some (pq_applyStartedAt p) = true;
  po_completed : pq_status p ∈ [CpApplied; CpFailed] -> is_some (pq_applyCompletedAt p) = true;
  po_reason : pq_status p ∈ [CpBlocked; CpFailed] -> is_some (pq_reasonCode p) = true;
}.

(** [pc_attempts]: the count of attempts goes up with each failure, and only then. *)
Record proposal_change (p p' : Proposal) : Prop := {
  pc_before : proposal_ok p;
  pc_after : proposal_ok p';
  pc_identity : (pq_id p', pq_parentTaskId p', pq_conferenceRoomId p', pq_summary p', pq_participants p', pq_artifacts p',
      pq_createdAt p')
    = (pq_id p, pq_parentTaskId p, pq_conferenceRoomId p, pq_summary p, pq_participants p, pq_artifacts p, pq_createdAt p);
  pc_table : pq_status p' ∈ PROPOSAL_TRANSITIONS (pq_status p);
  pc_attempts : pq_applyAttempts p' = (pq_applyAttempts p + match pq_status p' with CpFailed => 1 | _ => 0 end)%Z;
}.

Definition proposal_born (p : Proposal) : Prop := proposal_ok p.

Abbreviation proposal_steps := (rtc (life_step proposal_born proposal_change)).

(** ** What a proposal's events are paid with *)

(** Applications begun: one per failure, and the one that runs or has succeeded. *)
Definition begun_told (s : ConferenceProposalStatus) : nat := match s with CpApplying => 1 | _ => 0 end.
Definition applications (p : Proposal) : nat :=
  Z.to_nat (pq_applyAttempts p) + match pq_status p with CpApplying | CpApplied => 1 | _ => 0 end.
Definition applied_told (s : ConferenceProposalStatus) : nat := match s with CpApplied => 1 | _ => 0 end.
Definition was_applied (p : Proposal) : nat := applied_told (pq_status p).
Definition failed_told (s : ConferenceProposalStatus) : nat := match s with CpFailed => 1 | _ => 0 end.
Definition failures (p : Proposal) : nat := Z.to_nat (pq_applyAttempts p).

Lemma change_applications p p' : proposal_change p p' -> applications p + begun_told (pq_status p') <= applications p'.
Proof.
  intros [[Hn _ _ _ _] _ _ Ht Ha]. unfold applications. rewrite Ha. clear Ha.
  destruct (pq_status p), (pq_status p'); cbn in Ht |- *; first [lia|closed_elem].
Qed.

Lemma change_applied p p' : proposal_change p p' -> was_applied p + applied_told (pq_status p') <= was_applied p'.
Proof.
  intros [_ _ _ Ht _]. unfold was_applied.
  destruct (pq_status p), (pq_status p'); cbn in Ht |- *; first [lia|closed_elem].
Qed.

Lemma change_failures p p' : proposal_change p p' -> failures p + failed_told (pq_status p') <= failures p'.
Proof.
  intros [[Hn _ _ _ _] _ _ _ Ha]. unfold failures. rewrite Ha. destruct (pq_status p'); simpl; lia.
Qed.

(** ** Operations are steps *)

Lemma status_kind_proposal s : status_of_event_kind (statusToEventKind s) = s.
Proof. by destruct s. Qed.

Lemma moved_id target code ts p : pq_id (proposal_moved target code ts p) = pq_id p.
Proof. by destruct code. Qed.
Lemma moved_status target code ts p : pq_status (proposal_moved target code ts p) = target.
Proof. by destruct code. Qed.

Lemma assign_told f p ev (m : ProposalManager) :
  pq_id (f p) = pq_id p -> assign f p (ticked 2 (told m p ev)) = (told (ticked 2 m) (f p) ev, Ok (f p)).
Proof.
  intros Hid. unfold assign, put_entry, told, m_bind, m_modify, m_ret. cbn. rewrite Hid.
  exact (f_equal (fun es => (mkManager es _ _ _ _, Ok (f p))) (jm_set_set (pq_id p) (f p) p (mg_entries m))).
Qed.

Lemma proposal_transition_steps id target code f m :
  (forall p, pq_id (f p) = pq_id p /\ pq_status (f p) = pq_status p) -> life_ok m ->
  (forall ts p, get_entry m id = Some p -> target ∈ PROPOSAL_TRANSITIONS (pq_status p) ->
     proposal_change p (f (proposal_moved target code ts p))) ->
  proposal_steps m ((p <-- proposal_transition id target code; assign f p) m).1.
Proof.
  intros Hf Hok Hch. unfold proposal_transition.
  match goal with |- context [life_transition id ?t ?u ?e] =>
    destruct (transition_cases id t u e m) as [(err & Hrun & _)|(p & Hget & Hin & Hrun)] end.
  - by rewrite (bind_err _ _ _ _ _ Hrun).
  - rewrite (bind_ok _ _ _ _ _ Hrun). cbv zeta.
    set (p1 := proposal_moved target code (time_at 0 m) p). destruct (Hf p1) as [Hid Hst].
    set (ev := proposal_event p1 _ _ _ _).
    rewrite assign_told by done. simpl.
    transitivity (ticked 2 m); [apply steps_ticked|].
    assert (pq_id p = id) as Hk by by apply (lk_keyed m Hok).
    assert (pq_id (f p1) = pq_id p) as Hid' by by rewrite Hid; apply moved_id.
    assert (pq_status (f p1) = target) as Hst' by by rewrite Hst; apply moved_status.
    apply rtc_once, (LifeMove _ _ _ p); [unfold get_entry in *; simpl; by rewrite Hk|done|by simpl; rewrite Hst'|by apply Hch|].
    split_and!; simpl; [by rewrite Hid|by rewrite status_kind_proposal|done].
Qed.

(** An operation that assigns nothing more. *)
Lemma assign_nothing id target code m :
  life_ok m -> (proposal_transition id target code m).1 = ((p <-- proposal_transition id target code; assign (fun p => p) p) m).1.
Proof.
  intros Hok. unfold proposal_transition.
  match goal with |- context [life_transition id ?t ?u ?e] =>
    destruct (transition_cases id t u e m) as [(err & Hrun & _)|(p & Hget & Hin & Hrun)] end.
  - by rewrite (bind_err _ _ _ _ _ Hrun), Hrun.
  - rewrite (bind_ok _ _ _ _ _ Hrun), Hrun. cbv zeta. by rewrite assign_told.
Qed.

(** By the status the proposal had. *)
Ltac proposal_change_at :=
  let ts := fresh "ts" in let p := fresh "p" in let st := fresh "st" in let Hget := fresh "Hget" in let Hin := fresh "Hin" in
  let O1 := fresh "O" in let O2 := fresh "O" in let O3 := fresh "O" in let O4 := fresh "O" in let O5 := fresh "O" in
  let Hok := fresh "Hok" in
  match goal with HI : forall p, get_entry _ _ = Some p -> proposal_ok p |- _ =>
    intros ts p Hget Hin; unfold proposal_moved; pose proof (HI p Hget) as Hok end;
  clear Hget; pose proof Hok as [O1 O2 O3 O4 O5];
  destruct p as [? ? ? st ? ? ? ? ? ? ? ? ?]; cbn in Hin, O1, O2, O3, O4, O5; destruct st; cbn in Hin;
  try (exfalso; clear -Hin; closed_elem; fail);
  (split; cbn; [done| |done|first [done|closed_elem]|lia]);
  (split; cbn; intros; first [done|lia|closed_elem|apply O3; closed_elem|apply O4; closed_elem|apply O5; closed_elem]).

Section Steps.
Context (id : string) (m : ProposalManager) (Hok : life_ok m) (HI : forall p, get_entry m id = Some p -> proposal_ok p).

Lemma block_steps reason : proposal_steps m (block id reason m).1.
Proof.
  unfold block. generalize (resolveBlockReason reason). intros c. rewrite assign_nothing by done.
  apply proposal_transition_steps; [done|done|]. proposal_change_at.
Qed.
Lemma approve_steps : proposal_steps m (approve id m).1.
Proof.
  unfold approve. rewrite assign_nothing by done. apply proposal_transition_steps; [done|done|]. proposal_change_at.
Qed.
Lemma reject_steps : proposal_steps m (Proposing.reject id m).1.
Proof.
  unfold Proposing.reject. rewrite assign_nothing by done. apply proposal_transition_steps; [done|done|]. proposal_change_at.
Qed.
Lemma startApply_steps : proposal_steps m (startApply id m).1.
Proof.
  unfold startApply.
  destruct (require_cases id m) as [(err & Hr & _)|(p0 & _ & Hr)]; [by rewrite (bind_err _ _ _ _ _ Hr)|].
  rewrite (bind_ok _ _ _ _ _ Hr). case_bool_decide; [reflexivity|].
  apply proposal_transition_steps; [done|done|]. proposal_change_at.
Qed.
Lemma completeApply_steps : proposal_steps m (completeApply id m).1.
Proof.
  unfold completeApply.
  destruct (require_cases id m) as [(err & Hr & _)|(p0 & _ & Hr)]; [by rewrite (bind_err _ _ _ _ _ Hr)|].
  rewrite (bind_ok _ _ _ _ _ Hr). case_bool_decide; [reflexivity|].
  apply proposal_transition_steps; [done|done|]. proposal_change_at.
Qed.
Lemma failApply_steps reason : proposal_steps m (failApply id reason m).1.
Proof.
  unfold failApply. generalize (resolveBlockReason reason). intros c.
  destruct (require_cases id m) as [(err & Hr & _)|(p0 & _ & Hr)]; [by rewrite (bind_err _ _ _ _ _ Hr)|].
  rewrite (bind_ok _ _ _ _ _ Hr). apply proposal_transition_steps; [done|done|]. proposal_change_at.
Qed.
End Steps.

Lemma new_proposal_born input id ts : proposal_born (new_proposal input id ts).
Proof. split; cbn; intros; first [lia|done|closed_elem]. Qed.

Lemma create_proposal_steps input m : life_ok m -> proposal_steps m (create input m).1.
Proof.
  intros Hok. set (p := new_proposal input (host_uuid (mg_ids m)) (time_at 0 m)).
  set (ev := proposal_event p PropCreated (mkProposalMetadata None None) (1 + cb_nextId (mg_buffer m))%Z (time_at 1 m)).
  assert ((create input m).1 = ticked 2 (told m p ev) <| mg_ids := S (mg_ids m) |>) as -> by by destruct m.
  apply create_steps; [done|done|apply new_proposal_born|done| |done]. by split_and!.
Qed.

(** ** Histories *)

Inductive proposal_op : Type :=
| PCreate (input : ProposalCreateInput)
| PBlock (id reason : string)
| PApprove (id : string)
| PReject (id : string)
| PStart (id : string)
| PComplete (id : string)
| PFail (id reason : string).

Definition run_proposal (op : proposal_op) (m : ProposalManager) : ProposalManager :=
  match op with
  | PCreate input => (create input m).1
  | PBlock id reason => (block id reason m).1
  | PApprove id => (approve id m).1
  | PReject id => (Proposing.reject id m).1
  | PStart id => (startApply id m).1
  | PComplete id => (completeApply id m).1
  | PFail id reason => (failApply id reason m).1
  end.

Definition proposals_ok (m : ProposalManager) : Prop :=
  life_ok m /\ within begun_told applications m /\ within applied_told was_applied m /\ within failed_told failures m
  /\ forall id p, get_entry m id = Some p -> proposal_ok p.

Lemma run_proposal_steps op m : proposals_ok m -> proposal_steps m (run_proposal op m).
Proof.
  intros (Hok & _ & _ & _ & HI). destruct op; simpl.
  - by apply create_proposal_steps.
  - apply block_steps; eauto.
  - apply approve_steps; eauto.
  - apply reject_steps; eauto.
  - apply startApply_steps; eauto.
  - apply completeApply_steps; eauto.
  - apply failApply_steps; eauto.
Qed.

Context (uuid_inj : forall n k, host_uuid n = host_uuid k -> n = k).

(** A weight that every change pays for, and every birth. *)
Lemma within_proposals (weight : ConferenceProposalStatus -> nat) (budget : Proposal -> nat) m m' :
  weight CpProposed = 0 -> (forall p p', proposal_change p p' -> budget p + weight (pq_status p') <= budget p') ->
  life_ok m -> proposal_steps m m' -> within weight budget m -> within weight budget m'.
Proof.
  intros H0 Hpay Hok Hs. eapply (within_steps uuid_inj proposal_born proposal_change); [| | |exact Hok|exact Hs].
  - intros p _. simpl. rewrite H0. lia.
  - intros p p' Hc. specialize (Hpay p p' Hc). lia.
  - intros p p' Hc _. by apply Hpay.
Qed.

Lemma proposals_ok_step op m : proposals_ok m -> proposals_ok (run_proposal op m).
Proof.
  intros Hm. pose proof (run_proposal_steps op m Hm) as Hs. destruct Hm as (Hok & Hb & Ha & Hf & HI). split_and!.
  - by eapply life_steps_ok.
  - eapply within_proposals; [done|apply change_applications|exact Hok|exact Hs|exact Hb].
  - eapply within_proposals; [done|apply change_applied|exact Hok|exact Hs|exact Ha].
  - eapply within_proposals; [done|apply change_failures|exact Hok|exact Hs|exact Hf].
  - eapply (life_inv proposal_born proposal_change proposal_ok); [by intros p ?|by intros p p' []|exact Hs|exact HI].
Qed.

Lemma proposals_ok_empty max : proposals_ok (empty_manager max).
Proof. split_and!; [apply empty_manager_ok|by intros id..|done]. Qed.

Definition proposal_step : ProposalManager -> ProposalManager -> Prop := op_step run_proposal.

Lemma proposals_ok_steps m m' : rtc proposal_step m m' -> proposals_ok m -> proposals_ok m'.
Proof. apply ops_keep, proposals_ok_step. Qed.

Lemma proposal_steps_entry m m' id p :
  proposals_ok m -> rtc proposal_step m m' -> get_entry m id = Some p ->
  exists p', get_entry m' id = Some p' /\ rtc proposal_change p p'.
Proof.
  apply (ops_entry uuid_inj run_proposal proposal_born proposal_change proposals_ok);
    [by intros ? []|apply run_proposal_steps|apply proposals_ok_step].
Qed.
End Proposals.
