(* ===== verification/GithubIngestion.v ===== *)
(** * GitHub commands (src/github/ingestion.ts)

    Webhook events become tasks of the broker: the commands in bodies and comments,
    a task per issue and per command under ids that the event determines, the
    lifecycle of issues and pull requests, and what keeps deliveries from being
    taken twice or out of order. *)

From Stdlib Require Import ZArith Lia String Ascii.
From stdpp Require Import base gmap strings list pretty.
From S2P Require Import Prelude JsRuntime Types Policy Retention BrokerCore EventBuffer.
From S2P Require Import TaskEventStream Outbox Workers Proposals Github TerminalBrief Tasks.

(** ** Events (src/github/types.ts)

    The fields that the ingestion reads. *)

Record GitHubRepoRef : Type := mkGitHubRepoRef { gr_owner : string; gr_name : string; gr_fullName : string }.

Record GitHubIssueRef : Type := mkGitHubIssueRef {
  gh_number : Z;
  gh_title : string;
  gh_body : option string;
  gh_htmlUrl : string;
}.

(** An issue with the URL of its pull request and whether it was merged. *)
Record GitHubPullRequestRef : Type := mkGitHubPullRequestRef {
  gp_issue : GitHubIssueRef;
  gp_prUrl : string;
  gp_merged : option bool;
}.

Record GitHubCommentRef : Type := mkGitHubCommentRef { gc_id : Z; gc_body : string }.

Inductive GitHubIssueAction : Type := GhOpened | GhEdited | GhClosed | GhReopened | GhAssigned | GhLabeled.
Inductive GitHubPullRequestAction : Type := PrAction (a : GitHubIssueAction) | PrSynchronize | PrReadyForReview.
Inductive GitHubCommentAction : Type := GhCommentCreated | GhCommentEdited | GhCommentDeleted.

Inductive GitHubWebhookEvent : Type :=
| EvIssues (action : GitHubIssueAction) (repo : GitHubRepoRef) (issue : GitHubIssueRef)
| EvIssueComment (action : GitHubCommentAction) (repo : GitHubRepoRef) (issue : GitHubIssueRef)
    (comment : GitHubCommentRef)
| EvPullRequest (action : GitHubPullRequestAction) (repo : GitHubRepoRef) (pr : GitHubPullRequestRef)
| EvPullRequestComment (action : GitHubCommentAction) (repo : GitHubRepoRef) (pr : GitHubPullRequestRef)
    (comment : GitHubCommentRef)
| EvOther.

Record GitHubDeliveryContext : Type := mkGitHubDeliveryContext { dc_deliveryId : string; dc_receivedAt : string }.

(** ** Commands *)

Inductive GitHubWorkMode : Type := WorkModeGithub | WorkModeLocal.
Definition GitHubWorkMode_text (m : GitHubWorkMode) : string :=
  match m with WorkModeGithub => "github" | WorkModeLocal => "local" end.

Record AssignmentIntent : Type := mkAssignmentIntent {
  ai_raw : string;
  ai_target : string;
  ai_workMode : GitHubWorkMode;
  ai_intent : option A2AExchangeIntent;
  ai_message : option string;
  ai_args : jsmap string;
}.

Definition COMMAND_PREFIX : string := "/a2a assign".

Definition KNOWN_INTENTS : list A2AExchangeIntent :=
  [IntentChat; IntentAnalyze; IntentBackfill; IntentProposePatch; IntentProposeParams; IntentValidateChange;
   IntentApplyLocalChange; IntentPromoteToLive; IntentRollbackLive].

(** [split(/\r?\n/)]; the carriage return goes with the trimming of the line. *)
Definition newline : ascii := ascii_of_nat 10.
Fixpoint split_lines (l : list ascii) : list (list ascii) :=
  match l with
  | [] => [[]]
  | c :: l =>
      if Ascii.eqb c newline then [] :: split_lines l
      else match split_lines l with [] => [[c]] | line :: rest => (c :: line) :: rest end
  end.

Fixpoint is_prefix (p l : list ascii) : bool :=
  match p, l with
  | [], _ => true
  | a :: p, c :: l => Ascii.eqb a c && is_prefix p l
  | _ :: _, [] => false
  end.

(** [indexOf]. *)
Fixpoint index_in (p l : list ascii) : option nat :=
  if is_prefix p l then Some 0 else match l with [] => None | _ :: l => S <$> index_in p l end.

(** [split(/\s+/).filter(Boolean)]. *)
Fixpoint words_from (word l : list ascii) : list (list ascii) :=
  match l with
  | [] => match word with [] => [] | _ => [word] end
  | c :: l =>
      if is_space c then match word with [] => words_from [] l | _ => word :: words_from [] l end
      else words_from (word ++ [c]) l
  end.
Definition words (l : list ascii) : list string := map unchars (words_from [] l).

Definition is_flag (s : string) : bool := starts_with "--" s.

(** The loop over the tokens after the target. *)
Fixpoint parse_flags (tokens : list string) (args : jsmap string) : jsmap string :=
  match tokens with
  | [] => args
  | token :: rest =>
      if negb (is_flag token) then parse_flags rest args
      else
        match index_in (chars "=") (chars token) with
        | Some eq =>
            parse_flags rest (jm_set (unchars (take (eq - 2) (drop 2 (chars token))))
              (unchars (drop (S eq) (chars token))) args)
        | None =>
            let key := unchars (drop 2 (chars token)) in
            match rest with
            | next :: rest' =>
                if is_flag next then parse_flags rest (jm_set key "true" args)
                else parse_flags rest' (jm_set key next args)
            | [] => parse_flags rest (jm_set key "true" args)
            end
        end
  end.

Definition parseCommandLine (line : list ascii) : option AssignmentIntent :=
  let remainder := trim_chars (drop (length (chars COMMAND_PREFIX)) line) in
  match remainder with
  | [] => None
  | _ =>
      let sepIdx := index_in (chars " -- ") remainder in
      let head := match sepIdx with Some i => trim_chars (take i remainder) | None => remainder end in
      let message := match sepIdx with
                     | Some i => truthy_opt (Some (unchars (trim_chars (drop (i + 4) remainder)))) | None => None end in
      match words head with
      | [] => None
      | target :: tokens =>
          if is_flag target then None
          else
            let args := parse_flags tokens [] in
            Some {|
              ai_raw := unchars line;
              ai_target := target;
              ai_workMode := if String.eqb (jm_get "work-mode" args ?? "github") "local" then WorkModeLocal
                             else WorkModeGithub;
              ai_intent := jm_get "intent" args ≫= fun t =>
                List.find (fun i => String.eqb (A2AExchangeIntent_text i) t) KNOWN_INTENTS;
              ai_message := message;
              ai_args := args |}
      end
  end.

Definition parseAssignmentIntents (text : option string) : list AssignmentIntent :=
  match truthy_opt text with
  | None => []
  | Some text =>
      omap (fun rawLine =>
        let line := trim_chars rawLine in
        index_in (chars COMMAND_PREFIX) (map ascii_lower line) ≫= fun idx => parseCommandLine (drop idx line))
        (split_lines (chars text))
  end.

Example parses_a_command :
  ai_message <$> head (parseAssignmentIntents (Some "Please: /A2A assign w1 --work-mode local --x=1 -- look here"))
  = Some (Some "look here").
Proof. reflexivity. Qed.

(** ** State *)

Record ReplayState : Type := mkReplayState {
  rs_lastSeq : Z;
  rs_lastSeenAt : string;
  rs_lifecycleWatermark : option string;
}.
#[export] Instance eta_ReplayState : Eta ReplayState := fun r =>
  mkReplayState (rs_lastSeq r) (rs_lastSeenAt r) (rs_lifecycleWatermark r).

Inductive IngestionSkippedReason : Type :=
| SkipDuplicateDelivery | SkipNoAssignmentCommand | SkipUnknownWorker | SkipUnsupportedEvent
| SkipNoParentTask | SkipStaleLifecycle | SkipReconciliationNeeded.
#[export] Instance IngestionSkippedReason_eq_dec : EqDecision IngestionSkippedReason.
Proof. solve_decision. Defined.

Record LifecycleTransition : Type := mkLifecycleTransition {
  lt_from : TaskStatus;
  lt_to : TaskStatus;
  lt_reconciled : bool;
}.

Record IngestionResult : Type := mkIngestionResult {
  ig_deduped : bool;
  ig_replaySkipped : bool;
  ig_parentTaskId : option string;
  ig_childTaskIds : list string;
  ig_skippedReason : option IngestionSkippedReason;
  ig_lifecycleTransition : option LifecycleTransition;
}.

Definition skipped (r : IngestionSkippedReason) : IngestionResult := mkIngestionResult false false None [] (Some r) None.
Definition duplicate_result : IngestionResult :=
  mkIngestionResult true false None [] (Some SkipDuplicateDelivery) None.
Definition stale_result : IngestionResult := mkIngestionResult false true None [] (Some SkipStaleLifecycle) None.

Class GitHubIngestionOptions : Type := { gi_defaultIntent : A2AExchangeIntent; gi_requesterId : string }.

Section Service.
Context `{JsHost} `{TaskEventSink} `{BrokerConfig} `{GitHubIngestionOptions}.

Record Ingestion : Type := mkIngestion {
  gi_broker : Broker;
  gi_seenDeliveries : list string;
  gi_replayState : jsmap ReplayState;
  gi_totalEvents : Z;
  gi_staleSkipped : Z;
  gi_duplicateDeliveries : Z;
}.
#[export] Instance eta_Ingestion : Eta Ingestion := fun r =>
  mkIngestion (gi_broker r) (gi_seenDeliveries r) (gi_replayState r) (gi_totalEvents r) (gi_staleSkipped r) (gi_duplicateDeliveries r).

Definition new_ingestion (b : Broker) : Ingestion := mkIngestion b [] [] 0 0 0.

Definition GM (A : Type) : Type := stM Ingestion BrokerError A.

(** A call of the broker. *)
Definition gh_broker {A} (m : BM A) : GM A := m_zoom gi_broker (fun b s => s <| gi_broker := b |>) m.

(** ** Ids *)

Definition makePairKey (repo : GitHubRepoRef) (issueNumber : Z) : string :=
  (gr_fullName repo ++ "#" ++ pretty issueNumber)%string.
Definition parentTaskId (repo : GitHubRepoRef) (issue : GitHubIssueRef) : string :=
  ("gh:" ++ gr_fullName repo ++ "#" ++ pretty (gh_number issue))%string.

Definition childTaskId (repo : GitHubRepoRef) (issue : GitHubIssueRef) (commentId : option Z) (index : nat) : string :=
  let suffix := match commentId with Some c => ("c" ++ pretty c)%string | None => "body" end in
  ("gh:" ++ gr_fullName repo ++ "#" ++ pretty (gh_number issue) ++ ":" ++ suffix ++ ":" ++ pretty index)%string.

Definition pairKeyForEvent (event : GitHubWebhookEvent) : option string :=
  match event with
  | EvIssues _ repo issue | EvIssueComment _ repo issue _ => Some (makePairKey repo (gh_number issue))
  | EvPullRequest _ repo pr | EvPullRequestComment _ repo pr _ => Some (makePairKey repo (gh_number (gp_issue pr)))
  | EvOther => None
  end.

(** ** Order *)

Definition before (a b : string) : bool := String.ltb a b.

Definition acceptEvent (pairKey receivedAt : string) : GM bool :=
  state <-- m_gets (fun s => jm_get pairKey (gi_replayState s));
  match state with
  | None =>
      m_modify (fun s => s <| gi_replayState ::= jm_set pairKey (mkReplayState 1 receivedAt None) |>
                           <| gi_totalEvents ::= Z.add 1 |>);;;
      m_ret true
  | Some state =>
      if before receivedAt (rs_lastSeenAt state) then
        m_modify (fun s => s <| gi_staleSkipped ::= Z.add 1 |>);;;
        m_ret false
      else
        let state' := if before (rs_lastSeenAt state) receivedAt
                      then state <| rs_lastSeq ::= Z.add 1 |> <| rs_lastSeenAt := receivedAt |> else state in
        m_modify (fun s => s <| gi_replayState ::= jm_set pairKey state' |> <| gi_totalEvents ::= Z.add 1 |>);;;
        m_ret true
  end.

(** [Some result] short-circuits the handler. *)
Definition gateLifecycleEntry (repo : GitHubRepoRef) (issueNumber : Z) (ctx : GitHubDeliveryContext)
    : GM (option IngestionResult) :=
  let pairKey := makePairKey repo issueNumber in
  let receivedAt := dc_receivedAt ctx in
  let stale := (m_modify (fun s => s <| gi_staleSkipped ::= Z.add 1 |>);;; m_ret (Some stale_result)) in
  state <-- m_gets (fun s => jm_get pairKey (gi_replayState s));
  match state with
  | None =>
      m_modify (fun s => s
        <| gi_replayState ::= jm_set pairKey (mkReplayState 1 receivedAt (Some receivedAt)) |>
        <| gi_totalEvents ::= Z.add 1 |>);;;
      m_ret None
  | Some state =>
      if match truthy_opt (rs_lifecycleWatermark state) with Some w => before receivedAt w | None => false end then stale
      else
        let isReentry := String.eqb receivedAt (rs_lastSeenAt state) in
        if negb isReentry && before receivedAt (rs_lastSeenAt state) then stale
        else
          let state1 := if isReentry then state
                        else state <| rs_lastSeq ::= Z.add 1 |> <| rs_lastSeenAt := receivedAt |> in
          let state2 := if match truthy_opt (rs_lifecycleWatermark state1) with
                           | Some w => before w receivedAt | None => true end
                        then state1 <| rs_lifecycleWatermark := Some receivedAt |> else state1 in
          m_modify (fun s => s <| gi_replayState ::= jm_set pairKey state2 |>
            <| gi_totalEvents ::= if isReentry then id else Z.add 1 |>);;;
          m_ret None
  end.

(** ** Tasks *)

Definition github_party : A2APartyRef := mkA2APartyRef gi_requesterId (Some KindService) (Some RoleOperator).

Definition github_request (id : string) (parent : option string) (intent : AssignmentIntent) (message : string)
    (payload : JsRecord) : CreateTaskRequest :=
  mkCreateTaskRequest (Some id) None parent None (ai_intent intent ?? gi_defaultIntent) github_party
    (mkA2APartyRef (ai_target intent) (Some KindNode) None) None (Some message) None None (Some (ai_target intent))
    None None None (Some payload) (Some OriginGithub) None None.

Definition github_payload (repo : GitHubRepoRef) (issue : GitHubIssueRef) (intent : AssignmentIntent)
    (ctx : GitHubDeliveryContext) : JsRecord :=
  [("githubDeliveryId", JStr (dc_deliveryId ctx)); ("githubReceivedAt", JStr (dc_receivedAt ctx));
   ("githubRepo", JStr (gr_fullName repo)); ("githubIssueNumber", JNum (NInt (gh_number issue)));
   ("githubIssueTitle", JStr (gh_title issue)); ("githubIssueUrl", JStr (gh_htmlUrl issue));
   ("githubWorkMode", JStr (GitHubWorkMode_text (ai_workMode intent)))].

Definition ensureParentTask (repo : GitHubRepoRef) (issue : GitHubIssueRef) (seedIntent : AssignmentIntent)
    (ctx : GitHubDeliveryContext) : GM (option TaskRecord) :=
  let id := parentTaskId repo issue in
  existing <-- gh_broker (getTask id);
  match existing with
  | Some task => m_ret (Some task)
  | None =>
      worker <-- gh_broker (getWorker (ai_target seedIntent));
      match worker with
      | None => m_ret None
      | Some _ =>
          task <-- gh_broker (createTask (github_request id None seedIntent
            (ai_message seedIntent ?? (gr_fullName repo ++ "#" ++ pretty (gh_number issue) ++ ": " ++ gh_title issue)%string)
            (github_payload repo issue seedIntent ctx ++ [("githubKind", JStr "issue")])));
          m_ret (Some task)
      end
  end.

Definition createChildTask (repo : GitHubRepoRef) (issue : GitHubIssueRef) (commentId : option Z) (index : nat)
    (intent : AssignmentIntent) (ctx : GitHubDeliveryContext) (parent : string) : GM (option TaskRecord) :=
  worker <-- gh_broker (getWorker (ai_target intent));
  match worker with
  | None => m_ret None
  | Some _ =>
      let id := childTaskId repo issue commentId index in
      existing <-- gh_broker (getTask id);
      match existing with
      | Some task => m_ret (Some task)
      | None =>
          task <-- gh_broker (createTask (github_request id (Some parent) intent (ai_message intent ?? ai_raw intent)
            (github_payload repo issue intent ctx
             ++ match commentId with Some c => [("githubCommentId", JNum (NInt c))] | None => [] end
             ++ [("githubKind", JStr (match commentId with Some _ => "comment" | None => "issue" end));
                 ("githubCommandIndex", JNum (NInt (Z.of_nat index)))])));
          m_ret (Some task)
      end
  end.

(** The loop over the commands from [index] on: the ids of the children. *)
Fixpoint create_children (repo : GitHubRepoRef) (issue : GitHubIssueRef) (commentId : option Z) (index : nat)
    (intents : list AssignmentIntent) (ctx : GitHubDeliveryContext) (parent : string) : GM (list string) :=
  match intents with
  | [] => m_ret []
  | intent :: intents =>
      child <-- createChildTask repo issue commentId index intent ctx parent;
      rest <-- create_children repo issue commentId (S index) intents ctx parent;
      m_ret (match child with Some t => task_id t :: rest | None => rest end)
  end.

(** ** Lifecycle *)

Definition isTerminal (s : TaskStatus) : bool := bool_decide (s ∈ [TaskSucceeded; TaskFailed; TaskCanceled]).

Definition cancelExistingTask (reason : string) (task : TaskRecord) : GM (option TaskRecord) :=
  t <-- gh_broker (cancelTask (task_id task) (Some github_party) (Some reason));
  m_ret (Some t).

Definition completeExistingTask (result : TaskResult) (task : TaskRecord) : GM (option TaskRecord) :=
  if negb (bool_decide (task_status task ∈ [TaskClaimed; TaskRunning])) then m_ret None
  else
    let workerId := (task_claimedBy task ??o task_assignedWorkerId task) ?? task_targetNodeId task in
    if negb (str_truthy workerId) then m_ret None
    else
      worker <-- gh_broker (getWorker workerId);
      match worker with
      | None => m_ret None
      | Some _ => m_try (gh_broker (completeTask (task_id task) workerId (Some result)))
      end.

Definition applyLifecycle (repo : GitHubRepoRef) (issue : GitHubIssueRef) (targetStatus : TaskStatus)
    (transition : TaskRecord -> GM (option TaskRecord)) : GM IngestionResult :=
  o <-- gh_broker (getTask (parentTaskId repo issue));
  match o with
  | None => m_ret (skipped SkipNoParentTask)
  | Some task =>
      let fromStatus := task_status task in
      let answer id reason to reconciled :=
        mkIngestionResult false false (Some id) [] reason (Some (mkLifecycleTransition fromStatus to reconciled)) in
      if bool_decide (fromStatus = targetStatus) then m_ret (answer (task_id task) None fromStatus false)
      else if isTerminal fromStatus then
        m_ret (answer (task_id task) (Some SkipReconciliationNeeded) targetStatus true)
      else
        post <-- transition task;
        match post with
        | None => m_ret (answer (task_id task) (Some SkipReconciliationNeeded) targetStatus true)
        | Some post => m_ret (answer (task_id post) None (task_status post) false)
        end
  end.

(** A handler behind its gate. *)
Definition behind_gate (repo : GitHubRepoRef) (issueNumber : Z) (ctx : GitHubDeliveryContext) (m : GM IngestionResult)
    : GM IngestionResult :=
  gate <-- gateLifecycleEntry repo issueNumber ctx;
  match gate with Some r => m_ret r | None => m end.

Definition handleIssueClosed (repo : GitHubRepoRef) (issue : GitHubIssueRef) (ctx : GitHubDeliveryContext) : GM IngestionResult :=
  behind_gate repo (gh_number issue) ctx (applyLifecycle repo issue TaskCanceled (cancelExistingTask "issue closed")).

Definition handleIssueReopened (repo : GitHubRepoRef) (issue : GitHubIssueRef) (ctx : GitHubDeliveryContext) : GM IngestionResult :=
  behind_gate repo (gh_number issue) ctx (applyLifecycle repo issue TaskQueued (fun _ => m_ret None)).

Definition merged_result (pr : GitHubPullRequestRef) : TaskResult :=
  mkTaskResult (Some ("merged " ++ gp_prUrl pr)%string) None None
    (Some [("pullRequestUrl", JStr (gp_prUrl pr)); ("pullRequestNumber", JNum (NInt (gh_number (gp_issue pr))));
           ("merged", JBool true)]) None None.

Definition handlePullRequestMerged (repo : GitHubRepoRef) (pr : GitHubPullRequestRef) (ctx : GitHubDeliveryContext) : GM IngestionResult :=
  behind_gate repo (gh_number (gp_issue pr)) ctx
    (applyLifecycle repo (gp_issue pr) TaskSucceeded (completeExistingTask (merged_result pr))).

Definition handlePullRequestClosed (repo : GitHubRepoRef) (pr : GitHubPullRequestRef) (ctx : GitHubDeliveryContext) : GM IngestionResult :=
  behind_gate repo (gh_number (gp_issue pr)) ctx
    (applyLifecycle repo (gp_issue pr) TaskCanceled (cancelExistingTask "pull request closed without merge")).

(** ** Events *)

(** The tasks of the commands of a text: the first stands for the issue, those
    from [first] on become children. *)
Definition ingest_commands (repo : GitHubRepoRef) (issue : GitHubIssueRef) (commentId : option Z) (text : option string)
    (first : nat) (ctx : GitHubDeliveryContext) : GM IngestionResult :=
  match parseAssignmentIntents text with
  | [] => m_ret (skipped SkipNoAssignmentCommand)
  | (primary :: _) as intents =>
      o <-- ensureParentTask repo issue primary ctx;
      match o with
      | None => m_ret (skipped SkipUnknownWorker)
      | Some parent =>
          children <-- create_children repo issue commentId 0 (drop first intents) ctx (task_id parent);
          m_ret (mkIngestionResult false false (Some (task_id parent)) children None None)
      end
  end.

Definition ingestIssue (action : GitHubIssueAction) (repo : GitHubRepoRef) (issue : GitHubIssueRef)
    (ctx : GitHubDeliveryContext) : GM IngestionResult :=
  match action with
  | GhClosed => handleIssueClosed repo issue ctx
  | GhReopened => handleIssueReopened repo issue ctx
  | _ => ingest_commands repo issue None (gh_body issue) 1 ctx
  end.

Definition ingestIssueComment (action : GitHubCommentAction) (repo : GitHubRepoRef) (issue : GitHubIssueRef)
    (comment : GitHubCommentRef) (ctx : GitHubDeliveryContext) : GM IngestionResult :=
  match action with
  | GhCommentDeleted => m_ret (skipped SkipUnsupportedEvent)
  | _ => ingest_commands repo issue (Some (gc_id comment)) (Some (gc_body comment)) 0 ctx
  end.

Definition ingestPullRequest (action : GitHubPullRequestAction) (repo : GitHubRepoRef) (pr : GitHubPullRequestRef)
    (ctx : GitHubDeliveryContext) : GM IngestionResult :=
  match action with
  | PrAction GhClosed =>
      if obool_true (gp_merged pr) then handlePullRequestMerged repo pr ctx else handlePullRequestClosed repo pr ctx
  | PrAction GhReopened => handleIssueReopened repo (gp_issue pr) ctx
  | _ => ingestIssue GhOpened repo (gp_issue pr) ctx
  end.

Definition ingestPullRequestComment (action : GitHubCommentAction) (repo : GitHubRepoRef) (pr : GitHubPullRequestRef)
    (comment : GitHubCommentRef) (ctx : GitHubDeliveryContext) : GM IngestionResult :=
  ingestIssueComment action repo (gp_issue pr) comment ctx.

Definition ingest_event (event : GitHubWebhookEvent) (ctx : GitHubDeliveryContext) : GM IngestionResult :=
  match event with
  | EvIssues action repo issue => ingestIssue action repo issue ctx
  | EvIssueComment action repo issue comment => ingestIssueComment action repo issue comment ctx
  | EvPullRequest action repo pr => ingestPullRequest action repo pr ctx
  | EvPullRequestComment action repo pr comment => ingestPullRequestComment action repo pr comment ctx
  | EvOther => m_ret (skipped SkipUnsupportedEvent)
  end.

Definition ingest_webhook (event : GitHubWebhookEvent) (ctx : GitHubDeliveryContext) : GM IngestionResult :=
  seen <-- m_gets gi_seenDeliveries;
  if bool_decide (dc_deliveryId ctx ∈ seen) then
    m_modify (fun s => s <| gi_duplicateDeliveries ::= Z.add 1 |>);;;
    m_ret duplicate_result
  else
    m_modify (fun s => s <| gi_seenDeliveries ::= fun l => l ++ [dc_deliveryId ctx] |>);;;
    accepted <-- match pairKeyForEvent event with
                 | Some pairKey => acceptEvent pairKey (dc_receivedAt ctx)
                 | None => m_ret true
                 end;
    if negb accepted then m_ret stale_result else ingest_event event ctx.

Record ReplayStats : Type := mkReplayStats {
  st_trackedPairs : Z;
  st_totalEvents : Z;
  st_staleSkipped : Z;
  st_duplicateDeliveries : Z;
  st_lifecycleWatermarks : Z;
}.
Definition getReplayStats (s : Ingestion) : ReplayStats :=
  mkReplayStats (Z.of_nat (length (gi_replayState s))) (gi_totalEvents s) (gi_staleSkipped s) (gi_duplicateDeliveries s)
    (Z.of_nat (length (List.filter (fun r => ostr_truthy (rs_lifecycleWatermark r)) (jm_values (gi_replayState s))))).
End Service.
