(* ===== verification/GithubIngestionFacts.v ===== *)
(** * Deliveries in any order

    The order of the times that keeps deliveries apart; every delivery is a
    sequence of calls of the broker; what the replay state remembers; and what the
    lifecycle of an issue does to its task. *)

From Stdlib Require Import ZArith Lia String Ascii.
From stdpp Require Import base gmap strings list pretty relations.
From S2P Require Import Prelude JsRuntime Types Policy Retention BrokerCore CoreFacts EventBuffer.
From S2P Require Import TaskEventStream Outbox Workers Proposals Github TerminalBrief Tasks.
From S2P Require Import TaskMachine TaskFacts TaskRuns Cancellation Exchanges System GithubIngestion.

(** ** Times as texts *)

Lemma before_spec a b : before a b = true <-> ~ String.le b a.
Proof.
  unfold before, String.le, String.ltb, String.leb. rewrite (String.compare_antisym a b).
  destruct (String.compare b a); simpl; intuition congruence.
Qed.

Lemma not_before_spec a b : before a b = false <-> String.le b a.
Proof. rewrite <- not_true_iff_false, before_spec. split; [apply dec_stable|tauto]. Qed.

Lemma not_before_refl a : before a a = false.
Proof. apply not_before_spec. reflexivity. Qed.

Lemma not_before_trans a b c : before b a = false -> before c b = false -> before c a = false.
Proof. rewrite !not_before_spec. intros ? ?. by etransitivity. Qed.

Lemma before_not_before a b : before a b = true -> before b a = false.
Proof. rewrite before_spec, not_before_spec. intros Hn. by destruct (total String.le a b). Qed.

Lemma not_before_antisym a b : before a b = false -> before b a = false -> a = b.
Proof. rewrite !not_before_spec. intros ? ?. by apply (anti_symm String.le). Qed.

(** ** A delivery is made of a few steps *)

Section Ingestion.
Context `{JsHost} `{TaskEventSink} `{BrokerConfig} `{GitHubIngestionOptions}.

Definition gh_id (id : string) : Prop := exists s, id = ("gh:" ++ s)%string.

Lemma gh_broker_readonly {A} (m : BM A) : readonly m -> preserves eq (gh_broker m).
Proof.
  intros Hm s. specialize (Hm (gi_broker s)). unfold gh_broker, m_zoom.
  destruct (m (gi_broker s)) as [b r]. simpl in *. subst b. by destruct s.
Qed.

Section Walk.
Context (T : Ingestion -> Ingestion -> Prop) `{!Reflexive T} `{!Transitive T}.

Lemma walk_read {A} (m : BM A) : readonly m -> preserves T (gh_broker m).
Proof. intros Hm. eapply preserves_mono; [|by apply gh_broker_readonly]. intros s s' <-. reflexivity. Qed.

Lemma walk_getTask id : preserves T (gh_broker (getTask id)).
Proof. apply walk_read, readonly_gets_map. Qed.
Lemma walk_getWorker id : preserves T (gh_broker (getWorker id)).
Proof. apply walk_read, readonly_gets_map. Qed.
Hint Resolve walk_getTask walk_getWorker : preserves_db.

Section Assignments.
Context (ids : list string)
  (T_create : forall id parent intent message payload, id ∈ ids ->
     preserves T (gh_broker (createTask (github_request id parent intent message payload)))).

Lemma walk_parent repo issue seed ctx :
  parentTaskId repo issue ∈ ids -> preserves T (ensureParentTask repo issue seed ctx).
Proof.
  intros Hid. reveal ensureParentTask. cbv zeta. preserves_auto.
Qed.

Lemma walk_child repo issue commentId index intent ctx parent :
  childTaskId repo issue commentId index ∈ ids ->
  preserves T (createChildTask repo issue commentId index intent ctx parent).
Proof. intros Hid. reveal createChildTask. cbv zeta. preserves_auto. Qed.

Lemma walk_children repo issue commentId intents index ctx parent :
  (forall k, index <= k < index + length intents -> childTaskId repo issue commentId k ∈ ids) ->
  preserves T (create_children repo issue commentId index intents ctx parent).
Proof.
  revert index. induction intents as [|intent intents IH]; intros index Hids; simpl; [apply preserves_ret, _|].
  apply preserves_bind; [done|apply walk_child, Hids; simpl; lia|]. intros child.
  apply preserves_bind; [done| |intros; apply preserves_ret, _]. apply IH. intros k Hk. apply Hids. simpl. lia.
Qed.
End Assignments.

Section Lifecycle.
Context (T_cancel : forall id actor reason, preserves T (gh_broker (cancelTask id actor reason)))
  (T_complete : forall id w r, preserves T (gh_broker (completeTask id w r))).
Hint Resolve T_cancel T_complete preserves_try : preserves_db.

Lemma walk_cancelExisting reason task : preserves T (cancelExistingTask reason task).
Proof. unfold cancelExistingTask. preserves_auto. Qed.
Lemma walk_completeExisting result task : preserves T (completeExistingTask result task).
Proof. unfold completeExistingTask. preserves_auto. Qed.

Lemma walk_applyLifecycle repo issue target transition :
  (forall task, preserves T (transition task)) -> preserves T (applyLifecycle repo issue target transition).
Proof. intros Ht. unfold applyLifecycle. preserves_auto. Qed.
End Lifecycle.
End Walk.

(** ** Commands and lifecycle *)

(** A text with commands: where it stands, and which of its commands is the first
    to become a child. *)
Record Assignment : Type := mkAssignment {
  as_repo : GitHubRepoRef;
  as_issue : GitHubIssueRef;
  as_comment : option Z;
  as_text : option string;
  as_first : nat;
}.

Definition assignment_of (event : GitHubWebhookEvent) : option Assignment :=
  match event with
  | EvIssues GhClosed _ _ | EvIssues GhReopened _ _ => None
  | EvIssues _ repo issue => Some (mkAssignment repo issue None (gh_body issue) 1)
  | EvIssueComment GhCommentDeleted _ _ _ => None
  | EvIssueComment _ repo issue c => Some (mkAssignment repo issue (Some (gc_id c)) (Some (gc_body c)) 0)
  | EvPullRequest (PrAction GhClosed) _ _ | EvPullRequest (PrAction GhReopened) _ _ => None
  | EvPullRequest _ repo pr => Some (mkAssignment repo (gp_issue pr) None (gh_body (gp_issue pr)) 1)
  | EvPullRequestComment GhCommentDeleted _ _ _ => None
  | EvPullRequestComment _ repo pr c =>
      Some (mkAssignment repo (gp_issue pr) (Some (gc_id c)) (Some (gc_body c)) 0)
  | EvOther => None
  end.

Definition as_commands (a : Assignment) : list AssignmentIntent := drop (as_first a) (parseAssignmentIntents (as_text a)).
Definition as_parent (a : Assignment) : string := parentTaskId (as_repo a) (as_issue a).
Definition as_child (a : Assignment) (index : nat) : string :=
  childTaskId (as_repo a) (as_issue a) (as_comment a) index.

(** The ids of the tasks that an assignment may create. *)
Definition assignment_ids (a : Assignment) : list string :=
  as_parent a :: map (as_child a) (seq 0 (length (as_commands a))).

Lemma assignment_event event a ctx :
  assignment_of event = Some a ->
  ingest_event event ctx = ingest_commands (as_repo a) (as_issue a) (as_comment a) (as_text a) (as_first a) ctx.
Proof.
  destruct event as [act repo issue|act repo issue c|act repo pr|act repo pr c|]; simpl;
    try destruct act; try match goal with a : GitHubIssueAction |- _ => destruct a end; intros [= <-]; reflexivity.
Qed.

(** Every other event changes a lifecycle, or nothing. *)
Lemma other_event event ctx :
  assignment_of event = None ->
  (exists r, ingest_event event ctx = m_ret r /\ ig_deduped r = false /\ ig_replaySkipped r = false)
  \/ exists repo n m, pairKeyForEvent event = Some (makePairKey repo n)
       /\ ingest_event event ctx = behind_gate repo n ctx m
       /\ exists issue target transition, m = applyLifecycle repo issue target transition
            /\ (forall task, transition task = m_ret None
                 \/ (exists reason, transition task = cancelExistingTask reason task)
                 \/ exists result, transition task = completeExistingTask result task).
Proof.
  unfold handleIssueReopened.
  destruct event as [act repo issue|act repo issue c|act repo pr|act repo pr c|]; simpl; intros Ha;
    try (left; eexists; split; [reflexivity|done]);
    try destruct act; try match goal with a : GitHubIssueAction |- _ => destruct a end; simplify_eq;
    try (left; eexists; split; [reflexivity|done]); right;
    unfold ingestPullRequest, ingestIssue, handlePullRequestMerged, handlePullRequestClosed, handleIssueClosed,
      handleIssueReopened; try destruct (obool_true _);
    do 3 eexists; (split; [reflexivity|]); (split; [reflexivity|]);
    do 3 eexists; (split; [reflexivity|]); intros task; eauto.
Qed.

Section Events.
Context (T : Ingestion -> Ingestion -> Prop) `{!Reflexive T} `{!Transitive T}.

Lemma walk_assignment a ctx :
  (forall id parent intent message payload, id ∈ assignment_ids a ->
     preserves T (gh_broker (createTask (github_request id parent intent message payload)))) ->
  preserves T (ingest_commands (as_repo a) (as_issue a) (as_comment a) (as_text a) (as_first a) ctx).
Proof.
  intros Hc. unfold ingest_commands. destruct (parseAssignmentIntents _) as [|primary rest] eqn:Hp; [by apply preserves_ret|].
  apply preserves_bind; [done| |].
  { apply (walk_parent T (assignment_ids a)); [exact Hc|]. by left. }
  intros [parent|]; [|by apply preserves_ret]. rewrite <- Hp.
  apply preserves_bind; [done| |intros; by apply preserves_ret].
  apply (walk_children T (assignment_ids a)); [exact Hc|]. intros k Hk. right.
  apply (list_elem_of_fmap_2 (as_child a)), elem_of_seq. unfold as_commands. lia.
Qed.

Context (T_gate : forall repo n ctx, preserves T (gateLifecycleEntry repo n ctx))
  (T_create : forall id parent intent message payload, gh_id id ->
     preserves T (gh_broker (createTask (github_request id parent intent message payload))))
  (T_cancel : forall id actor reason, preserves T (gh_broker (cancelTask id actor reason)))
  (T_complete : forall id w r, preserves T (gh_broker (completeTask id w r))).

Lemma assignment_gh_ids a id : id ∈ assignment_ids a -> gh_id id.
Proof.
  intros [->|(k & -> & _)%list_elem_of_fmap]%elem_of_cons; unfold gh_id; eexists; reflexivity.
Qed.

Lemma walk_gated repo n ctx issue target transition :
  (forall task, transition task = m_ret None
     \/ (exists reason, transition task = cancelExistingTask reason task)
     \/ exists result, transition task = completeExistingTask result task) ->
  preserves T (behind_gate repo n ctx (applyLifecycle repo issue target transition)).
Proof.
  intros Htr. unfold behind_gate. apply preserves_bind; [done|done|]. intros [r|]; [by apply preserves_ret|].
  apply walk_applyLifecycle; [done..|]. intros task.
  destruct (Htr task) as [->|[[reason ->]|[result ->]]]; [by apply preserves_ret| |].
  - by apply walk_cancelExisting.
  - by apply walk_completeExisting.
Qed.

Lemma walk_event event ctx : preserves T (ingest_event event ctx).
Proof.
  destruct (assignment_of event) as [a|] eqn:Ha.
  - rewrite (assignment_event _ _ _ Ha). apply walk_assignment. intros id parent intent message payload Hid.
    by apply T_create, (assignment_gh_ids a).
  - destruct (other_event event ctx Ha) as [(r & -> & _)|(repo & n & m & _ & -> & issue & target & tr & -> & Htr)];
      [by apply preserves_ret|].
    by apply walk_gated.
Qed.

Context (T_replay : forall f, (forall s, gi_replayState (f s) = gi_replayState s) ->
    (forall s, gi_seenDeliveries s ⊆ gi_seenDeliveries (f s)) ->
    (forall s, gi_broker (f s) = gi_broker s) -> preserves (E:=BrokerError) T (m_modify f))
  (T_accept : forall key t, preserves T (acceptEvent key t)).

Lemma walk_webhook event ctx : preserves T (ingest_webhook event ctx).
Proof.
  unfold ingest_webhook. apply preserves_bind; [done|by apply preserves_gets|]. intros seen.
  case_bool_decide.
  - apply preserves_bind; [done|by apply T_replay|intros; by apply preserves_ret].
  - apply preserves_bind; [done|apply T_replay; [done| |done]; intros s; simpl; set_solver|]. intros _.
    apply preserves_bind; [done| |].
    + destruct (pairKeyForEvent event); [apply T_accept|by apply preserves_ret].
    + intros []; simpl; [apply walk_event|by apply preserves_ret].
Qed.
End Events.

(** ** Deliveries are sequences of calls *)

Definition gh_calls (s s' : Ingestion) : Prop := rtc broker_step (gi_broker s) (gi_broker s').
#[export] Instance gh_calls_refl : Reflexive gh_calls.
Proof. intros s. unfold gh_calls. reflexivity. Qed.
#[export] Instance gh_calls_trans : Transitive gh_calls.
Proof. intros s1 s2 s3 H12 H23. unfold gh_calls in *. by etransitivity. Qed.

Lemma gh_call {A} (m : BM A) c :
  (forall b, proper_call c b) -> run_call c = ignore m -> preserves gh_calls (gh_broker m).
Proof.
  intros Hc Hrun s. unfold gh_calls. assert (gi_broker (gh_broker m s).1 = (m (gi_broker s)).1) as ->.
  { unfold gh_broker, m_zoom. by destruct (m (gi_broker s)). }
  apply rtc_once. exists c. split; [apply Hc|]. rewrite Hrun. apply ignore_fst.
Qed.

Section Calls.
(** The host's ids are not those of issues. *)
Context (uuid_plain : forall n, ~ gh_id (host_uuid n)).

Lemma gh_admissible id parent intent message payload b :
  gh_id id -> admissible (github_request id parent intent message payload) b.
Proof.
  intros Hid i [= <-]. split; [by destruct Hid as [s ->]|]. intros _ n _ ->. by apply (uuid_plain n).
Qed.

Lemma calls_replay f : (forall s, gi_broker (f s) = gi_broker s) -> preserves (E:=BrokerError) gh_calls (m_modify f).
Proof. intros Hf. apply preserves_modify. intros s. unfold gh_calls. by rewrite Hf. Qed.

Lemma calls_gate repo n ctx : preserves gh_calls (gateLifecycleEntry repo n ctx).
Proof.
  unfold gateLifecycleEntry. cbv zeta. preserves_auto; by apply calls_replay.
Qed.

Lemma calls_create id parent intent message payload :
  gh_id id -> preserves gh_calls (gh_broker (createTask (github_request id parent intent message payload))).
Proof.
  intros Hid. apply (gh_call _ (CallCreateTask (github_request id parent intent message payload))); [|done].
  intros b. by apply gh_admissible.
Qed.
Lemma calls_cancel id actor reason : preserves gh_calls (gh_broker (cancelTask id actor reason)).
Proof. by apply (gh_call _ (CallCancelTask id actor reason)). Qed.
Lemma calls_complete id w r : preserves gh_calls (gh_broker (completeTask id w r)).
Proof. by apply (gh_call _ (CallCompleteTask id w r)). Qed.
Hint Resolve calls_gate calls_create calls_cancel calls_complete : core.

Lemma calls_event event ctx : preserves gh_calls (ingest_event event ctx).
Proof. apply walk_event; auto with typeclass_instances. Qed.

Lemma calls_webhook event ctx : preserves gh_calls (ingest_webhook event ctx).
Proof.
  apply walk_webhook; auto with typeclass_instances.
  - intros f _ _ Hf. by apply calls_replay.
  - intros key t. unfold acceptEvent. cbv zeta. preserves_auto; by apply calls_replay.
Qed.

Context (uuid_inj : forall m n, host_uuid m = host_uuid n -> m = n).

(** An assignment leaves every task alone that it does not name. *)
Definition gh_frame (ids : list string) (s s' : Ingestion) : Prop :=
  wf_broker (gi_broker s) -> wf_broker (gi_broker s')
    /\ forall id, id ∉ ids -> kept (stored (gi_broker s) id) (stored (gi_broker s') id).
#[export] Instance gh_frame_refl ids : Reflexive (gh_frame ids).
Proof. intros s Hwf. split; [done|]. intros. reflexivity. Qed.
#[export] Instance gh_frame_trans ids : Transitive (gh_frame ids).
Proof.
  intros s1 s2 s3 H12 H23 Hwf. destruct (H12 Hwf) as [Hwf2 K12]. destruct (H23 Hwf2) as [Hwf3 K23].
  split; [done|]. intros id Hid. by etransitivity; [apply K12|apply K23].
Qed.

Lemma create_frame r b id :
  wf_broker b -> admissible r b -> ct_id r = Some id ->
  wf_broker (createTask r b).1 /\ forall i, i <> id -> kept (stored b i) (stored (createTask r b).1 i).
Proof.
  intros Hwf Ha Hid. destruct (create_run uuid_inj r b Hwf Ha) as [[e ->]|[(i & t & _ & _ & ->)|(r' & Hr & b' & -> & Hwf' & _ & _ & Hk)]].
  - split; [done|]. intros. reflexivity.
  - split; [done|]. intros. reflexivity.
  - split; [done|]. intros i Hi. apply Hk. apply normalize_keeps_id in Hr. unfold new_id. by rewrite Hr, Hid.
Qed.

Lemma frame_assignment a ctx :
  preserves (gh_frame (assignment_ids a))
    (ingest_commands (as_repo a) (as_issue a) (as_comment a) (as_text a) (as_first a) ctx).
Proof.
  apply walk_assignment; [apply _..|]. intros id parent intent message payload Hid s Hwf.
  destruct (create_frame (github_request id parent intent message payload) (gi_broker s) id)
    as [Hwf' Hk]; [done|by apply gh_admissible, (assignment_gh_ids a)|done|].
  unfold gh_broker, m_zoom. destruct (createTask _ _) as [b' r]. simpl in *. split; [done|].
  intros i Hi. apply Hk. by intros ->.
Qed.

End Calls.

(** ** What the replay state remembers *)

(** The lifecycle of a pair was last changed no later than its last event. *)
Definition watermark_ok (s : Ingestion) : Prop :=
  forall key st w, jm_get key (gi_replayState s) = Some st -> rs_lifecycleWatermark st = Some w ->
    before (rs_lastSeenAt st) w = false.

(** Ids and times of the past are not forgotten. *)
Definition remembers (s s' : Ingestion) : Prop :=
  gi_seenDeliveries s ⊆ gi_seenDeliveries s' /\ forall key st, jm_get key (gi_replayState s) = Some st ->
    exists st', jm_get key (gi_replayState s') = Some st' /\ before (rs_lastSeenAt st') (rs_lastSeenAt st) = false.

Definition replay_step (s s' : Ingestion) : Prop := remembers s s' /\ (watermark_ok s -> watermark_ok s').
#[export] Instance replay_step_refl : Reflexive replay_step.
Proof. intros s. split; [split; [done|]|done]. intros key st Hst. exists st. split; [done|apply not_before_refl]. Qed.
#[export] Instance replay_step_trans : Transitive replay_step.
Proof.
  intros s1 s2 s3 [[Hs12 H12] W12] [[Hs23 H23] W23]. split; [split; [set_solver|]|auto].
  intros key st Hst. destruct (H12 key st Hst) as (st2 & Hst2 & L2). destruct (H23 key st2 Hst2) as (st3 & Hst3 & L3).
  exists st3. split; [done|]. by eapply not_before_trans.
Qed.

(** One pair's state is replaced. *)
Lemma replay_set s s' key st' :
  gi_seenDeliveries s' = gi_seenDeliveries s -> gi_replayState s' = jm_set key st' (gi_replayState s) ->
  (forall st, jm_get key (gi_replayState s) = Some st -> before (rs_lastSeenAt st') (rs_lastSeenAt st) = false) ->
  (watermark_ok s -> forall w, rs_lifecycleWatermark st' = Some w -> before (rs_lastSeenAt st') w = false) ->
  replay_step s s'.
Proof.
  intros Hseen Hset Hlate Hw. split; [split|].
  - by rewrite Hseen.
  - intros k st Hst. rewrite Hset, jm_get_set. destruct (String.eqb_spec k key) as [->|].
    + exists st'. auto.
    + exists st. split; [done|apply not_before_refl].
  - intros Hok k st w. rewrite Hset, jm_get_set. destruct (String.eqb_spec k key) as [->|]; [|apply Hok].
    intros [= <-]. by apply Hw.
Qed.

Lemma replay_unchanged (f : Ingestion -> Ingestion) :
  (forall s, gi_replayState (f s) = gi_replayState s) -> (forall s, gi_seenDeliveries s ⊆ gi_seenDeliveries (f s)) ->
  preserves (E:=BrokerError) replay_step (m_modify f).
Proof.
  intros Hr Hs. apply preserves_modify. intros s. split; [split; [apply Hs|]|].
  - intros key st Hst. rewrite Hr. exists st. split; [done|apply not_before_refl].
  - intros Hok key st w. rewrite Hr. apply Hok.
Qed.

Lemma replay_stale s : replay_step s (s <| gi_staleSkipped ::= Z.add 1 |>).
Proof. by apply (replay_unchanged (fun s => s <| gi_staleSkipped ::= Z.add 1 |>) (fun _ => eq_refl)). Qed.

Lemma replay_broker {A} (m : BM A) : preserves replay_step (gh_broker m).
Proof.
  intros s. unfold gh_broker, m_zoom. destruct (m (gi_broker s)) as [b r]. simpl. split; [split; [done|]|done].
  intros key st Hst. exists st. split; [done|apply not_before_refl].
Qed.

(** What an event at time [t] makes of the state of its pair. *)
Definition advance (t : string) (st : ReplayState) : ReplayState :=
  if before (rs_lastSeenAt st) t then st <| rs_lastSeq ::= Z.add 1 |> <| rs_lastSeenAt := t |> else st.

Lemma advance_late t st :
  before t (rs_lastSeenAt st) = false -> rs_lastSeenAt (advance t st) = t.
Proof.
  intros Ht. unfold advance. destruct (before (rs_lastSeenAt st) t) eqn:Hb; [done|]. by apply not_before_antisym.
Qed.
Lemma advance_watermark t st : rs_lifecycleWatermark (advance t st) = rs_lifecycleWatermark st.
Proof. unfold advance. by destruct (before _ _). Qed.

(** The three cases of an arrival. *)
Lemma accept_run key t s :
  (jm_get key (gi_replayState s) = None
   /\ acceptEvent key t s = (s <| gi_replayState ::= jm_set key (mkReplayState 1 t None) |> <| gi_totalEvents ::= Z.add 1 |>, Ok true))
  \/ (exists st, jm_get key (gi_replayState s) = Some st /\
       if before t (rs_lastSeenAt st)
       then acceptEvent key t s = (s <| gi_staleSkipped ::= Z.add 1 |>, Ok false)
       else acceptEvent key t s
            = (s <| gi_replayState ::= jm_set key (advance t st) |> <| gi_totalEvents ::= Z.add 1 |>, Ok true)).
Proof.
  unfold acceptEvent, m_bind, m_gets, m_modify, m_ret. destruct (jm_get key (gi_replayState s)) as [st|]; [right|by left].
  exists st. split; [done|]. by destruct (before t (rs_lastSeenAt st)).
Qed.

Lemma replay_accept key t : preserves replay_step (acceptEvent key t).
Proof.
  intros s. destruct (accept_run key t s) as [[Hn ->]|(st & Hst & Hrun)]; simpl.
  - eapply (replay_set _ _ key); [done|done| |done]. intros st. by rewrite Hn.
  - destruct (before t (rs_lastSeenAt st)) eqn:Hb; rewrite Hrun; simpl; [apply replay_stale|].
    eapply (replay_set _ _ key); [done|done| |].
    + intros st0. rewrite Hst. intros [= <-]. by rewrite advance_late.
    + intros Hok w. rewrite advance_watermark, advance_late by done. intros Hw.
      eapply not_before_trans; [by apply (Hok key st w)|done].
Qed.

Lemma replay_gate repo n ctx : preserves replay_step (gateLifecycleEntry repo n ctx).
Proof.
  unfold gateLifecycleEntry. set (key := makePairKey repo n). set (t := dc_receivedAt ctx). cbv zeta.
  intros s. rewrite (bind_ok _ _ s s (jm_get key (gi_replayState s))) by done.
  destruct (jm_get key (gi_replayState s)) as [st|] eqn:Hst.
  - destruct (match truthy_opt (rs_lifecycleWatermark st) with Some w => before t w | None => false end);
      [apply replay_stale|].
    destruct (negb (String.eqb t (rs_lastSeenAt st)) && before t (rs_lastSeenAt st)) eqn:Hb;
      [apply replay_stale|].
    assert (before t (rs_lastSeenAt st) = false) as Hlate.
    { destruct (String.eqb_spec t (rs_lastSeenAt st)) as [->|]; [apply not_before_refl|done]. }
    set (st1 := if String.eqb t (rs_lastSeenAt st) then st else _).
    assert (rs_lastSeenAt st1 = t) as Hat by (unfold st1; by destruct (String.eqb_spec t (rs_lastSeenAt st))).
    assert (rs_lifecycleWatermark st1 = rs_lifecycleWatermark st) as Hw1 by (unfold st1; by destruct (String.eqb _ _)).
    clearbody st1. simpl. eapply (replay_set _ _ key); [done|done| |].
    + intros st0. rewrite Hst. intros [= <-].
      destruct (match truthy_opt _ with Some w => before w t | None => true end); simpl; by rewrite Hat.
    + intros Hok w.
      destruct (match truthy_opt _ with Some w => before w t | None => true end); simpl.
      * intros [= <-]. rewrite Hat. apply not_before_refl.
      * rewrite Hw1, Hat. intros Hw. eapply not_before_trans; [by apply (Hok key st w)|done].
  - simpl. eapply (replay_set _ _ key); [done|done| |].
    + intros st0. by rewrite Hst.
    + intros _ w [= <-]. apply not_before_refl.
Qed.

Lemma replay_event event ctx : preserves replay_step (ingest_event event ctx).
Proof. apply walk_event; auto using replay_gate, replay_broker with typeclass_instances. Qed.

Lemma replay_webhook event ctx : preserves replay_step (ingest_webhook event ctx).
Proof.
  apply walk_webhook; auto using replay_gate, replay_broker, replay_accept with typeclass_instances.
  intros f Hr Hs _. by apply replay_unchanged.
Qed.

(** ** Histories *)

(** What happens to the service: deliveries, lifecycle changes found otherwise, and
    the other calls of the broker. *)
Inductive gh_event : Type :=
| GhDeliver (event : GitHubWebhookEvent) (ctx : GitHubDeliveryContext)
| GhIssueClosed (repo : GitHubRepoRef) (issue : GitHubIssueRef) (ctx : GitHubDeliveryContext)
| GhIssueReopened (repo : GitHubRepoRef) (issue : GitHubIssueRef) (ctx : GitHubDeliveryContext)
| GhMerged (repo : GitHubRepoRef) (pr : GitHubPullRequestRef) (ctx : GitHubDeliveryContext)
| GhPullClosed (repo : GitHubRepoRef) (pr : GitHubPullRequestRef) (ctx : GitHubDeliveryContext)
| GhBroker (c : call).

Definition run_gh (e : gh_event) (s : Ingestion) : Ingestion :=
  match e with
  | GhDeliver event ctx => (ingest_webhook event ctx s).1
  | GhIssueClosed repo issue ctx => (handleIssueClosed repo issue ctx s).1
  | GhIssueReopened repo issue ctx => (handleIssueReopened repo issue ctx s).1
  | GhMerged repo pr ctx => (handlePullRequestMerged repo pr ctx s).1
  | GhPullClosed repo pr ctx => (handlePullRequestClosed repo pr ctx s).1
  | GhBroker c => (gh_broker (run_call c) s).1
  end.

Definition gh_step (s s' : Ingestion) : Prop :=
  exists e, match e with GhBroker c => proper_call c (gi_broker s) | _ => True end /\ run_gh e s = s'.

(** A relation across everything that can happen. *)
Lemma step_walk (T : Ingestion -> Ingestion -> Prop) `{!Reflexive T} `{!Transitive T} s s' :
  (forall event ctx, preserves T (ingest_webhook event ctx)) ->
  (forall repo n ctx, preserves T (gateLifecycleEntry repo n ctx)) ->
  (forall id actor reason, preserves T (gh_broker (cancelTask id actor reason))) ->
  (forall id w r, preserves T (gh_broker (completeTask id w r))) ->
  (forall c s, proper_call c (gi_broker s) -> T s (gh_broker (run_call c) s).1) ->
  gh_step s s' -> T s s'.
Proof.
  intros Hweb Hgate Hcancel Hcomplete Hcall (e & Hc & <-). destruct e; simpl; [apply Hweb|..|by apply Hcall];
    match goal with |- T s (?m s).1 => enough (preserves T m) as Hp by exact (Hp s) end; apply walk_gated; eauto.
Qed.

Lemma calls_step s s' : (forall n, ~ gh_id (host_uuid n)) -> gh_step s s' -> gh_calls s s'.
Proof.
  intros Hplain. apply step_walk; auto using calls_webhook, calls_gate, calls_cancel, calls_complete with typeclass_instances.
  intros c t Hc. unfold gh_calls, gh_broker, m_zoom. apply rtc_once. exists c.
  split; [done|]. by destruct (run_call c (gi_broker t)).
Qed.

Lemma replay_gh_step s s' : gh_step s s' -> replay_step s s'.
Proof.
  apply step_walk; auto using replay_webhook, replay_gate, replay_broker with typeclass_instances.
  intros c t _. apply replay_broker.
Qed.

Lemma calls_steps s s' : (forall n, ~ gh_id (host_uuid n)) -> rtc gh_step s s' -> gh_calls s s'.
Proof. intros Hplain. induction 1 as [|s1 s2 s3 H12%calls_step _ IH]; [reflexivity| |done]. by etransitivity. Qed.
Lemma replay_steps s s' : rtc gh_step s s' -> replay_step s s'.
Proof. induction 1 as [|s1 s2 s3 H12%replay_gh_step _ IH]; [reflexivity|]. by etransitivity. Qed.

Lemma watermark_new b : watermark_ok (new_ingestion b).
Proof. by intros key st w. Qed.

(** ** A delivery, case by case *)

Lemma webhook_duplicate event ctx s :
  dc_deliveryId ctx ∈ gi_seenDeliveries s ->
  ingest_webhook event ctx s = (s <| gi_duplicateDeliveries ::= Z.add 1 |>, Ok duplicate_result).
Proof.
  intros Hin. unfold ingest_webhook, m_bind, m_gets. simpl. by rewrite bool_decide_true.
Qed.

Definition noted (ctx : GitHubDeliveryContext) (s : Ingestion) : Ingestion :=
  s <| gi_seenDeliveries ::= fun l => l ++ [dc_deliveryId ctx] |>.

Lemma webhook_fresh event ctx s :
  dc_deliveryId ctx ∉ gi_seenDeliveries s ->
  ingest_webhook event ctx s =
    (accepted <-- match pairKeyForEvent event with
                  | Some pairKey => acceptEvent pairKey (dc_receivedAt ctx) | None => m_ret true end;
     if negb accepted then m_ret stale_result else ingest_event event ctx) (noted ctx s).
Proof.
  intros Hin. unfold ingest_webhook. unfold m_bind at 1, m_gets. simpl. by rewrite bool_decide_false.
Qed.

Lemma webhook_stale event ctx s key st :
  dc_deliveryId ctx ∉ gi_seenDeliveries s -> pairKeyForEvent event = Some key ->
  jm_get key (gi_replayState s) = Some st -> before (dc_receivedAt ctx) (rs_lastSeenAt st) = true ->
  ingest_webhook event ctx s = (noted ctx s <| gi_staleSkipped ::= Z.add 1 |>, Ok stale_result).
Proof.
  intros Hin Hkey Hst Hb. rewrite webhook_fresh, Hkey by done.
  destruct (accept_run key (dc_receivedAt ctx) (noted ctx s)) as [[Hn _]|(st' & Hst' & Hrun)].
  - simpl in Hn. congruence.
  - simpl in Hst'. assert (st' = st) as -> by congruence. rewrite Hb in Hrun. by rewrite (bind_ok _ _ _ _ _ Hrun).
Qed.

(** No event of the pair was later. *)
Definition timely (event : GitHubWebhookEvent) (ctx : GitHubDeliveryContext) (s : Ingestion) : Prop :=
  forall key st, pairKeyForEvent event = Some key -> jm_get key (gi_replayState s) = Some st ->
    before (dc_receivedAt ctx) (rs_lastSeenAt st) = false.

(** The last event of the pair is the one being handled. *)
Definition at_time (event : GitHubWebhookEvent) (ctx : GitHubDeliveryContext) (s : Ingestion) : Prop :=
  forall key, pairKeyForEvent event = Some key ->
    exists st, jm_get key (gi_replayState s) = Some st /\ rs_lastSeenAt st = dc_receivedAt ctx.

Lemma webhook_taken event ctx s :
  dc_deliveryId ctx ∉ gi_seenDeliveries s -> timely event ctx s ->
  exists s1, ingest_webhook event ctx s = ingest_event event ctx s1
    /\ gi_broker s1 = gi_broker s /\ at_time event ctx s1 /\ replay_step s s1.
Proof.
  intros Hin Ht. rewrite webhook_fresh by done. unfold timely, at_time in *.
  assert (replay_step s (noted ctx s)) as Hnoted.
  { refine (replay_unchanged (noted ctx) (fun _ => eq_refl) _ s). intros s0. simpl. set_solver. }
  destruct (pairKeyForEvent event) as [key|].
  - pose proof (replay_accept key (dc_receivedAt ctx) (noted ctx s)) as Hr.
    destruct (accept_run key (dc_receivedAt ctx) (noted ctx s)) as [[Hn Hrun]|(st & Hst & Hrun)].
    + rewrite Hrun in Hr. rewrite (bind_ok _ _ _ _ _ Hrun). eexists. split; [reflexivity|]. split; [done|].
      split; [|by etransitivity]. intros k [= <-]. simpl. rewrite jm_get_set_eq. by eexists.
    + rewrite (Ht key st) in Hrun by done. rewrite Hrun in Hr. rewrite (bind_ok _ _ _ _ _ Hrun).
      eexists. split; [reflexivity|]. split; [done|].
      split; [|by etransitivity]. intros k [= <-]. simpl. rewrite jm_get_set_eq. eexists. split; [done|].
      apply advance_late. by apply (Ht key st).
  - exists (noted ctx s). by split_and!.
Qed.

(** Either a delivery leaves the broker alone or it handles its event. *)
Lemma webhook_kept event ctx s :
  gi_broker (ingest_webhook event ctx s).1 = gi_broker s
  \/ exists s1, gi_broker s1 = gi_broker s /\ ingest_webhook event ctx s = ingest_event event ctx s1.
Proof.
  destruct (decide (dc_deliveryId ctx ∈ gi_seenDeliveries s)) as [Hin|Hin]; [left; by rewrite webhook_duplicate|].
  destruct (pairKeyForEvent event) as [key|] eqn:Hkey.
  - destruct (jm_get key (gi_replayState s)) as [st|] eqn:Hst.
    + destruct (before (dc_receivedAt ctx) (rs_lastSeenAt st)) eqn:Hb.
      { left. by rewrite (webhook_stale _ _ _ _ _ Hin Hkey Hst Hb). }
      right. destruct (webhook_taken event ctx s Hin) as (s1 & Hr & Hb1 & _); [|by exists s1].
      intros k st' Hk Hst'. congruence.
    + right. destruct (webhook_taken event ctx s Hin) as (s1 & Hr & Hb1 & _); [|by exists s1].
      intros k st' Hk Hst'. congruence.
  - right. destruct (webhook_taken event ctx s Hin) as (s1 & Hr & Hb1 & _); [|by exists s1].
    intros k st' Hk Hst'. congruence.
Qed.

Lemma gate_open event ctx s repo n :
  watermark_ok s -> at_time event ctx s -> pairKeyForEvent event = Some (makePairKey repo n) ->
  exists s', gateLifecycleEntry repo n ctx s = (s', Ok None) /\ gi_broker s' = gi_broker s.
Proof.
  intros Hok Hat Hkey. destruct (Hat _ Hkey) as (st & Hst & Hlast).
  unfold gateLifecycleEntry. cbv zeta. rewrite (bind_ok _ _ s s (Some st)) by (unfold m_gets; by rewrite Hst).
  assert (match truthy_opt (rs_lifecycleWatermark st) with
          | Some w => before (dc_receivedAt ctx) w | None => false end = false) as ->.
  { destruct (rs_lifecycleWatermark st) as [w|] eqn:Hw; [|done]. simpl. destruct (str_truthy w); [|done].
    rewrite <- Hlast. by apply (Hok _ st w Hst). }
  rewrite Hlast, String.eqb_refl. simpl. eexists. split; [reflexivity|done].
Qed.

(** Handling an event drops it never. *)
Definition not_dropped (r : IngestionResult) : Prop := ig_deduped r = false /\ ig_replaySkipped r = false.

Definition answers_with {A} (P : A -> Prop) (m : GM A) : Prop := forall s s' a, m s = (s', Ok a) -> P a.

Lemma answers_with_bind {A B} P (m : GM A) (k : A -> GM B) :
  (forall a, answers_with P (k a)) -> answers_with P (m_bind m k).
Proof.
  intros Hk s s' b Hrun. apply bind_inv_ok in Hrun as (s1 & a & _ & Hrun). by apply (Hk a s1 s').
Qed.
Lemma answers_with_ret {A} (P : A -> Prop) a : P a -> answers_with P (m_ret a).
Proof. intros HP s s' a' [= _ <-]. exact HP. Qed.

Lemma commands_not_dropped repo issue c text k ctx :
  answers_with not_dropped (ingest_commands repo issue c text k ctx).
Proof.
  unfold ingest_commands. destruct (parseAssignmentIntents text); [by apply answers_with_ret|].
  apply answers_with_bind. intros [parent|]; [|by apply answers_with_ret].
  apply answers_with_bind. intros children. by apply answers_with_ret.
Qed.

Lemma lifecycle_not_dropped repo issue target tr : answers_with not_dropped (applyLifecycle repo issue target tr).
Proof.
  unfold applyLifecycle. apply answers_with_bind. intros [task|]; [|by apply answers_with_ret]. cbv zeta.
  case_bool_decide; [by apply answers_with_ret|]. destruct (isTerminal _); [by apply answers_with_ret|].
  apply answers_with_bind. intros [post|]; by apply answers_with_ret.
Qed.

Lemma event_not_dropped event ctx s s' r :
  watermark_ok s -> at_time event ctx s -> ingest_event event ctx s = (s', Ok r) -> not_dropped r.
Proof.
  intros Hok Hat Hrun. destruct (assignment_of event) as [a|] eqn:Ha.
  - rewrite (assignment_event _ _ _ Ha) in Hrun. by eapply commands_not_dropped.
  - destruct (other_event event ctx Ha) as [(r' & Heq & Hr)|(repo & n & m & Hkey & Heq & issue & target & tr & -> & _)];
      rewrite Heq in Hrun; [by injection Hrun as _ <-|].
    destruct (gate_open event ctx s repo n Hok Hat Hkey) as (s1 & Hgate & _).
    unfold behind_gate in Hrun. rewrite (bind_ok _ _ _ _ _ Hgate) in Hrun. by eapply lifecycle_not_dropped.
Qed.

Definition taken (r : result BrokerError IngestionResult) : Prop :=
  match r with Ok r => not_dropped r | Err _ => True end.

Lemma webhook_not_dropped event ctx s :
  watermark_ok s -> dc_deliveryId ctx ∉ gi_seenDeliveries s -> timely event ctx s ->
  taken (ingest_webhook event ctx s).2.
Proof.
  intros Hok Hin Ht. destruct (webhook_taken event ctx s Hin Ht) as (s1 & Hrun & _ & Hat & Hstep).
  destruct (ingest_event event ctx s1) as [s2 [r|e]] eqn:He; rewrite Hrun; simpl; [|done].
  apply (event_not_dropped event ctx s1 s2 r); [|done|done]. by apply Hstep.
Qed.

(** What a delivery leaves behind: its id, and, when it was taken, its time. *)
Lemma webhook_noted event ctx s : dc_deliveryId ctx ∈ gi_seenDeliveries (ingest_webhook event ctx s).1.
Proof.
  destruct (decide (dc_deliveryId ctx ∈ gi_seenDeliveries s)) as [Hin|Hin]; [by rewrite webhook_duplicate|].
  rewrite webhook_fresh by done. set (k := fun accepted : bool => _).
  assert (preserves replay_step (m_bind (match pairKeyForEvent event with
    | Some pairKey => acceptEvent pairKey (dc_receivedAt ctx) | None => m_ret true end) k)) as Hp.
  { apply preserves_bind; [apply _|destruct (pairKeyForEvent event); [apply replay_accept|apply preserves_ret, _]|].
    intros []; unfold k; simpl; [apply replay_event|apply preserves_ret, _]. }
  apply (Hp (noted ctx s)). simpl. set_solver.
Qed.

Lemma taken_time event ctx s key :
  taken (ingest_webhook event ctx s).2 -> pairKeyForEvent event = Some key ->
  exists st, jm_get key (gi_replayState (ingest_webhook event ctx s).1) = Some st
    /\ before (rs_lastSeenAt st) (dc_receivedAt ctx) = false.
Proof.
  intros Ht Hkey. destruct (decide (dc_deliveryId ctx ∈ gi_seenDeliveries s)) as [Hin|Hin].
  { rewrite webhook_duplicate in Ht by done. by destruct Ht. }
  destruct (jm_get key (gi_replayState s)) as [st|] eqn:Hst.
  - destruct (before (dc_receivedAt ctx) (rs_lastSeenAt st)) eqn:Hb.
    { rewrite (webhook_stale _ _ _ _ _ Hin Hkey Hst Hb) in Ht. by destruct Ht. }
    destruct (webhook_taken event ctx s Hin) as (s1 & -> & _ & Hat & _).
    { intros k st' Hk Hst'. congruence. }
    destruct (Hat key Hkey) as (st1 & Hst1 & <-). apply (replay_event event ctx s1). done.
  - destruct (webhook_taken event ctx s Hin) as (s1 & -> & _ & Hat & _).
    { intros k st' Hk Hst'. congruence. }
    destruct (Hat key Hkey) as (st1 & Hst1 & <-). apply (replay_event event ctx s1). done.
Qed.

(** ** The lifecycle of an issue *)

Definition ended_as (target : TaskStatus) (b : Broker) (id : string) : Prop :=
  forall t, stored b id = Some t -> task_status t = target.

(** What a lifecycle event that imposes [target] makes of the task [id] and what it
    answers: nothing is stored; the task is as it should be; it ended otherwise;
    no call of the broker applies the change; or the task and what follows from it
    ended. *)
Inductive lifecycle_spec (target : TaskStatus) (id : string) (b b' : Broker) : IngestionResult -> Prop :=
| LifecycleNoTask : stored b id = None -> b' = b -> lifecycle_spec target id b b' (skipped SkipNoParentTask)
| LifecycleSame t : stored b id = Some t -> task_status t = target -> b' = b ->
    lifecycle_spec target id b b'
      (mkIngestionResult false false (Some id) [] None (Some (mkLifecycleTransition target target false)))
| LifecycleEnded t : stored b id = Some t -> terminal t -> task_status t <> target -> b' = b ->
    lifecycle_spec target id b b' (mkIngestionResult false false (Some id) [] (Some SkipReconciliationNeeded)
      (Some (mkLifecycleTransition (task_status t) target true)))
| LifecycleRefused t : stored b id = Some t -> active t -> task_status t <> target ->
    (forall i, kept (stored b i) (stored b' i)) ->
    lifecycle_spec target id b b' (mkIngestionResult false false (Some id) [] (Some SkipReconciliationNeeded)
      (Some (mkLifecycleTransition (task_status t) target true)))
| LifecycleMoved t : stored b id = Some t -> active t -> ended_as target b' id ->
    (forall i, ~ reaches b id i -> kept (stored b i) (stored b' i)) ->
    lifecycle_spec target id b b' (mkIngestionResult false false (Some id) [] None
      (Some (mkLifecycleTransition (task_status t) target false))).

Lemma terminal_status t : isTerminal (task_status t) = true <-> terminal t.
Proof. unfold terminal, isTerminal. by destruct (task_status t). Qed.

(** What a transition may do to an active task: give up without a trace on any
    task, or end it. *)
Definition transits (target : TaskStatus) (gives_up : Prop) (b : Broker) (t : TaskRecord)
    (m : GM (option TaskRecord)) : Prop :=
  forall s, gi_broker s = b -> exists s' o, m s = (s', Ok o)
    /\ match o with
       | None => gives_up /\ forall i, kept (stored b i) (stored (gi_broker s') i)
       | Some post => task_id post = task_id t /\ task_status post = target /\ ended_as target (gi_broker s') (task_id t)
           /\ forall i, ~ reaches b (task_id t) i -> kept (stored b i) (stored (gi_broker s') i)
       end.

Lemma applyLifecycle_spec repo issue target tr (gives_up : Prop) s :
  wf_broker (gi_broker s) ->
  (forall t, stored (gi_broker s) (parentTaskId repo issue) = Some t -> active t ->
     transits target gives_up (gi_broker s) t (tr t)) ->
  exists s' r, applyLifecycle repo issue target tr s = (s', Ok r)
    /\ lifecycle_spec target (parentTaskId repo issue) (gi_broker s) (gi_broker s') r
    /\ (forall t, stored (gi_broker s) (parentTaskId repo issue) = Some t -> active t -> task_status t <> target ->
          gives_up \/ ended_as target (gi_broker s') (parentTaskId repo issue)).
Proof.
  intros Hwf Htr. set (id := parentTaskId repo issue) in *. unfold applyLifecycle. fold id.
  assert (gh_broker (getTask id) s = (s, Ok (stored (gi_broker s) id))) as Hget by (by destruct s).
  rewrite (bind_ok _ _ _ _ _ Hget). destruct (stored (gi_broker s) id) as [t|] eqn:Ht.
  2:{ exists s, (skipped SkipNoParentTask). split; [done|]. split; [by constructor|done]. }
  assert (task_id t = id) as Hid by by apply (wf_tasks _ Hwf).
  cbv zeta. rewrite Hid. case_bool_decide as Hst.
  { exists s. eexists. split; [reflexivity|]. split; [|congruence].
    rewrite Hst. by apply (LifecycleSame _ _ _ _ t). }
  destruct (isTerminal (task_status t)) eqn:Hterm.
  { exists s. eexists. split; [reflexivity|]. apply terminal_status in Hterm. split; [by apply (LifecycleEnded _ _ _ _ t)|].
    intros t' [= <-] Ha. unfold active, terminal in *. congruence. }
  assert (active t) as Ha.
  { unfold active. apply not_true_iff_false. intros Hn. by apply terminal_status in Hn; rewrite Hn in Hterm. }
  destruct (Htr t eq_refl Ha s eq_refl) as (s' & o & Hrun & Ho). rewrite (bind_ok _ _ _ _ _ Hrun).
  exists s'. destruct o as [post|].
  - destruct Ho as (Hp & Hps & He & Hk). rewrite Hid in *. eexists. split; [reflexivity|].
    split; [|intros; by right]. rewrite Hp, Hps. by apply LifecycleMoved.
  - destruct Ho as [Hg Hk]. eexists. split; [reflexivity|]. split; [|intros; by left].
    by apply LifecycleRefused.
Qed.

Lemma gate_cases repo n ctx s :
  exists s' o, gateLifecycleEntry repo n ctx s = (s', Ok o) /\ gi_broker s' = gi_broker s
    /\ (o = None \/ o = Some stale_result).
Proof.
  unfold gateLifecycleEntry. cbv zeta.
  rewrite (bind_ok _ _ s s (jm_get (makePairKey repo n) (gi_replayState s))) by done.
  destruct (jm_get _ _) as [st|]; [|do 2 eexists; split; [reflexivity|auto]].
  destruct (match truthy_opt (rs_lifecycleWatermark st) with Some w => before _ w | None => false end);
    [do 2 eexists; split; [reflexivity|auto]|].
  destruct (_ && _); do 2 eexists; (split; [reflexivity|auto]).
Qed.

Lemma gated_spec repo n ctx m s (Q : Broker -> IngestionResult -> Prop) :
  (forall s1, gi_broker s1 = gi_broker s -> exists s' r, m s1 = (s', Ok r) /\ Q (gi_broker s') r) ->
  exists s' r, behind_gate repo n ctx m s = (s', Ok r)
    /\ ((r = stale_result /\ gi_broker s' = gi_broker s) \/ Q (gi_broker s') r).
Proof.
  intros Hm. unfold behind_gate. destruct (gate_cases repo n ctx s) as (s1 & o & Hrun & Hb & Ho).
  rewrite (bind_ok _ _ _ _ _ Hrun). destruct Ho as [->| ->].
  - destruct (Hm s1 Hb) as (s' & r & Hr & HQ). exists s', r. split; [exact Hr|by right].
  - exists s1, stale_result. split; [done|by left].
Qed.

Lemma preserves_apply_none repo issue target s : s = (applyLifecycle repo issue target (fun _ => m_ret None) s).1.
Proof.
  enough (preserves eq (applyLifecycle repo issue target (fun _ => m_ret (None : option TaskRecord)))) as Hp by exact (Hp s).
  apply walk_applyLifecycle; try apply _. intros task. apply preserves_ret, _.
Qed.

(** A reopening finds its task, and leaves it. *)
Lemma reopen_spec repo issue ctx s :
  wf_broker (gi_broker s) ->
  exists s' r, handleIssueReopened repo issue ctx s = (s', Ok r) /\ gi_broker s' = gi_broker s
    /\ (r = stale_result
        \/ lifecycle_spec TaskQueued (parentTaskId repo issue) (gi_broker s) (gi_broker s) r).
Proof.
  intros Hwf. destruct (gated_spec repo (gh_number issue) ctx
    (applyLifecycle repo issue TaskQueued (fun _ => m_ret None)) s
    (fun b r => b = gi_broker s /\ lifecycle_spec TaskQueued (parentTaskId repo issue) (gi_broker s) (gi_broker s) r))
    as (s' & r & Hrun & [[-> Hb]|[Hb Hspec]]).
  - intros s1 Hb1. destruct (applyLifecycle_spec repo issue TaskQueued (fun _ => m_ret None) True s1)
      as (s' & r & Hrun & Hspec & _); [by rewrite Hb1| |].
    + intros t _ _ s0 <-. exists s0, None. split; [done|]. split; [done|]. intros. reflexivity.
    + pose proof (preserves_apply_none repo issue TaskQueued s1) as Hk. rewrite Hrun in Hk. simpl in Hk. subst s'.
      rewrite Hb1 in Hspec. by exists s1, r.
  - exists s', stale_result. auto.
  - exists s', r. auto.
Qed.

Lemma cancel_transits reason b t :
  gi_requesterId <> "" -> wf_broker b -> stored b (task_id t) = Some t -> active t ->
  transits TaskCanceled False b t (cancelExistingTask reason t).
Proof.
  intros Hreq Hwf Ht Ha s <-.
  destruct (cancel_run (gi_broker s) (task_id t) t (Some github_party) (Some reason))
    as (b' & t' & Hrun & _ & (now & ->) & Hi); [done|done|done|split; [done|by right; left]|].
  unfold cancelExistingTask, gh_broker. unfold m_bind, m_zoom. rewrite Hrun. simpl.
  do 2 eexists. split; [reflexivity|]. simpl. split_and!; [done|done| |].
  - apply Hi. constructor. by exists t.
  - intros i. apply Hi.
Qed.

(** A completion writes the completed record, or leaves every task alone. *)
Lemma complete_cases b t w r b' o :
  wf_broker b -> stored b (task_id t) = Some t -> in_progress t -> completeTask (task_id t) w r b = (b', o) ->
  match o with
  | Ok post => task_id post = task_id t /\ task_status post = TaskSucceeded /\ ended_as TaskSucceeded b' (task_id t)
      /\ forall i, ~ reaches b (task_id t) i -> kept (stored b i) (stored b' i)
  | Err _ => forall i, kept (stored b i) (stored b' i)
  end.
Proof.
  intros Hwf Ht Hp Hrun. destruct (decide (may_act b t w)) as [Hm|Hm].
  2:{ destruct (complete_refused b (task_id t) t w r Ht) as [e He]; [by left|].
      rewrite Hrun in He. injection He as -> ->. intros. reflexivity. }
  destruct (validateGithubTaskCompletionEvidence t (normalizeTaskResult r)) as [e|] eqn:Hv.
  { pose proof (complete_no_evidence b _ t w r e Ht (conj Hm Hp) Hv) as He.
    rewrite Hrun in He. injection He as -> ->. intros. reflexivity. }
  destruct (applyTaskCompletion t w (normalizeTaskResult r) b) as [b1 [[]|e]] eqn:Ha.
  - destruct (complete_run b _ t w r b1 Hwf Ht (conj Hm Hp) Hv Ha) as (b2 & He & _ & Hk & Hother).
    rewrite Hrun in He. injection He as -> ->. split_and!; [done|done| |].
    + intros t' Ht'. simpl in Hk. rewrite Ht' in Hk. destruct Hk as [Hk|(? & _ & _ & ?)]; [|done].
      by injection Hk as ->.
    + intros i Hi. apply Hother. simpl. intros ->. apply Hi. constructor. exists t.
      split; [done|]. by apply in_progress_active.
  - destruct (complete_not_applied b _ t w r b1 e Hwf Ht (conj Hm Hp) Hv Ha) as [He Hk].
    rewrite Hrun in He. by injection He as -> ->.
Qed.

Lemma complete_transits result b t :
  wf_broker b -> stored b (task_id t) = Some t -> active t ->
  transits TaskSucceeded True b t (completeExistingTask result t).
Proof.
  intros Hwf Ht Ha s <-. unfold completeExistingTask.
  assert (forall o, m_ret (E:=BrokerError) o s = (s, Ok (o : option TaskRecord))) as Hret by done.
  case_bool_decide as Hp; simpl; [|exists s, None; split; [done|]; split; [done|]; intros; reflexivity].
  set (w := _ ?? _). destruct (str_truthy w); simpl; [|exists s, None; split; [done|]; split; [done|]; intros; reflexivity].
  assert (gh_broker (getWorker w) s = (s, Ok (jm_get w (br_workers (gi_broker s))))) as Hget by (by destruct s).
  rewrite (bind_ok _ _ _ _ _ Hget).
  destruct (jm_get w _); [|exists s, None; split; [done|]; split; [done|]; intros; reflexivity].
  unfold m_try, gh_broker, m_zoom.
  destruct (completeTask (task_id t) w (Some result) (gi_broker s)) as [b' o] eqn:Hrun.
  pose proof (complete_cases _ t w _ b' o Hwf Ht Hp Hrun) as Hc. do 2 eexists. split; [reflexivity|]. by destruct o.
Qed.

(** ** An assignment whose tasks exist *)

Definition worker_known (b : Broker) (id : string) : bool := is_some (jm_get id (br_workers b)).

(** The children that an assignment answers: those whose worker is known. *)
Definition numbered (intents : list AssignmentIntent) (index : nat) : list (nat * AssignmentIntent) :=
  zip (seq index (length intents)) intents.
Definition known_children (b : Broker) (child : nat -> string) (l : list (nat * AssignmentIntent)) : list string :=
  map (fun ki => child ki.1) (List.filter (fun ki => worker_known b (ai_target ki.2)) l).

Lemma getTask_stored id s : gh_broker (getTask id) s = (s, Ok (stored (gi_broker s) id)).
Proof. by destruct s. Qed.
Lemma getWorker_known id s : gh_broker (getWorker id) s = (s, Ok (jm_get id (br_workers (gi_broker s)))).
Proof. by destruct s. Qed.

Lemma children_stored repo issue commentId intents index ctx parent s :
  wf_broker (gi_broker s) ->
  (forall k intent, (k, intent) ∈ numbered intents index -> worker_known (gi_broker s) (ai_target intent) = true ->
     is_Some (stored (gi_broker s) (childTaskId repo issue commentId k))) ->
  create_children repo issue commentId index intents ctx parent s
  = (s, Ok (known_children (gi_broker s) (childTaskId repo issue commentId) (numbered intents index))).
Proof.
  intros Hwf. revert index. induction intents as [|intent intents IH]; intros index Hst; simpl; [done|].
  assert (createChildTask repo issue commentId index intent ctx parent s
    = (s, Ok (if worker_known (gi_broker s) (ai_target intent)
              then stored (gi_broker s) (childTaskId repo issue commentId index) else None))) as Hone.
  { reveal createChildTask. rewrite (bind_ok _ _ _ _ _ (getWorker_known _ s)). unfold worker_known in *.
    destruct (jm_get (ai_target intent) _) eqn:Hw; [|done]. cbv zeta.
    rewrite (bind_ok _ _ _ _ _ (getTask_stored _ s)).
    destruct (Hst index intent) as [t Ht]; [by left|by rewrite Hw|]. by rewrite Ht. }
  rewrite (bind_ok _ _ _ _ _ Hone). rewrite (bind_ok _ _ _ _ _ (IH (S index) ltac:(intros k i Hk; apply Hst; by right))).
  unfold known_children, numbered. simpl. destruct (worker_known _ _) eqn:Hw; [|done]. simpl.
  destruct (Hst index intent) as [t Ht]; [by left|done|]. rewrite Ht.
  assert (task_id t = childTaskId repo issue commentId index) as -> by by apply (wf_tasks _ Hwf). done.
Qed.

(** The tasks an assignment asks for are stored. *)
Definition assigned_already (a : Assignment) (b : Broker) : Prop :=
  parseAssignmentIntents (as_text a) <> [] /\ is_Some (stored b (as_parent a))
  /\ forall k intent, (k, intent) ∈ numbered (as_commands a) 0 -> worker_known b (ai_target intent) = true ->
       is_Some (stored b (as_child a k)).

Definition assignment_answer (a : Assignment) (b : Broker) : IngestionResult :=
  mkIngestionResult false false (Some (as_parent a)) (known_children b (as_child a) (numbered (as_commands a) 0)) None None.

Lemma assignment_repeated a ctx s :
  wf_broker (gi_broker s) -> assigned_already a (gi_broker s) ->
  ingest_commands (as_repo a) (as_issue a) (as_comment a) (as_text a) (as_first a) ctx s
  = (s, Ok (assignment_answer a (gi_broker s))).
Proof.
  intros Hwf (Hne & [t Ht] & Hc). unfold ingest_commands.
  destruct (parseAssignmentIntents _) as [|primary rest] eqn:Hp; [done|].
  assert (ensureParentTask (as_repo a) (as_issue a) primary ctx s = (s, Ok (Some t))) as Hpar.
  { reveal ensureParentTask. cbv zeta. rewrite (bind_ok _ _ _ _ _ (getTask_stored _ s)).
    fold (as_parent a). by rewrite Ht. }
  rewrite (bind_ok _ _ _ _ _ Hpar), <- Hp. fold (as_commands a).
  rewrite (bind_ok _ _ _ _ _ (children_stored _ _ _ (as_commands a) 0 ctx (task_id t) s Hwf Hc)).
  assert (task_id t = as_parent a) as -> by by apply (wf_tasks _ Hwf). done.
Qed.
End Ingestion.
