(* ===== verification/CrossBroker.v ===== *)
(** * Terminal Briefs of other brokers (src/core/cross-broker-terminal-brief.ts)

    The store of projections that other brokers send of their terminal tasks, the
    event each new projection puts into the terminal outbox
    (src/core/terminal-event-outbox.ts), and the broker's method that does both
    (src/core/broker.ts).  A request is a JSON object whose fields may hold
    anything; SHA-256 is the host's (class [JsCrypto]). *)

From Stdlib Require Import ZArith Lia String Ascii.
From stdpp Require Import base gmap strings list pretty.
From S2P Require Import Prelude JsRuntime JsonText TextRedaction Types Policy Retention BrokerCore EventBuffer.
From S2P Require Import TaskEventStream Outbox TerminalBrief OutboxPayload.

(** The hexadecimal SHA-256 digest of a text. *)
(** ** Records *)

Inductive CrossBrokerTerminalBriefAckDecision : Type := ProjectionAccepted | ProjectionDuplicateReplay.
#[export] Instance CrossBrokerTerminalBriefAckDecision_eq_dec : EqDecision CrossBrokerTerminalBriefAckDecision.
Proof. solve_decision. Defined.

Inductive CrossBrokerTerminalBriefRejectCode : Type :=
| RejectBadRequest | RejectMissingParent | RejectWrongOrigin | RejectStaleReplay
| RejectTerminalAckForbidden | RejectMissingDispatchMetadata.
#[export] Instance CrossBrokerTerminalBriefRejectCode_eq_dec : EqDecision CrossBrokerTerminalBriefRejectCode.
Proof. solve_decision. Defined.

Definition CrossBrokerTerminalBriefRejectCode_text (c : CrossBrokerTerminalBriefRejectCode) : string :=
  match c with
  | RejectBadRequest => "bad_request" | RejectMissingParent => "missing_parent"
  | RejectWrongOrigin => "wrong_origin" | RejectStaleReplay => "stale_replay"
  | RejectTerminalAckForbidden => "terminal_ack_forbidden"
  | RejectMissingDispatchMetadata => "missing_dispatch_metadata"
  end.

(** [terminalAck] is false in every acknowledgement. *)
Record ProjectionAck : Type := mkProjectionAck {
  pk_decision : CrossBrokerTerminalBriefAckDecision;
  pk_reason : string;
  pk_updatedAt : string;
}.

(** What [normalizeRequest] makes of a request. *)
Record NormalizedProjection : Type := mkNormalizedProjection {
  np_parentRoundId : string;
  np_originBrokerId : string;
  np_brokerOfRecordId : option string;
  np_childTaskId : option string;
  np_childRunId : option string;
  np_childWorkerId : option string;
  np_status : TaskStatus;
  np_summary : option string;
  np_taskBrief : option string;
  np_evidenceUrl : option string;
  np_completedAt : string;
  np_emittedAt : option string;
  np_parentRoundTotal : option Z;
  np_parentRoundOrder : option Z;
}.

#[export] Instance eta_NormalizedProjection : Eta NormalizedProjection := fun r =>
  mkNormalizedProjection (np_parentRoundId r) (np_originBrokerId r) (np_brokerOfRecordId r) (np_childTaskId r) (np_childRunId r) (np_childWorkerId r) (np_status r) (np_summary r) (np_taskBrief r) (np_evidenceUrl r) (np_completedAt r) (np_emittedAt r) (np_parentRoundTotal r) (np_parentRoundOrder r).

(** The fields of the request, of which a record always has [emittedAt], and the
    store's. *)
Record CrossBrokerTerminalBriefProjection : Type := mkProjection {
  pj_id : string;
  pj_fields : NormalizedProjection;
  pj_receivedAt : string;
  pj_sourceDigest : string;
  pj_replayCount : Z;
  pj_ack : ProjectionAck;
}.
#[export] Instance eta_CrossBrokerTerminalBriefProjection : Eta CrossBrokerTerminalBriefProjection := fun r =>
  mkProjection (pj_id r) (pj_fields r) (pj_receivedAt r) (pj_sourceDigest r) (pj_replayCount r) (pj_ack r).

Inductive CrossBrokerTerminalBriefProjectionResult : Type :=
| IngestAccepted (replayed : bool) (record : CrossBrokerTerminalBriefProjection)
| IngestRejected (code : CrossBrokerTerminalBriefRejectCode) (reason updatedAt : string).

Definition MAX_BRIEF_CHARS : nat := 160.
Definition MAX_REASON_CHARS : nat := 240.

(** ** Normalisation *)

Definition sanitizeText (v : JsValue) (maxChars : nat) : option string :=
  (js_string v ≫= sanitize maxChars) ≫= fun s => truthy_opt (Some s).

Definition normalizeIso `{JsHost} (v : JsValue) : option string :=
  toISOString <$> (js_string v ≫= date_parse).

Definition normalizeHttpUrl `{JsUrl} (v : JsValue) : option string :=
  js_string v ≫= fun s => if is_http_protocol (url_protocol s) then Some (url_toString s) else None.

(** [TERMINAL_STATUSES.has(status)], and the status. *)
Definition terminal_status (v : JsValue) : option TaskStatus :=
  js_string v ≫= fun s =>
    List.find (fun st => String.eqb (TaskStatus_text st) s) [TaskSucceeded; TaskFailed; TaskCanceled; TaskBlocked].

Definition normalizeRequest `{JsHost} `{JsUrl} (request : JsRecord) : option NormalizedProjection :=
  let r k := js_prop k request in
  match normalizeToken (r "parentRoundId"), normalizeToken (r "originBrokerId"),
        terminal_status (r "status"), normalizeIso (r "completedAt") with
  | Some parentRoundId, Some originBrokerId, Some status, Some completedAt => Some {|
      np_parentRoundId := parentRoundId;
      np_originBrokerId := originBrokerId;
      np_brokerOfRecordId := normalizeToken (r "brokerOfRecordId");
      np_childTaskId := normalizeToken (r "childTaskId");
      np_childRunId := normalizeToken (r "childRunId");
      np_childWorkerId := normalizeToken (js_or (r "childWorkerId") (r "workerId"));
      np_status := status;
      np_summary := sanitizeText (r "summary") MAX_SUMMARY_CHARS;
      np_taskBrief := sanitizeText (r "taskBrief") MAX_BRIEF_CHARS;
      np_evidenceUrl := normalizeHttpUrl (r "evidenceUrl") ≫= fun u => truthy_opt (Some u);
      np_completedAt := completedAt;
      np_emittedAt := normalizeIso (r "emittedAt");
      np_parentRoundTotal := normalizePositiveInt (r "parentRoundTotal");
      np_parentRoundOrder := normalizePositiveInt (r "parentRoundOrder") |}
  | _, _, _, _ => None
  end.

Definition number_field (name : string) (o : option Z) : JsRecord :=
  match o with Some n => [(name, JNum (NInt n))] | None => [] end.

(** The normalized projection as the object that is digested. *)
Definition normalized_object (n : NormalizedProjection) : JsRecord :=
  [("parentRoundId", JStr (np_parentRoundId n)); ("originBrokerId", JStr (np_originBrokerId n))]
  ++ field "brokerOfRecordId" (np_brokerOfRecordId n)
  ++ field "childTaskId" (np_childTaskId n)
  ++ field "childRunId" (np_childRunId n)
  ++ field "childWorkerId" (np_childWorkerId n)
  ++ [("status", JStr (TaskStatus_text (np_status n)))]
  ++ field "summary" (np_summary n)
  ++ field "taskBrief" (np_taskBrief n)
  ++ field "evidenceUrl" (np_evidenceUrl n)
  ++ [("completedAt", JStr (np_completedAt n))]
  ++ field "emittedAt" (np_emittedAt n)
  ++ number_field "parentRoundTotal" (np_parentRoundTotal n)
  ++ number_field "parentRoundOrder" (np_parentRoundOrder n).

Definition digestProjection `{JsCrypto} (n : NormalizedProjection) : string :=
  ("sha256:" ++ sha256 (stableStringify (JObj (normalized_object n))))%string.

Definition recordKey (n : NormalizedProjection) : string :=
  let childKey :=
    (np_childTaskId n
     ??o ((fun w => ("worker:" ++ w)%string) <$> truthy_opt (np_childWorkerId n))
     ??o (np_parentRoundOrder n ≫= fun o => if (o =? 0)%Z then None else Some ("order:" ++ pretty o)%string))
    ?? "broker" in
  (np_parentRoundId n ++ "::" ++ np_originBrokerId n ++ "::" ++ childKey)%string.

(** A record of a snapshot. *)
Definition positive (o : option Z) : option Z := o ≫= fun n => if (0 <? n)%Z then Some n else None.
Definition normalizeRecord `{JsHost} (p : CrossBrokerTerminalBriefProjection) : CrossBrokerTerminalBriefProjection :=
  let n := pj_fields p in
  p <| pj_fields := n <| np_parentRoundTotal := positive (np_parentRoundTotal n) |>
                      <| np_parentRoundOrder := positive (np_parentRoundOrder n) |> |>
    <| pj_ack := mkProjectionAck
         (match pk_decision (pj_ack p) with ProjectionDuplicateReplay => ProjectionDuplicateReplay
          | ProjectionAccepted => ProjectionAccepted end)
         (sanitizeText (JStr (pk_reason (pj_ack p))) MAX_REASON_CHARS ?? "stored cross-broker projection")
         (normalizeIso (JStr (pk_updatedAt (pj_ack p))) ?? pj_receivedAt p) |>.

(** ** The store *)

Definition ProjectionStore : Type := jsmap CrossBrokerTerminalBriefProjection.

Definition reject (code : CrossBrokerTerminalBriefRejectCode) (reason updatedAt : string)
    : CrossBrokerTerminalBriefProjectionResult :=
  IngestRejected code (sanitizeText (JStr reason) MAX_REASON_CHARS ?? CrossBrokerTerminalBriefRejectCode_text code)
    updatedAt.

Definition opt_number (o : option Z) : JsValue := match o with Some n => JNum (NInt n) | None => JUndef end.

Definition validateTerminalBriefForDispatch (input : JsRecord) (receiver : option string) : list string :=
  map is_message (List.filter is_error (tv_issues (validateTerminalBriefMetadata input receiver false))).

Definition dispatch_input (n : NormalizedProjection) : JsRecord :=
  [("parentRoundId", JStr (np_parentRoundId n)); ("originBrokerId", JStr (np_originBrokerId n));
   ("brokerOfRecordId", opt_value (np_brokerOfRecordId n));
   ("parentRoundTotal", opt_number (np_parentRoundTotal n));
   ("parentRoundOrder", opt_number (np_parentRoundOrder n))].

Definition differs (a b : option string) : bool :=
  match a, b with Some a, Some b => negb (String.eqb a b) | _, _ => false end.

Definition accepted_reason : string :=
  "projection stored for broker-of-record aggregation; no Terminal Brief ACK was emitted".
Definition replay_reason : string :=
  "duplicate projection replay suppressed by parentRoundId/originBrokerId/sourceDigest".

Definition replayed_record (now : string) (p : CrossBrokerTerminalBriefProjection) : CrossBrokerTerminalBriefProjection :=
  p <| pj_replayCount ::= fun n => (n + 1)%Z |>
    <| pj_ack := mkProjectionAck ProjectionDuplicateReplay replay_reason now |>.

(** [Date.parse(a) <= Date.parse(b)]; a comparison with NaN is false. *)
Definition not_after `{JsHost} (a b : string) : bool :=
  match date_parse a, date_parse b with Some x, Some y => (x <=? y)%Z | _, _ => false end.

Section Store.
Context `{JsHost} `{JsUrl} `{JsCrypto}.

(** The rest of [ingest] after its guards. *)
Definition store_projection (n : NormalizedProjection) (now : string) (records : ProjectionStore)
    : ProjectionStore * CrossBrokerTerminalBriefProjectionResult :=
  let key := recordKey n in
  let sourceDigest := digestProjection n in
  let existing := jm_get key records in
  let accepted :=
    let record := mkProjection key (n <| np_emittedAt := Some (np_emittedAt n ?? np_completedAt n) |>) now sourceDigest
      ((pj_replayCount <$> existing) ?? 0%Z) (mkProjectionAck ProjectionAccepted accepted_reason now) in
    (jm_set key record records, IngestAccepted false record) in
  match existing with
  | Some e =>
      if String.eqb (pj_sourceDigest e) sourceDigest then
        (jm_set key (replayed_record now e) records, IngestAccepted true (replayed_record now e))
      else if not_after (np_completedAt n) (np_completedAt (pj_fields e)) then
        (records, reject RejectStaleReplay
           "projection is older than the stored parentRoundId/originBrokerId aggregate" now)
      else accepted
  | None => accepted
  end.

(** The guards of [ingest], in order: the rejection of the first that fails. *)
Definition ingest_guard (brokerId : option string) (hasParentRound : string -> bool)
    (parentBrokerOfRecord : string -> option string) (request : JsRecord) (n : NormalizedProjection)
    : option (CrossBrokerTerminalBriefRejectCode * string) :=
  let receiver := normalizeToken (opt_value brokerId) in
  let addressed := normalizeToken (opt_value (np_brokerOfRecordId n)) in
  let parentBroker := normalizeToken (opt_value (parentBrokerOfRecord (np_parentRoundId n))) in
  match validateTerminalBriefForDispatch (dispatch_input n) receiver with
  | (_ :: _) as errors => Some (RejectMissingDispatchMetadata,
      "Terminal Brief dispatch metadata validation failed: " ++ String.concat "; " errors)%string
  | [] =>
      if match js_prop "terminalAck" request with JBool true => true | _ => false end then
        Some (RejectTerminalAckForbidden,
          "cross-broker Terminal Brief projection is aggregate evidence only and cannot ACK a Terminal Brief")
      else if differs addressed receiver then
        Some (RejectWrongOrigin, "projection addressed to broker-of-record " ++ (addressed ?? "") ++ ", not "
          ++ (receiver ?? ""))%string
      else if bool_decide (receiver = Some (np_originBrokerId n)) then
        Some (RejectWrongOrigin, "cross-broker projection origin must differ from receiving broker")
      else if negb (hasParentRound (np_parentRoundId n)) then
        Some (RejectMissingParent, "parent round " ++ np_parentRoundId n ++ " is not present on this broker")%string
      else if differs parentBroker receiver then
        Some (RejectWrongOrigin, "parent round " ++ np_parentRoundId n ++ " belongs to broker-of-record "
          ++ (parentBroker ?? ""))%string
      else None
  end.

Definition ingest (brokerId : option string) (hasParentRound : string -> bool)
    (parentBrokerOfRecord : string -> option string) (now : string) (request : JsRecord) (records : ProjectionStore)
    : ProjectionStore * CrossBrokerTerminalBriefProjectionResult :=
  match normalizeRequest request with
  | None => (records, reject RejectBadRequest
      "cross-broker Terminal Brief projection requires parentRoundId, originBrokerId, terminal status, and completedAt" now)
  | Some n =>
      match ingest_guard brokerId hasParentRound parentBrokerOfRecord request n with
      | Some (code, reason) => (records, reject code reason now)
      | None => store_projection n now records
      end
  end.

Definition compareRecords (a b : CrossBrokerTerminalBriefProjection) : Z :=
  let a := pj_fields a in
  let b := pj_fields b in
  let order n := (np_parentRoundOrder n ?? MAX_SAFE_INTEGER)%Z in
  let first x y := if (x =? 0)%Z then y else x in
  first (host_localeCompare (np_parentRoundId a) (np_parentRoundId b))
    (first (host_localeCompare (np_originBrokerId a) (np_originBrokerId b))
      (first (order a - order b)%Z
        (first (host_localeCompare (np_childTaskId a ?? "") (np_childTaskId b ?? ""))
          (host_localeCompare (np_childWorkerId a ?? "") (np_childWorkerId b ?? ""))))).

Record ProjectionFilters : Type := mkProjectionFilters {
  pf_parentRoundId : option string;
  pf_originBrokerId : option string;
}.

Definition passes_filter (f : option string) (s : string) : bool :=
  match truthy_opt f with Some t => String.eqb s t | None => true end.

Definition list_projections (f : ProjectionFilters) (records : ProjectionStore) : list CrossBrokerTerminalBriefProjection :=
  js_sort compareRecords (List.filter (fun p =>
    passes_filter (pf_parentRoundId f) (np_parentRoundId (pj_fields p))
    && passes_filter (pf_originBrokerId f) (np_originBrokerId (pj_fields p))) (jm_values records)).

Definition get_projection (parentRoundId originBrokerId : string) (records : ProjectionStore)
    : option CrossBrokerTerminalBriefProjection :=
  head (js_sort compareRecords (List.filter (fun p =>
    String.eqb (np_parentRoundId (pj_fields p)) parentRoundId
    && String.eqb (np_originBrokerId (pj_fields p)) originBrokerId) (jm_values records))).

Definition restore_projections (l : list CrossBrokerTerminalBriefProjection) : ProjectionStore :=
  foldl (fun m p => jm_set (recordKey (pj_fields p)) (normalizeRecord p) m) [] l.

Definition snapshot_projections (records : ProjectionStore) : list CrossBrokerTerminalBriefProjection :=
  list_projections (mkProjectionFilters None None) records.
End Store.

(** ** The event of a projection *)

(** The identity of the child task in the id of its event and in the payload. *)
Definition canonicalChildTaskId (n : NormalizedProjection) : string :=
  (np_childTaskId n ??o ((fun w => ("worker:" ++ w)%string) <$> truthy_opt (np_childWorkerId n)))
  ?? ("broker:" ++ np_originBrokerId n)%string.
Definition syntheticTaskId (n : NormalizedProjection) : string :=
  (np_childTaskId n ??o ((fun w => ("cross-broker-worker:" ++ w)%string) <$> truthy_opt (np_childWorkerId n)))
  ?? ("cross-broker:" ++ np_parentRoundId n ++ ":" ++ np_originBrokerId n)%string.
Definition parentBrokerId (n : NormalizedProjection) : string := np_brokerOfRecordId n ?? "unknown-parent-broker".

Definition projection_event_id (n : NormalizedProjection) : string :=
  let stableId := ("cross-broker:" ++ np_parentRoundId n ++ ":" ++ canonicalChildTaskId n ++ ":"
    ++ TaskStatus_text (np_status n) ++ ":" ++ parentBrokerId n)%string in
  ("terminal:" ++ encodeURIComponent stableId)%string.

Definition nonzero (o : option Z) : option Z := o ≫= fun n => if (n =? 0)%Z then None else Some n.

Definition notificationOwnership (owner : string) : JsRecord :=
  [("ownerBrokerId", JStr owner); ("scope", JStr "parent-broker-only");
   ("providerSendPermittedByProjection", JBool false); ("terminalAckPermittedByProjection", JBool false);
   ("reason", JStr "cross-broker projections are parent-broker aggregation evidence only; child/handoff brokers do not notify or ACK")].

Section Events.
Context `{JsUrl}.

Definition projection_payload (p : CrossBrokerTerminalBriefProjection) : TerminalTaskEventPayload :=
  let n := pj_fields p in
  let brief := ("Cross-broker Terminal Brief from " ++ np_originBrokerId n)%string in
  {| tp_taskId := syntheticTaskId n;
     tp_status := np_status n;
     tp_parentRoundId := Some (np_parentRoundId n);
     tp_run := Some (np_parentRoundId n);
     tp_traceId := None;
     tp_worker := Some (np_childWorkerId n ?? np_originBrokerId n);
     tp_repo := None;
     tp_issue := None;
     tp_taskBrief := sanitizeTaskBrief (opt_value (np_taskBrief n)) ??o sanitizeTaskBrief (JStr brief);
     tp_parentRoundProgress := nonzero (np_parentRoundOrder n);
     tp_parentRoundTotal := nonzero (np_parentRoundTotal n);
     tp_terminalBriefTitle := None;
     tp_title := None;
     tp_other :=
       [("originBrokerId", JStr (np_originBrokerId n))]
       ++ field "brokerOfRecordId" (truthy_opt (np_brokerOfRecordId n))
       ++ [("taskDescription", JStr brief)]
       ++ field "doneUrl" (firstSafeHttpUrl [opt_value (np_evidenceUrl n)])
       ++ field "testSummary" (sanitizeSummary (opt_value (np_summary n)))
       ++ [("createdAt", opt_value (np_emittedAt n)); ("updatedAt", JStr (np_completedAt n));
           ("completedAt", JStr (np_completedAt n))]
       ++ number_field "parentRoundOrder" (nonzero (np_parentRoundOrder n))
       ++ [("crossBrokerHandoff", JObj (
              [("parentRoundId", JStr (np_parentRoundId n)); ("originBrokerId", JStr (parentBrokerId n));
               ("handoffBrokerId", JStr (np_originBrokerId n))]
              ++ field "originTaskId" (truthy_opt (np_childTaskId n))
              ++ field "childWorkerId" (truthy_opt (np_childWorkerId n))));
           ("notificationOwnership", JObj (notificationOwnership (parentBrokerId n)))] |}.

Definition projection_event (id : string) (p : CrossBrokerTerminalBriefProjection) (payload : TerminalTaskEventPayload)
    : TerminalTaskOutboxEvent := {|
  ob_id := id;
  ob_taskEventId := 0;
  ob_payload := payload;
  ob_createdAt := pj_receivedAt p;
  ob_ack := None;
  ob_receipt := mkOutboxReceiptState RsAccepted (pj_receivedAt p) None None None;
  ob_ackAudit := Some (buildAckAudit payload AckPending
    "cross-broker terminal projection accepted; awaiting parent-broker current-session-visible/operator-visible/provider-delivery evidence before ACK"
    (pj_receivedAt p) (Some RsAccepted) None None);
  ob_deliveredAt := None;
  ob_attempts := 0 |}.

Definition enqueueCrossBrokerProjection (p : CrossBrokerTerminalBriefProjection) (o : TerminalTaskEventOutbox)
    : TerminalTaskEventOutbox * option TerminalTaskOutboxEvent :=
  let id := projection_event_id (pj_fields p) in
  match find_event id (ox_events o) with
  | Some existing => (o, Some existing)
  | None =>
      if bool_decide (id ∈ ox_seenOrder o) then (o, None)
      else
        let '(payload, children) := applyRoundProgressMetadata (projection_payload p) (ox_succeededChildIds o) in
        let payload := applyTerminalBriefCompatibilityAliases (applyTerminalBriefTitle payload) in
        let event := projection_event id p payload in
        (enforceRetention (markSeen id (o
           <| ox_succeededChildIds := children |>
           <| ox_events ::= fun l => l ++ [event] |>)), Some event)
  end.
End Events.

(** ** The broker with its projections *)

Record CrossBroker `{JsUrl} : Type := mkCrossBroker {
  xb_broker : Broker;
  xb_projections : ProjectionStore;
}.

Section Broker.
Context `{JsHost} `{JsUrl} `{JsCrypto} `{BrokerConfig}.

(** A part of the method that is the broker's. *)
Definition on_broker {A} (m : BM A) : stM CrossBroker BrokerError A :=
  m_zoom xb_broker (fun b x => mkCrossBroker _ b (xb_projections x)) m.

Definition set_projections (records : ProjectionStore) : stM CrossBroker BrokerError unit :=
  m_modify (fun x => mkCrossBroker _ (xb_broker x) records).

Definition enqueue_projection (p : CrossBrokerTerminalBriefProjection) : BM unit :=
  m_modify (fun b => b <| br_sink ::= fun s => (s.1, (enqueueCrossBrokerProjection p s.2).1) |>).

Definition ingestCrossBrokerTerminalBriefProjection (request : JsRecord)
    : stM CrossBroker BrokerError CrossBrokerTerminalBriefProjectionResult :=
  now <-- on_broker isoNow;
  x <-- m_get;
  let tasks := br_tasks (xb_broker x) in
  let '(records, result) :=
    ingest cfg_brokerId (fun id => jm_has id tasks) (fun id => jm_get id tasks ?> task_brokerOfRecord)
      now request (xb_projections x) in
  set_projections records;;;
  match result with
  | IngestAccepted replayed record =>
      m_when (negb replayed) (on_broker (enqueue_projection record));;;
      on_broker persistState
  | IngestRejected _ _ _ => m_ret tt
  end;;;
  m_ret result.

(** The status the route answers with (src/server.ts). *)
Definition ingest_status (r : CrossBrokerTerminalBriefProjectionResult) : Z :=
  match r with
  | IngestAccepted replayed _ => if replayed then 200 else 202
  | IngestRejected RejectMissingParent _ _ => 404
  | IngestRejected RejectStaleReplay _ _ => 409
  | IngestRejected _ _ _ => 400
  end.
End Broker.
