(* ===== verification/CrossBrokerFacts.v ===== *)
(** * The store of projections

    What the store holds after any requests and calls; when a request is told to be
    a replay; the events of the outbox; and restarts. *)

From Stdlib Require Import ZArith Lia String Ascii.
From stdpp Require Import base gmap strings list pretty relations.
From S2P Require Import Prelude JsRuntime JsonText TextRedaction Types Policy Retention BrokerCore EventBuffer.
From S2P Require Import TaskEventStream Outbox CoreFacts Workers Proposals Github TerminalBrief OutboxPayload Tasks.
From S2P Require Import TaskFacts Exchanges System Walk Feeds OutboxMachine OutboxRedaction CrossBroker.

(** ** The digested object tells the projection *)

Lemma TaskStatus_text_inj s s' : TaskStatus_text s = TaskStatus_text s' -> s = s'.
Proof. by destruct s, s'. Qed.

Lemma flat_app m m' :
  NoDup (map fst m) -> NoDup (map fst m') -> (forall k, k ∈ map fst m -> k ∉ map fst m') ->
  Forall (fun kv : string * JsValue => flat_value kv.2) m -> Forall (fun kv => flat_value kv.2) m' ->
  flat_record (m ++ m').
Proof.
  intros. split; [rewrite map_app; by apply NoDup_app|by apply Forall_app].
Qed.

(** Keys of an object built by parts, in order: each part has some of its keys. *)
Lemma sublist_field name o : sublist (map fst (field name o)) [name].
Proof. destruct o; simpl; [done|apply sublist_nil_l]. Qed.
Lemma sublist_number name o : sublist (map fst (number_field name o)) [name].
Proof. destruct o; simpl; [done|apply sublist_nil_l]. Qed.

Definition PROJECTION_KEYS : list string :=
  ["parentRoundId"; "originBrokerId"] ++ ["brokerOfRecordId"] ++ ["childTaskId"] ++ ["childRunId"]
  ++ ["childWorkerId"] ++ ["status"] ++ ["summary"] ++ ["taskBrief"] ++ ["evidenceUrl"] ++ ["completedAt"]
  ++ ["emittedAt"] ++ ["parentRoundTotal"] ++ ["parentRoundOrder"].

Lemma object_keys n : sublist (map fst (normalized_object n)) PROJECTION_KEYS.
Proof.
  unfold normalized_object, PROJECTION_KEYS. rewrite !map_app.
  repeat apply sublist_app; first [apply sublist_field | apply sublist_number | done].
Qed.

Lemma flat_field name o : Forall (fun kv => flat_value kv.2) (field name o).
Proof. destruct o; repeat constructor. Qed.
Lemma flat_number name o : Forall (fun kv => flat_value kv.2) (number_field name o).
Proof. destruct o; repeat constructor. Qed.

Lemma object_flat n : flat_record (normalized_object n).
Proof.
  split.
  - eapply sublist_NoDup; [|apply object_keys]. apply (bool_decide_unpack _). vm_compute. exact I.
  - unfold normalized_object. rewrite !Forall_app.
    split_and!; first [apply flat_field | apply flat_number | repeat constructor].
Qed.

(** The value a property has in an object built by parts. *)
Lemma prop_app k m m' : js_prop k (m ++ m') = if jm_has k m then js_prop k m else js_prop k m'.
Proof.
  unfold js_prop, jm_has. induction m as [|[j v] m IH]; simpl; [done|]. by destruct (String.eqb k j).
Qed.
Lemma has_field k name o : jm_has k (field name o) = String.eqb k name && is_some o.
Proof. unfold jm_has. destruct o; simpl; by destruct (String.eqb k name). Qed.
Lemma has_number k name o : jm_has k (number_field name o) = String.eqb k name && is_some o.
Proof. unfold jm_has. destruct o; simpl; by destruct (String.eqb k name). Qed.
Lemma prop_field_one k name o : js_prop k (field name o) = if String.eqb k name then opt_value o else JUndef.
Proof. unfold js_prop. destruct o; simpl; by destruct (String.eqb k name). Qed.
Lemma prop_number_one k name o : js_prop k (number_field name o) = if String.eqb k name then opt_number o else JUndef.
Proof. unfold js_prop. destruct o; simpl; by destruct (String.eqb k name). Qed.

Ltac object_prop :=
  unfold normalized_object;
  rewrite !prop_app, ?has_field, ?has_number, ?prop_field_one, ?prop_number_one; cbn;
  try (match goal with |- context [is_some ?o] => destruct o end; reflexivity); try reflexivity.

Definition prop_of (k : string) (n : NormalizedProjection) : JsValue := js_prop k (normalized_object n).

Lemma object_props n :
  (prop_of "parentRoundId" n = JStr (np_parentRoundId n) /\ prop_of "originBrokerId" n = JStr (np_originBrokerId n)
   /\ prop_of "status" n = JStr (TaskStatus_text (np_status n)) /\ prop_of "completedAt" n = JStr (np_completedAt n))
  /\ (prop_of "brokerOfRecordId" n = opt_value (np_brokerOfRecordId n)
      /\ prop_of "childTaskId" n = opt_value (np_childTaskId n) /\ prop_of "childRunId" n = opt_value (np_childRunId n)
      /\ prop_of "childWorkerId" n = opt_value (np_childWorkerId n) /\ prop_of "summary" n = opt_value (np_summary n)
      /\ prop_of "taskBrief" n = opt_value (np_taskBrief n) /\ prop_of "evidenceUrl" n = opt_value (np_evidenceUrl n)
      /\ prop_of "emittedAt" n = opt_value (np_emittedAt n))
  /\ prop_of "parentRoundTotal" n = opt_number (np_parentRoundTotal n)
  /\ prop_of "parentRoundOrder" n = opt_number (np_parentRoundOrder n).
Proof. unfold prop_of. split_and!; object_prop. Qed.

Lemma opt_value_inj o o' : opt_value o = opt_value o' -> o = o'.
Proof. destruct o, o'; simpl; congruence. Qed.
Lemma opt_number_inj o o' : opt_number o = opt_number o' -> o = o'.
Proof. destruct o, o'; simpl; congruence. Qed.

Lemma object_inj n n' : (forall k, prop_of k n = prop_of k n') -> n = n'.
Proof.
  intros Heq. destruct (object_props n) as ((? & ? & ? & ?) & (? & ? & ? & ? & ? & ? & ? & ?) & ? & ?).
  destruct (object_props n') as ((? & ? & ? & ?) & (? & ? & ? & ? & ? & ? & ? & ?) & ? & ?).
  repeat match goal with
  | H : prop_of ?k n = ?v, H' : prop_of ?k n' = ?v' |- _ =>
      let E := fresh "E" in assert (v = v') as E by (by rewrite <- H, <- H'); clear H H'
  end.
  destruct n, n'; simpl in *. f_equal; solve [congruence | auto using opt_value_inj, opt_number_inj | apply TaskStatus_text_inj; congruence].
Qed.

(** With a digest that tells texts apart, the source digest tells projections
    apart. *)
Lemma digest_inj `{JsCrypto} n n' :
  (forall s t, sha256 s = sha256 t -> s = t) -> digestProjection n = digestProjection n' -> n = n'.
Proof.
  unfold digestProjection. intros Hinj [= Heq]. apply Hinj in Heq.
  apply object_inj. intros k. by apply stable_object_inj; [apply object_flat..|].
Qed.

(** ** What the store holds *)

Lemma token_trimmed v t : normalizeToken v = Some t -> trimmed t = Some t.
Proof.
  unfold normalizeToken. destruct (js_string v) as [s|]; [|done]. simpl. apply trimmed_idemp.
Qed.
Lemma token_again v : normalizeToken (opt_value (normalizeToken v)) = normalizeToken v.
Proof.
  destruct (normalizeToken v) as [t|] eqn:Ht; [|done]. by apply token_trimmed in Ht.
Qed.

Lemma positive_number v t : normalizePositiveInt v = Some t -> (0 < t)%Z.
Proof. unfold normalizePositiveInt. intros. repeat case_match; simplify_eq; lia. Qed.

Lemma sanitizeText_hidden v n : hidden (sanitizeText v n).
Proof.
  unfold sanitizeText. intros s (t & (u & _ & Hu)%bind_Some & Hs%truthy_opt_some)%bind_Some.
  injection Hs as ->. by eapply sanitize_hides.
Qed.

(** An acknowledgement the store wrote. *)
Definition written_ack (a : ProjectionAck) : Prop := pk_reason a = accepted_reason \/ pk_reason a = replay_reason.
(** It was written between the years 0 and 9999. *)
Definition dated (p : CrossBrokerTerminalBriefProjection) : Prop :=
  exists ms, pk_updatedAt (pj_ack p) = toISOString ms /\ iso_range ms.

Record projection_ok `{JsCrypto} (receiver : option string) (key : string) (p : CrossBrokerTerminalBriefProjection) : Prop := {
  po_key : recordKey (pj_fields p) = key;
  po_id : pj_id p = key;
  po_round : exists total order, np_parentRoundTotal (pj_fields p) = Some total
    /\ np_parentRoundOrder (pj_fields p) = Some order /\ (1 <= order <= total)%Z;
  po_origin : receiver <> Some (np_originBrokerId (pj_fields p));
  po_addressed : receiver = None \/ np_brokerOfRecordId (pj_fields p) = None \/ np_brokerOfRecordId (pj_fields p) = receiver;
  po_status : isTerminalStatus (np_status (pj_fields p)) = true;
  po_emitted : is_Some (np_emittedAt (pj_fields p));
  po_digest : exists n, pj_sourceDigest p = digestProjection n
    /\ pj_fields p = n <| np_emittedAt := Some (np_emittedAt n ?? np_completedAt n) |>;
  po_texts : hidden (np_summary (pj_fields p)) /\ hidden (np_taskBrief (pj_fields p));
  po_replays : (0 <= pj_replayCount p)%Z;
  po_ack : written_ack (pj_ack p);
}.

Definition projections_ok `{JsCrypto} (receiver : option string) (records : ProjectionStore) : Prop :=
  jm_wf records /\ forall key p, jm_get key records = Some p -> projection_ok receiver key p.

Section Store.
Context `{JsHost} `{JsUrl} `{JsCrypto}.

(** What the guards let pass. *)
Lemma normalized_facts r n :
  normalizeRequest r = Some n ->
  isTerminalStatus (np_status n) = true /\ hidden (np_summary n) /\ hidden (np_taskBrief n)
  /\ normalizeToken (opt_value (np_brokerOfRecordId n)) = np_brokerOfRecordId n.
Proof.
  unfold normalizeRequest.
  destruct (normalizeToken (js_prop "parentRoundId" r)), (normalizeToken (js_prop "originBrokerId" r)); try done.
  destruct (terminal_status _) as [st|] eqn:Hst; [|done]. destruct (normalizeIso _); [|done]. intros [= <-]. simpl.
  split_and!; [|apply sanitizeText_hidden..|apply token_again].
  unfold terminal_status in Hst. destruct (js_string _) as [text|]; [|done]. change (List.find (fun st => String.eqb (TaskStatus_text st) text) [TaskSucceeded; TaskFailed; TaskCanceled; TaskBlocked] = Some st) in Hst.
  apply List.find_some in Hst as [Hin _]. apply bool_decide_eq_true, list_elem_of_In, Hin.
Qed.

Lemma guard_facts bid has pb r n :
  normalizeRequest r = Some n -> ingest_guard bid has pb r n = None ->
  let receiver := normalizeToken (opt_value bid) in
  (exists total order, np_parentRoundTotal n = Some total /\ np_parentRoundOrder n = Some order /\ (1 <= order <= total)%Z)
  /\ receiver <> Some (np_originBrokerId n)
  /\ (receiver = None \/ np_brokerOfRecordId n = None \/ np_brokerOfRecordId n = receiver)
  /\ has (np_parentRoundId n) = true.
Proof.
  intros Hn. unfold ingest_guard. apply normalized_facts in Hn as (_ & _ & _ & ->).
  set (receiver := normalizeToken (opt_value bid)).
  destruct (validateTerminalBriefForDispatch _ _) as [|e l] eqn:Hv; [|done].
  destruct (match js_prop "terminalAck" r with JBool true => true | _ => false end); [done|].
  destruct (differs _ receiver) eqn:Hd; [done|]. case_bool_decide as Ho; [done|].
  destruct (has (np_parentRoundId n)) eqn:Hh; [|done]. intros _. split_and!; [|done| |done].
  - assert (tv_issues (validateTerminalBriefMetadata (dispatch_input n) receiver false) = []) as Hi%valid_iff_no_issue.
    { unfold validateTerminalBriefForDispatch in Hv. apply map_eq_nil in Hv.
      pose proof (issues_are_errors (dispatch_input n) receiver false) as Hall.
      destruct (tv_issues _) as [|i rest]; [done|]. apply Forall_cons in Hall as [Hi _].
      simpl in Hv. by rewrite Hi in Hv. }
    apply valid_metadata in Hi as (_ & _ & total & order & Ht & Hor & Hle). exists total, order.
    unfold dispatch_input, js_prop in Ht, Hor. simpl in Ht, Hor.
    split_and!; try lia.
    + destruct (np_parentRoundTotal n) as [z|]; [|done]. simpl in Ht. by destruct (0 <? z)%Z; simplify_eq.
    + destruct (np_parentRoundOrder n) as [z|]; [|done]. simpl in Hor. by destruct (0 <? z)%Z; simplify_eq.
  - unfold differs in Hd. destruct (np_brokerOfRecordId n) as [a|]; [|by right; left].
    destruct receiver as [b|]; [|by left]. apply negb_false_iff, String.eqb_eq in Hd as ->. by right; right.
Qed.

(** The three outcomes of a request that passed. *)
Inductive store_outcome (n : NormalizedProjection) (now : string) (records : ProjectionStore)
    : ProjectionStore * CrossBrokerTerminalBriefProjectionResult -> Prop :=
| OutcomeReplay e : jm_get (recordKey n) records = Some e -> pj_sourceDigest e = digestProjection n ->
    store_outcome n now records
      (jm_set (recordKey n) (replayed_record now e) records, IngestAccepted true (replayed_record now e))
| OutcomeStale e reason : jm_get (recordKey n) records = Some e -> pj_sourceDigest e <> digestProjection n ->
    not_after (np_completedAt n) (np_completedAt (pj_fields e)) = true ->
    store_outcome n now records (records, IngestRejected RejectStaleReplay reason now)
| OutcomeStored p :
    (forall e, jm_get (recordKey n) records = Some e -> pj_sourceDigest e <> digestProjection n
       /\ not_after (np_completedAt n) (np_completedAt (pj_fields e)) = false) ->
    p = mkProjection (recordKey n) (n <| np_emittedAt := Some (np_emittedAt n ?? np_completedAt n) |>) now
      (digestProjection n) ((pj_replayCount <$> jm_get (recordKey n) records) ?? 0%Z)
      (mkProjectionAck ProjectionAccepted accepted_reason now) ->
    store_outcome n now records (jm_set (recordKey n) p records, IngestAccepted false p).

Lemma store_projection_outcome n now records : store_outcome n now records (store_projection n now records).
Proof.
  unfold store_projection. destruct (jm_get (recordKey n) records) as [e|] eqn:He.
  - destruct (String.eqb_spec (pj_sourceDigest e) (digestProjection n)) as [Hd|Hd]; [by apply OutcomeReplay|].
    destruct (not_after _ _) eqn:Ht; [by eapply OutcomeStale|].
    apply OutcomeStored; [|by rewrite He]. intros e' He'. rewrite He in He'. by injection He' as <-.
  - apply OutcomeStored; [|by rewrite He]. intros e' He'. by rewrite He in He'.
Qed.

Lemma ingest_stores bid has pb now r records :
  projections_ok (normalizeToken (opt_value bid)) records ->
  projections_ok (normalizeToken (opt_value bid)) (ingest bid has pb now r records).1.
Proof.
  intros Hok. unfold ingest. destruct (normalizeRequest r) as [n|] eqn:Hn; [|done].
  destruct (ingest_guard bid has pb r n) as [[code reason]|] eqn:Hg; [done|].
  pose proof (guard_facts bid has pb r n Hn Hg) as (Hround & Horigin & Haddr & _).
  apply normalized_facts in Hn as (Hst & Hsum & Hbrief & _). destruct Hok as [Hwf Hrec].
  assert (forall p, projection_ok (normalizeToken (opt_value bid)) (recordKey n) p ->
    projections_ok (normalizeToken (opt_value bid)) (jm_set (recordKey n) p records)) as Hset.
  { intros p Hp. split; [by apply jm_wf_set|]. intros key q. rewrite jm_get_set.
    destruct (String.eqb_spec key (recordKey n)) as [->|]; [intros [= <-]; exact Hp|apply Hrec]. }
  destruct (store_projection_outcome n now records) as [e He Hd|e reason He Hd Hs|p Hno ->]; simpl.
  - apply Hset. destruct (Hrec _ _ He). split; simpl; try done; [lia|]. by right.
  - done.
  - apply Hset. split; simpl; try done.
    + by exists n.
    + destruct (jm_get (recordKey n) records) as [e|] eqn:He; [|done]. simpl. by destruct (Hrec _ _ He).
    + by left.
Qed.
End Store.

(** ** Replays, and what a request does to the record it finds *)

Section Replays.
Context `{JsHost} `{JsUrl} `{JsCrypto}.

Lemma ingest_accepted bid has pb now r records records' b p :
  ingest bid has pb now r records = (records', IngestAccepted b p) ->
  exists n, normalizeRequest r = Some n /\ ingest_guard bid has pb r n = None
    /\ store_projection n now records = (records', IngestAccepted b p).
Proof.
  unfold ingest. destruct (normalizeRequest r) as [n|]; [|intros Hi; discriminate Hi].
  destruct (ingest_guard bid has pb r n) as [[code reason]|] eqn:Hg; [intros Hi; discriminate Hi|]. eauto.
Qed.

(** The record of an accepted request carries its digest. *)
Lemma store_accepted n now records records' b p :
  store_projection n now records = (records', IngestAccepted b p) ->
  jm_get (recordKey n) records' = Some p /\ pj_sourceDigest p = digestProjection n.
Proof.
  intros Heq. pose proof (store_projection_outcome n now records) as Ho. rewrite Heq in Ho.
  inversion Ho; subst; rewrite jm_get_set_eq; by split.
Qed.

Lemma ingest_again bid has pb now now' r records records' b p :
  ingest bid has pb now r records = (records', IngestAccepted b p) ->
  exists key, jm_get key records' = Some p
    /\ ingest bid has pb now' r records'
       = (jm_set key (replayed_record now' p) records', IngestAccepted true (replayed_record now' p)).
Proof.
  intros (n & Hn & Hg & Hs)%ingest_accepted. apply store_accepted in Hs as [Hp Hd]. exists (recordKey n).
  split; [done|]. unfold ingest. rewrite Hn, Hg. unfold store_projection. rewrite Hp, Hd.
  by rewrite String.eqb_refl.
Qed.

(** A replay of a record is a request with the same projection. *)
Lemma replay_same (sha_inj : forall s t, sha256 s = sha256 t -> s = t) bid has pb now r records records' b p :
  ingest bid has pb now r records = (records', IngestAccepted b p) ->
  forall bid' has' pb' now' r' records'' q,
    ingest bid' has' pb' now' r' records' = (records'', IngestAccepted true q) ->
    q = replayed_record now' p -> normalizeRequest r' = normalizeRequest r.
Proof.
  intros (n & -> & _ & Hs)%ingest_accepted bid' has' pb' now' r' records'' q Hi Hq.
  apply store_accepted in Hs as [_ Hd]. apply ingest_accepted in Hi as (n' & -> & _ & Hs').
  apply store_accepted in Hs' as [_ Hd']. f_equal. apply digest_inj; [done|].
  rewrite <- Hd', Hq. simpl. exact Hd.
Qed.

(** Records are kept, and only a later completion replaces what one tells. *)
Definition record_kept (p p' : CrossBrokerTerminalBriefProjection) : Prop :=
  pj_fields p' = pj_fields p /\ pj_sourceDigest p' = pj_sourceDigest p /\ (pj_replayCount p <= pj_replayCount p')%Z
  \/ not_after (np_completedAt (pj_fields p')) (np_completedAt (pj_fields p)) = false
     /\ pj_replayCount p' = pj_replayCount p.

Lemma ingest_keeps bid has pb now r records key p :
  jm_get key records = Some p ->
  exists p', jm_get key (ingest bid has pb now r records).1 = Some p' /\ record_kept p p'.
Proof.
  intros Hp. assert (exists p', jm_get key records = Some p' /\ record_kept p p') as Hsame
    by (exists p; split; [done|left; split_and!; [done|done|lia]]).
  unfold ingest. destruct (normalizeRequest r) as [n|]; [|done].
  destruct (ingest_guard bid has pb r n) as [[code reason]|]; [done|].
  destruct (store_projection_outcome n now records) as [e He Hd|e reason He Hd Hs|q Hno ->]; simpl; [|done|].
  - rewrite jm_get_set. destruct (String.eqb_spec key (recordKey n)) as [->|]; [|done].
    rewrite Hp in He. injection He as <-. eexists. split; [reflexivity|]. left. simpl. split_and!; [done|done|lia].
  - rewrite jm_get_set. destruct (String.eqb_spec key (recordKey n)) as [->|]; [|done].
    eexists. split; [reflexivity|]. right. simpl. rewrite Hp. split; [by apply Hno|done].
Qed.

(** ** Restart *)

Lemma reasons_kept : sanitizeText (JStr accepted_reason) MAX_REASON_CHARS = Some accepted_reason
  /\ sanitizeText (JStr replay_reason) MAX_REASON_CHARS = Some replay_reason.
Proof. split; vm_compute; reflexivity. Qed.

Lemma normalize_written receiver key p : projection_ok receiver key p -> dated p -> normalizeRecord p = p.
Proof.
  intros [_ _ (total & order & Ht & Ho & Hle) _ _ _ _ _ _ _ Hr] (ms & Hu & Hms). unfold written_ack in Hr.
  destruct p as [id n received digest count [decision reason updated]]. simpl in *.
  assert (sanitizeText (JStr reason) MAX_REASON_CHARS = Some reason) as Hreason
    by (destruct Hr as [->| ->]; apply reasons_kept).
  assert (normalizeIso (JStr updated) = Some updated) as Hiso.
  { rewrite Hu. change (toISOString <$> date_parse (toISOString ms) = Some (toISOString ms)).
    by rewrite date_parse_toISOString. }
  unfold normalizeRecord. cbn -[sanitizeText normalizeIso positive]. rewrite Hreason, Hiso.
  assert (positive (np_parentRoundTotal n) = np_parentRoundTotal n
    /\ positive (np_parentRoundOrder n) = np_parentRoundOrder n) as [-> ->].
  { rewrite Ht, Ho. unfold positive. simpl. destruct (Z.ltb_spec 0 total), (Z.ltb_spec 0 order); try lia. done. }
  destruct n, decision; reflexivity.
Qed.

Lemma restore_get (l : list CrossBrokerTerminalBriefProjection) key :
  NoDup (map (fun p => recordKey (pj_fields p)) l) ->
  jm_get key (restore_projections l) = normalizeRecord <$> List.find (fun p => String.eqb (recordKey (pj_fields p)) key) l.
Proof.
  intros Hnd. unfold restore_projections.
  assert (forall m, jm_get key (foldl (fun m p => jm_set (recordKey (pj_fields p)) (normalizeRecord p) m) m l)
    = match List.find (fun p => String.eqb (recordKey (pj_fields p)) key) l with
      | Some p => Some (normalizeRecord p) | None => jm_get key m end) as Hall.
  { induction l as [|p l IH]; intros m; [done|]. apply NoDup_cons in Hnd as [Hp Hnd]. simpl. rewrite IH by done.
    destruct (List.find _ l) as [q|] eqn:Hq; destruct (String.eqb_spec (recordKey (pj_fields p)) key) as [Hk|Hk].
    - apply List.find_some in Hq as [Hin Hqk%String.eqb_eq]. destruct Hp. apply list_elem_of_fmap. exists q.
      split; [congruence|by apply list_elem_of_In].
    - done.
    - by rewrite <- Hk, jm_get_set_eq.
    - by rewrite jm_get_set_ne. }
  rewrite Hall. by destruct (List.find _ l).
Qed.

Lemma snapshot_restored receiver records key :
  projections_ok receiver records -> (forall k p, jm_get k records = Some p -> dated p) ->
  jm_get key (restore_projections (snapshot_projections records)) = jm_get key records.
Proof.
  intros [Hwf Hok] Hdated.
  assert (snapshot_projections records ≡ₚ jm_values records) as Hperm.
  { unfold snapshot_projections, list_projections. rewrite js_sort_perm. simpl.
    by rewrite List.filter_true. }
  assert (forall k p, (k, p) ∈ records -> recordKey (pj_fields p) = k) as Hkey.
  { intros k p Hin. by apply (po_key receiver), Hok, jm_elem_get. }
  assert (map (fun p => recordKey (pj_fields p)) (jm_values records) = jm_keys records) as Hkeys.
  { unfold jm_values, jm_keys. rewrite map_map. apply map_ext_in. intros [k p] Hin%list_elem_of_In. by apply Hkey. }
  rewrite restore_get by (rewrite Hperm, Hkeys; exact Hwf).
  destruct (List.find _ _) as [p|] eqn:Hf; simpl.
  - apply List.find_some in Hf as [Hin Hk%String.eqb_eq].
    apply list_elem_of_In in Hin. rewrite Hperm in Hin. apply jm_elem_values in Hin as (k & Hin).
    pose proof (Hkey _ _ Hin) as Hkk. assert (k = key) as -> by congruence.
    apply jm_elem_get in Hin; [|done]. rewrite Hin. f_equal.
    eapply normalize_written; [by apply Hok|by eapply Hdated].
  - symmetry. destruct (jm_get key records) as [p|] eqn:Hp; [|done].
    assert (p ∈ snapshot_projections records) as Hin
      by (rewrite Hperm; apply jm_elem_values; exists key; by apply jm_get_elem).
    apply list_elem_of_In, (List.find_none _ _ Hf) in Hin. apply String.eqb_neq in Hin.
    destruct Hin. by apply (po_key receiver), Hok.
Qed.
End Replays.

(** ** Events *)

Section Events.
Context `{JsUrl}.

Lemma enqueue_projection_ok p o : outbox_ok o -> outbox_ok (enqueueCrossBrokerProjection p o).1.
Proof.
  intros Hok. unfold enqueueCrossBrokerProjection.
  destruct (find_event _ (ox_events o)); [done|]. case_bool_decide as Hs; [done|].
  destruct (applyRoundProgressMetadata _ _) as [payload children]. simpl.
  by apply (record_new_ok (projection_event _ p _)).
Qed.

(** The event is in the outbox, or its id is remembered as one that was. *)
Lemma projection_event_recorded p o :
  outbox_ok o ->
  let o' := (enqueueCrossBrokerProjection p o).1 in
  is_Some (record_of o' (projection_event_id (pj_fields p))) \/ (o' = o /\ projection_event_id (pj_fields p) ∈ ox_seenOrder o).
Proof.
  intros Hok. unfold enqueueCrossBrokerProjection, record_of. set (id := projection_event_id (pj_fields p)).
  destruct (find_event id (ox_events o)) as [e|] eqn:Hf; [left; simpl; by rewrite Hf|].
  case_bool_decide as Hs; [by right|]. left.
  destruct (applyRoundProgressMetadata _ _) as [payload children]. simpl. eexists.
  by eapply (find_event_trimmed _ _ (projection_event id p _)); [apply Hok|exact Hf|].
Qed.

(** Projections of one child's outcome share one event: whatever else differs. *)
Lemma projection_event_once p q o :
  outbox_ok o -> projection_event_id (pj_fields p) = projection_event_id (pj_fields q) ->
  let o' := (enqueueCrossBrokerProjection p o).1 in (enqueueCrossBrokerProjection q o').1 = o'.
Proof.
  intros Hok Hid. cbv zeta. destruct (projection_event_recorded p o Hok) as [[e He]|[Heq Hs]].
  - revert He. generalize (enqueueCrossBrokerProjection p o).1. intros o' He.
    unfold enqueueCrossBrokerProjection. rewrite <- Hid. unfold record_of in He. by rewrite He.
  - rewrite Heq. unfold enqueueCrossBrokerProjection at 1. rewrite <- Hid.
    destruct (find_event _ (ox_events o)); [done|]. by rewrite bool_decide_true.
Qed.
End Events.

(** ** The broker with its projections *)

Section System.
Context `{JsHost} `{JsUrl} `{JsCrypto} `{BrokerConfig}.

Inductive xcall : Type := XCall (c : call) | XIngest (request : JsRecord).

Definition run_xcall (c : xcall) (x : CrossBroker) : CrossBroker :=
  match c with
  | XCall c => (on_broker (run_call c) x).1
  | XIngest request => (ingestCrossBrokerTerminalBriefProjection request x).1
  end.

Definition xstep (x x' : CrossBroker) : Prop :=
  exists c, match c with XCall c => proper_call c (xb_broker x) | XIngest _ => True end /\ run_xcall c x = x'.

(** What holds across the broker's part holds across the request. *)
Definition on_brokers (R : Broker -> Broker -> Prop) (x x' : CrossBroker) : Prop := R (xb_broker x) (xb_broker x').

Lemma preserves_on_broker {A} R (m : BM A) : preserves R m -> preserves (on_brokers R) (on_broker m).
Proof. intros Hm. unfold on_broker, on_brokers. by apply (preserves_zoom R xb_broker). Qed.

Lemma ingest_preserves (R : Broker -> Broker -> Prop) `{!Reflexive R} `{!Transitive R} request :
  preserves R isoNow -> (forall p, preserves R (enqueue_projection p)) -> preserves R persistState ->
  preserves (on_brokers R) (ingestCrossBrokerTerminalBriefProjection request).
Proof.
  intros Hnow Henq Hper.
  assert (Reflexive (on_brokers R)) as Hrefl by (intros x; unfold on_brokers; reflexivity).
  assert (Transitive (on_brokers R)) as Htrans
    by (intros x y z Hxy Hyz; unfold on_brokers in *; by transitivity (xb_broker y)).
  unfold ingestCrossBrokerTerminalBriefProjection.
  apply preserves_bind; [done|by apply preserves_on_broker|]. intros now.
  apply preserves_bind; [done|by apply preserves_get|]. intros x. cbv zeta.
  destruct (ingest _ _ _ _ _ _) as [records result].
  apply preserves_bind; [done|unfold set_projections; apply preserves_modify; intros y; unfold on_brokers; reflexivity|]. intros _.
  apply preserves_bind; [done| |intros _; by apply preserves_ret].
  destruct result as [replayed p|]; [|by apply preserves_ret].
  apply preserves_bind; [done| |intros _; by apply preserves_on_broker].
  apply preserves_when; [done|]. by apply preserves_on_broker.
Qed.

(** What the request does to the projections and what it answers. *)
Definition ingest_in (request : JsRecord) (x : CrossBroker) : ProjectionStore * CrossBrokerTerminalBriefProjectionResult :=
  let tasks := br_tasks (xb_broker x) in
  ingest cfg_brokerId (fun id => jm_has id tasks) (fun id => jm_get id tasks ?> task_brokerOfRecord)
    (toISOString (host_clock (br_ticks (xb_broker x)))) request (xb_projections x).

Lemma on_broker_projections {A} (m : BM A) x : xb_projections (on_broker m x).1 = xb_projections x.
Proof. unfold on_broker, m_zoom. by destruct (m (xb_broker x)). Qed.

Lemma ingest_run request x :
  wf_broker (xb_broker x) ->
  (ingestCrossBrokerTerminalBriefProjection request x).2 = Ok (ingest_in request x).2
  /\ xb_projections (ingestCrossBrokerTerminalBriefProjection request x).1 = (ingest_in request x).1
  /\ br_sink (xb_broker (ingestCrossBrokerTerminalBriefProjection request x).1)
     = match (ingest_in request x).2 with
       | IngestAccepted false p => ((br_sink (xb_broker x)).1, (enqueueCrossBrokerProjection p (br_sink (xb_broker x)).2).1)
       | _ => br_sink (xb_broker x)
       end.
Proof.
  intros Hwf. unfold ingestCrossBrokerTerminalBriefProjection.
  set (x1 := mkCrossBroker _ ((xb_broker x) <| br_ticks ::= S |>) (xb_projections x)).
  rewrite (bind_ok _ _ x x1 (toISOString (host_clock (br_ticks (xb_broker x))))) by done.
  rewrite (bind_ok _ _ x1 x1 x1) by done. cbv zeta.
  change (ingest _ _ _ _ request (xb_projections x1)) with (ingest_in request x).
  destruct (ingest_in request x) as [records result]. simpl.
  set (x2 := mkCrossBroker _ (xb_broker x1) records). rewrite (bind_ok _ _ x1 x2 tt) by done.
  assert (wf_broker (xb_broker x1)) as Hwf1 by (by destruct Hwf).
  assert (forall b, wf_broker b -> exists b', persistState b = (b', Ok tt) /\ br_sink b' = br_sink b) as Hper.
  { intros b Hb. destruct (answers_persistState b Hb) as ([] & Ha). destruct (same_feeds_persist b) as (Hs & _).
    destruct (persistState b) as [b' r]. simpl in Ha, Hs. subst. eauto. }
  destruct result as [replayed p|]; [|done].
  destruct replayed; unfold m_when; simpl.
  - unfold m_bind, on_broker, m_zoom, m_ret. destruct (Hper (xb_broker x2) Hwf1) as (b' & -> & Hs). done.
  - unfold m_bind, on_broker, m_zoom, m_ret, enqueue_projection, m_modify. 
    match goal with |- context [persistState ?b] => destruct (Hper b) as (b' & -> & Hs) end; [by destruct Hwf1|done].
Qed.

(** Every state of the broker with its projections: the tables, the feeds and the
    store of projections are sound. *)
Definition x_sound (x : CrossBroker) : Prop :=
  good (xb_broker x) /\ feeds_ok (xb_broker x) /\ projections_ok (normalizeToken (opt_value cfg_brokerId)) (xb_projections x).

Lemma feeds_enqueue_projection p : preserves feeds_kept (enqueue_projection p).
Proof.
  unfold enqueue_projection. apply preserves_modify. intros b [Hs Hsb Ho Hl]. split; simpl; try done.
  by apply enqueue_projection_ok.
Qed.

Lemma quiet_enqueue_projection p : preserves quiet (enqueue_projection p).
Proof. unfold enqueue_projection. quiet_other. Qed.

Lemma sound_xstep x x' :
  (forall m n, host_uuid m = host_uuid n -> m = n) ->
  xstep x x' -> x_sound x -> x_sound x'.
Proof.
  intros Huuid (c & Hc & <-) (Hgood & Hfeeds & Hproj). destruct c as [c|request]; simpl.
  - split_and!.
    + apply (good_step Huuid (xb_broker x)); [done|]. exists c. split; [done|].
      unfold on_broker, m_zoom. by destruct (run_call c (xb_broker x)).
    + pose proof (feeds_call c (xb_broker x) Hfeeds) as Hf. unfold on_broker, m_zoom. by destruct (run_call c (xb_broker x)).
    + by rewrite on_broker_projections.
  - split_and!.
    + pose proof (ingest_preserves quiet request) as Hq. apply (good_quiet (xb_broker x)); [|done].
      apply Hq; [eauto with preserves_db|apply quiet_enqueue_projection|apply quiet_persistState].
    + apply (ingest_preserves feeds_kept request); [apply feeds_isoNow|apply feeds_enqueue_projection| |done].
      apply untouched, same_feeds_persist.
    + destruct (ingest_run request x) as (_ & -> & _); [apply Hgood|]. by apply ingest_stores.
Qed.

Lemma sound_started m1 m2 ms : x_sound (mkCrossBroker _ (started m1 m2 ms) []).
Proof.
  split_and!; [|apply feeds_started|].
  - split; [apply wf_new_broker|]. by intros id t.
  - split; [apply jm_wf_nil|done].
Qed.

Lemma sound_xsteps x x' :
  (forall m n, host_uuid m = host_uuid n -> m = n) -> rtc xstep x x' -> x_sound x -> x_sound x'.
Proof. intros Huuid. induction 1; eauto using sound_xstep. Qed.

(** The guards look at the parent's task alone. *)
Lemma guard_ext bid has pb has' pb' r n :
  has (np_parentRoundId n) = has' (np_parentRoundId n) -> pb (np_parentRoundId n) = pb' (np_parentRoundId n) ->
  ingest_guard bid has pb r n = ingest_guard bid has' pb' r n.
Proof. intros Hh Hp. unfold ingest_guard. by rewrite Hh, Hp. Qed.

Lemma event_recorded p o :
  outbox_ok o ->
  let o' := (enqueueCrossBrokerProjection p o).1 in
  is_Some (record_of o' (projection_event_id (pj_fields p))) \/ projection_event_id (pj_fields p) ∈ ox_seenOrder o'.
Proof.
  intros Ho. destruct (projection_event_recorded p o Ho) as [?|[Heq Hs]]; [by left|right]. by rewrite Heq.
Qed.

(** A request that was accepted, again, while the parent's task is what it was. *)
Lemma replay_run r x x1 replayed p :
  ingest_in r x = (xb_projections x1, IngestAccepted replayed p) -> good (xb_broker x1) ->
  (forall n, normalizeRequest r = Some n ->
     jm_get (np_parentRoundId n) (br_tasks (xb_broker x1)) = jm_get (np_parentRoundId n) (br_tasks (xb_broker x))) ->
  exists p' x2, ingestCrossBrokerTerminalBriefProjection r x1 = (x2, Ok (IngestAccepted true p'))
    /\ pj_fields p' = pj_fields p /\ pj_replayCount p' = (pj_replayCount p + 1)%Z
    /\ br_sink (xb_broker x2) = br_sink (xb_broker x1).
Proof.
  unfold ingest_in. cbv zeta. intros Hin Hgood Hparent.
  pose proof (ingest_accepted _ _ _ _ _ _ _ _ _ Hin) as (n & Hn & Hg & _). specialize (Hparent n Hn).
  destruct (ingest_again _ _ _ _ (toISOString (host_clock (br_ticks (xb_broker x1)))) _ _ _ _ _ Hin) as (key & _ & Hagain).
  pose proof (ingest_run r x1 (proj1 Hgood)) as (Hres & _ & Hsink).
  assert (ingest_in r x1 = ingest cfg_brokerId (fun id => jm_has id (br_tasks (xb_broker x)))
    (fun id => jm_get id (br_tasks (xb_broker x)) ?> task_brokerOfRecord)
    (toISOString (host_clock (br_ticks (xb_broker x1)))) r (xb_projections x1)) as Heq.
  { unfold ingest_in, ingest. rewrite Hn. erewrite guard_ext; [reflexivity|..]; unfold jm_has; by rewrite Hparent. }
  rewrite Heq, Hagain in Hres, Hsink. destruct (ingestCrossBrokerTerminalBriefProjection r x1) as [x2 res].
  simpl in Hres, Hsink. subst res. eexists _, x2. by split_and!.
Qed.

(** A replay under the same id is a replay of that projection. *)
Lemma replay_of (sha_inj : forall s t, sha256 s = sha256 t -> s = t) r x x1 replayed p r' p' :
  ingest_in r x = (xb_projections x1, IngestAccepted replayed p) ->
  projections_ok (normalizeToken (opt_value cfg_brokerId)) (xb_projections x1) ->
  (ingest_in r' x1).2 = IngestAccepted true p' -> pj_id p' = pj_id p -> normalizeRequest r' = normalizeRequest r.
Proof.
  unfold ingest_in. cbv zeta. intros Hin [_ Hok] Hin' Hid.
  pose proof (ingest_accepted _ _ _ _ _ _ _ _ _ Hin) as (n & _ & _ & [Hp _]%store_accepted).
  match type of Hin' with (?i).2 = _ => destruct i as [records' answer] eqn:Hi end. simpl in Hin'. subst answer.
  eapply (replay_same sha_inj); [exact Hin|exact Hi|].
  pose proof (ingest_accepted _ _ _ _ _ _ _ _ _ Hi) as (n' & _ & _ & Hs).
  pose proof (store_projection_outcome n' (toISOString (host_clock (br_ticks (xb_broker x1)))) (xb_projections x1)) as Ho.
  rewrite Hs in Ho. inversion Ho as [e He Hd|e reason|q]; subst.
  pose proof (po_id _ _ _ (Hok _ _ He)) as Hk. pose proof (po_id _ _ _ (Hok _ _ Hp)) as Hkp. simpl in Hid.
  rewrite Hk, Hkp in Hid. rewrite Hid, Hp in He. by injection He as ->.
Qed.
End System.
