(* ===== verification/Demo.v ===== *)
(** * A concrete environment

    A host and a configuration for the worked examples: the
    clock advances a second per reading, ids are numbered and URLs are told by
    their prefix. *)

From Stdlib Require Import ZArith Lia String Ascii.
From stdpp Require Import base gmap strings list pretty relations.
From S2P Require Import Prelude JsRuntime Types Policy Retention BrokerCore CoreFacts.
From S2P Require Import TaskEventStream TaskFacts.
From S2P Require Import Outbox Workers Proposals Github TerminalBrief OutboxPayload Tasks Exchanges System.

Definition demo_clock (n : nat) : Z := (1700000000000 + 1000 * Z.of_nat n)%Z.
Definition demo_uuid (n : nat) : string := ("uuid-" ++ pretty n)%string.
Definition demo_compare (a b : string) : Z :=
  if String.eqb a b then 0 else if String.ltb a b then (-1) else 1.

#[export] Instance demo_host : JsHost := {|
  host_clock := demo_clock;
  host_uuid := demo_uuid;
  host_localeCompare := demo_compare;
  host_parseOther := fun _ => None |}.

Lemma demo_uuid_inj m n : host_uuid m = host_uuid n -> m = n.
Proof. simpl. unfold demo_uuid. intros Hs. by simplify_eq. Qed.

(** URLs as they are written. *)
Definition demo_protocol (s : string) : option string :=
  if String.prefix "https:" s then Some "https:" else if String.prefix "http:" s then Some "http:" else None.
#[export] Instance demo_url : JsUrl := {| url_protocol := demo_protocol; url_toString := fun s => s |}.

#[export] Instance demo_config : BrokerConfig := {|
  cfg_brokerId := Some "broker-a";
  cfg_teamId := None;
  cfg_retention := DEFAULT_BROKER_RETENTION_POLICY;
  cfg_maxRequeueAttempts := DEFAULT_MAX_REQUEUE_ATTEMPTS;
  cfg_maxBufferedEventsPerTask := 100;
  cfg_workerHeartbeatPersistIntervalMs := DEFAULT_WORKER_HEARTBEAT_PERSIST_INTERVAL_MS;
  cfg_store := HotStore |}.

(** ** A broker at work *)

Definition demo_broker : Broker := new_broker (new_stream None, new_outbox None) (demo_clock 0).

Definition run_calls (cs : list call) (b : Broker) : Broker :=
  foldl (fun b c => (run_call c b).1) b cs.

Definition hub : A2APartyRef := mkA2APartyRef "hub" (Some KindService) (Some RoleHub).
Definition analyst (id : string) : A2APartyRef := mkA2APartyRef id (Some KindNode) (Some RoleAnalyst).

Definition demo_registration (id : string) : RegisterWorkerRequest :=
  mkRegisterWorkerRequest id (Some RoleAnalyst) None None (JArr [JStr "canAnalyze"]) None None.

(** A request for an analysis by [worker]. *)
Definition demo_request (id worker : string) (parent : option string) (intent : A2AExchangeIntent)
    (context : option TaskPolicyContext) : CreateTaskRequest :=
  mkCreateTaskRequest (Some id) None parent None intent hub (analyst worker) None (Some "please")
    None None None None context None None None None None.

Definition demo_calls : list call := [
  CallRegisterWorker (demo_registration "w1");
  CallRegisterWorker (demo_registration "w2");
  CallCreateTask (demo_request "t1" "w1" None IntentAnalyze None);
  CallCreateTask (demo_request "t2" "w1" (Some "t1") IntentAnalyze None);
  CallCreateTask (demo_request "t3" "w2" (Some "t2") IntentAnalyze None);
  CallCreateTask (demo_request "t4" "w2" None IntentPromoteToLive None)].

(** The task t1 with its descendants t2 and t3, and t4 waiting for approval. *)
Definition demo_state : Broker := run_calls demo_calls demo_broker.

Definition demo_approval : TaskApprovalRequest :=
  mkTaskApprovalRequest (Some hub) (Some "ap-1") None None.

Definition demo_wake_plan : TaskWakePlanRequest :=
  mkTaskWakePlanRequest (Some "session-1") None None None None None None None.
Definition demo_wake_decision : TaskWakeDecisionRequest :=
  mkTaskWakeDecisionRequest WakeScheduled None None None None.

(** The state after w1 claimed t1, and what it reports. *)
Definition demo_claimed : Broker := (run_call (CallClaimTask "t1" "w1") demo_state).1.
Definition demo_result : TaskResult := mkTaskResult (Some "done") None None None None None.

(** t1 watched by a listener, claimed, started and completed. *)
Definition demo_finished : Broker := run_calls [
  CallSubscribe "t1" 0; CallClaimTask "t1" "w1"; CallStartTask "t1" "w1";
  CallCompleteTask "t1" "w1" (Some demo_result)] demo_state.

(** Two more requests: one for an analysis, one for a change of the live system. *)
Definition demo_new : CreateTaskRequest := demo_request "t5" "w1" None IntentAnalyze None.
Definition demo_live : CreateTaskRequest := demo_request "t6" "w2" None IntentPromoteToLive None.
Definition demo_reassign : TaskReassignRequest :=
  mkTaskReassignRequest (Some hub) (Some "w2") None None.

(** The record of t1's success in the outbox, and an acknowledgement. *)
Definition demo_event_id : string :=
  (ob_id <$> last (ox_events (br_sink demo_finished).2)) ?? "".
Definition demo_ack : AckInput := mkAckInput "operator_visible" None None None.

(** A finished task, its status event, and an outbox where it is acknowledged. *)
Definition demo_task : TaskRecord := (new_task demo_new "t5" "T0" : TaskRecord)
  <| task_status := TaskSucceeded |> <| task_completedAt := Some "T1" |>.
Definition demo_status_event : TaskStatusEvent :=
  buildEvent KindSucceeded (mkAuditEvent "a1" "w1" AuditTaskSucceeded TargetTask "t5" None None "T1") demo_task 1.
Definition demo_task_event_id : string := formatTerminalTaskEventId "t5" TaskSucceeded "T1".
Definition demo_acknowledged : TerminalTaskEventOutbox :=
  (acknowledge demo_task_event_id demo_ack "T2"
     (enqueue demo_status_event demo_task (new_outbox None)).1).1.

(** A proposal of an analyst for the node w1, the state where it waits, and its id. *)
Definition demo_workspace : WorkspaceRef := mkWorkspaceRef "w1" "ws-1" None None None.
Definition demo_proposal : CreateProposalRequest :=
  mkCreateProposalRequest (analyst "w2") (analyst "w1") ProposalPatch "tune" None demo_workspace
    (Some "diff") None None.
Definition demo_proposed : Broker := (run_call (CallCreateProposal demo_proposal) demo_state).1.
Definition demo_proposal_id : string := last (jm_keys (br_proposals demo_proposed)) ?? "".
Definition operator : A2APartyRef := mkA2APartyRef "op" None (Some RoleOperator).
Definition demo_decision : ProposalActorRequest := mkProposalActorRequest (Some operator) None.

(** An exchange between w1 and w2. *)
Definition demo_exchange : A2AExchangeRequest :=
  mkA2AExchangeRequest (analyst "w1") (analyst "w2") "hello" None None None.
Definition demo_talk : Broker := (run_call (CallStartExchange demo_exchange) demo_state).1.
Definition demo_exchange_id : string := last (jm_keys (br_exchanges demo_talk)) ?? "".

(** A patch task for an issue, as a worker of another broker words it. *)
Definition demo_github : CreateTaskRequest :=
  (demo_request "t7" "w1" None IntentProposePatch None : CreateTaskRequest)
    <| ct_payload := Some [("mode", JStr "github-propose-patch"); ("repo", JStr " acme/site ");
         ("issue", JStr "#7")] |>.

(** ** The states it reaches *)

(** Calls that name their tasks "t..." are proper in every state. *)
Definition demo_named (c : call) : bool :=
  match c with
  | CallCreateTask r => match ct_id r with Some (String c _) => Ascii.eqb c "t" | _ => false end
  | _ => true
  end.

Lemma demo_named_proper c b : demo_named c = true -> proper_call c b.
Proof.
  destruct c; simpl; try done. unfold admissible. destruct (ct_id r) as [[|a k]|]; try done.
  intros ->%Ascii.eqb_eq id [= <-]. split; [done|]. intros _ n _ [=].
Qed.

Lemma run_calls_steps cs b : forallb demo_named cs = true -> rtc broker_step b (run_calls cs b).
Proof.
  revert b. induction cs as [|c cs IH]; intros b; [reflexivity|].
  simpl. intros [Hc Hcs]%andb_true_iff. eapply rtc_l; [|by apply IH].
  exists c. split; [by apply demo_named_proper|done].
Qed.

Lemma demo_steps : rtc broker_step demo_broker demo_state.
Proof. by apply run_calls_steps. Qed.

Lemma demo_finished_steps : rtc broker_step demo_broker demo_finished.
Proof. transitivity demo_state; [exact demo_steps|]. by apply run_calls_steps. Qed.

Lemma demo_reachable : reachable demo_state.
Proof. exists (new_stream None, new_outbox None), (demo_clock 0). exact demo_steps. Qed.

Lemma demo_step_reachable c : proper_call c demo_state -> reachable (run_call c demo_state).1.
Proof.
  intros Hc. destruct demo_reachable as (s & ms & Hr). exists s, ms.
  eapply rtc_r; [exact Hr|]. by exists c.
Qed.

Lemma demo_wf : wf_broker demo_state.
Proof. exact (proj1 (reachable_good demo_uuid_inj demo_state demo_reachable)). Qed.

Lemma demo_step_wf c : proper_call c demo_state -> wf_broker (run_call c demo_state).1.
Proof. intros Hc. exact (proj1 (reachable_good demo_uuid_inj _ (demo_step_reachable c Hc))). Qed.

(** Reading facts off a value by evaluation. *)
Lemma some_facts {V} (o : option V) (P : V -> bool) :
  (o ≫= fun v => Some (P v)) = Some true -> exists v, o = Some v /\ P v = true.
Proof. destruct o as [v|]; [|done]. simpl. intros [= Hv]. eauto. Qed.

Lemma stored_facts (b : Broker) id (P : TaskRecord -> Prop) `{!forall t, Decision (P t)} :
  (stored b id ≫= fun t => Some (bool_decide (P t))) = Some true ->
  exists t, stored b id = Some t /\ P t.
Proof.
  destruct (stored b id) as [t|]; [|done]. intros Hd. exists t. split; [done|].
  simpl in Hd. injection Hd as Hd. by apply bool_decide_eq_true_1 in Hd.
Qed.

Lemma demo_claimed_wf : wf_broker demo_claimed.
Proof. by apply demo_step_wf. Qed.

(** Named requests do not collide with the numbered ids. *)
Lemma demo_named_admissible r c k (b : Broker) :
  ct_id r = Some (String c k) -> c <> "u"%char -> admissible r b.
Proof. intros Hr Hc id. rewrite Hr. intros [= <-]. split; [done|]. intros _ n _ [=]. done. Qed.

Lemma demo_new_admissible b : admissible demo_new b.
Proof. by eapply demo_named_admissible. Qed.
Lemma demo_live_admissible b : admissible demo_live b.
Proof. by eapply demo_named_admissible. Qed.

(** An accepted creation, by evaluation. *)
Lemma created_facts r (b : Broker) id :
  match (createTask r b).2 with Ok t => String.eqb (task_id t) id | Err _ => false end = true ->
  exists b' t, createTask r b = (b', Ok t) /\ task_id t = id.
Proof.
  destruct (createTask r b) as [b' [t|e]]; simpl; [|done]. intros He%String.eqb_eq. eauto.
Qed.

Lemma demo_proposed_reachable : reachable demo_proposed.
Proof. by apply demo_step_reachable. Qed.
Lemma demo_claimed_reachable : reachable demo_claimed.
Proof. by apply demo_step_reachable. Qed.
Lemma demo_talk_reachable : reachable demo_talk.
Proof. by apply demo_step_reachable. Qed.

(** A refusal, by evaluation. *)
Lemma refused_facts c (b : Broker) :
  match (run_call c b).2 with Ok _ => false | Err _ => true end = true ->
  exists b' e, run_call c b = (b', Err e).
Proof. destruct (run_call c b) as [b' [u|e]]; simpl; [done|]. eauto. Qed.
