(* ===== verification/TaskTheorems.v ===== *)
(** * Theorems about the task lifecycle *)

From Stdlib Require Import ZArith Lia String Ascii.
From stdpp Require Import base gmap strings list pretty relations.
From S2P Require Import Prelude JsRuntime Types Policy Retention BrokerCore CoreFacts.
From S2P Require Import EventBuffer TaskEventStream Outbox Workers Proposals Github.
From S2P Require Import TerminalBrief Tasks TaskMachine TaskFacts Cancellation.
From S2P Require Import Exchanges System.
From S2P Require Import OutboxPayload Demo.

(** ** Reachable states *)

Section Reachable.
Context `{JsHost} `{TaskEventSink} `{BrokerConfig}.

(** C1.  In every state the broker reaches, whatever requests it served and
    whichever of them threw, the maps are keyed by the records' own ids, exchange
    references are never dangling, and every stored task satisfies the task
    invariant: claimed and running tasks carry a claim, waiting tasks none; a
    task is completed exactly when it is terminal; result, error and
    cancellation occur exactly on succeeded, failed and canceled tasks; the
    automatic requeues stay within the configured cap. *)
Theorem reachable_tasks_sound (uuid_inj : forall m n, host_uuid m = host_uuid n -> m = n) b :
  reachable b ->
  wf_broker b /\ forall id t, jm_get id (br_tasks b) = Some t -> task_id t = id /\ task_inv t.
Proof.
  intros Hr. destruct (reachable_good uuid_inj b Hr) as [Hwf Hinv]. split; [done|].
  intros id t Ht. split; [by apply (wf_tasks _ Hwf)|by apply (Hinv id)].
Qed.

(** C2.  The approval gate: in every reachable state, a task that requires
    approval and is claimed, running, succeeded or failed has a recorded
    approval, and the approval outcome is the approval with the same id. *)
Theorem approval_gate (uuid_inj : forall m n, host_uuid m = host_uuid n -> m = n) b id t :
  reachable b -> jm_get id (br_tasks b) = Some t ->
  requires_approval (task_policyContext t) = true ->
  task_status t ∈ [TaskQueued; TaskClaimed; TaskRunning; TaskSucceeded; TaskFailed] ->
  exists info o, task_approval t = Some info /\ task_approvalOutcome t = Some o
    /\ out_status o = ApprovalApproved /\ out_approvalId o = apr_approvalId info.
Proof.
  intros Hr Ht Hg Hs. destruct (reachable_good uuid_inj b Hr) as [_ Hinv].
  destruct (Hinv id t Ht) as [Hgate _ _ _ _ _ _ _ _ Ho].
  destruct (Hgate Hg) as [[info Hi]|[Hb|Hc]].
  - destruct (Ho info Hi) as (o & ? & ? & ?). eauto 7.
  - rewrite Hb in Hs. set_solver.
  - rewrite Hc in Hs. set_solver.
Qed.

(** C3.  A task that ended stays as it ended: after any further request its
    record is either dropped by retention or keeps its status, result, error,
    completion time, claimant, cancellation and approval. *)
Theorem terminal_outcome_is_final (uuid_inj : forall m n, host_uuid m = host_uuid n -> m = n) b c id t :
  reachable b -> proper_call c b -> jm_get id (br_tasks b) = Some t ->
  isTerminalTaskStatus (task_status t) = true ->
  jm_get id (br_tasks (run_call c b).1) = None
  \/ exists t', jm_get id (br_tasks (run_call c b).1) = Some t' /\ same_outcome t t'.
Proof.
  intros Hr Hc Ht Hterm. destruct (reachable_good uuid_inj b Hr) as [Hwf _].
  destruct (run_call_evolves uuid_inj c b Hc Hwf) as (_ & _ & Hm).
  eapply terminal_moves; [|exact Ht|exact Hterm]. eapply moves_no_create; [|apply Hm].
  unfold absent. by rewrite Ht.
Qed.

(** C4.  The broker refines the machine of a single task: whatever request is
    served, and whether it returns or throws, the record under every id changes
    by moves of [task_move] only; a task appears only under an id no task had. *)
Theorem requests_refine_task_machine (uuid_inj : forall m n, host_uuid m = host_uuid n -> m = n) b c id :
  reachable b -> proper_call c b ->
  rtc (task_move (jm_get id (br_tasks b) = None))
    (jm_get id (br_tasks b)) (jm_get id (br_tasks (run_call c b).1)).
Proof.
  intros Hr Hc. destruct (reachable_good uuid_inj b Hr) as [Hwf _].
  destruct (run_call_evolves uuid_inj c b Hc Hwf) as (_ & _ & Hm). apply Hm.
Qed.

(** C5.  No request changes what a task is: its id, intent, requester, parent,
    exchange, proposal, policy, workspace, origin, creation time and owners stay,
    and an approval once recorded stays recorded. *)
Theorem task_identity_is_immutable (uuid_inj : forall m n, host_uuid m = host_uuid n -> m = n) b c id t :
  reachable b -> proper_call c b -> jm_get id (br_tasks b) = Some t ->
  jm_get id (br_tasks (run_call c b).1) = None
  \/ exists t', jm_get id (br_tasks (run_call c b).1) = Some t' /\ same_identity t t'.
Proof.
  intros Hr Hc Ht. destruct (reachable_good uuid_inj b Hr) as [Hwf _].
  destruct (run_call_evolves uuid_inj c b Hc Hwf) as (_ & _ & Hm). specialize (Hm id).
  rewrite Ht in Hm. apply (moves_carry same_identity t); [exact identity_move|].
  eapply moves_no_create; [|exact Hm].
  unfold absent. by rewrite Ht.
Qed.

(** The wake of a task is planned once and decided once: any later request
    keeps its key, idempotency key, session and planning time, and, once it was
    scheduled, skipped or failed, the decision with its time, message, code and
    run. *)
Theorem wake_decision_is_final (uuid_inj : forall m n, host_uuid m = host_uuid n -> m = n) b c id t w :
  reachable b -> proper_call c b -> jm_get id (br_tasks b) = Some t -> task_wake t = Some w ->
  jm_get id (br_tasks (run_call c b).1) = None
  \/ exists t' w', jm_get id (br_tasks (run_call c b).1) = Some t' /\ task_wake t' = Some w'
       /\ same_wake w w'.
Proof.
  intros Hr Hc Ht Hw. destruct (reachable_good uuid_inj b Hr) as [Hwf _].
  destruct (run_call_evolves uuid_inj c b Hc Hwf) as (_ & _ & Hm). specialize (Hm id). rewrite Ht in Hm.
  destruct (moves_carry keeps_wake t (jm_get id (br_tasks (run_call c b).1))) as [Hn|(t' & Ht' & Hk)].
  - exact wake_move.
  - eapply moves_no_create; [|exact Hm]. unfold absent. by rewrite Ht.
  - by left.
  - right. destruct (Hk w Hw) as (w' & ? & ?). eauto.
Qed.
End Reachable.

Lemma reachable_tasks_sound_witness :
  wf_broker demo_state /\ exists t, jm_get "t1" (br_tasks demo_state) = Some t /\ task_inv t.
Proof.
  destruct (reachable_tasks_sound demo_uuid_inj demo_state demo_reachable) as [Hwf Hall].
  split; [exact Hwf|]. eexists. split; [vm_compute; reflexivity|].
  apply (Hall "t1"). vm_compute. reflexivity.
Defined.

Lemma approval_gate_witness :
  let b := (run_call (CallApproveTask "t4" demo_approval) demo_state).1 in
  exists t, jm_get "t4" (br_tasks b) = Some t /\ task_status t = TaskQueued /\
  exists info o, task_approval t = Some info /\ task_approvalOutcome t = Some o
    /\ out_status o = ApprovalApproved /\ out_approvalId o = apr_approvalId info.
Proof.
  intros b. eexists. split; [vm_compute; reflexivity|]. split; [reflexivity|].
  apply (approval_gate demo_uuid_inj b "t4").
  - by apply demo_step_reachable.
  - vm_compute. reflexivity.
  - reflexivity.
  - vm_compute. constructor.
Defined.

Lemma terminal_outcome_is_final_witness :
  let b := (run_call (CallCancelTask "t1" (Some hub) None) demo_state).1 in
  let b' := (run_call (CallClaimTask "t1" "w1") b).1 in
  exists t, jm_get "t1" (br_tasks b) = Some t /\ (jm_get "t1" (br_tasks b') = None
  \/ exists t', jm_get "t1" (br_tasks b') = Some t' /\ same_outcome t t').
Proof.
  intros b b'. eexists. split; [vm_compute; reflexivity|].
  apply (terminal_outcome_is_final demo_uuid_inj b (CallClaimTask "t1" "w1") "t1").
  - by apply demo_step_reachable.
  - done.
  - vm_compute. reflexivity.
  - reflexivity.
Defined.

Lemma requests_refine_task_machine_witness :
  let b' := (run_call (CallClaimTask "t1" "w1") demo_state).1 in
  rtc (task_move (jm_get "t1" (br_tasks demo_state) = None))
    (jm_get "t1" (br_tasks demo_state)) (jm_get "t1" (br_tasks b')).
Proof.
  intros b'. apply (requests_refine_task_machine demo_uuid_inj demo_state (CallClaimTask "t1" "w1") "t1").
  - exact demo_reachable.
  - done.
Defined.

Lemma task_identity_is_immutable_witness :
  let b' := (run_call (CallReassignTask "t1" (mkTaskReassignRequest (Some hub) (Some "w2") None None)) demo_state).1 in
  exists t, jm_get "t1" (br_tasks demo_state) = Some t /\ (jm_get "t1" (br_tasks b') = None
  \/ exists t', jm_get "t1" (br_tasks b') = Some t' /\ same_identity t t').
Proof.
  intros b'. eexists. split; [vm_compute; reflexivity|].
  apply (task_identity_is_immutable demo_uuid_inj demo_state
    (CallReassignTask "t1" (mkTaskReassignRequest (Some hub) (Some "w2") None None)) "t1").
  - exact demo_reachable.
  - done.
  - vm_compute. reflexivity.
Defined.

Lemma wake_decision_is_final_witness :
  let b := (run_call (CallPlanWake "t1" demo_wake_plan) demo_state).1 in
  let b' := (run_call (CallDecideWake "t1" demo_wake_decision) b).1 in
  exists t w, jm_get "t1" (br_tasks b) = Some t /\ task_wake t = Some w
  /\ (jm_get "t1" (br_tasks b') = None
      \/ exists t' w', jm_get "t1" (br_tasks b') = Some t' /\ task_wake t' = Some w' /\ same_wake w w').
Proof.
  intros b b'. do 2 eexists. split; [vm_compute; reflexivity|]. split; [reflexivity|].
  eapply (wake_decision_is_final demo_uuid_inj b (CallDecideWake "t1" demo_wake_decision) "t1").
  - by apply demo_step_reachable.
  - done.
  - vm_compute. reflexivity.
  - reflexivity.
Defined.
