(* ===== verification/HandlerTheorems.v ===== *)
(** * What each task handler does *)

From Stdlib Require Import ZArith Lia String Ascii.
From stdpp Require Import base gmap strings list pretty relations.
From S2P Require Import Prelude JsRuntime Types Policy Retention BrokerCore CoreFacts.
From S2P Require Import EventBuffer TaskEventStream Outbox Workers Proposals Github.
From S2P Require Import TerminalBrief Tasks TaskMachine TaskFacts TaskRuns Requeue.
From S2P Require Import Cancellation Exchanges System OutboxPayload Demo.

Section Handlers.
Context `{JsHost} `{TaskEventSink} `{BrokerConfig}.


(** C8.  A worker gets a queued task exactly when it is the assigned, registered
    worker of the owning broker and team and the approval gate is open; the claim
    then carries a fresh attempt id, and in every other case the broker is
    unchanged. *)
Theorem claimTask_spec b id t w :
  wf_broker b -> stored b id = Some t ->
  (claimable b t w
   /\ let t' := claimed_task t w (host_uuid (br_uuids b)) (toISOString (host_clock (br_ticks b))) in
      exists b', claimTask id w b = (b', Ok t') /\ wf_broker b' /\ stored b' id = Some t'
        /\ forall i, i <> id -> kept (stored b i) (stored b' i))
  \/ (~ claimable b t w /\ exists e, claimTask id w b = (b, Err e)).
Proof.
  intros Hwf Ht. destruct (decide (claimable b t w)) as [Hc|Hn].
  - left. split; [done|]. assert (task_id t = id) as <- by by apply (wf_tasks _ Hwf).
    exact (writes_stored _ _ _ (claim_run b _ t w Hwf Ht Hc) eq_refl).
  - right. split; [done|by eapply claim_refused].
Qed.

(** Mutual exclusion: while a task is claimed, every further claim, by
    whatever worker, is refused. *)
Theorem no_double_claim b id t w b' t' w' :
  wf_broker b -> stored b id = Some t -> claimTask id w b = (b', Ok t') ->
  exists e, claimTask id w' b' = (b', Err e).
Proof.
  intros Hwf Ht Hrun. destruct (decide (claimable b t w)) as [Hc|Hn].
  - assert (task_id t = id) as <- by by apply (wf_tasks _ Hwf).
    destruct (writes_stored _ _ _ (claim_run b _ t w Hwf Ht Hc)) as (b1 & Hrun1 & _ & Hst & _); [done|].
    rewrite Hrun in Hrun1. injection Hrun1 as -> ->.
    eapply claim_refused; [exact Hst|]. intros (_ & _ & Hq). done.
  - destruct (claim_refused b id t w Ht Hn) as [e He]. congruence.
Qed.


(** A failure report by the worker that holds the task fails it, with a
    message always present; on a task that already ended it returns the record as
    it is; otherwise it is refused. *)
Theorem failTask_spec b id t w e :
  wf_broker b -> stored b id = Some t ->
  (may_act b t w -> in_progress t ->
     writes (failTask id w e) b
       (failed_task t w (toISOString (host_clock (br_ticks b))) (normalizeTaskError e)))
  /\ (may_act b t w -> terminal t -> failTask id w e b = (b, Ok t))
  /\ (~ may_act b t w \/ task_status t ∈ [TaskBlocked; TaskQueued] -> refused (failTask id w e) b).
Proof.
  intros Hwf Ht. split_and!.
  - by apply fail_run.
  - intros. by eapply fail_ended.
  - intros. by eapply fail_refused.
Qed.


(** A task whose worker is still there and whose record was written less
    than the threshold ago survives the reaper as it is. *)
Theorem fresh_task_survives_reaper b older nowMs offline id t ms :
  wf_broker b -> stored b id = Some t -> iso_range ms -> task_updatedAt t = toISOString ms ->
  (reaper_now nowMs b - ms < Z.max 0 older)%Z ->
  (forall w, task_claimedBy t = Some w -> w ∉ reaper_workers offline (reaper_now nowMs b) b) ->
  exists b' out, requeueStaleTasksDetailed older nowMs offline b = (b', Ok out)
    /\ kept (Some t) (stored b' id).
Proof.
  intros Hwf Ht Hms Hu Hlt Hw. destruct (reaper_run older nowMs offline b Hwf) as (b' & Hrun & _ & Hk & _).
  exists b'. eexists. split; [exact Hrun|]. specialize (Hk id t Ht).
  unfold requeue_result in Hk. by rewrite (fresh_reason _ _ _ t ms) in Hk.
Qed.

(** C14.  Every outcome of a creation: a refusal that changes nothing; the task
    already stored under the requested id; or a new record of the canonical
    request, stored under the requested id or a fresh one that no task had. *)
Theorem createTask_spec (uuid_inj : forall m n, host_uuid m = host_uuid n -> m = n) r b :
  wf_broker b -> admissible r b ->
  (exists e, createTask r b = (b, Err e))
  \/ (exists id t, ct_id r = Some id /\ stored b id = Some t /\ createTask r b = (b, Ok t))
  \/ (exists r', normalizeGitHubPatchTaskRequest r = Ok r' /\ creates r' b (createTask r)).
Proof. by apply create_run. Qed.

(** Creation is idempotent: a request that named its task and was accepted
    answers, when repeated, with the same record and changes nothing. *)
Theorem createTask_idempotent (uuid_inj : forall m n, host_uuid m = host_uuid n -> m = n) r b id b' t :
  wf_broker b -> admissible r b -> ct_id r = Some id -> createTask r b = (b', Ok t) ->
  createTask r b' = (b', Ok t).
Proof. by apply create_twice. Qed.

(** A new task waits for approval exactly when the policy demands it, and
    the policy demands it for every live-impact request unless the request says
    [requiresApproval: false]. *)
Theorem new_task_waits_for_approval (uuid_inj : forall m n, host_uuid m = host_uuid n -> m = n) r b b' t :
  wf_broker b -> admissible r b -> createTask r b = (b', Ok t) -> stored b (task_id t) = None ->
  (task_status t = TaskBlocked <->
     isTaskApprovalRequired r = true /\ (ct_policyContext r ≫= pc_requiresApproval) <> Some false)
  /\ (isLiveImpactTask r = true -> isTaskApprovalRequired r = true).
Proof.
  intros Hwf Hadm Hrun Hn. split; [|apply live_impact_requires_approval].
  destruct (create_run uuid_inj r b Hwf Hadm) as [[e He]|[(i & t0 & _ & Ht & He)|(r' & Hr & b1 & He & _)]].
  - congruence.
  - rewrite Hrun in He. injection He as -> ->. assert (task_id t0 = i) as Hi by by apply (wf_tasks _ Hwf).
    congruence.
  - rewrite Hrun in He. injection He as -> ->.
    rewrite (new_task_blocked r r') by done. done.
Qed.

(** Approval: a hub or operator approves a waiting task that requires it,
    once; the same request on an approved task returns the record; every other
    request is refused and changes nothing. *)
Theorem approveTask_spec b id t r :
  wf_broker b -> stored b id = Some t ->
  (may_approve r -> gated t -> task_approval t = None -> task_status t ∈ [TaskBlocked; TaskQueued] ->
     writes (approveTask id r) b
       (approved_task t r (approval_id b r) (toISOString (host_clock (br_ticks b)))))
  /\ (may_approve r -> gated t -> is_Some (task_approval t) -> approveTask id r b = (b, Ok t))
  /\ (~ may_approve r \/ ~ gated t \/ (task_approval t = None /\ task_status t ∉ [TaskBlocked; TaskQueued]) ->
      refused (approveTask id r) b).
Proof.
  intros Hwf Ht. split_and!.
  - by apply approve_run.
  - by apply approve_again.
  - by apply approve_refused.
Qed.

(** Reassignment: a hub or operator moves a task that has not ended to
    registered workers; the claim, the attempt, the requeue count, result and
    error are cleared and the task waits again, for approval if it still needs
    one; every other request is refused and changes nothing. *)
Theorem reassignTask_spec b id t r :
  wf_broker b -> stored b id = Some t ->
  (forall target assigned, may_reassign r -> active t ->
     jm_get (next_target t r) (br_workers b) = Some target ->
     jm_get (next_assigned t r) (br_workers b) = Some assigned ->
     writes (reassignTask id r) b
       (reassigned_task t target assigned (next_target t r) (toISOString (host_clock (br_ticks b)))))
  /\ (~ may_reassign r \/ terminal t \/ jm_get (next_target t r) (br_workers b) = None
      \/ jm_get (next_assigned t r) (br_workers b) = None ->
      refused (reassignTask id r) b).
Proof.
  intros Hwf Ht. split.
  - intros. by apply reassign_run.
  - by apply reassign_refused.
Qed.
End Handlers.

(** ** Witnesses *)


Lemma claimTask_spec_witness :
  exists t, stored demo_state "t1" = Some t /\ claimable demo_state t "w1" /\
  ((claimable demo_state t "w1"
    /\ let t' := claimed_task t "w1" (host_uuid (br_uuids demo_state))
                   (toISOString (host_clock (br_ticks demo_state))) in
      exists b', claimTask "t1" "w1" demo_state = (b', Ok t') /\ wf_broker b' /\ stored b' "t1" = Some t'
        /\ forall i, i <> "t1" -> kept (stored demo_state i) (stored b' i))
  \/ (~ claimable demo_state t "w1" /\ exists e, claimTask "t1" "w1" demo_state = (demo_state, Err e))).
Proof.
  destruct (stored_facts demo_state "t1" (fun t => claimable demo_state t "w1")) as (t & Ht & Hc);
    [vm_compute; reflexivity|].
  exists t. split; [exact Ht|]. split; [exact Hc|].
  exact (claimTask_spec demo_state "t1" t "w1" demo_wf Ht).
Defined.

Lemma no_double_claim_witness :
  exists b' t' e, claimTask "t1" "w1" demo_state = (b', Ok t') /\ claimTask "t1" "w2" b' = (b', Err e).
Proof.
  destruct (stored_facts demo_state "t1" (fun t => claimable demo_state t "w1")) as (t & Ht & Hc);
    [vm_compute; reflexivity|].
  destruct (claim_run demo_state "t1" t "w1" demo_wf Ht Hc) as (b' & Hrun & _).
  destruct (no_double_claim demo_state "t1" t "w1" b' _ "w2" demo_wf Ht Hrun) as [e He].
  exists b'. eexists. exists e. split; [exact Hrun|exact He].
Defined.

(** What the witnesses read off t1 once w1 holds it. *)
Lemma demo_claimed_t1 :
  exists t, stored demo_claimed "t1" = Some t /\ completable demo_claimed t "w1"
    /\ validateGithubTaskCompletionEvidence t (normalizeTaskResult (Some demo_result)) = None
    /\ task_updatedAt t = toISOString (demo_clock (br_ticks demo_state))
    /\ requeue_result 1000 (demo_clock 1000) [] t = requeued_task t (toISOString (demo_clock 1000)).
Proof.
  destruct (stored_facts demo_claimed "t1" (fun t =>
    may_act demo_claimed t "w1" /\ (task_status t = TaskClaimed /\ 
    (is_some (validateGithubTaskCompletionEvidence t (normalizeTaskResult (Some demo_result))) = false
    /\ (task_updatedAt t = toISOString (demo_clock (br_ticks demo_state))
    /\ (is_some (requeue_reason 1000 (demo_clock 1000) [] t) = true /\ exhausted t = false))))))
    as (t & Ht & Ha & Hs & Hv & Hu & Hr & Hx); [vm_compute; reflexivity|].
  exists t. split_and!; [done| |by destruct (validateGithubTaskCompletionEvidence _ _)|done|].
  - split; [done|]. unfold in_progress. rewrite Hs. constructor.
  - unfold requeue_result. rewrite Hx. by destruct (requeue_reason _ _ _ t).
Qed.


Lemma failTask_spec_witness :
  exists t, stored demo_claimed "t1" = Some t /\
  writes (failTask "t1" "w1" None) demo_claimed
    (failed_task t "w1" (toISOString (host_clock (br_ticks demo_claimed))) (normalizeTaskError None)).
Proof.
  destruct demo_claimed_t1 as (t & Ht & [Ha Hp] & _). exists t. split; [exact Ht|].
  exact (proj1 (failTask_spec demo_claimed "t1" t "w1" None demo_claimed_wf Ht) Ha Hp).
Defined.


Lemma fresh_task_survives_reaper_witness :
  exists t b' out, stored demo_claimed "t1" = Some t
  /\ requeueStaleTasksDetailed 600000 (Some (demo_clock 100)) None demo_claimed = (b', Ok out)
  /\ kept (Some t) (stored b' "t1").
Proof.
  destruct demo_claimed_t1 as (t & Ht & _ & _ & Hu & _).
  destruct (fresh_task_survives_reaper demo_claimed 600000 (Some (demo_clock 100)) None "t1" t
    (demo_clock (br_ticks demo_state)) demo_claimed_wf Ht) as (b' & out & Hrun & Hk).
  - vm_compute. split; [intros Hlt; discriminate Hlt|reflexivity].
  - exact Hu.
  - vm_compute. reflexivity.
  - intros w _. apply not_elem_of_nil.
  - exists t, b', out. split; [exact Ht|]. split; [exact Hrun|exact Hk].
Defined.

Lemma createTask_spec_witness :
  (exists e, createTask demo_new demo_state = (demo_state, Err e))
  \/ (exists id t, ct_id demo_new = Some id /\ stored demo_state id = Some t
        /\ createTask demo_new demo_state = (demo_state, Ok t))
  \/ (exists r', normalizeGitHubPatchTaskRequest demo_new = Ok r' /\ creates r' demo_state (createTask demo_new)).
Proof. exact (createTask_spec demo_uuid_inj demo_new demo_state demo_wf (demo_new_admissible demo_state)). Defined.

Lemma createTask_idempotent_witness :
  exists b' t, createTask demo_new demo_state = (b', Ok t) /\ createTask demo_new b' = (b', Ok t).
Proof.
  destruct (created_facts demo_new demo_state "t5") as (b' & t & Hrun & _); [vm_compute; reflexivity|].
  exists b', t. split; [exact Hrun|].
  exact (createTask_idempotent demo_uuid_inj demo_new demo_state "t5" b' t demo_wf
    (demo_new_admissible demo_state) eq_refl Hrun).
Defined.

Lemma new_task_waits_for_approval_witness :
  exists b' t, createTask demo_live demo_state = (b', Ok t) /\ task_status t = TaskBlocked.
Proof.
  destruct (created_facts demo_live demo_state "t6") as (b' & t & Hrun & Hid); [vm_compute; reflexivity|].
  exists b', t. split; [exact Hrun|].
  apply (new_task_waits_for_approval demo_uuid_inj demo_live demo_state b' t demo_wf
    (demo_live_admissible demo_state) Hrun).
  - rewrite Hid. vm_compute. reflexivity.
  - split; [reflexivity|done].
Defined.

Lemma approveTask_spec_witness :
  exists t, stored demo_state "t4" = Some t /\
  writes (approveTask "t4" demo_approval) demo_state
    (approved_task t demo_approval (approval_id demo_state demo_approval)
       (toISOString (host_clock (br_ticks demo_state)))).
Proof.
  destruct (stored_facts demo_state "t4" (fun t => task_status t = TaskBlocked
    /\ (requires_approval (task_policyContext t) = true /\ task_approval t = None)))
    as (t & Ht & Hs & Hg & Ha); [vm_compute; reflexivity|].
  exists t. split; [exact Ht|].
  apply (approveTask_spec demo_state "t4" t demo_approval demo_wf Ht); [|exact Hg|exact Ha|].
  - split; [done|reflexivity].
  - rewrite Hs. constructor.
Defined.

Lemma reassignTask_spec_witness :
  exists t target assigned, stored demo_claimed "t1" = Some t /\
  writes (reassignTask "t1" demo_reassign) demo_claimed
    (reassigned_task t target assigned "w2" (toISOString (host_clock (br_ticks demo_claimed)))).
Proof.
  destruct (stored_facts demo_claimed "t1" (fun t => isTerminalTaskStatus (task_status t) = false))
    as (t & Ht & Ha); [vm_compute; reflexivity|].
  destruct (jm_get "w2" (br_workers demo_claimed)) as [w|] eqn:Hw; [|vm_compute in Hw; discriminate Hw].
  exists t, w, w. split; [exact Ht|].
  apply (reassignTask_spec demo_claimed "t1" t demo_reassign demo_claimed_wf Ht); [|exact Ha|exact Hw|exact Hw].
  split; [done|reflexivity].
Defined.
