(* ===== verification/FeedTheorems.v ===== *)
(** * Theorems about what leaves the broker

    The store, the status stream, the per-task buffers, the terminal outbox and
    the threads of an exchange. *)

From Stdlib Require Import ZArith Lia String Ascii.
From stdpp Require Import base gmap strings list numbers pretty relations.
From S2P Require Import Prelude JsRuntime TextRedaction Types Policy Retention BrokerCore CoreFacts.
From S2P Require Import EventBuffer TaskEventStream Outbox OutboxMachine Workers Proposals Github.
From S2P Require Import TerminalBrief Tasks TaskFacts Exchanges System Feeds Durability OutboxPayload OutboxRedaction Demo.

(** Nothing is lost between two saves: in every reachable state
    [persistState] leaves nothing pending, and the calls the store received then
    hold, for eight tables, every live record as it is. *)
Theorem persisted_store_is_complete `{JsHost} `{TaskEventSink} `{BrokerConfig} b :
  has_store = true -> reachable b ->
  forall k, pending k (br_pending (persistState b).1) = []
    /\ forall id r, jm_get id (live k (persistState b).1) = Some r ->
         saved k (br_storeCalls (persistState b).1) id = Some r.
Proof.
  intros Hs Hr. apply (persistState_flushes Hs b). by apply reachable_durable.
Qed.

Section Feeds.
Context `{JsHost} `{OutboxText} `{BrokerConfig}.

(** C20.  In every state the broker reaches, the ids of the status stream and the
    sequence numbers of every task buffer are consecutive up to the last one given
    out, the outbox holds no record twice, and all three respect their caps. *)
Theorem feeds_stay_in_order maxStatus maxOutbox ms b :
  rtc broker_step (started maxStatus maxOutbox ms) b -> feeds_ok b.
Proof. intros Hr. eapply feeds_steps; [exact Hr|]. apply feeds_started. Qed.

End Feeds.

(** A page of the status stream: the events after the cursor that match the
    filters, in order, cut at the limit; a limit below one counts as one. *)
Theorem stream_page afterId taskId parentTaskId limit s :
  stream_subscribe afterId taskId parentTaskId limit s
  = (match limit with Some n => take (Z.to_nat (Z.max 1 n)) | None => id end)
      (List.filter (fun e => (afterId ?? 0 <? se_id e)%Z
         && (match truthy_opt taskId with Some t => String.eqb (se_taskId e) t | None => true end
             && match truthy_opt parentTaskId with
                | Some p => bool_decide (se_parentTaskId e = Some p) | None => true end))
       (cb_events s)).
Proof.
  unfold stream_subscribe, subscribe. rewrite <- (subscribe_loop_spec se_id _ _ 0).
  destruct limit as [n|]; [|done]. destruct (decide (0 < n)%Z).
  - rewrite subscribe_loop_limit by done. do 2 f_equal. lia.
  - replace (Z.to_nat (Z.max 1 n)) with 1 by lia. apply subscribe_loop_small. lia.
Qed.

Section Outbox.
Context `{OutboxText}.

(** A terminal transition is recorded once: repeating the event answers the
    retained record without changing the outbox, and while its id is remembered it
    is not recorded again even after retention dropped the record. *)
Theorem terminal_transition_recorded_once te task o :
  outbox_ok o ->
  (forall o' e, enqueue te task o = (o', Some e) -> enqueue te task o' = (o', Some e))
  /\ (forall o', enqueue te task o = (o', None) -> o' = o)
  /\ forall id, id ∈ ox_seenOrder o -> record_of o id = None -> record_of (enqueue te task o).1 id = None.
Proof.
  intros Hok. split_and!; [by intros; apply (enqueue_twice te task o)| |intros; by apply seen_not_recorded].
  apply enqueue_ignored.
Qed.


(** A confirmed acknowledgement is final: whatever the operation, the record
    is dropped by retention or keeps the acknowledgement and its payload. *)
Theorem acknowledgement_is_final o o' id e a :
  outbox_ok o -> outbox_step o o' -> record_of o id = Some e -> ob_ack e = Some a ->
  record_of o' id = None
  \/ exists e', record_of o' id = Some e' /\ ob_ack e' = Some a /\ ob_payload e' = ob_payload e.
Proof.
  intros Hok Hs He Ha. pose proof (step_moves o o' id Hok Hs) as Hm. rewrite He in Hm.
  apply (confirmed_move a (ob_payload e)) in Hm; [|done..].
  destruct (record_of o' id) as [e'|]; [|by left]. right. destruct (Hm e' eq_refl). eauto.
Qed.

(** C26.  At-least-once delivery: whatever cursor it presents, a subscriber
    without a limit is sent every retained record that is not confirmed, and of the
    confirmed ones those after its cursor, or all when the cursor is unknown. *)
Theorem unacknowledged_is_redelivered afterId o e :
  e ∈ sr_events (subscribeWithCursor afterId None o)
  <-> e ∈ ox_events o
      /\ (isReceiptConfirmed e = false
          \/ match indexOfId afterId o with Some i => e ∈ drop (S i) (ox_events o) | None => True end).
Proof. apply redelivered. Qed.
End Outbox.


(** C27.  A thread of messages: the passes of the collection end, whatever cycles
    the reply links have, and the ids collected are the root and what answers it,
    directly or not. *)
Theorem thread_is_reply_closure messages root :
  exists ids, collectThreadMessageIds messages root = Some ids
    /\ forall i, i ∈ ids <-> in_thread messages root i.
Proof. apply thread_loop_terminates. Qed.

(** ** Witnesses *)

Lemma persisted_store_is_complete_witness :
  has_store = true
  /\ exists t, jm_get "t1" (live TabTasks (persistState demo_state).1) = Some t
     /\ saved TabTasks (br_storeCalls (persistState demo_state).1) "t1" = Some t.
Proof.
  split; [reflexivity|].
  destruct (some_facts (jm_get "t1" (live TabTasks (persistState demo_state).1)) (fun _ => true))
    as (t & Ht & _); [vm_compute; reflexivity|].
  exists t. split; [exact Ht|].
  exact (proj2 (persisted_store_is_complete demo_state eq_refl demo_reachable TabTasks) "t1" t Ht).
Defined.

Lemma feeds_stay_in_order_witness : feeds_ok demo_finished.
Proof. exact (feeds_stay_in_order None None (demo_clock 0) demo_finished demo_finished_steps). Defined.



Lemma terminal_transition_recorded_once_witness :
  exists o e, enqueue demo_status_event demo_task (new_outbox None) = (o, Some e)
    /\ enqueue demo_status_event demo_task o = (o, Some e).
Proof.
  eexists. eexists. split; [vm_compute; reflexivity|].
  apply (terminal_transition_recorded_once demo_status_event demo_task (new_outbox None) (new_outbox_ok None)).
  vm_compute. reflexivity.
Defined.

Lemma acknowledgement_is_final_witness :
  exists o e a, record_of o demo_task_event_id = Some e /\ ob_ack e = Some a /\
  (record_of (recordReceiptStatus demo_task_event_id "stale" None None "now" o).1 demo_task_event_id = None
   \/ exists e', record_of (recordReceiptStatus demo_task_event_id "stale" None None "now" o).1 demo_task_event_id = Some e'
        /\ ob_ack e' = Some a /\ ob_payload e' = ob_payload e).
Proof.
  exists demo_acknowledged. eexists. eexists. split; [vm_compute; reflexivity|].
  split; [reflexivity|].
  apply (acknowledgement_is_final demo_acknowledged _ demo_task_event_id).
  - apply acknowledge_ok, enqueue_ok, new_outbox_ok.
  - apply StepReceipt.
  - vm_compute. reflexivity.
  - reflexivity.
Defined.

