(* ===== verification/RequestTheorems.v ===== *)
(** * Theorems about refusals, proposals, retention and restarts *)

From Stdlib Require Import ZArith Lia String Ascii.
From stdpp Require Import base gmap strings list pretty relations.
From S2P Require Import Prelude JsRuntime Types Policy Retention BrokerCore CoreFacts.
From S2P Require Import EventBuffer TaskEventStream Outbox OutboxFacts Workers Proposals Github.
From S2P Require Import TerminalBrief Tasks TaskMachine TaskFacts TaskRuns Exchanges System Atomicity.
From S2P Require Import ProposalMachine Restart OutboxPayload Demo.

(** ** What retention may drop *)

Section Expiry.
Context `{JsHost} `{TaskEventSink} `{BrokerConfig}.

(** The tasks kept because a retained exchange has them as its active task. *)
Definition protected_tasks (nowMs : Z) (b : Broker) : gset string :=
  flat_ids (selectRetainedTerminalRecordIds (jm_values (exchange_view b))
      (fun ex => isTerminalExchangeStatus (ex_status ex)) ex_id (fun ex => Some (ex_updatedAt ex))
      nowMs (terminalRetentionMs cfg_retention) (maxTerminalExchanges cfg_retention) ∅)
    (exchange_view b) (fun ex => opt_ids (ex_activeTaskId ex)).

(** The task ended at [ms], before the retention window, and nothing protects it. *)
Definition task_expired (nowMs : Z) (b : Broker) (t : TaskRecord) (ms : Z) : Prop :=
  expired (fun t => isTerminalTaskStatus (task_status t)) task_id
    (fun t => Some (task_completedAt t ?? task_updatedAt t)) (jm_values (br_tasks b))
    (nowMs - terminalRetentionMs cfg_retention) (protected_tasks nowMs b) t ms.
End Expiry.

Section Requests.
Context `{JsHost} `{TaskEventSink} `{BrokerConfig}.


(** C29.  Every request, returning or throwing, changes each proposal only along
    [proposal_move]: it is created as submitted, decided by an operator or its
    target node, and applied only after an approval and in a workspace of that
    node; retention drops it only once it was rejected, applied or rolled back. *)
Theorem requests_refine_proposal_machine (uuid_inj : forall m n, host_uuid m = host_uuid n -> m = n) b c i :
  reachable b -> rtc (proposal_move c i) (proposal b i) (proposal (run_call c b).1 i).
Proof.
  intros Hr. pose proof (reachable_proposals_ok uuid_inj b Hr) as Hok.
  destruct (reachable_good uuid_inj b Hr) as [Hwf _].
  by destruct (call_advances uuid_inj c b Hwf Hok) as (_ & _ & Hm).
Qed.

(** C30.  Retention leaves no dangling link: a task it keeps is unchanged, and the
    exchange, the proposal, the artifacts and the workers the task names are kept
    with it; active tasks and proposals are always kept. *)
Theorem retention_keeps_references b :
  wf_broker b ->
  let b' := (applyRetentionPolicy b).1 in
  (forall id t, stored b' id = Some t ->
     stored b id = Some t
     /\ (forall e, truthy_opt (task_exchangeId t) = Some e -> jm_get e (br_exchanges b') = jm_get e (br_exchanges b))
     /\ (forall p, truthy_opt (task_proposalId t) = Some p -> proposal b' p = proposal b p)
     /\ (forall a, a ∈ task_artifact_ids t -> jm_get a (br_artifacts b') = jm_get a (br_artifacts b))
     /\ (forall w, w ∈ task_worker_ids t -> jm_get w (br_workers b') = jm_get w (br_workers b)))
  /\ (forall id t, stored b id = Some t -> active t -> stored b' id = Some t)
  /\ (forall i p, proposal b i = Some p -> isTerminalProposalStatus (pr_status p) = false -> proposal b' i = Some p).
Proof. apply retention_links. Qed.

(** Which tasks retention drops: only ended tasks out of the window that no
    retained exchange points to; of those it keeps the newest, at most the
    configured number. *)
Theorem retention_keeps_newest b :
  wf_broker b ->
  let nowMs := host_clock (br_ticks b) in
  let b' := (applyRetentionPolicy b).1 in
  (forall t, t ∈ jm_values (br_tasks b) -> (forall ms, ~ task_expired nowMs b t ms) -> jm_has (task_id t) (br_tasks b') = true)
  /\ (forall t t' ms ms', task_expired nowMs b t ms -> task_expired nowMs b t' ms' ->
       jm_has (task_id t) (br_tasks b') = true -> jm_has (task_id t') (br_tasks b') = false -> (ms' <= ms)%Z)
  /\ exists l : list string, length l <= Z.to_nat (maxTerminalTasks cfg_retention)
       /\ forall t ms, task_expired nowMs b t ms -> jm_has (task_id t) (br_tasks b') = true -> task_id t ∈ l.
Proof.
  intros Hwf nowMs b'.
  assert (forall t, t ∈ jm_values (br_tasks b) -> jm_has (task_id t) (br_tasks b') = true
    <-> task_id t ∈ ret_tasks (retainedIds cfg_retention nowMs (retention_view (tick b)))) as Hkept.
  { intros t Ht. by apply retained_task_stored. }
  assert (forall t ms, task_expired nowMs b t ms -> t ∈ jm_values (br_tasks b)) as Hin by by intros t ms [].
  destruct (selection_outcome (fun t => isTerminalTaskStatus (task_status t)) task_id
    (fun t => Some (task_completedAt t ?? task_updatedAt t)) (jm_values (br_tasks b))
    (nowMs - terminalRetentionMs cfg_retention) (protected_tasks nowMs b)
    (maxTerminalTasks cfg_retention) nowMs (terminalRetentionMs cfg_retention)) as (Hk & Hn & l & Hl & Hm);
    [apply keyed_ids_NoDup, (wf_tasks b Hwf)|done|].
  split_and!.
  - intros t Ht He. apply Hkept; [done|]. by apply Hk.
  - intros t t' ms ms' He He' Hs Hd. eapply Hn; [exact He|exact He'|by apply Hkept; eauto|].
    intros Hs'. apply (Hkept t' (Hin _ _ He')) in Hs'. congruence.
  - exists l. split; [done|]. intros t ms He Hs. apply (Hm t ms He). apply Hkept; eauto.
Qed.


(** An active task survives a restart, in its normal form, which a further
    restart leaves as it is. *)
Theorem active_tasks_survive_restart (uuid_inj : forall m n, host_uuid m = host_uuid n -> m = n) sink ms b id t :
  reachable b -> rooted b -> stored b id = Some t -> active t ->
  stored (restarted sink ms (exportSnapshot b)) id = Some (normalizeTaskRecord t)
  /\ normalizeTaskRecord (normalizeTaskRecord t) = normalizeTaskRecord t.
Proof.
  intros Hr Hroot Ht Ha. split; [|apply normalizeTaskRecord_idemp].
  apply restart_keeps_active; try done; [by apply (reachable_good uuid_inj)|by apply reachable_workers_normal].
Qed.
End Requests.

(** The canonical form of a GitHub task request is canonical: normalising it
    again changes nothing, unless the issue number is zero. *)
Theorem github_request_canonical r r' :
  normalizeGitHubPatchTaskRequest r = Ok r' ->
  (forall p, ct_payload r' = Some p -> js_prop "issueNumber" p <> JNum (NInt 0)) ->
  normalizeGitHubPatchTaskRequest r' = Ok r'.
Proof. apply normalize_idempotent. Qed.

(** Accepted Terminal Brief metadata names the round and the origin broker,
    and its ordinal lies between one and the total of the round. *)
Theorem terminal_brief_metadata_bounds input receiver allow :
  tv_valid (validateTerminalBriefMetadata input receiver allow) = true ->
  is_Some (normalizeToken (js_prop "parentRoundId" input)) /\
  is_Some (normalizeToken (js_prop "originBrokerId" input)) /\
  exists total order,
    normalizePositiveInt (js_prop "parentRoundTotal" input) = Some total /\
    normalizePositiveInt (js_prop "parentRoundOrder" input) = Some order /\
    (1 <= order <= total)%Z.
Proof. apply valid_metadata. Qed.

(** The id of an outbox record determines the task, the status and the time
    of the transition it stands for. *)
Theorem terminal_event_id_injective id st at_ id' st' at' :
  formatTerminalTaskEventId id st at_ = formatTerminalTaskEventId id' st' at'
  <-> id = id' /\ st = st' /\ at_ = at'.
Proof. split; [apply event_id_inj|]. by intros (-> & -> & ->). Qed.

(** The capabilities a worker is stored with are read back unchanged. *)
Theorem capabilities_roundtrip v :
  normalizeCapabilities (capabilities_value (normalizeCapabilities v)) = normalizeCapabilities v.
Proof. apply normalizeCapabilities_normal. Qed.

(** A subscriber of the outbox does not notice a restart: from any cursor it
    is sent the same records (with acknowledgements migrated and audits rebuilt),
    the same next cursor and the same count of redelivered records. *)
Theorem outbox_restart_is_transparent `{OutboxText} afterId limit o :
  outbox_ok o ->
  subscribeWithCursor afterId limit (restarted_outbox o) =
  let s := subscribeWithCursor afterId limit o in
  mkSubscribeResult (map restored_event (sr_events s)) (sr_cursor s) (sr_reconciledUnacked s).
Proof. apply restart_subscribe. Qed.

(** ** Witnesses *)


Lemma requests_refine_proposal_machine_witness :
  let b' := (run_call (CallApproveProposal demo_proposal_id demo_decision) demo_proposed).1 in
  exists p p', proposal demo_proposed demo_proposal_id = Some p
    /\ proposal b' demo_proposal_id = Some p' /\ bool_decide (pr_status p' = StatusApproved) = true
    /\ rtc (proposal_move (CallApproveProposal demo_proposal_id demo_decision) demo_proposal_id) (Some p) (Some p').
Proof.
  intros b'.
  destruct (some_facts (proposal demo_proposed demo_proposal_id) (fun _ => true)) as (p & Hp & _);
    [vm_compute; reflexivity|].
  destruct (some_facts (proposal b' demo_proposal_id) (fun p => bool_decide (pr_status p = StatusApproved)))
    as (p' & Hp' & Hs); [vm_compute; reflexivity|].
  exists p, p'. split; [exact Hp|]. split; [exact Hp'|]. split; [exact Hs|]. rewrite <- Hp, <- Hp'.
  exact (requests_refine_proposal_machine demo_uuid_inj demo_proposed
    (CallApproveProposal demo_proposal_id demo_decision) demo_proposal_id demo_proposed_reachable).
Defined.

Lemma retention_keeps_references_witness :
  exists t, stored demo_state "t1" = Some t
    /\ stored (applyRetentionPolicy demo_state).1 "t1" = Some t
    /\ forall w, w ∈ task_worker_ids t ->
         jm_get w (br_workers (applyRetentionPolicy demo_state).1) = jm_get w (br_workers demo_state).
Proof.
  destruct (stored_facts demo_state "t1" (fun t => isTerminalTaskStatus (task_status t) = false))
    as (t & Ht & Ha); [vm_compute; reflexivity|].
  destruct (retention_keeps_references demo_state demo_wf) as (Hlinks & Hact & _).
  pose proof (Hact "t1" t Ht Ha) as Ht'. exists t. split; [exact Ht|]. split; [exact Ht'|].
  apply (Hlinks "t1" t Ht').
Defined.

Lemma retention_keeps_newest_witness :
  exists t, t ∈ jm_values (br_tasks demo_state)
    /\ jm_has (task_id t) (br_tasks (applyRetentionPolicy demo_state).1) = true.
Proof.
  destruct (stored_facts demo_state "t1" (fun t => isTerminalTaskStatus (task_status t) = false))
    as (t & Ht & Ha); [vm_compute; reflexivity|].
  assert (t ∈ jm_values (br_tasks demo_state)) as Hin.
  { exact (stored_value demo_state "t1" t demo_wf Ht). }
  exists t. split; [exact Hin|].
  apply (retention_keeps_newest demo_state demo_wf); [exact Hin|].
  intros ms (_ & Hterm & _). congruence.
Defined.

Lemma demo_talk_rooted : rooted demo_talk.
Proof.
  unfold rooted. apply Forall_forall, (bool_decide_eq_true_1 _). vm_compute. reflexivity.
Qed.


Lemma active_tasks_survive_restart_witness :
  exists t, stored demo_talk "t1" = Some t
    /\ stored (restarted (new_stream None, new_outbox None) 0 (exportSnapshot demo_talk)) "t1"
       = Some (normalizeTaskRecord t).
Proof.
  destruct (stored_facts demo_talk "t1" (fun t => isTerminalTaskStatus (task_status t) = false))
    as (t & Ht & Ha); [vm_compute; reflexivity|].
  exists t. split; [exact Ht|].
  exact (proj1 (active_tasks_survive_restart demo_uuid_inj (new_stream None, new_outbox None) 0 demo_talk "t1" t
    demo_talk_reachable demo_talk_rooted Ht Ha)).
Defined.

Lemma github_request_canonical_witness :
  exists r', normalizeGitHubPatchTaskRequest demo_github = Ok r' /\ r' <> demo_github
    /\ normalizeGitHubPatchTaskRequest r' = Ok r'.
Proof.
  eexists. split; [vm_compute; reflexivity|]. split; [discriminate|].
  apply (github_request_canonical demo_github); [vm_compute; reflexivity|].
  intros p [= <-]. vm_compute. discriminate.
Defined.

Lemma terminal_brief_metadata_bounds_witness :
  exists total order,
    normalizePositiveInt (JStr "3") = Some total /\ normalizePositiveInt (JNum (NInt 2)) = Some order
    /\ (1 <= order <= total)%Z.
Proof.
  exact (proj2 (proj2 (terminal_brief_metadata_bounds
    [("parentRoundId", JStr "r1"); ("originBrokerId", JStr "hub-a");
     ("parentRoundTotal", JStr "3"); ("parentRoundOrder", JNum (NInt 2))] (Some "hub-b") false
    ltac:(vm_compute; reflexivity)))).
Defined.

Lemma outbox_restart_is_transparent_witness :
  length (sr_events (subscribeWithCursor None None demo_acknowledged)) = 1 /\
  subscribeWithCursor None None (restarted_outbox demo_acknowledged) =
  let s := subscribeWithCursor None None demo_acknowledged in
  mkSubscribeResult (map restored_event (sr_events s)) (sr_cursor s) (sr_reconciledUnacked s).
Proof.
  split; [vm_compute; reflexivity|].
  apply (outbox_restart_is_transparent None None demo_acknowledged).
  apply acknowledge_ok, enqueue_ok, new_outbox_ok.
Defined.
