(* ===== verification/ServiceTheorems.v ===== *)
(** * Theorems about conference rooms and the rate limiter *)

From Stdlib Require Import ZArith Lia String Ascii.
From stdpp Require Import base strings list pretty relations.
From S2P Require Import Prelude JsRuntime EventBuffer Conference ConferenceFacts RateLimiter OutboxPayload Demo.

(** ** Operations on conference rooms *)

Inductive ConferenceCall : Type :=
| ConfCreate (parentTaskId : string)
| ConfInvite (roomId : string) (nodeIds : list string)
| ConfJoin (roomId nodeId : string)
| ConfSpeak (roomId nodeId : string)
| ConfBlock (roomId nodeId : string) (reason : option string)
| ConfLeave (roomId nodeId : string)
| ConfFinish (roomId nodeId : string)
| ConfClose (roomId : string).

Section Conference.
Context `{JsHost}.

(** The manager after a call, whether it returned or threw. *)
Definition conf_call (c : ConferenceCall) (m : ConferenceRoomManager) : ConferenceRoomManager :=
  match c with
  | ConfCreate parentTaskId => (createRoom parentTaskId m).1
  | ConfInvite roomId nodeIds => (invite roomId nodeIds m).1
  | ConfJoin roomId nodeId => (conf_join roomId nodeId m).1
  | ConfSpeak roomId nodeId => (conf_speak roomId nodeId m).1
  | ConfBlock roomId nodeId reason => (conf_block roomId nodeId reason m).1
  | ConfLeave roomId nodeId => (conf_leave roomId nodeId m).1
  | ConfFinish roomId nodeId => (conf_done roomId nodeId m).1
  | ConfClose roomId => (closeRoom roomId m).1
  end.

Definition conf_calls (cs : list ConferenceCall) (m : ConferenceRoomManager) : ConferenceRoomManager :=
  foldl (fun m c => conf_call c m) m cs.

(** The three answers to a request to move a participant to [target]. *)
Inductive TransitionVerdict : Type := TransitionRepeats | TransitionMoves | TransitionRefused.

Definition transition_verdict (m : ConferenceRoomManager) (id n : string)
    (target : ConferenceParticipantStatus) : TransitionVerdict :=
  match room_of m id with
  | Some room =>
      match rm_status room, jm_get n (rm_participants room) with
      | RoomActive, Some p =>
          if bool_decide (cp_status p = target) then TransitionRepeats
          else if bool_decide (target ∈ ALLOWED_TRANSITIONS (cp_status p)) then TransitionMoves
          else TransitionRefused
      | _, _ => TransitionRefused
      end
  | None => TransitionRefused
  end.

Definition transition_answer (m : ConferenceRoomManager) (id n : string)
    (target : ConferenceParticipantStatus) (answer : ConferenceRoomManager * result string ConferenceEvent) : Prop :=
  match transition_verdict m id n target with
  | TransitionRepeats => exists e,
      answer = (m, Ok e) /\ findIndexedEvent id (eventKey (kind_of target) (Some n)) m = Some e
  | TransitionMoves => exists m' e,
      answer = (m', Ok e) /\ status_of m' id n = Some target
      /\ ce_id e = (1 + cb_nextId (cm_buffer m))%Z
      /\ findIndexedEvent id (eventKey (kind_of target) (Some n)) m' = Some e
  | TransitionRefused => exists err, answer = (m, Err err)
  end.

Lemma answer_refused m id n target answer :
  transition_verdict m id n target = TransitionRefused -> transition_answer m id n target answer ->
  exists err, answer = (m, Err err).
Proof. unfold transition_answer. by intros ->. Qed.

Lemma answer_repeats m id n target answer :
  transition_verdict m id n target = TransitionRepeats -> transition_answer m id n target answer ->
  exists e, answer = (m, Ok e) /\ findIndexedEvent id (eventKey (kind_of target) (Some n)) m = Some e.
Proof. unfold transition_answer. by intros ->. Qed.

Context (uuid_inj : forall i j : nat, host_uuid i = host_uuid j -> i = j).

Lemma conf_call_evolves c m : conf_evolves m (conf_call c m).
Proof.
  destruct c; [by apply evolves_create|apply evolves_invite|apply evolves_transition..|apply evolves_close].
Qed.

Lemma conf_calls_ok max cs : conf_ok (conf_calls cs (new_manager max)).
Proof.
  unfold conf_calls. generalize (new_manager_ok max). generalize (new_manager max) as m.
  induction cs as [|c cs IH]; intros m Hm; [done|]. apply IH, conf_call_evolves, Hm.
Qed.

Lemma transition_answers m id n target reason :
  conf_ok m -> transition_answer m id n target (transition id n target (kind_of target) reason m).
Proof.
  intros Hok. unfold transition_answer, transition_verdict.
  destruct (room_of m id) as [room|] eqn:Hr; [|apply transition_refused; congruence].
  destruct (rm_status room) eqn:Ha; [|apply transition_refused; congruence].
  destruct (jm_get n (rm_participants room)) as [p|] eqn:Hp; [|apply transition_refused; congruence].
  case_bool_decide as Hs; [by eapply transition_again|].
  case_bool_decide as Ht; [|apply transition_refused; intros room1 p1 ? _ ?; by simplify_eq].
  destruct (transition_run m id n target reason room p) as (m' & e & Hrun & _ & Hm' & He); [done..|].
  exists m', e. split; [done|]. rewrite Hm', He, status_saved, saved_indexed.
  assert (rm_id room = id) as Hid by (by apply (co_rooms m Hok)).
  change (rm_id (moved_room m room n p target)) with (rm_id room). rewrite Hid.
  rewrite !String.eqb_refl. simpl. by rewrite jm_get_set_eq.
Qed.

(** C37. Whatever calls a conference manager has served, a call moves every
    participant only along the table of transitions, entering as invited; and a
    request to move one has exactly one of three outcomes: a repeated one answers
    the event recorded then and changes nothing, an allowed one records the status
    and an event under the next id, any other is refused and changes nothing.  In
    particular the record of a transition is never missing. *)
Theorem conference_follows_its_table max cs c id n target reason :
  let m := conf_calls cs (new_manager max) in
  rtc participant_move (status_of m id n) (status_of (conf_call c m) id n)
  /\ transition_answer m id n target (transition id n target (kind_of target) reason m).
Proof.
  intros m. pose proof (conf_calls_ok max cs) as Hok. split; [by apply conf_call_evolves|].
  by apply transition_answers.
Qed.
End Conference.

(** A member that left cannot speak, and the repeated departure is answered. *)
Definition demo_conference : list ConferenceCall :=
  [ConfCreate "task"; ConfInvite "uuid-0" ["n1"]; ConfJoin "uuid-0" "n1"; ConfLeave "uuid-0" "n1"].

Lemma conference_follows_its_table_witness :
  let m := conf_calls demo_conference (new_manager None) in
  (exists err, conf_speak "uuid-0" "n1" m = (m, Err err))
  /\ exists e, conf_leave "uuid-0" "n1" m = (m, Ok e)
       /\ findIndexedEvent "uuid-0" (eventKey ParticipantLeft (Some "n1")) m = Some e.
Proof.
  intros m. split.
  - apply (answer_refused m "uuid-0" "n1" ConfSpeaking); [vm_compute; reflexivity|].
    exact (proj2 (conference_follows_its_table demo_uuid_inj None demo_conference
      (ConfClose "uuid-0") "uuid-0" "n1" ConfSpeaking None)).
  - apply (answer_repeats m "uuid-0" "n1" ConfLeft); [vm_compute; reflexivity|].
    exact (proj2 (conference_follows_its_table demo_uuid_inj None demo_conference
      (ConfClose "uuid-0") "uuid-0" "n1" ConfLeft None)).
Defined.

(** ** The rate limiter *)

(** C38. However requests and snapshots alternate while the clock advances, the
    limiter, which forgets, decides like one that remembers every accepted request:
    a request is accepted iff fewer than the maximum were accepted in the window
    that ends now.  No window of that length, wherever it ends, holds more accepted
    requests of a key than the maximum, and a refused key is accepted again at the
    announced time. *)
Theorem rate_limiter_counts_every_window `{JsHost} (maxRequests windowMs : Z) l log now :
  limited maxRequests windowMs l log now ->
  (forall key now', (now <= now')%Z ->
     rd_allowed (check maxRequests windowMs key now' l).2
     = (Z.of_nat (length (in_window windowMs now' (accepted log key))) <? maxRequests)%Z)
  /\ (forall key hi,
     (count_between (hi - windowMs) hi (accepted log key) <= Z.max 0 maxRequests)%Z)
  /\ forall key later, (0 < maxRequests)%Z ->
     rd_allowed (check maxRequests windowMs key now l).2 = false -> (now <= later)%Z ->
     (rd_resetAtMs (check maxRequests windowMs key now l).2 <= later)%Z ->
     rd_allowed (check maxRequests windowMs key later (check maxRequests windowMs key now l).1).2 = true.
Proof.
  intros Hl. split; [|split].
  - intros key now' Hle. apply check_decides with (now := now); [exact (limited_inv _ _ l log now Hl)|done].
  - by apply (limited_bound maxRequests windowMs l log now).
  - intros key later. by apply (reset_reopens maxRequests windowMs l log key now later).
Qed.

(** Two requests per second: the third is refused, and accepted at the reset. *)
Lemma rate_limiter_counts_every_window_witness :
  let l1 := (check 2 1000 "k" 100 new_limiter).1 in
  let l2 := (check 2 1000 "k" 600 l1).1 in
  limited 2 1000 l2 [("k", 100%Z); ("k", 600%Z)] 600
  /\ rd_allowed (check 2 1000 "k" 600 l2).2 = false
  /\ rd_allowed (check 2 1000 "k" 1100 (check 2 1000 "k" 600 l2).1).2 = true.
Proof.
  intros l1 l2.
  assert (limited 2 1000 l2 [("k", 100%Z); ("k", 600%Z)] 600) as Hl.
  { exact (LimitedCheck 2 1000 l1 [("k", 100%Z)] 100 "k" 600
      (LimitedCheck 2 1000 new_limiter [] 0 "k" 100 (LimitedNew 2 1000 0) ltac:(lia)) ltac:(lia)). }
  split; [exact Hl|]. split; [reflexivity|].
  apply (rate_limiter_counts_every_window 2 1000 l2 _ 600 Hl); [lia|reflexivity|lia|vm_compute; discriminate].
Defined.
