(* ===== verification/HttpTheorems.v ===== *)
(** * Theorems about the HTTP server *)

From Stdlib Require Import ZArith Lia String Ascii.
From stdpp Require Import base gmap strings list pretty relations.
From S2P Require Import Prelude JsRuntime Types Policy Retention BrokerCore CoreFacts EventBuffer TaskEventStream Outbox.
From S2P Require Import Workers Proposals Github TerminalBrief Tasks TaskFacts Exchanges System RateLimiter RequestSecurity.
From S2P Require Import HttpServer HttpFacts OutboxPayload Demo ErrorCodes.

(** ** A server at work: the requests of the worked examples *)

#[export] Instance demo_schemas : RequesterSchemas := {|
  requesterKindSchema s :=
    List.find (fun k => String.eqb (A2APartyKind_text k) s) [KindSession; KindNode; KindUser; KindService];
  requesterRoleSchema s :=
    List.find (fun r => String.eqb (A2APartyRole_text r) s)
      [RoleHub; RoleLiveTrader; RoleResearcher; RoleAnalyst; RoleOperator] |}.

#[export] Instance demo_server_config : ServerConfig := {|
  sc_enforceRequesterIdentity := true;
  sc_edgeSecret := Some "secret";
  sc_trustedProxy := false;
  sc_workerOfflineAfterSec := 90;
  sc_rateLimitMaxRequests := 120;
  sc_rateLimitWindowMs := 60000;
  sc_workerRateLimitMaxRequests := 600;
  sc_workerRateLimitWindowMs := 60000;
  sc_otherNumber _ := NNaN;
  sc_fractionMillis _ := 0%Z |}.

(** A POST on behalf of [id], with a body for one of the endpoints. *)
Definition demo_message (id role path : string) : IncomingMessage :=
  mkIncomingMessage "POST"
    [("x-a2a-edge-secret", HeaderText "secret"); ("x-a2a-requester-id", HeaderText id);
     ("x-a2a-requester-role", HeaderText role)]
    (Some "127.0.0.1") path [].

Definition no_body : forall e : Endpoint, JsonBody (body_of e) := fun _ => BodyAbsent.

Definition register_body (q : RegisterWorkerRequest) : forall e : Endpoint, JsonBody (body_of e) :=
  fun e => match e with PostWorkersRegister => BodyValue q | _ => BodyAbsent end.
Definition create_body (q : CreateTaskRequest) : forall e : Endpoint, JsonBody (body_of e) :=
  fun e => match e with PostTasks => BodyValue q | _ => BodyAbsent end.
Definition claim_body (w : string) : forall e : Endpoint, JsonBody (body_of e) :=
  fun e => match e with PostTaskClaim _ => BodyValue (mkTaskClaimRequest (Some w)) | _ => BodyAbsent end.
Definition complete_body (w : string) : forall e : Endpoint, JsonBody (body_of e) :=
  fun e => match e with
           | PostTaskComplete _ => BodyValue (mkTaskCompleteRequest (Some w) (Some demo_result))
           | _ => BodyAbsent end.

Definition demo_register : HttpRequest :=
  mkHttpRequest (demo_message "w1" "analyst" "/workers/register") (register_body (demo_registration "w1")) 0 0.
Definition demo_create : HttpRequest :=
  mkHttpRequest (demo_message "hub" "hub" "/tasks") (create_body demo_github) 10 0.
Definition demo_claim (id : string) : HttpRequest :=
  mkHttpRequest (demo_message id "analyst" "/tasks/t7/claim") (claim_body "w1") 20 0.
Definition demo_complete : HttpRequest :=
  mkHttpRequest (demo_message "w1" "analyst" "/tasks/t7/complete") (complete_body "w1") 30 0.

(** A request that is admitted and dispatched. *)
Definition served_by (s : Server) (r : HttpRequest) : Server :=
  match admission r s, endpoint_of (hr_message r) with
  | (s', Ok identity), Some e => (dispatch e r identity s').1
  | (s', _), _ => s'
  end.

Definition demo_server : Server := new_server demo_broker.

(** The worker is registered, the task created and claimed. *)
Definition demo_ready : Server := foldl served_by demo_server [demo_register; demo_create; demo_claim "w1"].

(** The request of [r] when it is the only one awaiting its body. *)
Definition awaiting (s : Server) (r : HttpRequest) : Server :=
  match admission r s with
  | (s', Ok identity) => s' <| sv_pending ::= cons (r, identity) |>
  | (s', Err _) => s'
  end.

Definition demo_proper (r : HttpRequest) : bool :=
  match hr_body r PostTasks with
  | BodyValue c => demo_named (CallCreateTask c)
  | _ => true
  end.

Lemma demo_proper_request e r b : demo_proper r = true -> proper_request e r b.
Proof.
  unfold demo_proper, proper_request. destruct e; try done.
  destruct (hr_body r PostTasks); try done. apply (demo_named_proper (CallCreateTask a)).
Qed.

Lemma awaiting_reachable s r : server_reachable s -> is_ok (admission r s).2 = true -> server_reachable (awaiting s r).
Proof.
  intros (sink & ms & Hr) Ha. exists sink, ms. eapply rtc_r; [exact Hr|]. unfold awaiting.
  pose proof (fun i => StepAdmitted s r i) as Hs. destruct (admission r s) as [s' [i|e]]; [|done]. by apply Hs.
Qed.

Definition servable (r : HttpRequest) (s : Server) : bool :=
  is_ok (admission r s).2 && is_some (endpoint_of (hr_message r)) && demo_proper r.

Lemma served_reachable s r : server_reachable s -> servable r s = true -> server_reachable (served_by s r).
Proof.
  unfold servable. intros Hr [[Ha He]%andb_true_iff Hp]%andb_true_iff.
  pose proof (awaiting_reachable s r Hr Ha) as (sink & ms & Haw). exists sink, ms.
  unfold served_by, awaiting in *. destruct (admission r s) as [s' [i|e]]; [|done].
  destruct (endpoint_of (hr_message r)) as [e|] eqn:Hend; [|done].
  eapply rtc_r; [exact Haw|].
  pose proof (StepDispatched (s' <| sv_pending ::= cons (r, i) |>) r i e [] (sv_pending s') eq_refl Hend
    (demo_proper_request e r _ Hp)) as Hstep.
  by destruct s'.
Qed.

Lemma demo_server_reachable : server_reachable demo_server.
Proof. by exists (new_stream None, new_outbox None), (demo_clock 0). Qed.

Lemma demo_ready_reachable : server_reachable demo_ready.
Proof.
  unfold demo_ready. cbn [foldl].
  repeat (apply served_reachable; [|vm_compute; reflexivity]). exact demo_server_reachable.
Qed.

Section Http.
Context `{JsHost} `{OutboxText} `{BrokerConfig} `{ServerConfig} `{RequesterSchemas}.

(** C39.  However arrivals, bodies, closed streams and the stale-task reaper
    interleave, the broker behind the server is in a state the broker's own
    requests reach.  A request that awaits its body presented the edge secret, its
    identity is the one of its headers, and its handler makes at most one call of
    the broker: under enforcement one that this identity may make, as the worker,
    the actor or the hub or operator the call names. *)
Theorem http_requests_are_authorized
    (uuid_inj : forall m n : nat, host_uuid m = host_uuid n -> m = n) s :
  server_reachable s ->
  reachable (sv_broker s)
  /\ forall r identity e,
       (r, identity) ∈ sv_pending s -> endpoint_of (hr_message r) = Some e ->
       extractRequesterIdentity (hr_message r) = Ok identity
       /\ (forall secret, truthy_opt sc_edgeSecret = Some secret ->
             headerValue (hr_message r) "x-a2a-edge-secret" = Some secret)
       /\ let b := sv_broker s in
          let b' := sv_broker (dispatch e r identity s).1 in
          b' = b \/ exists c, b' = (run_call c b).1
                      /\ (sc_enforceRequesterIdentity = true -> authorized identity b c).
Proof.
  intros Hs. destruct (server_reachable_facts uuid_inj s Hs) as [Hb Hv]. split; [done|].
  intros r identity e Hin He. destruct (Hv r identity Hin) as [Hi Hsec]. split; [done|].
  split; [by apply Hsec, (endpoint_protected _ e)|].
  destruct (dispatch_served e r identity s) as [Heq|(c & [_ Ha] & Heq & _)];
    [by apply (reachable_good uuid_inj)|by left|].
  right. by exists c.
Qed.

End Http.

(** The worker w1 registers itself. *)
Lemma http_requests_are_authorized_witness :
  let s := awaiting demo_server demo_register in
  let identity := Some (mkRequesterIdentity "w1" None (Some RoleAnalyst) None) in
  server_reachable s
  /\ headerValue (hr_message demo_register) "x-a2a-edge-secret" = Some "secret"
  /\ (let b' := sv_broker (dispatch PostWorkersRegister demo_register identity s).1 in
      b' = sv_broker s \/ exists c, b' = (run_call c (sv_broker s)).1 /\ authorized identity (sv_broker s) c).
Proof.
  intros s identity.
  assert (server_reachable s) as Hs.
  { apply awaiting_reachable; [exact demo_server_reachable|vm_compute; reflexivity]. }
  split; [exact Hs|].
  assert ((demo_register, identity) ∈ sv_pending s) as Hin.
  { replace (sv_pending s) with [(demo_register, identity)] by (vm_compute; reflexivity). apply list_elem_of_here. }
  destruct (http_requests_are_authorized demo_uuid_inj s Hs) as [_ Hall].
  destruct (Hall demo_register identity PostWorkersRegister Hin ltac:(vm_compute; reflexivity)) as (_ & Hsec & Hd).
  split; [exact (Hsec "secret" eq_refl)|].
  destruct Hd as [Hd|(c & Hc & Ha)]; [left; exact Hd|right; exists c; split; [exact Hc|exact (Ha eq_refl)]].
Defined.

