(* ===== verification/StoreTheorems.v ===== *)
(** * Theorems about the state stores

    What the SQLite store and the JSON file store keep of a broker, and what a
    broker restarted from them has. *)

From Stdlib Require Import ZArith Lia String.
From stdpp Require Import base gmap strings list pretty relations.
From S2P Require Import Prelude JsRuntime Types Retention BrokerCore CoreFacts EventBuffer TaskEventStream Outbox Workers.
From S2P Require Import Proposals Github TerminalBrief Tasks Exchanges System HotTables SqlStore SqlSave HotRetention.
From S2P Require Import StoreFacts StoreReads OutboxPayload Demo Policy TaskMachine TaskFacts Walk Restart Durability.
From S2P Require Import SqlOrder StoreSaves HotRestart.

(** ** A concrete store

    A text of a record is the record itself, tagged by its table: an instance of
    [RecordJson] that reads back what it wrote.  A store of the demo broker, its
    database, and one with the hot tables as load source. *)

Definition same_kind (k k' : SqliteHotEntityTable) : option (hot_record k' -> hot_record k) :=
  match k as k1, k' as k2 return option (hot_record k2 -> hot_record k1) with
  | BrokerExchanges, BrokerExchanges => Some (fun r => r)
  | BrokerExchangeMessages, BrokerExchangeMessages => Some (fun r => r)
  | BrokerProposals, BrokerProposals => Some (fun r => r)
  | BrokerArtifacts, BrokerArtifacts => Some (fun r => r)
  | BrokerValidations, BrokerValidations => Some (fun r => r)
  | BrokerTasks, BrokerTasks => Some (fun r => r)
  | BrokerTombstones, BrokerTombstones => Some (fun r => r)
  | BrokerWorkers, BrokerWorkers => Some (fun r => r)
  | BrokerAuditEvents, BrokerAuditEvents => Some (fun r => r)
  | BrokerTerminalOutbox, BrokerTerminalOutbox => Some (fun r => r)
  | _, _ => None
  end.

#[export] Instance demo_json : RecordJson := {|
  json_text := { k : SqliteHotEntityTable & hot_record k };
  json_length := fun _ => 1%Z;
  stringify := fun k r => existT k r;
  parse_record := fun k j =>
    match same_kind k (projT1 j) with
    | Some f => Ok (f (projT2 j))
    | None => Err "invalid record"
    end;
  snapshot_text := BrokerSnapshot;
  snapshot_bytes := fun _ => 1%Z;
  stringify_snapshot := fun s => s;
  parse_snapshot := fun s => Ok s |}.

Lemma demo_readable db : readable db.
Proof. intros k id r _. by destruct k. Qed.

Definition demo_options (source : option SqliteBrokerLoadSource) : SqliteBrokerStateStoreOptions :=
  mkSqliteOptions None None source None None None None None.
Definition demo_store : SqliteBrokerStateStore := new_sqlite_store "state.sqlite" (demo_options None).
Definition demo_hot_store : SqliteBrokerStateStore := new_sqlite_store "state.sqlite" (demo_options (Some LoadHotTables)).

Definition demo_times (n : nat) : string := toISOString (demo_clock n).

(** The demo broker after one more save, the calls it made before and after, and
    the database a store has after them. *)
Abbreviation demo_saved := ((persistState demo_state).1).
Abbreviation demo_calls_made := (br_storeCalls demo_state).
Abbreviation demo_store_calls := (br_storeCalls demo_saved).
Definition demo_db_of (st : SqliteBrokerStateStore) (calls : list StoreCall) : SqliteDb :=
  (replay_calls st demo_times calls empty_db).1.
Abbreviation demo_db st := (demo_db_of st demo_store_calls).

Lemma demo_db_run st calls :
  is_ok (replay_calls st demo_times calls empty_db).2 = true ->
  replay_calls st demo_times calls empty_db = (demo_db_of st calls, Ok tt).
Proof. unfold demo_db_of. by destruct (replay_calls st demo_times calls empty_db) as [db [[]|e]]. Qed.

Lemma demo_runs : replay_calls demo_store demo_times demo_store_calls empty_db = (demo_db demo_store, Ok tt).
Proof. apply demo_db_run. vm_compute. reflexivity. Qed.

Lemma demo_hot_runs :
  replay_calls demo_hot_store demo_times demo_store_calls empty_db = (demo_db demo_hot_store, Ok tt).
Proof. apply demo_db_run. vm_compute. reflexivity. Qed.

Lemma demo_made_runs :
  replay_calls demo_store demo_times demo_calls_made empty_db = (demo_db_of demo_store demo_calls_made, Ok tt).
Proof. apply demo_db_run. vm_compute. reflexivity. Qed.

Section Stores.
Context `{JsHost} `{RecordJson} `{BrokerConfig}.


(** C33.  An active task survives a crash: a broker restarted from the hot tables
    after [persistState] stores it, in its normal form, provided the rows can be
    read back and the active tasks fit the limit of the load. *)
Theorem active_task_survives_crash st times b db fs now sink ms id t :
  has_store = true -> reachable b ->
  replay_calls st times (br_storeCalls (persistState b).1) empty_db = (db, Ok tt) ->
  ss_loadSource st = LoadHotTables -> readable db ->
  (count_rows BrokerTasks (fun r => negb (terminal_row r)) db <= ss_maxNonTerminalTasks st)%Z ->
  stored (persistState b).1 id = Some t -> active t ->
  exists s, sqlite_load st fs now db = (db, Ok s)
    /\ stored (restarted sink ms s) id = Some (normalizeTaskRecord t).
Proof.
  intros Hs Hr Hrun Hload Hread Hcount Ht Ha.
  destruct (persistState_flushes Hs b (reachable_durable Hs b Hr)) as [[Hd Hh] Hf].
  assert (task_id t = id) as <- by (by apply (proj1 (Hd TabTasks))).
  assert (row_at BrokerTasks (task_id t) db = Some (row_of BrokerTasks t)) as Hrow
    by (apply (replay_sim st times _ db Hh Hrun TabTasks); [done|by apply Hf]).
  pose proof (sound_replay st times _ db Hrun) as Hsound.
  destruct (runtime_has_active st db t Hsound Hread Hrow Ha Hcount) as (ts & Hts & Hnd & Hin).
  destruct (runtime_snapshot_reads st db ts Hsound Hread Hts) as (s & Hsnap & Hst).
  exists s. split; [|apply restarted_active; [by rewrite Hst|by rewrite Hst|done]].
  unfold sqlite_load. rewrite Hload. unfold loadHotRuntimeSnapshot, m_lift, m_bind, m_get. rewrite Hsnap.
  unfold m_ret. assert (hasSnapshotRuntimeRows s = true) as ->; [|done].
  unfold hasSnapshotRuntimeRows. apply existsb_exists. exists BrokerTasks. split; [simpl; tauto|].
  simpl. rewrite Hst. by destruct ts; [apply elem_of_nil in Hin|].
Qed.

(** From its default source the SQLite store loads the snapshot of the last
    full save without hints, whatever was saved since: the row of the canonical
    snapshot is written by no other call. *)
Theorem default_load_ignores_hinted_saves st times calls db fs now :
  replay_calls st times calls empty_db = (db, Ok tt) ->
  ss_loadSource st = LoadSnapshot -> ss_importJsonFile st = None ->
  sqlite_load st fs now db
  = (db, match last_unhinted calls with
         | None => Ok emptySnapshot
         | Some s => parseSnapshotPayload (stringify_snapshot s)
                       ("SQLite broker snapshot at " ++ ss_dbFile st)%string (ss_maxBytes st)
         end).
Proof.
  intros Hrun Hload Himp. pose proof (canonical_replay st times calls db Hrun) as Hc. unfold canonical in Hc.
  unfold sqlite_load, loadCanonicalSnapshot, importable, m_bind, m_get, m_lift. rewrite Hload, Himp.
  destruct (db_snapshot db) as [row|], (last_unhinted calls) as [s|]; try discriminate; [|done].
  injection Hc as ->. by destruct (parseSnapshotPayload _ _ _).
Qed.

(** Listing tasks through the SQLite repository, which pushes filters and
    limit into the statement, is filtering and cutting the list of all tasks in the
    order of their updates, by the filters and the limit of the in-memory broker. *)
Theorem repository_lists_like_the_broker f db :
  sound_db db -> readable db ->
  exists all, readHotTasks no_task_filters db = Ok all
    /\ repo_listTasks f db
       = Ok (applyTaskListLimit (List.filter (fun t => taskMatchesFilters t (Some f)) all) (tf_limit f)).
Proof. apply repo_list_run. Qed.


(** Retention of the task table: applying the plan deletes only ended, unprotected
    tasks out of the window, leaves every other table alone, and of the tasks it
    might delete keeps the newest, at most the configured number. *)
Theorem hot_task_retention_keeps_newest o db :
  sound_db db -> readable db ->
  exists records plan,
    all_records BrokerTasks db = Ok records /\ planHotTaskRetention o db = Ok plan
    /\ let db' := (applyHotRetentionPlan plan db).1 in
    let kept t := row_at BrokerTasks (task_id t) db' = Some (row_of BrokerTasks t) in
    (forall k id, k <> BrokerTasks -> row_at k id db' = row_at k id db)
    /\ (forall t, t ∈ records -> (forall ms, ~ plan_expired o records t ms) -> kept t)
    /\ (forall t t' ms ms', plan_expired o records t ms -> plan_expired o records t' ms' ->
          kept t -> ~ kept t' -> (ms' <= ms)%Z)
    /\ exists l : list string, length l <= Z.to_nat (tro_maxTerminalRecords o)
         /\ forall t ms, plan_expired o records t ms -> kept t -> task_id t ∈ l.
Proof.
  intros Hdb Hr. destruct (task_records db Hdb Hr) as (records & Hall & Hnd & Htab).
  exists records, (planTaskRetentionFromRecords records o).
  split_and!; [done|by unfold planHotTaskRetention; rewrite Hall|]. cbv zeta.
  destruct (selection_outcome (fun t => isTerminalTaskStatus (task_status t)) task_id
    (fun t => Some (task_completedAt t ?? task_updatedAt t)) records (tro_nowMs o - tro_retentionMs o)
    (ids_of (tro_protectedTaskIds o ?? [])) (tro_maxTerminalRecords o) (tro_nowMs o) (tro_retentionMs o) Hnd eq_refl)
    as (Hk & Hn & l & Hl & Hm). fold (selected o records) in Hk, Hn, Hm.
  assert (forall t ms, plan_expired o records t ms -> t ∈ records) as Hexp by by intros t ms [].
  pose proof (fun t => plan_kept o records db t Htab Hnd) as Hkept. split_and!.
  - intros k id. apply plan_other.
  - intros t Ht He. apply Hkept; [done|]. by apply Hk.
  - intros t t' ms ms' He He' Ht Ht'. apply (Hn t t' ms ms' He He').
    + apply Hkept; [by eapply Hexp|done].
    + intros Hs. apply Ht', Hkept; [by eapply Hexp|done].
  - exists l. split; [done|]. intros t ms He Ht. apply (Hm t ms He), Hkept; [by eapply Hexp|done].
Qed.
End Stores.

(** ** Witnesses *)

(** The task t1 of the demo broker, stored and active. *)
Lemma demo_saved_task : exists t, stored demo_saved "t1" = Some t /\ active t.
Proof. apply (stored_facts demo_saved "t1" active). vm_compute. reflexivity. Qed.

Lemma live_tasks (b : Broker) id : stored b id = jm_get id (live TabTasks b).
Proof. reflexivity. Qed.


Lemma active_task_survives_crash_witness :
  exists s t, stored demo_saved "t1" = Some t
    /\ sqlite_load demo_hot_store [] "T9" (demo_db demo_hot_store) = (demo_db demo_hot_store, Ok s)
    /\ stored (restarted (new_stream None, new_outbox None) 0 s) "t1" = Some (normalizeTaskRecord t).
Proof.
  destruct demo_saved_task as (t & Ht & Ha).
  assert (has_store = true) as Hstore by reflexivity.
  assert (count_rows BrokerTasks (fun r => negb (terminal_row r)) (demo_db demo_hot_store)
    <= ss_maxNonTerminalTasks demo_hot_store)%Z as Hcount
    by (apply Z.leb_le; vm_compute; reflexivity).
  destruct (active_task_survives_crash demo_hot_store demo_times demo_state (demo_db demo_hot_store) [] "T9"
    (new_stream None, new_outbox None) 0 "t1" t Hstore demo_reachable demo_hot_runs eq_refl
    (demo_readable _) Hcount Ht Ha) as (s & Hs & Hst).
  exists s, t. split; [exact Ht|]. split; [exact Hs|exact Hst].
Defined.

(** The broker with six requests behind it saved all its records; the default store
    has the row of t1 and loads nothing. *)
Lemma default_load_ignores_hinted_saves_witness :
  is_Some (row_at BrokerTasks "t1" (demo_db_of demo_store demo_calls_made))
  /\ sqlite_load demo_store [] "T9" (demo_db_of demo_store demo_calls_made)
     = (demo_db_of demo_store demo_calls_made, Ok emptySnapshot).
Proof.
  split.
  - destruct (some_facts (row_at BrokerTasks "t1" (demo_db_of demo_store demo_calls_made)) (fun _ => true))
      as (r & Hr & _); [vm_compute; reflexivity|]. exists r. exact Hr.
  - pose proof (default_load_ignores_hinted_saves demo_store demo_times demo_calls_made
      (demo_db_of demo_store demo_calls_made) [] "T9" demo_made_runs eq_refl eq_refl) as Hl.
    assert (last_unhinted demo_calls_made = None) as Hn.
    { assert (is_some (last_unhinted demo_calls_made) = false) as Hs by (vm_compute; reflexivity).
      destruct (last_unhinted demo_calls_made); [discriminate|reflexivity]. }
    rewrite Hn in Hl. exact Hl.
Defined.

Lemma repository_lists_like_the_broker_witness :
  exists all, repo_listTasks (mkTaskListFilters None (Some TaskQueued) None None None None None None (Some 2%Z))
      (demo_db demo_store)
    = Ok (take 2 (List.filter (fun t => bool_decide (task_status t = TaskQueued)) all)).
Proof.
  destruct (repository_lists_like_the_broker
    (mkTaskListFilters None (Some TaskQueued) None None None None None None (Some 2%Z)) (demo_db demo_store)
    (sound_replay demo_store demo_times demo_store_calls _ demo_runs) (demo_readable _)) as (all & _ & Hl).
  exists all. rewrite Hl. f_equal. unfold applyTaskListLimit. simpl.
  rewrite (List.filter_ext _ (fun t => bool_decide (task_status t = TaskQueued))); [reflexivity|].
  intros t. unfold taskMatchesFilters, str_filter. simpl. rewrite !andb_true_r. reflexivity.
Defined.

