(* ===== verification/RpcTheorems.v ===== *)
(** * Theorems about the JSON-RPC surface and peer status *)

From Stdlib Require Import ZArith Lia String Ascii.
From stdpp Require Import base gmap strings list pretty relations.
From S2P Require Import Prelude JsRuntime Types BrokerCore EventBuffer TaskEventStream Outbox Workers Tasks System.
From S2P Require Import RateLimiter RequestSecurity PeerStatus JsonRpc OutboxPayload Demo Policy Retention CoreFacts.
From S2P Require Import Proposals Github TerminalBrief TaskFacts Exchanges RpcFacts.

(** ** A JSON-RPC client of the demo broker *)

#[export] Instance demo_peer_options : PeerStatusOptions := {
  pso_workerOfflineAfterMs := None;
  pso_mobileOfflineAfterMs := None;
  peer_clock := fun n => (demo_clock 40 + Z.of_nat n)%Z;
  fraction_floor := fun _ => 0%Z;
}.

Definition demo_world : PeerWorld := mkPeerWorld demo_state new_peer_service 0.

Definition rpc_request (method : string) (params : JsValue) : JsValue :=
  JObj [("jsonrpc", JStr "2.0"); ("id", JNum (NInt 7)); ("method", JStr method); ("params", params)].

(** A client whose headers give no role. *)
Definition demo_rpc_options : RpcOptions :=
  mkRpcOptions None (Some (mkRequesterIdentity "mallory" None None None)) true true.

Definition demo_message : JsValue := rpc_request "SendMessage" (JObj [
  ("message", JObj [("parts", JArr [JObj [("text", JStr "hello ")]])]);
  ("metadata", JObj [("targetNodeId", JStr "w1")])]).

(** The client claims to be an operator and cancels a task of another party. *)
Definition demo_usurped : JsValue := rpc_request "CancelTask" (JObj [
  ("taskId", JStr "t1"); ("actor", JObj [("id", JStr "mallory"); ("role", JStr "operator")])]).

Definition demo_peer_request : PeerStatusRequest := mkPeerStatusRequest "w1" None None.

Section Rpc.
Context `{JsHost} `{TaskEventSink} `{BrokerConfig} `{PeerStatusOptions}.


End Rpc.


