(* ===== verification/CrossBrokerTheorems.v ===== *)
(** * Theorems about the projections of other brokers *)

From Stdlib Require Import ZArith Lia String Ascii.
From stdpp Require Import base gmap strings list pretty relations.
From S2P Require Import Prelude JsRuntime JsonText TextRedaction Types Policy Retention BrokerCore CoreFacts EventBuffer.
From S2P Require Import TaskEventStream Outbox OutboxMachine Workers Proposals Github TerminalBrief OutboxPayload Tasks.
From S2P Require Import TaskFacts Exchanges System Feeds CrossBroker CrossBrokerFacts Demo.

Section CrossBroker.
Context `{JsHost} `{JsUrl} `{JsCrypto} `{BrokerConfig}.
Context (uuid_inj : forall m n, host_uuid m = host_uuid n -> m = n).



(** C34.  A restart does not lose or change a projection: restoring the snapshot of
    the store of a broker that ran gives back, under every key, the record that was
    there, if the clock read years between 0 and 9999 when it was acknowledged. *)
Theorem projections_survive_restart maxStatus maxOutbox ms x key :
  rtc xstep (mkCrossBroker _ (started maxStatus maxOutbox ms) []) x ->
  (forall k p, jm_get k (xb_projections x) = Some p -> dated p) ->
  jm_get key (restore_projections (snapshot_projections (xb_projections x))) = jm_get key (xb_projections x).
Proof.
  intros Hr Hdated. pose proof (sound_xsteps _ _ uuid_inj Hr (sound_started _ _ _)) as (_ & _ & Hp).
  by eapply snapshot_restored.
Qed.
End CrossBroker.

(** ** A round with a child on another broker *)

#[export] Instance demo_crypto : JsCrypto := {| sha256 := fun s => s |}.

Lemma demo_sha_inj s t : sha256 s = sha256 t -> s = t.
Proof. intros Heq. exact Heq. Qed.

Definition demo_projection : JsRecord :=
  [("parentRoundId", JStr "t1"); ("originBrokerId", JStr "broker-b"); ("brokerOfRecordId", JStr "broker-a");
   ("workerId", JStr "w9"); ("status", JStr "succeeded"); ("summary", JStr "done, token: abc");
   ("completedAt", JStr "2024-01-01T00:00:00.000Z"); ("parentRoundTotal", JNum (NInt 3));
   ("parentRoundOrder", JStr "2")].

Definition demo_round : CrossBroker := mkCrossBroker _ demo_state [].
Definition demo_ingested : CrossBroker := run_xcall (XIngest demo_projection) demo_round.

Lemma broker_xsteps b b' records :
  rtc broker_step b b' -> rtc xstep (mkCrossBroker _ b records) (mkCrossBroker _ b' records).
Proof.
  induction 1 as [|b1 b2 b3 (c & Hc & <-) _ IH]; [reflexivity|]. eapply rtc_l; [|exact IH].
  exists (XCall c). split; [exact Hc|]. simpl. unfold on_broker, m_zoom. simpl. by destruct (run_call c b1).
Qed.

Lemma demo_round_steps : rtc xstep (mkCrossBroker _ demo_broker []) demo_round.
Proof. apply broker_xsteps, demo_steps. Qed.

Lemma demo_ingested_steps : rtc xstep (mkCrossBroker _ demo_broker []) demo_ingested.
Proof. eapply rtc_r; [exact demo_round_steps|]. exists (XIngest demo_projection). split; [exact I|exact eq_refl]. Qed.

Definition demo_key : string := "t1::broker-b::worker:w9".


Lemma demo_answer :
  exists p, ingestCrossBrokerTerminalBriefProjection demo_projection demo_round = (demo_ingested, Ok (IngestAccepted false p)).
Proof.
  unfold demo_ingested, run_xcall.
  destruct (some_facts (match (ingestCrossBrokerTerminalBriefProjection demo_projection demo_round).2 with
    | Ok (IngestAccepted false p) => Some p | _ => None end) (fun _ => true)) as (p & Hp & _); [vm_compute; reflexivity|].
  exists p. revert Hp. generalize (ingestCrossBrokerTerminalBriefProjection demo_projection demo_round).
  intros [x [[[] q|code reason at_]|e]] Hp; simpl in Hp; try done. by injection Hp as ->.
Qed.

Lemma demo_parent_kept n :
  normalizeRequest demo_projection = Some n ->
  jm_get (np_parentRoundId n) (br_tasks (xb_broker demo_ingested)) = jm_get (np_parentRoundId n) (br_tasks (xb_broker demo_round)).
Proof.
  intros Hn. assert (np_parentRoundId n = "t1") as ->; [|vm_compute; reflexivity].
  assert (np_parentRoundId <$> normalizeRequest demo_projection = Some "t1") as Hp by (vm_compute; reflexivity).
  rewrite Hn in Hp. by injection Hp as ->.
Qed.


Lemma projections_survive_restart_witness :
  jm_get demo_key (restore_projections (snapshot_projections (xb_projections demo_ingested)))
  = jm_get demo_key (xb_projections demo_ingested).
Proof.
  apply (projections_survive_restart demo_uuid_inj None None (demo_clock 0) demo_ingested demo_key demo_ingested_steps).
  assert (jm_values (xb_projections demo_ingested) = match jm_get demo_key (xb_projections demo_ingested) with
    | Some p => [p] | None => [] end) as Hv by (vm_compute; reflexivity).
  assert ((pk_updatedAt <$> (pj_ack <$> jm_get demo_key (xb_projections demo_ingested)))
    = Some (toISOString (demo_clock (br_ticks demo_state)))) as Ht by (vm_compute; reflexivity).
  revert Hv Ht. generalize (xb_projections demo_ingested). intros records Hv Ht k p Hp. apply jm_get_elem in Hp.
  assert (p ∈ jm_values records) as Hin by (apply jm_elem_values; by exists k).
  rewrite Hv in Hin. destruct (jm_get demo_key records) as [q|]; [|by apply elem_of_nil in Hin].
  apply list_elem_of_singleton in Hin as ->. exists (demo_clock (br_ticks demo_state)).
  split; [exact (inj Some _ _ Ht)|]. vm_compute. split; [intros Hc; discriminate Hc|reflexivity].
Defined.
