(* ===== verification/CleanupTheorems.v ===== *)
(** * Theorems about the cleanup of the tables

    What an executed cleanup deletes, and that the token of approval stands for one
    plan. *)

From Stdlib Require Import ZArith Lia String Ascii.
From stdpp Require Import base gmap strings list pretty.
From S2P Require Import Prelude JsRuntime JsonText Types Policy Retention BrokerCore EventBuffer TaskEventStream Outbox.
From S2P Require Import Workers Proposals Github TerminalBrief Tasks HotTables SqlStore SqlSave HotRetention Cleanup.
From S2P Require Import CoreFacts TaskMachine TaskFacts Exchanges System Walk Durability StoreFacts StoreReads SqlOrder StoreSaves.
From S2P Require Import OutboxPayload Demo StoreTheorems.

Section Cleanup.
Context `{JsHost} `{RecordJson} `{JsCrypto}.
Implicit Types db : SqliteDb.

(** ** Approval *)

Record approved (plan : BrokerCleanupPlan) (options : BrokerCleanupExecutionOptions) : Prop := {
  ap_token : ce_approvalToken options = Some (cl_planId plan);
  ap_confirmed : ce_confirmation options = Some BROKER_CLEANUP_CONFIRMATION;
  ap_backup : exists p, ce_backupProof options = Some p /\ str_truthy (js_trim p) = true;
  ap_workers : (0 < prune_count_of BrokerWorkers plan)%Z -> ce_allowWorkerPrune options = Some true;
  ap_outbox : (prune_count_of BrokerTerminalOutbox plan <= 0)%Z;
}.

Lemma no_blockers plan options : validateCleanupExecution plan options = [] -> approved plan options.
Proof.
  unfold validateCleanupExecution. intros Hv.
  apply app_eq_nil in Hv as [Ht Hv]. apply app_eq_nil in Hv as [Hc Hv]. apply app_eq_nil in Hv as [Hb Hv].
  apply app_eq_nil in Hv as [Hw Ho]. split.
  - clear -Ht. case_bool_decide; done.
  - clear -Hc. case_bool_decide; done.
  - destruct (ce_backupProof options) as [p|]; [|done]. exists p. by destruct (str_truthy (js_trim p)).
  - intros Hp. clear -Hw Hp. apply Z.ltb_lt in Hp. rewrite Hp in Hw. by case_bool_decide.
  - destruct (Z.ltb_spec 0 (prune_count_of BrokerTerminalOutbox plan)); [done|lia].
Qed.

(** ** What the plans delete *)

Definition prunes (plans : list SqliteHotRetentionPlan) (k : SqliteHotEntityTable) (id : string) : Prop :=
  exists plan, plan ∈ plans /\ rp_table plan = k /\ id ∈ rp_pruneIds plan.

Lemma apply_plans_db plans db :
  (applyHotRetentionPlans plans db).1 = foldl (fun db plan => (applyHotRetentionPlanUnsafe plan db).1) db plans.
Proof.
  unfold applyHotRetentionPlans. match goal with |- (foldl ?f _ _).1 = ?rhs =>
    enough (forall rs, (foldl f (db, rs) plans).1 = rhs) as Hrs by apply Hrs end. revert db.
  induction plans as [|plan plans IH]; intros db rs; [done|]. cbn [foldl fst snd].
  destruct (applyHotRetentionPlanUnsafe plan db) as [db1 r]. apply IH.
Qed.

Definition prunesb (plans : list SqliteHotRetentionPlan) (k : SqliteHotEntityTable) (id : string) : bool :=
  existsb (fun plan => bool_decide (k = rp_table plan /\ id ∈ rp_pruneIds plan)) plans.

Lemma prunesb_spec plans k id : prunesb plans k id = true <-> prunes plans k id.
Proof.
  unfold prunesb, prunes. rewrite existsb_exists. split.
  - intros (p & Hp%list_elem_of_In & [-> Hid]%bool_decide_eq_true). by exists p.
  - intros (p & Hp%list_elem_of_In & <- & Hid). exists p. split; [done|by apply bool_decide_eq_true].
Qed.

Lemma apply_plans_row plans k id db :
  row_at k id (applyHotRetentionPlans plans db).1 = if prunesb plans k id then None else row_at k id db.
Proof.
  rewrite apply_plans_db. revert db. induction plans as [|plan plans IH]; intros db; [done|]. cbn [foldl prunesb existsb].
  rewrite IH. unfold prunesb. rewrite applyPlan_row. destruct (existsb _ plans); [by rewrite orb_true_r|].
  rewrite orb_false_r. done.
Qed.

(** The records of any table, as the plans read them. *)
Lemma table_records k db :
  sound_db db -> readable db ->
  exists records, all_records k db = Ok records /\ NoDup (map (hot_id k) records)
    /\ db_tables db k = table_of k records.
Proof.
  intros Hdb Hr. destruct (Hdb k) as (records & Heq & Hnd). exists records. split_and!; [|done..].
  unfold all_records, sql_rows. rewrite Heq, table_values. apply parse_rows_of. intros t Ht.
  apply (Hr k (hot_id k t)). unfold row_at. rewrite Heq.
  apply jm_elem_get; [unfold jm_wf; by rewrite table_keys|]. apply list_elem_of_fmap. by exists t.
Qed.

Lemma newest_tasks db :
  sound_db db -> readable db ->
  exists tasks, readHotTasks (mkTaskHotFilters None None None None None None (Some 2000%Z) None) db = Ok tasks
    /\ forall records t, all_records BrokerTasks db = Ok records -> (readTableCount BrokerTasks db <= 2000)%Z ->
         t ∈ records -> t ∈ tasks.
Proof.
  intros Hdb Hr. unfold readHotTasks, buildHotTableSelect. cbn [htf_id htf_status htf_targetNodeId htf_intent
    htf_assignedWorkerId htf_taskOrigin htf_limit htf_maxRows].
  set (order := [Desc "updated_at"; Asc "id"]). set (p := matches_clauses _).
  change (match None ??o _ with Some n => _ | None => _ end) with (Some 2000%Z).
  destruct (read_back BrokerTasks db (sql_select BrokerTasks p order (Some 2000%Z) db) Hdb Hr)
    as (tasks & Htasks & Hrows & _ & Hread).
  { etransitivity; [apply select_submseteq|apply filter_submseteq]. }
  exists tasks. split; [exact Htasks|]. intros records t Hall Hcount Ht.
  destruct (table_records BrokerTasks db Hdb Hr) as (records' & Hall' & Hnd & Htab). rewrite Hall in Hall'.
  injection Hall' as <-.
  assert (row_of BrokerTasks t ∈ sql_select BrokerTasks p order (Some 2000%Z) db) as Hin.
  { unfold sql_select. rewrite take_ge.
    - rewrite elem_of_js_sort, list_elem_of_In, filter_In, <- list_elem_of_In. split; [|done].
      unfold sql_rows. rewrite Htab, table_values. apply list_elem_of_fmap. by exists t.
    - rewrite (Permutation_length (js_sort_perm _ _)). unfold readTableCount in Hcount.
      assert (length (List.filter p (sql_rows BrokerTasks db)) <= length (db_tables db BrokerTasks)) as Hle.
      { etransitivity; [apply filter_length_le|]. unfold sql_rows, jm_values. by rewrite length_map. }
      lia. }
  rewrite Hrows in Hin. apply list_elem_of_fmap in Hin as (t' & Heq & Ht'). 
  assert (parse_record BrokerTasks (stringify BrokerTasks t) = Ok t) as Ht1.
  { apply (Hr BrokerTasks (task_id t)). by eapply task_row_at. }
  specialize (Hread t' Ht'). apply (f_equal row_payload) in Heq. simpl in Heq. rewrite Heq in Ht1. assert (t = t') as -> by congruence. done.
Qed.

(** ** The four plans *)

Definition task_options (o : NormalizedCleanupOptions) : TaskRetentionOptions :=
  mkTaskRetentionOptions (nc_nowMs o) (nc_taskRetentionMs o) (nc_maxTerminalTasks o) (Some (nc_protectedTaskIds o)).

Lemma tables_built o db tables :
  sound_db db -> readable db -> cleanup_tables o db = Ok tables ->
  exists tasks records workers audit_plan worker_plan outbox_plan,
    readHotTasks (mkTaskHotFilters None None None None None None (Some 2000%Z) None) db = Ok tasks
    /\ all_records BrokerTasks db = Ok records /\ all_records BrokerWorkers db = Ok workers
    /\ map bp_plan tables = [planTaskRetentionFromRecords records (task_options o); audit_plan; worker_plan; outbox_plan]
    /\ rp_table audit_plan = BrokerAuditEvents
    /\ rp_table outbox_plan = BrokerTerminalOutbox
    /\ worker_plan = planWorkerRetentionFromRecords workers (mkWorkerRetentionOptions (nc_nowMs o) (nc_workerRetentionMs o)
         (nc_maxInactiveWorkers o)
         (Some (js_sort string_cmp (js_unique (nc_protectedWorkerIds o ++ active_worker_ids tasks)))))
    /\ Forall (fun t => bp_pruneCount t = Z.of_nat (length (rp_pruneIds (bp_plan t)))) tables.
Proof.
  intros Hdb Hr. unfold cleanup_tables.
  destruct (newest_tasks db Hdb Hr) as (tasks & -> & _). cbn [r_bind].
  destruct (table_records BrokerTasks db Hdb Hr) as (records & Hrec & _ & _).
  destruct (table_records BrokerWorkers db Hdb Hr) as (workers & Hwork & _ & _).
  destruct (table_records BrokerAuditEvents db Hdb Hr) as (audits & Haud & _ & _).
  destruct (table_records BrokerTerminalOutbox db Hdb Hr) as (outbox & Hob & _ & _).
  unfold planHotTaskRetention, planHotWorkerRetention, planHotAuditRetention, planHotTerminalOutboxRetention.
  rewrite Hrec, Hwork, Haud, Hob. cbn [r_bind]. intros [= <-].
  exists tasks, records, workers. do 3 eexists. do 4 (split; [reflexivity|]).
  split; [unfold planAuditRetentionFromRecords; by destruct (foldl _ _ _)|].
  split; [unfold planTerminalOutboxRetentionFromRecords; by destruct (foldl _ _ _)|].
  split; [reflexivity|]. repeat constructor.
Qed.

(** A table without candidates of its own loses nothing. *)
Lemma no_candidates k plan id :
  Forall (fun t => bp_pruneCount t = Z.of_nat (length (rp_pruneIds (bp_plan t)))) (cl_tables plan) ->
  (forall t t', t ∈ cl_tables plan -> t' ∈ cl_tables plan -> rp_table (bp_plan t) = k -> rp_table (bp_plan t') = k -> t = t') ->
  (prune_count_of k plan <= 0)%Z -> ~ prunes (map bp_plan (cl_tables plan)) k id.
Proof.
  intros Hcounts Huniq Hle (p & Hp & Hk & Hid). apply list_elem_of_fmap in Hp as (t & -> & Ht).
  unfold prune_count_of in Hle. destruct (List.find _ _) as [t0|] eqn:Hf.
  - apply List.find_some in Hf as [Ht0 Hk0]. apply list_elem_of_In in Ht0. apply bool_decide_eq_true in Hk0.
    assert (t0 = t) as -> by by apply Huniq. rewrite Forall_forall in Hcounts. rewrite Hcounts in Hle by done.
    destruct (rp_pruneIds (bp_plan t)); [by apply not_elem_of_nil in Hid|simpl in Hle; lia].
  - pose proof (List.find_none _ _ Hf t (proj1 (list_elem_of_In _ _) Ht)) as Hn. by apply bool_decide_eq_false in Hn.
Qed.

Lemma tables_distinct o db tables k t t' :
  sound_db db -> readable db -> cleanup_tables o db = Ok tables -> t ∈ tables -> t' ∈ tables ->
  rp_table (bp_plan t) = k -> rp_table (bp_plan t') = k -> t = t'.
Proof.
  intros Hdb Hr Htab Ht Ht' Hk Hk'.
  destruct (tables_built o db tables Hdb Hr Htab) as (? & records & workers & ap & wp & op & _ & _ & _ & Hmap & Ha & Ho & Hw & _).
  destruct tables as [|x1 [|x2 [|x3 [|x4 [|]]]]]; try discriminate Hmap. injection Hmap as H1' H2' H3' H4'.
  assert (rp_table (bp_plan x1) = BrokerTasks) as E1 by by rewrite H1'.
  assert (rp_table (bp_plan x2) = BrokerAuditEvents) as E2 by by rewrite H2'.
  assert (rp_table (bp_plan x3) = BrokerWorkers) as E3 by by rewrite H3', Hw.
  assert (rp_table (bp_plan x4) = BrokerTerminalOutbox) as E4 by by rewrite H4'.
  clear -Ht Ht' Hk Hk' E1 E2 E3 E4.
  repeat (apply elem_of_cons in Ht as [->|Ht]; [|]); try (by apply not_elem_of_nil in Ht);
    repeat (apply elem_of_cons in Ht' as [->|Ht']; [|]); try (by apply not_elem_of_nil in Ht'); first [done|congruence].
Qed.

(** The tasks that a plan of cleanup keeps. *)
Lemma task_not_pruned o records t :
  NoDup (map task_id records) -> t ∈ records -> (forall ms, ~ plan_expired o records t ms) ->
  task_id t ∉ rp_pruneIds (planTaskRetentionFromRecords records o).
Proof.
  intros Hnd Ht He Hin. unfold planTaskRetentionFromRecords in Hin. apply (plan_members BrokerTasks) in Hin as [_ Hn].
  apply Hn. exact (proj1 (selection_outcome (fun t => isTerminalTaskStatus (task_status t)) task_id
    (fun t => Some (task_completedAt t ?? task_updatedAt t)) records (tro_nowMs o - tro_retentionMs o)
    (ids_of (tro_protectedTaskIds o ?? [])) (tro_maxTerminalRecords o) (tro_nowMs o) (tro_retentionMs o) Hnd eq_refl) t Ht He).
Qed.

Lemma active_worker_named tasks t w :
  t ∈ tasks -> isTerminalTaskStatus (task_status t) = false -> str_truthy w = true ->
  task_assignedWorkerId t = Some w \/ task_claimedBy t = Some w -> w ∈ active_worker_ids tasks.
Proof.
  intros Ht Hst Hw Hor. unfold active_worker_ids. rewrite elem_of_js_unique, list_elem_of_In. apply in_flat_map. exists t.
  split; [apply filter_In; split; [by apply list_elem_of_In|by rewrite Hst]|]. apply list_elem_of_In, elem_of_app.
  destruct Hor as [->| ->]; [left|right]; unfold truthy_opt; rewrite Hw; by left.
Qed.

Lemma worker_not_pruned workers o w :
  w ∈ (wro_protectedWorkerIds o ?? []) -> w ∉ rp_pruneIds (planWorkerRetentionFromRecords workers o).
Proof.
  intros Hw Hin. unfold planWorkerRetentionFromRecords in Hin. apply (plan_members BrokerWorkers) in Hin as [_ Hn].
  apply Hn, select_workers_protected. by apply elem_of_ids_of.
Qed.

(** ** Executed cleanups *)

(** What an executed cleanup leaves of a row: it is as it was, unless the plan names
    it or it is the audit row of the cleanup itself. *)
Definition kept_row (plan : BrokerCleanupPlan) (r : BrokerCleanupExecutionResult) db db' : Prop :=
  forall k id, row_at k id db' <> row_at k id db ->
    (k = BrokerAuditEvents /\ id = aud_id (cr_auditEvent r))
    \/ row_at k id db' = None /\ k ∈ [BrokerTasks; BrokerAuditEvents; BrokerWorkers]
       /\ prunes (map bp_plan (cl_tables plan)) k id.

Lemma execute_run plan options clock db db' r :
  executeBrokerCleanupPlan plan options clock db = (db', Ok r) ->
  approved plan options
  /\ db' = upsert_records BrokerAuditEvents [cr_auditEvent r] (applyHotRetentionPlans (map bp_plan (cl_tables plan)) db).1
  /\ aud_targetId (cr_auditEvent r) = cl_planId plan.
Proof.
  unfold executeBrokerCleanupPlan. destruct (validateCleanupExecution plan options) as [|e l] eqn:Hv; [|done]. simpl.
  destruct (applyHotRetentionPlans _ db) as [db1 rs]. intros [= <- <-]. split_and!; [by apply no_blockers|done|done].
Qed.

Lemma row_after k id e db :
  ~ (k = BrokerAuditEvents /\ id = aud_id e) -> row_at k id (upsert_records BrokerAuditEvents [e] db) = row_at k id db.
Proof.
  intros Hne. destruct (decide (k = BrokerAuditEvents)) as [->|Hk].
  - rewrite row_at_upserts. unfold last_row. simpl. destruct (String.eqb_spec id (aud_id e)); [naive_solver|done].
  - unfold row_at. by rewrite upserts_other.
Qed.

Lemma row_of_audit e db : row_at BrokerAuditEvents (aud_id e) (upsert_records BrokerAuditEvents [e] db) = Some (row_of BrokerAuditEvents e).
Proof. rewrite row_at_upserts. unfold last_row. simpl. by rewrite String.eqb_refl. Qed.

Definition same_tables (p p' : BrokerCleanupPlan) : Prop :=
  map bp_plan (cl_tables p) = map bp_plan (cl_tables p') /\ cl_options p = cl_options p' /\ cl_generatedAt p = cl_generatedAt p'.

(** ** The id of a plan *)

Lemma strings_inj l l' : json_strings l = json_strings l' -> l = l'.
Proof.
  unfold json_strings. intros [= Heq]. revert l' Heq. induction l as [|x l IH]; intros [|y l'] Heq; try done.
  simpl in Heq. injection Heq as -> Heq. f_equal. by apply IH.
Qed.

Lemma strings_plain l : plain_value (json_strings l).
Proof. unfold json_strings. simpl. rewrite plain_list. apply Forall_forall. by intros w (s & -> & _)%list_elem_of_fmap. Qed.

Lemma options_inj o o' : options_json o = options_json o' -> o = o'.
Proof.
  destruct o, o'. unfold options_json. cbn. intros Heq. injection Heq as -> -> -> -> -> -> -> -> -> Ht Hw. f_equal; apply strings_inj;
    unfold json_strings; by f_equal.
Qed.

Lemma table_inj t t' : table_json t = table_json t' -> bp_plan t = bp_plan t'.
Proof.
  destruct t as [[k c rs ps] ? ? ? ? ? ?], t' as [[k' c' rs' ps'] ? ? ? ? ? ?]. unfold table_json, json_strings. cbn.
  intros Heq. injection Heq as Hk -> Hr Hp _. f_equal; [destruct k, k'; done|apply strings_inj; unfold json_strings; by f_equal..].
Qed.

Lemma tables_inj ts ts' : map table_json ts = map table_json ts' -> map bp_plan ts = map bp_plan ts'.
Proof.
  revert ts'. induction ts as [|t ts IH]; intros [|t' ts'] Heq; try done.
  pose proof (f_equal head Heq) as Ht. pose proof (f_equal tail Heq) as Hts. cbn [head tail map] in Ht, Hts. simpl.
  f_equal; [|by apply IH]. apply table_inj. by apply (inj Some).
Qed.

Lemma plan_plain g o ts : plain_value (plan_json g o ts).
Proof.
  assert (plain_value (JArr (map table_json ts))) as Hts.
  { simpl. rewrite plain_list. apply Forall_forall. intros w (t & -> & _)%list_elem_of_fmap. simpl.
    split_and!; [done|done|apply strings_plain..|done|done]. }
  unfold plan_json. cbn [plain_value foldr]. split_and!; [done| |exact Hts|done]. unfold options_json.
  cbn [plain_value foldr]. split_and!; try done; apply strings_plain.
Qed.

Definition plan_text (p : BrokerCleanupPlan) : string := JSON_stringify (plan_json (cl_generatedAt p) (cl_options p) (cl_tables p)).

Lemma plan_built input clock db p :
  buildBrokerCleanupPlan input clock db = Ok p ->
  cleanup_tables (cl_options p) db = Ok (cl_tables p) /\ cl_planId p = str_slice 16 (sha256 (plan_text p)).
Proof.
  unfold buildBrokerCleanupPlan. destruct (cleanup_tables _ db) as [tables|e] eqn:Ht; [|done]. cbn [r_bind].
  intros [= <-]. split; [exact Ht|done].
Qed.

(** A digest that tells the texts of two plans apart. *)
Definition told_apart (p p' : BrokerCleanupPlan) : Prop :=
  str_slice 16 (sha256 (plan_text p)) = str_slice 16 (sha256 (plan_text p')) -> plan_text p = plan_text p'.

Lemma token_is_of_one_plan input input0 clock clock0 db db0 p p0 :
  buildBrokerCleanupPlan input clock db = Ok p -> buildBrokerCleanupPlan input0 clock0 db0 = Ok p0 ->
  told_apart p p0 -> cl_planId p = cl_planId p0 -> same_tables p p0.
Proof.
  intros [_ Hp]%plan_built [_ Hp0]%plan_built Happ Hid. rewrite Hp, Hp0 in Hid. specialize (Happ Hid).
  unfold plan_text in Happ. apply stringify_inj in Happ; [|apply plan_plain..].
  set (part := fun (i : nat) v => match v with JObj m => from_option snd JUndef (m !! i) | _ => JUndef end).
  pose proof (f_equal (part 0) Happ) as Hg. pose proof (f_equal (part 1) Happ) as Ho. pose proof (f_equal (part 2) Happ) as Hts.
  unfold part, plan_json in Hg, Ho, Hts. cbn [lookup list_lookup from_option snd] in Hg, Ho, Hts.
  split_and!; [apply tables_inj; by injection Hts|by apply options_inj|by injection Hg].
Qed.

(** What a cleanup may not delete. *)
Record spared (plan : BrokerCleanupPlan) (options : BrokerCleanupExecutionOptions) db db' : Prop := {
  sp_tasks records t : all_records BrokerTasks db = Ok records -> t ∈ records ->
    (forall ms, ~ plan_expired (task_options (cl_options plan)) records t ms) ->
    row_at BrokerTasks (task_id t) db' = row_at BrokerTasks (task_id t) db;
  sp_workers : ce_allowWorkerPrune options <> Some true ->
    forall id, row_at BrokerWorkers id db' = row_at BrokerWorkers id db;
  sp_active_workers records t w : all_records BrokerTasks db = Ok records -> t ∈ records ->
    (readTableCount BrokerTasks db <= 2000)%Z -> isTerminalTaskStatus (task_status t) = false -> str_truthy w = true ->
    task_assignedWorkerId t = Some w \/ task_claimedBy t = Some w ->
    row_at BrokerWorkers w db' = row_at BrokerWorkers w db;
  sp_outbox id : row_at BrokerTerminalOutbox id db' = row_at BrokerTerminalOutbox id db;
}.

Lemma executed_spares input planned options executed db db' plan r :
  sound_db db -> readable db -> buildBrokerCleanupPlan input planned db = Ok plan ->
  executeBrokerCleanupPlan plan options executed db = (db', Ok r) ->
  kept_row plan r db db' /\ spared plan options db db'.
Proof.
  intros Hdb Hr Hplan Hexec. apply execute_run in Hexec as (Hap & Hdb' & _).
  apply plan_built in Hplan as [Htab _].
  destruct (tables_built _ db _ Hdb Hr Htab) as
    (tasks & records & workers & ap & wp & op & Htasks & Hrec & _ & Hmap & Ha & Ho & Hw & Hcounts).
  set (plans := map bp_plan (cl_tables plan)) in *.
  assert (forall k id, ~ (k = BrokerAuditEvents /\ id = aud_id (cr_auditEvent r)) ->
    row_at k id db' = if prunesb plans k id then None else row_at k id db) as Hrows.
  { intros k id Hn. rewrite Hdb', row_after by done. apply apply_plans_row. }
  assert (forall k id, k <> BrokerAuditEvents -> ~ prunes plans k id -> row_at k id db' = row_at k id db) as Hsame.
  { intros k id Hk Hn. rewrite Hrows by naive_solver. destruct (prunesb plans k id) eqn:Hp; [|done].
    by apply prunesb_spec in Hp. }
  assert (forall k id, (prune_count_of k plan <= 0)%Z -> ~ prunes plans k id) as Hnone.
  { intros k id Hle. apply no_candidates; [exact Hcounts| |exact Hle]. intros t t'. by eapply tables_distinct. }
  assert (forall k id, prunes plans k id -> k ∈ [BrokerTasks; BrokerAuditEvents; BrokerWorkers; BrokerTerminalOutbox]) as Hin.
  { intros k id (p & Hp & <- & _). rewrite Hmap in Hp.
    repeat (apply elem_of_cons in Hp as [->|Hp]); [..|by apply not_elem_of_nil in Hp];
      rewrite ?Ha, ?Ho, ?Hw; apply (bool_decide_unpack _); exact I. }
  split.
  - intros k id Hne. destruct (decide (k = BrokerAuditEvents /\ id = aud_id (cr_auditEvent r))) as [?|Hn]; [by left|right].
    rewrite (Hrows k id Hn) in Hne |- *. destruct (prunesb plans k id) eqn:Hp; [|by destruct Hne].
    apply prunesb_spec in Hp. split_and!; [done| |done]. apply Hin in Hp as Hk. repeat (apply elem_of_cons in Hk as [->|Hk]); [by left|by right; left|by do 2 right; left| |].
    + destruct (Hnone BrokerTerminalOutbox id); [apply Hap|done].
    + by apply not_elem_of_nil in Hk.
  - split.
    + intros records' t Hrec' Ht He. assert (records' = records) as -> by congruence. apply Hsame; [done|].
      intros (p & Hp & Hk & Hid). rewrite Hmap in Hp.
      repeat (apply elem_of_cons in Hp as [->|Hp]); [|congruence|by rewrite Hw in Hk|congruence|by apply not_elem_of_nil in Hp].
      apply (task_not_pruned _ records t) in Hid; [done| |done|done].
      destruct (table_records BrokerTasks db Hdb Hr) as (rs & Hrs & Hnd & _). assert (rs = records) as -> by congruence. done.
    + intros Hallow id. apply Hsame; [done|]. apply Hnone. destruct (Z.le_gt_cases (prune_count_of BrokerWorkers plan) 0) as [|Hgt];
        [done|]. destruct Hallow. apply Hap. lia.
    + intros records' t w Hrec' Ht Hcount Hst Htr Hor. assert (records' = records) as -> by congruence. apply Hsame; [done|].
      intros (p & Hp & Hk & Hid). rewrite Hmap in Hp.
      repeat (apply elem_of_cons in Hp as [->|Hp]); [done|congruence| |congruence|by apply not_elem_of_nil in Hp].
      rewrite Hw in Hid. apply worker_not_pruned in Hid; [done|]. simpl.
      rewrite elem_of_js_sort, elem_of_js_unique, elem_of_app. right.
      destruct (newest_tasks db Hdb Hr) as (tasks' & Htasks' & Hnew). assert (tasks' = tasks) as -> by congruence.
      by eapply active_worker_named; [eapply Hnew| | |].
    + intros id. apply Hsame; [done|]. apply Hnone, Hap.
Qed.

End Cleanup.

(** ** A cleanup of the demo broker's tables *)

(** A digest that tells texts of different lengths apart. *)
#[export] Instance length_crypto : JsCrypto := {| sha256 := fun s => pretty (Z.of_nat (String.length s)) |}.

Definition demo_cleanup : BrokerCleanupPlanOptions :=
  mkCleanupOptions (Some 1800000000000%Z) (Some 0%Z) (Some 0%Z) (Some 0%Z) (Some 0%Z) (Some 0%Z) (Some 0%Z) None None None None.

(** The demo broker's tables and the row of a worker w9 without tasks. *)
Definition demo_tables : SqliteDb :=
  upsert_records BrokerWorkers
    (map (fun w => w <| wr_nodeId := "w9"%string |>) (option_list (jm_get "w1" (br_workers demo_state)))) (demo_db demo_store).

Definition demo_cleanup_token : string :=
  match buildBrokerCleanupPlan demo_cleanup 0 demo_tables with Ok p => cl_planId p | Err _ => "" end.

Definition demo_execution : BrokerCleanupExecutionOptions :=
  mkCleanupExecution (Some demo_cleanup_token) (Some BROKER_CLEANUP_CONFIRMATION) (Some "backup-1") (Some true) None.

Definition prunes_w9 {A B} (x : A * result string (B + BrokerCleanupPlan * BrokerCleanupExecutionResult)) : bool :=
  match x.2 with Ok (inr (p, _)) => prunesb (map bp_plan (cl_tables p)) BrokerWorkers "w9" | _ => false end.

Lemma demo_tables_sound : sound_db demo_tables.
Proof. apply sound_upserts. exact (sound_replay demo_store demo_times demo_store_calls _ demo_runs). Qed.

