(* ===== verification/GithubIngestionTheorems.v ===== *)
(** * Theorems about GitHub deliveries *)

From Stdlib Require Import ZArith Lia String Ascii.
From stdpp Require Import base gmap strings list pretty relations.
From S2P Require Import Prelude JsRuntime Types Policy Retention BrokerCore CoreFacts EventBuffer.
From S2P Require Import TaskEventStream Outbox Workers Proposals Github TerminalBrief OutboxPayload Tasks.
From S2P Require Import TaskMachine TaskFacts TaskRuns Cancellation Exchanges System GithubIngestion GithubIngestionFacts Demo.

Section Ingestion.
Context `{JsHost} `{TaskEventSink} `{BrokerConfig} `{GitHubIngestionOptions}.
Context (uuid_plain : forall n, ~ gh_id (host_uuid n)).
Context (uuid_inj : forall m n, host_uuid m = host_uuid n -> m = n).

(** C11.  Whatever is delivered, in any order and among any other calls, the broker
    of the service stays in a state its own calls reach; and a delivery with
    commands leaves every task alone that is not the one of its issue or of one of
    its commands, whether it returns or throws. *)
Theorem deliveries_are_calls_of_the_broker b0 s event ctx :
  reachable b0 -> rtc gh_step (new_ingestion b0) s ->
  let s' := (ingest_webhook event ctx s).1 in
  reachable (gi_broker s') /\
  forall a id, assignment_of event = Some a -> id ∉ assignment_ids a ->
    kept (stored (gi_broker s) id) (stored (gi_broker s') id).
Proof.
  intros (sink & ms & Hb) Hs%calls_steps; [|done]. unfold gh_calls in Hs. simpl in Hs.
  assert (reachable (gi_broker s)) as Hr by (exists sink, ms; by etransitivity).
  cbv zeta. split.
  - exists sink, ms. etransitivity; [exact Hb|]. etransitivity; [exact Hs|]. apply (calls_webhook uuid_plain event ctx s).
  - intros a id Ha Hid. pose proof (proj1 (reachable_good uuid_inj _ Hr)) as Hwf.
    destruct (webhook_kept event ctx s) as [Hk|(s1 & Hb1 & ->)]; [by rewrite Hk; reflexivity|].
    rewrite <- Hb1. rewrite (assignment_event _ _ _ Ha).
    apply (frame_assignment uuid_plain uuid_inj a ctx s1); [by rewrite Hb1|done].
Qed.



End Ingestion.

(** ** An issue with two commands *)

#[export] Instance demo_ingestion : GitHubIngestionOptions :=
  {| gi_defaultIntent := IntentAnalyze; gi_requesterId := "github-ingestion" |}.

Lemma demo_uuid_plain n : ~ gh_id (host_uuid n).
Proof. intros [s Hs]. discriminate Hs. Qed.

Lemma demo_requester : gi_requesterId <> "".
Proof. intros Hs. vm_compute in Hs. discriminate Hs. Qed.

Definition demo_repo : GitHubRepoRef := mkGitHubRepoRef "acme" "site" "acme/site".
Definition demo_commands : string :=
  ("Hello." ++ String newline ("/a2a assign w1 -- look" ++ String newline "and /A2A assign w2 --deep"))%string.
Definition demo_issue : GitHubIssueRef := mkGitHubIssueRef 1 "Slow" (Some demo_commands) "https://gh/acme/site/1".
Definition demo_opened : GitHubWebhookEvent := EvIssues GhOpened demo_repo demo_issue.
Definition demo_delivery (id t : string) : GitHubDeliveryContext := mkGitHubDeliveryContext id t.
Definition demo_first : GitHubDeliveryContext := demo_delivery "d1" "2024-01-01T00:00:02.000Z".
Definition demo_second : GitHubDeliveryContext := demo_delivery "d2" "2024-01-01T00:00:03.000Z".

Notation demo_delivered := (fst (ingest_webhook demo_opened demo_first (new_ingestion demo_state))) (only parsing).

Definition demo_assignment : Assignment := mkAssignment demo_repo demo_issue None (gh_body demo_issue) 1.

(** Hypotheses by evaluation. *)
Lemma timely_found event ctx s :
  forallb (fun st => negb (before (dc_receivedAt ctx) (rs_lastSeenAt st))) (jm_values (gi_replayState s)) = true ->
  timely event ctx s.
Proof.
  intros Hall key st _ Hst. apply negb_true_iff. apply (proj1 (forallb_forall _ _) Hall).
  apply list_elem_of_In, jm_elem_values. exists key. by apply jm_get_elem.
Qed.

Lemma children_found a b :
  forallb (fun ki => is_some (stored b (as_child a ki.1))) (numbered (as_commands a) 0) = true ->
  forall k intent, (k, intent) ∈ numbered (as_commands a) 0 -> worker_known b (ai_target intent) = true ->
    is_Some (stored b (as_child a k)).
Proof.
  intros Hall k intent Hin%list_elem_of_In _. pose proof (proj1 (forallb_forall _ _) Hall _ Hin) as Hs. simpl in Hs.
  by destruct (stored b (as_child a k)).
Qed.

Lemma served_wf b event ctx : reachable b -> wf_broker (gi_broker (ingest_webhook event ctx (new_ingestion b)).1).
Proof.
  intros (sink & ms & Hr). apply (reachable_good demo_uuid_inj). exists sink, ms.
  etransitivity; [exact Hr|]. exact (calls_webhook demo_uuid_plain event ctx (new_ingestion b)).
Qed.

Lemma demo_delivered_wf : wf_broker (gi_broker demo_delivered).
Proof. exact (served_wf demo_state demo_opened demo_first demo_reachable). Qed.

Lemma deliveries_are_calls_of_the_broker_witness :
  reachable (gi_broker demo_delivered) /\ is_Some (stored (gi_broker demo_delivered) "gh:acme/site#1:body:0")
  /\ kept (stored (gi_broker (new_ingestion demo_state)) "t1") (stored (gi_broker demo_delivered) "t1").
Proof.
  destruct (deliveries_are_calls_of_the_broker demo_uuid_plain demo_uuid_inj demo_state (new_ingestion demo_state) demo_opened
    demo_first demo_reachable (rtc_refl _ _)) as [Hreach Hk].
  split; [exact Hreach|]. split; [vm_compute; eauto|].
  refine (Hk demo_assignment "t1" eq_refl _). apply (bool_decide_unpack _). vm_compute. exact I.
Defined.



