(* ===== verification/LifecycleTheorems.v ===== *)
(** * Theorems about executions, deliveries and proposals

    The properties of the three managers of life cycles, with concrete histories for
    the witnesses. *)

From Stdlib Require Import ZArith Lia String Ascii Sorted.
From stdpp Require Import base strings list pretty relations.
From S2P Require Import Prelude JsRuntime EventBuffer Types Policy Retention BrokerCore CoreFacts Demo.
From S2P Require Import Lifecycle Execution Delivery Proposing.

(** What the stream of [m] tells about an entry. *)
Abbreviation told_of id m := (log_of id (cb_events (mg_buffer m))).

(** ** Executions *)

Lemma stopped_changes `{JsHost} r r' : rtc run_change r r' -> run_stopped r -> run_stopped r'.
Proof. induction 1; eauto using stopped_change. Qed.

Lemma leases_time_out `{JsHost} m m' ids :
  life_ok m -> findExpiredLeases m = (m', Ok ids) ->
  forall id, id ∈ ids -> exists m2 r, timeoutExecution id m' = (m2, Ok r) /\ xr_status r = ExTimeout.
Proof.
  intros Hok Hrun id Hid. unfold findExpiredLeases in Hrun. run_inv Hrun. injection Hm as <- <-. injection Hrun as <- <-.
  destruct (filter_expired _ _ _ _ Hm0) as [He Hl]. apply list_elem_of_fmap in Hid as (r & -> & Hr).
  destruct (Hl r Hr) as (r' & Hget & Hact). apply (timeout_active _ _ r'); [|done].
  unfold get_entry. by rewrite He.
Qed.

(** What a retry makes: another run, and the first stays as it is. *)
Definition retried (r r' : ExecutionRunState) (m m' : ExecutionManager) : Prop :=
  (xr_sessionKey r', xr_peerNodeId r', xr_parentTaskId r', xr_wakeEventId r', xr_attempts r')
  = (xr_sessionKey r, xr_peerNodeId r, xr_parentTaskId r, xr_wakeEventId r, (xr_attempts r + 1)%Z)
  /\ xr_status r' = ExWakeRequested /\ xr_payloadDelivered r' = false
  /\ get_entry m (xr_runId r') = None /\ get_entry m' (xr_runId r') = Some r'
  /\ forall id, id <> xr_runId r' -> get_entry m' id = get_entry m id.

Lemma retry_makes `{JsHost} m id r :
  life_ok m -> get_entry m id = Some r -> xr_status r ∈ [ExFailed; ExTimeout] ->
  exists m' r', retryExecution id m = (m', Ok r') /\ retried r r' m m'.
Proof.
  intros Hok Hr Hst. unfold retryExecution. destruct (require_cases id m) as [(err & _ & Hn)|(r0 & Hr0 & Hreq)]; [congruence|].
  assert (r0 = r) as -> by congruence. rewrite (bind_ok _ _ _ _ _ Hreq), bool_decide_true by done. simpl.
  do 2 eexists. split; [reflexivity|]. set (r' := new_run _ _ _ _ _ _ _).
  assert (xr_runId r' = host_uuid (mg_ids m)) as Hid by done.
  split_and!; [done|done|done|rewrite Hid; by apply Hok| |].
  - unfold get_entry. apply jm_get_set_eq.
  - intros k Hk. unfold get_entry. by apply jm_get_set_ne, not_eq_sym.
Qed.

(** C13.  In every history of executions: a run is well formed; what the stream tells
    of it is a path of EXECUTION_TRANSITIONS that ends in its status, with one delivery
    of the payload at most and none unless the run is so marked; an operation changes
    a run along the table and never its identity; a run that has stopped after its
    payload was delivered never runs again; a run that failed or timed out can be
    retried as another run; every run whose lease is found expired can be timed out. *)
Theorem executions_follow_their_life_cycle `{JsHost} maxEvents (m : ExecutionManager) :
  (forall n k, host_uuid n = host_uuid k -> n = k) -> rtc exec_step (empty_manager maxEvents) m ->
  (forall id r, get_entry m id = Some r ->
     run_ok r /\ follows (told_of id m) /\ (forall s, last (told_of id m) = Some s -> s = xr_status r)
     /\ weigh deliveries_told (told_of id m) <= (if xr_payloadDelivered r then 1 else 0))
  /\ (forall op id r, get_entry m id = Some r -> exists r', get_entry (run_exec op m) id = Some r' /\ rtc run_change r r')
  /\ (forall m' id r, rtc exec_step m m' -> get_entry m id = Some r -> run_stopped r ->
        exists r', get_entry m' id = Some r' /\ run_stopped r')
  /\ (forall id r, get_entry m id = Some r -> xr_status r ∈ [ExFailed; ExTimeout] ->
        exists m' r', retryExecution id m = (m', Ok r') /\ retried r r' m m')
  /\ (forall m' ids, findExpiredLeases m = (m', Ok ids) -> forall id, id ∈ ids ->
        exists m2 r, timeoutExecution id m' = (m2, Ok r) /\ xr_status r = ExTimeout).
Proof.
  intros Hinj Hs. pose proof (exec_steps_ok Hinj _ _ Hs (exec_ok_empty maxEvents)) as Hok.
  split_and!.
  - intros id r Hr. destruct Hok as (Hlife & Honce & HI). specialize (Honce id). rewrite Hr in Honce.
    pose proof (lk_status m Hlife id) as Hl. rewrite Hr in Hl. split_and!; [by eapply HI|apply Hlife|done|done].
  - intros op id r Hr. apply (exec_steps_entry Hinj m); [done|apply rtc_once; by exists op|done].
  - intros m' id r Hm' Hr Hst. destruct (exec_steps_entry Hinj m m' id r Hok Hm' Hr) as (r' & Hr' & Hc).
    exists r'. split; [done|by eapply stopped_changes].
  - intros id r. apply retry_makes, Hok.
  - intros m' ids. apply leases_time_out, Hok.
Qed.

Definition demo_executions : ExecutionManager :=
  play run_exec [
    XRequest (mkExecutionRequestInput "session-1" "peer-1" (Some "task-1") None);
    XReady "uuid-0" (Some "2023-11-14T22:13:21.000Z"); XDeliver "uuid-0" None; XStart "uuid-0"] (empty_manager None).

Lemma executions_follow_their_life_cycle_witness :
  (exists m' ids, findExpiredLeases demo_executions = (m', Ok ids) /\ ids = ["uuid-0"%string]
     /\ exists m2 r, timeoutExecution "uuid-0" m' = (m2, Ok r) /\ xr_status r = ExTimeout)
  /\ told_of "uuid-0" demo_executions = [ExWakeRequested; ExSessionReady; ExPayloadDelivered; ExRunning].
Proof.
  split; [|by vm_compute].
  destruct (executions_follow_their_life_cycle None demo_executions demo_uuid_inj (play_steps _ _ _))
    as (_ & _ & _ & _ & Hlease).
  destruct (findExpiredLeases demo_executions) as [m' [ids|e]] eqn:Hrun;
    [|apply (f_equal snd) in Hrun; vm_compute in Hrun; discriminate].
  assert (ids = ["uuid-0"%string]) as -> by (apply (f_equal snd) in Hrun; vm_compute in Hrun; congruence).
  exists m', ["uuid-0"%string]. split; [done|]. split; [done|]. apply (Hlease m' ["uuid-0"%string] eq_refl). by left.
Defined.

(** ** Deliveries *)

Lemma acked_changes `{JsHost} d d' : rtc delivery_change d d' -> ds_status d = DlAcked -> ds_status d' = DlAcked.
Proof.
  induction 1 as [|d1 d2 d3 Hc _ IH]; [done|]. intros Hst. apply IH.
  destruct (dc_moves d1 d2 Hc) as [->|[Hin _]]; [done|]. rewrite Hst in Hin. simpl in Hin. by apply not_elem_of_nil in Hin.
Qed.

Lemma weigh_one l : weigh event_told l = length l.
Proof. induction l as [|s l IH]; simpl; [done|by rewrite IH]. Qed.

(** A run has one delivery. *)
Lemma one_per_run `{JsHost} m id1 id2 d1 d2 :
  index_ok m -> get_entry m id1 = Some d1 -> get_entry m id2 = Some d2 -> ds_runId d1 = ds_runId d2 -> id1 = id2.
Proof.
  intros Hix H1 H2 Heq. pose proof (ix_run m Hix _ _ H1) as Hr1. pose proof (ix_run m Hix _ _ H2) as Hr2. congruence.
Qed.

(** What registering a run makes: nothing but a mark when the run has its delivery. *)
Definition registration_result `{DeliveryManagerOptions} (input : RegisterDeliveryInput) (m m' : DeliveryManager)
    (d' : DeliveryState) : Prop :=
  ds_runId d' = di_runId input /\ getDeliveryByRunId (di_runId input) m' = Some d'
  /\ match getDeliveryByRunId (di_runId input) m with
     | Some d => d' = d <| ds_duplicateSuppressed := true |> /\ mg_buffer m' = mg_buffer m /\ mg_index m' = mg_index m
     | None => ds_status d' = DlResultReady /\ ds_attempt d' = 1%Z /\ ds_artifact d' = di_artifact input
               /\ ds_maxRetries d' = (di_maxRetries input ?? dl_defaultMaxRetries)
     end.

Lemma by_run `{JsHost} m d :
  index_ok m -> get_entry m (ds_deliveryId d) = Some d -> getDeliveryByRunId (ds_runId d) m = Some d.
Proof.
  intros Hix Hd. unfold getDeliveryByRunId. rewrite (ix_run m Hix _ _ Hd). simpl.
  by rewrite (ix_named m Hix _ _ Hd).
Qed.

Lemma register_makes `{JsHost} `{DeliveryManagerOptions} input m :
  (forall n, str_truthy (host_uuid n) = true) -> life_ok m -> index_ok m ->
  exists m' d', registerDelivery input m = (m', Ok d') /\ registration_result input m m' d'.
Proof.
  intros Htr Hok Hix. pose proof (registerDelivery_index input m Htr Hok Hix) as Hix'.
  destruct (register_cases input m Hok Hix) as [(d & Hd & Hrun & Hreg)|[Hnone Hreg]];
    rewrite Hreg in Hix'; cbn [fst] in Hix'; (do 2 eexists; split; [exact Hreg|]).
  - split; [done|]. rewrite <- Hrun, (by_run m d Hix Hd). split; [|done].
    set (d' := d <| ds_duplicateSuppressed := true |>) in *.
    apply (by_run _ d' Hix'). unfold get_entry. apply jm_get_set_eq.
  - set (d' := new_delivery _ _ _) in *. split; [done|]. split.
    + apply (by_run _ d' Hix'). unfold get_entry. apply jm_get_set_eq.
    + unfold getDeliveryByRunId. by rewrite Hnone.
Qed.

(** C31.  In every history of deliveries: a delivery is well formed and its attempts
    stay within the limit, but for the last that is refused; what the stream tells of
    it is a path of DELIVERY_TRANSITIONS that ends in its status and has at most eight
    events for each attempt, so a delivery comes to rest whatever is asked of it; a
    run has one delivery, and registering it again marks that delivery and tells
    nothing; an acknowledged delivery stays so; every delivery found late, for its own
    deadline or its acknowledgement's, can be timed out. *)
Theorem deliveries_come_to_rest `{JsHost} `{DeliveryManagerOptions} maxEvents (m : DeliveryManager) :
  (forall n k, host_uuid n = host_uuid k -> n = k) -> (forall n, str_truthy (host_uuid n) = true) ->
  rtc delivery_step (empty_manager maxEvents) m ->
  (forall id d, get_entry m id = Some d ->
     delivery_ok d /\ follows (told_of id m) /\ (forall s, last (told_of id m) = Some s -> s = ds_status d)
     /\ length (told_of id m) <= progress d <= 8 * Z.to_nat (Z.max 1 (ds_maxRetries d)) + 7)
  /\ (forall id1 id2 d1 d2, get_entry m id1 = Some d1 -> get_entry m id2 = Some d2 -> ds_runId d1 = ds_runId d2 -> id1 = id2)
  /\ (forall input, exists m' d', registerDelivery input m = (m', Ok d') /\ registration_result input m m' d')
  /\ (forall m' id d, rtc delivery_step m m' -> get_entry m id = Some d ->
        exists d', get_entry m' id = Some d' /\ rtc delivery_change d d' /\ (ds_status d = DlAcked -> ds_status d' = DlAcked))
  /\ (forall m' ids, findDeliveryTimeouts m = (m', Ok ids) \/ findAckTimeouts m = (m', Ok ids) ->
        forall id reason, id ∈ ids -> exists m2 d, timeoutDelivery id reason m' = (m2, Ok d) /\ ds_status d = DlTimedOut).
Proof.
  intros Hinj Htr Hs. pose proof (deliveries_ok_steps Hinj Htr _ _ Hs (deliveries_ok_empty maxEvents)) as Hok.
  pose proof Hok as (Hlife & Hix & Hw & HI). split_and!.
  - intros id d Hd. specialize (Hw id). rewrite Hd, weigh_one in Hw. pose proof (lk_status m Hlife id) as Hl. rewrite Hd in Hl.
    specialize (HI id d Hd). split_and!; [done|apply Hlife|done|done|by apply progress_bound].
  - intros id1 id2 d1 d2. by apply one_per_run.
  - intros input. by apply register_makes.
  - intros m' id d Hm' Hd. destruct (delivery_steps_entry Hinj Htr m m' id d Hok Hm' Hd) as (d' & Hd' & Hc).
    exists d'. split_and!; [done|done|by apply acked_changes].
  - intros m' ids [Hf|Hf] id reason; (eapply late_times_out; [exact Hlife| |exact Hf]); intros s Hst;
      repeat (apply elem_of_cons in Hst as [->|Hst]; [closed_elem|]); by apply not_elem_of_nil in Hst.
Qed.

#[export] Instance demo_deliveries_options : DeliveryManagerOptions := {| dl_defaultMaxRetries := 2%Z |}.

Definition demo_delivery_input : RegisterDeliveryInput :=
  mkRegisterDeliveryInput "run-1" "session-1" "peer-1" None (mkDeliveryArtifact "run-1" OutcomeSuccess "done" None None)
    (Some "2023-11-14T22:13:21.000Z") None None None.

Definition demo_deliveries : DeliveryManager :=
  play run_delivery [
    DRegister demo_delivery_input; DQueue "uuid-0"; DStart "uuid-0" None; DFail "uuid-0" "unreachable"; DRetry "uuid-0";
    DQueue "uuid-0"; DStart "uuid-0" None] (empty_manager None).

Lemma demo_uuid_truthy n : str_truthy (host_uuid n) = true.
Proof. done. Qed.

Lemma deliveries_come_to_rest_witness :
  (exists m' ids, findDeliveryTimeouts demo_deliveries = (m', Ok ids) /\ ids = ["uuid-0"%string]
     /\ exists m2 d, timeoutDelivery "uuid-0" None m' = (m2, Ok d) /\ ds_status d = DlTimedOut)
  /\ told_of "uuid-0" demo_deliveries
     = [DlResultReady; DlPending; DlDelivering; DlFailed; DlRetrying; DlPending; DlDelivering].
Proof.
  split; [|by vm_compute].
  destruct (deliveries_come_to_rest None demo_deliveries demo_uuid_inj demo_uuid_truthy (play_steps _ _ _))
    as (_ & _ & _ & _ & Hlate).
  destruct (findDeliveryTimeouts demo_deliveries) as [m' [ids|e]] eqn:Hrun;
    [|apply (f_equal snd) in Hrun; vm_compute in Hrun; discriminate].
  assert (ids = ["uuid-0"%string]) as -> by (apply (f_equal snd) in Hrun; vm_compute in Hrun; congruence).
  exists m', ["uuid-0"%string]. split; [done|]. split; [done|].
  apply (Hlate m' ["uuid-0"%string] (or_introl eq_refl)). by left.
Defined.

(** ** Proposals of a conference *)

(** Rejected or applied. *)
Definition decided (s : ConferenceProposalStatus) : bool := match s with CpRejected | CpApplied => true | _ => false end.

Lemma decided_changes p p' : rtc proposal_change p p' -> decided (pq_status p) = true -> p' = p.
Proof.
  intros [->|(p1 & Hc & _)]%rtc_inv Hd; [done|]. destruct Hc as [_ _ _ Ht _]. exfalso.
  destruct (pq_status p); try done; simpl in Ht; by apply not_elem_of_nil in Ht.
Qed.

(** C36.  In every history of conference proposals: a proposal is well formed; what
    the stream tells of it is a path of PROPOSAL_TRANSITIONS that ends in its status,
    so that nothing is applied that was not approved; it begins to be applied once for
    each failure and once more at most, is applied once at most, and fails as often at
    most as its applyAttempts counts; a proposal that is rejected or applied never
    changes; beginning to apply what is being applied, and completing what is applied,
    change nothing. *)
Theorem proposals_are_applied_once `{JsHost} maxEvents (m : ProposalManager) :
  (forall n k, host_uuid n = host_uuid k -> n = k) -> rtc proposal_step (empty_manager maxEvents) m ->
  (forall id p, get_entry m id = Some p ->
     proposal_ok p /\ follows (told_of id m) /\ (forall s, last (told_of id m) = Some s -> s = pq_status p)
     /\ weigh begun_told (told_of id m) <= applications p <= Z.to_nat (pq_applyAttempts p) + 1
     /\ weigh applied_told (told_of id m) <= was_applied p <= 1
     /\ weigh failed_told (told_of id m) <= Z.to_nat (pq_applyAttempts p))
  /\ (forall m' id p, rtc proposal_step m m' -> get_entry m id = Some p ->
        exists p', get_entry m' id = Some p' /\ rtc proposal_change p p' /\ (decided (pq_status p) = true -> p' = p))
  /\ (forall id p, get_entry m id = Some p ->
        (pq_status p = CpApplying -> startApply id m = (m, Ok p))
        /\ (pq_status p = CpApplied -> completeApply id m = (m, Ok p))).
Proof.
  intros Hinj Hs. pose proof (proposals_ok_steps Hinj _ _ Hs (proposals_ok_empty maxEvents)) as Hok.
  pose proof Hok as (Hlife & Hb & Ha & Hf & HI). split_and!.
  - intros id p Hp. specialize (Hb id). specialize (Ha id). specialize (Hf id). rewrite Hp in Hb, Ha, Hf.
    pose proof (lk_status m Hlife id) as Hl. rewrite Hp in Hl.
    split_and!; [by eapply HI|apply Hlife|done|done| |done| |done].
    + unfold applications. destruct (pq_status p); lia.
    + unfold was_applied. destruct (pq_status p); simpl; lia.
  - intros m' id p Hm' Hp. destruct (proposal_steps_entry Hinj m m' id p Hok Hm' Hp) as (p' & Hp' & Hc).
    exists p'. split_and!; [done|done|by apply decided_changes].
  - intros id p Hp. destruct (require_cases id m) as [(err & _ & Hn)|(p0 & Hp0 & Hreq)]; [congruence|].
    assert (p0 = p) as -> by congruence.
    split; intros Hst; [unfold startApply|unfold completeApply]; by rewrite (bind_ok _ _ _ _ _ Hreq), bool_decide_true.
Qed.

Definition demo_proposals : ProposalManager :=
  play run_proposal [
    PCreate (mkProposalCreateInput "task-1" (Some "room-1") "try it" [] None); PBlock "uuid-0" "quorum"; PApprove "uuid-0";
    PStart "uuid-0"; PFail "uuid-0" "error"; PApprove "uuid-0"; PStart "uuid-0"; PComplete "uuid-0"] (empty_manager None).

Lemma proposals_are_applied_once_witness :
  (exists p, get_entry demo_proposals "uuid-0" = Some p /\ pq_status p = CpApplied /\ pq_applyAttempts p = 1%Z
     /\ completeApply "uuid-0" demo_proposals = (demo_proposals, Ok p))
  /\ told_of "uuid-0" demo_proposals
     = [CpProposed; CpBlocked; CpApproved; CpApplying; CpFailed; CpApproved; CpApplying; CpApplied].
Proof.
  split; [|by vm_compute].
  destruct (proposals_are_applied_once None demo_proposals demo_uuid_inj (play_steps _ _ _)) as (_ & _ & Hidem).
  destruct (get_entry demo_proposals "uuid-0") as [p|] eqn:Hp; [|vm_compute in Hp; discriminate].
  assert (pq_status p = CpApplied /\ pq_applyAttempts p = 1%Z) as [Hst Hn]
    by (vm_compute in Hp; injection Hp as <-; split; reflexivity).
  exists p. split; [done|]. split; [done|]. split; [done|]. exact (proj2 (Hidem "uuid-0"%string p Hp) Hst).
Defined.
