(* ===== verification/Findings.v ===== *)
(** * Where the code and its documentation part, on concrete inputs

    Each lemma evaluates the model on a small history and shows a behaviour the
    documentation or the other handlers do not lead one to expect. *)

From Stdlib Require Import ZArith Lia String Ascii.
From stdpp Require Import base gmap strings list pretty relations.
From S2P Require Import Prelude JsRuntime TextRedaction Types Policy Retention BrokerCore CoreFacts.
From S2P Require Import EventBuffer TaskEventStream Outbox Workers Proposals Github TerminalBrief.
From S2P Require Import Tasks TaskFacts Exchanges System ProposalMachine OutboxPayload Demo.
From S2P Require Import Lifecycle Execution Delivery Proposing LifecycleTheorems.
From S2P Require Import CrossBroker GithubIngestion GithubIngestionTheorems RateLimiter RequestSecurity PeerStatus JsonRpc RpcTheorems HotTables SqlStore SqlSave HotRetention StoreTheorems.

(** A live-impact task is queued at once when its request says so itself. *)
Definition opted_out : CreateTaskRequest :=
  demo_request "t9" "w2" None IntentPromoteToLive (Some (mkTaskPolicyContext (Some false) None None)).

Lemma live_impact_opt_out_is_queued :
  isLiveImpactTask opted_out = true
  /\ exists t, stored (run_call (CallCreateTask opted_out) demo_state).1 "t9" = Some t
       /\ task_status t = TaskQueued.
Proof.
  split; [reflexivity|]. apply (stored_facts _ "t9" (fun t => task_status t = TaskQueued)). vm_compute. reflexivity.
Qed.

(** A rejected proposal is validated, approved and applied all the same. *)
Definition demo_validation : SubmitValidationRequest :=
  mkSubmitValidationRequest "w1" ValidationReplay VerdictPass None None None.

Lemma rejected_proposal_is_applied :
  exists p p',
    proposal (run_calls [CallRejectProposal demo_proposal_id demo_decision] demo_proposed) demo_proposal_id = Some p
    /\ bool_decide (pr_status p = StatusRejected) = true
    /\ proposal (run_calls [CallRejectProposal demo_proposal_id demo_decision;
         CallSubmitValidation demo_proposal_id demo_validation;
         CallApproveProposal demo_proposal_id demo_decision;
         CallApplyProposal demo_proposal_id demo_decision demo_workspace] demo_proposed) demo_proposal_id = Some p'
    /\ bool_decide (pr_status p' = StatusApplied) = true.
Proof.
  destruct (some_facts (proposal (run_calls [CallRejectProposal demo_proposal_id demo_decision] demo_proposed)
    demo_proposal_id) (fun p => bool_decide (pr_status p = StatusRejected))) as (p & Hp & Hs);
    [vm_compute; reflexivity|].
  destruct (some_facts (proposal (run_calls [CallRejectProposal demo_proposal_id demo_decision;
    CallSubmitValidation demo_proposal_id demo_validation;
    CallApproveProposal demo_proposal_id demo_decision;
    CallApplyProposal demo_proposal_id demo_decision demo_workspace] demo_proposed) demo_proposal_id)
    (fun p => bool_decide (pr_status p = StatusApplied))) as (p' & Hp' & Hs'); [vm_compute; reflexivity|].
  exists p, p'. split; [exact Hp|]. split; [exact Hs|]. split; [exact Hp'|exact Hs'].
Qed.

(** A message for an exchange whose target never registered is refused, and stays. *)
Definition demo_ghost : Broker :=
  (run_call (CallStartExchange (mkA2AExchangeRequest hub (analyst "ghost") "hello" None None None)) demo_state).1.
Definition ghost_exchange_id : string := last (jm_keys (br_exchanges demo_ghost)) ?? "".
Definition ghost_message : A2AExchangeMessageRequest :=
  mkA2AExchangeMessageRequest (Some hub) "are you there?" None None None None None.

Lemma refused_message_stays :
  let r := run_call (CallAddExchangeMessage ghost_exchange_id ghost_message) demo_ghost in
  match r.2 with Err e => be_code e = CodeNotFound | Ok _ => False end
  /\ length (br_exchangeMessages r.1) = S (length (br_exchangeMessages demo_ghost)).
Proof. vm_compute. split; reflexivity. Qed.

(** A receipt recorded after the acknowledgement overwrites the confirmed audit. *)
Lemma receipt_downgrades_audit :
  (au_decision <$> (find_event demo_task_event_id (ox_events demo_acknowledged) ≫= ob_ackAudit)) = Some AckConfirmed
  /\ (au_decision <$> (find_event demo_task_event_id
        (ox_events (recordReceiptStatus demo_task_event_id "stale" None None "T3" demo_acknowledged).1)
        ≫= ob_ackAudit)) = Some AckPending.
Proof. vm_compute. split; reflexivity. Qed.

(** The issue number zero is read from a text and not from a number. *)
Lemma issue_zero_is_not_canonical :
  readIssueNumber (JStr "#0") = Some 0%Z /\ readIssueNumber (JNum (NInt 0)) = None.
Proof. split; reflexivity. Qed.

(** A page of no events holds one. *)
Lemma empty_page_holds_an_event :
  length (stream_subscribe None None None (Some 0%Z) (br_sink demo_finished).1) = 1.
Proof. vm_compute. reflexivity. Qed.

(** A read of the task table with the limit zero returns every task. *)
Lemma limit_zero_reads_every_task :
  match readHotTasks (mkTaskHotFilters None None None None None None None (Some 0%Z)) (demo_db demo_store) with
  | Ok tasks => length tasks = 4
  | Err _ => False
  end.
Proof. vm_compute. reflexivity. Qed.

(** The repository finds a task under the empty id, which no task has. *)
Lemma empty_id_finds_a_task :
  match repo_getTask "" (demo_db demo_store) with
  | Ok (Some t) => task_id t <> ""
  | _ => False
  end.
Proof. vm_compute. intros Hc. discriminate Hc. Qed.

(** With a limit of one, three of four active tasks are not loaded. *)
Lemma active_tasks_are_cut :
  readTableCount BrokerTasks (demo_db demo_hot_store) = 4%Z
  /\ match readHotTasksForRuntime
         (new_sqlite_store "state.sqlite" (mkSqliteOptions None None (Some LoadHotTables) (Some 1%Z) None None None None))
         (demo_db demo_hot_store) with
     | Ok tasks => length tasks = 1
     | Err _ => False
     end.
Proof. vm_compute. split; reflexivity. Qed.

(** A client whose headers give no role names itself an operator and cancels the
    task of another party over JSON-RPC; the HTTP routes refuse the claim. *)
Lemma operator_role_is_claimed :
  (can_requestedBy <$> (stored (pw_broker (executeA2AJsonRpc demo_usurped demo_rpc_options demo_world).1) "t1"
     ?> task_cancellation)) = Some "mallory"
  /\ is_ok (assertRequesterMatchesParty (ro_requesterIdentity demo_rpc_options) "mallory" (Some RoleOperator)
       "task.cancel") = false.
Proof. vm_compute. split; reflexivity. Qed.

(** Different callers and targets may share a bucket. *)
Lemma peer_buckets_collide : bucket_key "a:b" "c" = bucket_key "a" "b:c".
Proof. reflexivity. Qed.

(** A token as GitHub issues it, with an underscore, is left in an operator's
    text; the pattern asks for a dash. *)
Lemma github_token_is_not_redacted :
  sanitize MAX_SUMMARY_CHARS "pushed with ghp_0123456789abcdef" = Some "pushed with ghp_0123456789abcdef"
  /\ sanitize MAX_SUMMARY_CHARS "pushed with ghp-0123456789abcdef" = Some "pushed with [redacted]".
Proof. split; reflexivity. Qed.

(** Two rounds of other brokers whose projections share one event id: the second
    round's operator is not notified. *)
Definition colliding (round child : string) : NormalizedProjection :=
  mkNormalizedProjection round "broker-b" None (Some child) None None TaskSucceeded None None None
    "2024-01-01T00:00:00.000Z" None (Some 1%Z) (Some 1%Z).

Lemma projection_events_collide :
  recordKey (colliding "round:1" "t") <> recordKey (colliding "round" "1:t")
  /\ projection_event_id (colliding "round:1" "t") = projection_event_id (colliding "round" "1:t").
Proof. split; [vm_compute; discriminate|vm_compute; reflexivity]. Qed.

(** A worker of another broker named like a token is shown as it is. *)
Lemma projection_worker_is_not_redacted :
  let n := (colliding "round" "t") <| np_childWorkerId := Some "ghp-abc" |> in
  tp_worker (projection_payload (mkProjection (recordKey n) n "" "" 0 (mkProjectionAck ProjectionAccepted "" "")))
  = Some "ghp-abc".
Proof. reflexivity. Qed.

(** An issue with a command that createTask refuses: the delivery throws, and the
    same delivery sent again is told to be a duplicate. *)
Definition refused_issue : GitHubWebhookEvent :=
  EvIssues GhOpened demo_repo
    (mkGitHubIssueRef 2 "Fix" (Some "/a2a assign w1 --work-mode local --intent propose_patch") "https://gh/acme/site/2").

Lemma failed_delivery_is_not_retried :
  let first := ingest_webhook refused_issue demo_first (new_ingestion demo_state) in
  is_ok first.2 = false /\ (ingest_webhook refused_issue demo_first first.1).2 = Ok duplicate_result.
Proof. vm_compute. split; reflexivity. Qed.

(** The command needs no end: a sentence assigns the issue to a worker "ed". *)
Lemma command_prefix_matches_words :
  map ai_target (parseAssignmentIntents (Some "we /a2a assigned bob")) = ["ed"].
Proof. reflexivity. Qed.

(** An event as late as the last one of its issue is taken. *)
Lemma equal_time_is_accepted :
  let s := (acceptEvent "acme/site#1" "2024-01-01T00:00:02.000Z" (new_ingestion demo_state)).1 in
  (acceptEvent "acme/site#1" "2024-01-01T00:00:02.000Z" s).2 = Ok true.
Proof. reflexivity. Qed.

(** A run that failed after its payload was delivered is made ready again, as the
    table allows, and can then neither be delivered to nor started. *)
Definition demo_stuck : ExecutionManager :=
  play run_exec [XRequest (mkExecutionRequestInput "s" "p" None None); XReady "uuid-0" None; XDeliver "uuid-0" None;
    XFail "uuid-0" "runtime"; XReady "uuid-0" None] (empty_manager None).

Lemma ready_run_is_stuck :
  xr_status <$> get_entry demo_stuck "uuid-0" = Some ExSessionReady
  /\ (deliverPayload "uuid-0" None demo_stuck).1 = demo_stuck
  /\ is_ok (startRunning "uuid-0" demo_stuck).2 = false.
Proof. vm_compute. split_and!; reflexivity. Qed.

(** The deadline of the acknowledgement that a registration gives is not kept. *)
Lemma registered_ack_deadline_is_lost :
  let input := mkRegisterDeliveryInput "run-1" "session-1" "peer-1" None (di_artifact demo_delivery_input) None
    (Some "2030-01-01T00:00:00.000Z") None None in
  match (registerDelivery input (empty_manager None)).2 with Ok d => ds_ackDeadline d = None | Err _ => False end.
Proof. vm_compute. reflexivity. Qed.

(** At its limit of attempts, a delivery that failed is timed out by a retry; one that
    timed out is refused. *)
Definition demo_last_attempt : DeliveryManager :=
  play run_delivery [DRegister demo_delivery_input; DTimeout "uuid-0" None; DRetry "uuid-0"; DTimeout "uuid-0" None]
    (empty_manager None).

Lemma retry_of_timed_out_throws :
  (ds_attempt <$> get_entry demo_last_attempt "uuid-0", ds_maxRetries <$> get_entry demo_last_attempt "uuid-0")
  = (Some 2%Z, Some 2%Z)
  /\ match (retryDelivery "uuid-0" demo_last_attempt).2 with Err e => le_code e = InvalidTransition | Ok _ => False end.
Proof. vm_compute. split; reflexivity. Qed.

(** A second attempt is measured with the delivery time of the first. *)
Definition demo_second_attempt : DeliveryManager :=
  play run_delivery [DRegister demo_delivery_input; DQueue "uuid-0"; DStart "uuid-0" None; DDelivered "uuid-0" None;
    DTimeout "uuid-0" None; DRetry "uuid-0"; DQueue "uuid-0"; DStart "uuid-0" None; DFail "uuid-0" "unreachable"]
    (empty_manager None).

Lemma duration_is_negative :
  match last (cb_events (mg_buffer demo_second_attempt)) with
  | Some ev => dm_deliveryDurationMs (dv_metadata ev) = Some (Some (-8000)%Z)
  | None => False
  end.
Proof. vm_compute. reflexivity. Qed.

(** Approving twice throws. *)
Definition demo_approved : ProposalManager :=
  play run_proposal [PCreate (mkProposalCreateInput "task-1" None "try it" [] None); PApprove "uuid-0"] (empty_manager None).

Lemma second_approval_throws :
  match (approve "uuid-0" demo_approved).2 with Err e => le_code e = InvalidTransition | Ok _ => False end.
Proof. vm_compute. reflexivity. Qed.
